(* ===== verification/_CoqProject ===== *)
-Q . S2P
Prelude.v
Domain.v
Framing.v
Protocol.v
Sha256.v
Ports.v
Users.v
Sessions.v
AuditLog.v
Hasher.v
Auth.v
Admin.v
Validator.v
Files.v
Storage.v
Tables.v
Sqlite.v
SqliteUsers.v
Interchange.v
SqliteFiles.v
SqliteTransfers.v
SqliteKeys.v
SqliteSaves.v
SqliteExamples.v
Cli.v
Tls.v
Transports.v
Transfer.v
Server.v
Isolation.v
Privilege.v
Process.v
Crypto.v
Client.v
EndToEnd.v
Downloads.v
Connect.v
Main.v
CryptoExamples.v
Examples.v
TransferExamples.v
ServerExamples.v
ClientExamples.v
ConnectExamples.v
ProcessExamples.v
