(* ===== verification/Prelude.v ===== *)
(** * Verification of the secure file transfer system

    Clients encrypt files for a recipient and upload them over TLS to a blind
    server, which keeps accounts, sessions, an audit log, public keys, file records
    and encrypted blobs. The program is a stack: a console and a menu
    ([presentation/client_app.cpp]) over client cryptography
    ([infrastructure/client_crypto.cpp]) and the TLS transport; frames and message
    bodies on the wire ([ports/transport.hpp], [presentation/protocol.cpp]); the
    server's request loop ([presentation/server_app.cpp]) over three services
    ([application/*.cpp]); and the components behind the services' interfaces
    ([ports/*.hpp]), in memory, in files, or in SQLite databases. File names are
    relative to [src/src] or [src/include].

    ** How the code is modelled

    This file has what all others share: bytes, machine integers at their width
    (reduced where C++ reduces, undefined where signed arithmetic overflows),
    exceptions, and [M S A], an operation on a component of state [S] that
    returns, throws ([Throw], keeping what was changed before) or is undefined
    ([Undef]). A member function is a Definition of the same name in a Module
    named after its class; a const member reads its state; an object held by
    another is run inside it by [zoom]. An abstract class is a Class of operations
    with a second Class of laws, its contract ([Ports]); services are proved
    against the contracts, implementations discharge them.

    ** The files

    - [Domain]: [domain/*.hpp], [domain/ids.cpp]: identifiers, users, sessions,
      keys, records, events; the random generator and the clock are streams.
    - [Framing]: [ports/transport.hpp] (frame codec) and the receive loops of
      [asio_tls_transport.cpp], [asio_transport.cpp]. [Protocol]:
      [presentation/protocol.cpp], the six message bodies.
    - [Sha256]: [infrastructure/sha256.hpp]. [Hasher]: the password hashers.
    - [Ports]: the interfaces, their contracts, and the components the services
      share ([Core], [World]).
    - [Users], [Sessions], [AuditLog], [Files], [Storage]: the components in memory
      and in files. [Storage] keeps every intermediate state of the disk and lets
      every system call fail; [AuditLog] is the hash-chained log, byte for byte.
    - [Tables], [Sqlite], [SqliteUsers], [SqliteFiles], [SqliteTransfers],
      [SqliteKeys]: the four SQLite repositories over the calls of [sqlite3.h] as a
      class; [users_sql] and its like say what the SQL texts mean; each file has a
      list of records as the specification of its repository. [SqliteSaves]: the
      insert transactions of three of them. [Interchange]: a repository stands for
      another.
    - [Auth], [Admin], [Transfer]: the three services. [Validator]: the file
      validator.
    - [Server]: the request loop with every handler, the accept loop and the
      start-up; [Privilege]: what a request can do to administrators, across the
      whole of it; [Isolation]: what a connection can do to the stores; [Process]:
      the two threads of the server as a machine whose turns the clients, the
      scheduler and the operator choose.
    - [Transports]: the TLS and TCP transports and the listener over Asio as
      classes.
    - [Cli]: the console. [Crypto]: key pairs, sealed keys, AES-GCM over OpenSSL as a
      class. [Tls]: certificate pinning. [Client]: the menu and its five requests.
      [EndToEnd], [Downloads]: the client connected to the server, for an upload
      and for a download. [Connect]: the client's run over TLS. [Main]: both
      command lines.
    - [Examples], [TransferExamples], [ServerExamples], [ClientExamples],
      [ProcessExamples], [CryptoExamples], [SqliteExamples], [ConnectExamples]: a
      small system, and implementations of the classes, on which every hypothesis
      of a theorem is discharged by evaluation.

    ** What is shown

    - Services refine their specifications on every branch, errors included
      ([Auth.login_refines], [Auth.registerUser_refines],
      [Transfer.upload_refines]); accounts lock after five failures; sessions live
      as their history says; the last administrator stays; only administrators
      change accounts, and no request on any connection makes one
      ([Process.only_the_first_admin]); blobs are only returned to the owner or the
      recipient; a connection starts with nothing, and writes to the stores only
      under the token its own last login was given
      ([Isolation.writes_need_own_login]); an upload keeps all other files, and
      comes back exactly.
    - The wire: the codecs are exact, the TLS receive loop reassembles any
      fragmentation and terminates, decoders read nothing outside their input, every
      request gets one reply, chunks are assembled in order.
    - The process: however its threads are interleaved, components and output are
      those of the accept loop alone, up to the rest of the open connection
      ([Process.threads_follow_loop]), until [run] returns: then the detached
      thread can go on with the destroyed listener ([Process.stop_is_undefined]).
    - The client: decryption undoes encryption, tampering needs a hash collision,
      a run sends nothing but to a holder of the certificate on file; the client's
      upload composed with the server's handlers hands the service exactly what was
      encrypted, and its download saves exactly what the service answers.
    - Storage: a blob is replaced atomically at every intermediate state and after a
      crash; the audit chain is complete and tamper evident.
    - SQLite: on any sequence of calls each repository answers as its list of
      records does, and the list satisfies the contract of [Ports]; on any contents
      and whatever calls fail (binds and columns included) a write throws with
      nothing committed, or commits its one statement, or is one of the writes that
      can be lost without a word, which [SqliteUsers.sqlite_all_or_nothing] and
      [SqliteSaves.saves_all_or_nothing] name; the SQLite user repository and the one
      in memory answer alike.

    ** Bounds and fuel

    The receive loops run on the list of what the socket will deliver, the chunk
    loop of the client on a fuel of the length of the blob and one, enough since
    each round takes at least one byte; the request loop of a connection on the
    number of bytes the client sends and one, enough since a frame has nine
    ([ServerApp.serve_fuel]); the transports' loops on a number of reads, for
    any number above that of the chunks to come; loops over rows on a given number of rows,
    which the theorems require to be at least the length of the table; the menu on
    a number of turns, for any number. A loop out of fuel is [Undef], which the
    theorems exclude. Sizes stay below [2^63]; encryption is shown to round trip
    and to be tamper evident below 2 GiB, where the casts to int are exact. The
    number of administrators ([int n] in [admin_service.cpp]) is a number without
    bound: the code is right below [2^31] accounts.

    ** What is assumed

    Of OpenSSL, SQLite, Asio and argon2 only what is documented, as laws of their
    classes, with an instance in the examples. The SQLite laws are those of one connection
    that is alone on its database: a statement that fails changes nothing, or rolls
    the transaction back; a bind that fails leaves its parameter NULL; a column can
    be read as NULL when memory runs out. Only an engine that is said to be
    reliable does none of this. The theorems on answers require strings without NUL,
    since parameters are bound through [c_str()].

    ** What is not modelled

    The protocol options of Asio's contexts and the handshake itself. Directories,
    which are no part of a disk here. The write-back cache of a disk: every state
    of the disk is one a crash can leave, so a call of [fsync] can fail but has no
    other effect, and leaving it out of [binary_storage.cpp] would not be noticed.
    Path separators other than those of POSIX ([file_validator.cpp] uses
    [std::filesystem], whose separators differ on Windows). The threads of the server are interleaved
    between statements of the main thread and whole requests, not within a
    request: the two share only the listener and the lifetime of the components. A
    [close] of the listener while the other thread is in [accept] is a race that
    is left out.
    The fallback in [transfer_service.cpp] that removes a file of the blob's name
    in the working directory. Releasing memory, wiping keys, finalising statements
    and closing connections, which have no effect on the results. *)
From Stdlib Require Import ZArith Lia.
From Stdlib Require Strings.Byte Strings.String.
From stdpp Require Import base gmap strings list numbers.

(** ** Bytes and byte strings

    [std::vector<uint8_t>] and [std::string] are both contiguous sequences of
    bytes, and the code copies one into the other with iterator ranges; both
    are [list byte] here, so such a copy is the identity. *)

Abbreviation byte := Byte.byte.
Abbreviation str := (list byte).

(** A string literal of the source as the bytes it denotes. *)
Definition lit (s : string) : str := String.list_byte_of_string s.
Coercion lit : string >-> list.

Definition b2z (b : byte) : Z := Z.of_N (Byte.to_N b).

(** [static_cast<uint8_t>(z)]: reduction modulo 256. *)
Definition z2b (z : Z) : byte :=
  match Byte.of_N (Z.to_N (z mod 256)) with
  | Some b => b
  | None => Byte.x00
  end.

#[export] Instance byte_eq_dec : EqDecision byte := Byte.byte_eq_dec.

#[export] Program Instance byte_countable : Countable byte :=
  inj_countable Byte.to_N Byte.of_N _.
Next Obligation. intros b. apply Byte.of_to_N. Qed.

(** [v.size()], a [size_t]. *)
Definition zlen {A} (l : list A) : Z := Z.of_nat (length l).

(** ** Machine integers *)

Definition u8 (x : Z) : Z := x mod 2 ^ 8.
Definition u32 (x : Z) : Z := x mod 2 ^ 32.
Definition u64 (x : Z) : Z := x mod 2 ^ 64.

(** [(int)n]: the conversion of a 64-bit integer to a 32-bit [int]. *)
Definition to_int (n : Z) : Z := ((n + 2 ^ 31) mod 2 ^ 32 - 2 ^ 31)%Z.

(** [static_cast<int64_t>(n)]. *)
Definition to_int64 (n : Z) : Z := ((n + 2 ^ 63) mod 2 ^ 64 - 2 ^ 63)%Z.

Definition int32_ok (x : Z) : bool := (- 2 ^ 31 <=? x)%Z && (x <? 2 ^ 31)%Z.
Definition int64_ok (x : Z) : bool := (- 2 ^ 63 <=? x)%Z && (x <? 2 ^ 63)%Z.

(** The largest object size: [size()] of any vector or string is below it
    ([PTRDIFF_MAX] on the 64-bit targets the project builds for). *)
Definition max_object : Z := 2 ^ 63 - 1.

(** ** Exceptions

    The hierarchy of [domain/exceptions.hpp] and the standard exceptions the
    code throws or lets the standard library throw, each with its [what()]. *)
Inductive exn :=
| ValidationException (what : str)
| AuthException (what : str)
| NotFoundException (what : str)
| StorageException (what : str)
| IntegrityException (what : str)
| TransportException (what : str)
| RuntimeError (what : str)
| InvalidArgument (what : str)
| OutOfRange (what : str).

Definition what (e : exn) : str :=
  match e with
  | ValidationException w | AuthException w | NotFoundException w
  | StorageException w | IntegrityException w | TransportException w
  | RuntimeError w | InvalidArgument w | OutOfRange w => w
  end.

#[export] Instance exn_eq_dec : EqDecision exn.
Proof. solve_decision. Defined.

(** The outcome of a C++ computation: a value, a thrown exception, or
    undefined behaviour (signed overflow, an out-of-range access). No handler
    catches [Undef]. *)
Inductive outcome (A : Type) :=
| Ok (a : A)
| Throw (e : exn)
| Undef.
Arguments Ok {A} a.
Arguments Throw {A} e.
Arguments Undef {A}.

#[export] Instance outcome_eq_dec `{EqDecision A} : EqDecision (outcome A).
Proof. solve_decision. Defined.

#[export] Instance outcome_ret : MRet outcome := fun A => Ok.
#[export] Instance outcome_bind : MBind outcome := fun A B f m =>
  match m with
  | Ok a => f a
  | Throw e => Throw e
  | Undef => Undef
  end.

Definition is_ok {A} (o : outcome A) : bool :=
  match o with Ok _ => true | _ => false end.
Definition defined {A} (o : outcome A) : Prop := o <> Undef.

(** Signed 64-bit addition; overflow is undefined behaviour. *)
Definition add_i64 (x y : Z) : outcome Z :=
  if int64_ok (x + y) then Ok (x + y)%Z else Undef.
Definition add_i32 (x y : Z) : outcome Z :=
  if int32_ok (x + y) then Ok (x + y)%Z else Undef.

(** ** The state monad of the operations

    An operation on a component with state [S] returns its outcome together
    with the state it leaves; the state reached before a throw is kept, as in
    the code, where nothing undoes a mutation when an exception unwinds. *)
Definition M (S A : Type) : Type := S -> outcome A * S.

Section Monad.
Context {S : Type}.

#[global] Instance M_ret : MRet (M S) := fun A a s => (Ok a, s).
#[global] Instance M_bind : MBind (M S) := fun A B f m s =>
  match m s with
  | (Ok a, s') => f a s'
  | (Throw e, s') => (Throw e, s')
  | (Undef, s') => (Undef, s')
  end.

Definition throw {A} (e : exn) : M S A := fun s => (Throw e, s).
Definition undef {A} : M S A := fun s => (Undef, s).
Definition get : M S S := fun s => (Ok s, s).
Definition put (s' : S) : M S unit := fun _ => (Ok tt, s').
Definition gets {A} (f : S -> A) : M S A := fun s => (Ok (f s), s).
Definition modify (f : S -> S) : M S unit := fun s => (Ok tt, f s).
(** A [const] member function: it reads the state and may throw. *)
Definition reads {A} (f : S -> outcome A) : M S A := fun s => (f s, s).
Definition liftO {A} (o : outcome A) : M S A := fun s => (o, s).
Definition try_catch {A} (m : M S A) (h : exn -> M S A) : M S A := fun s =>
  match m s with
  | (Throw e, s') => h e s'
  | r => r
  end.
Definition when (b : bool) (m : M S unit) : M S unit :=
  if b then m else mret tt.
End Monad.

(** Running a member's operation inside the object that holds the member. *)
Definition zoom {S T A} (g : S -> T) (p : T -> S -> S) (m : M T A) : M S A :=
  fun s => match m (g s) with (o, t) => (o, p t s) end.

Declare Scope sft_scope.
Delimit Scope sft_scope with sft.
Notation "'try' m 'catch' h" := (try_catch m h)
  (at level 100, m at level 99, h at level 99, only parsing) : sft_scope.

(** ** The standard library's string operations *)

(** [s.substr(pos, n)]; [n] is [None] for [npos]. *)
Definition substr (s : str) (pos : nat) (n : option nat) : outcome str :=
  if decide (pos <= length s) then
    Ok (match n with Some k => take k (drop pos s) | None => drop pos s end)
  else Throw (OutOfRange "basic_string::substr").

(** A string read through [c_str()]: its bytes up to the first NUL. *)
Fixpoint c_str (s : str) : str :=
  match s with
  | [] => []
  | c :: s' => if bool_decide (c = Byte.x00) then [] else c :: c_str s'
  end.

Definition starts_with (p s : str) : bool := bool_decide (take (length p) s = p).

(** [s.find(pat)]: the first position at which [pat] occurs. *)
Fixpoint find_sub (pat s : str) : option nat :=
  if starts_with pat s then Some 0
  else match s with
       | [] => None
       | _ :: s' => S <$> find_sub pat s'
       end.

(** [s.find(pat, pos)]. *)
Definition find_from (pat s : str) (pos : nat) : option nat :=
  if decide (pos <= length s) then (fun i => pos + i) <$> find_sub pat (drop pos s)
  else None.

Definition occurs (pat s : str) : bool := bool_decide (is_Some (find_sub pat s)).

(** The iterator range [[first, last)] of a vector as a new vector. A range
    outside the vector is undefined behaviour. *)
Definition slice (v : str) (first last : Z) : outcome str :=
  if ((0 <=? first) && (first <=? last) && (last <=? zlen v))%Z
  then Ok (take (Z.to_nat (last - first)) (drop (Z.to_nat first) v))
  else Undef.

(** [operator[]] of a vector. *)
Definition at_ (v : str) (i : Z) : outcome byte :=
  if (i <? 0)%Z then Undef
  else match v !! Z.to_nat i with Some b => Ok b | None => Undef end.

(** [std::to_string] and [operator<<] on an integer. *)
Definition digit (d : Z) : byte := z2b (48 + d).
Fixpoint dec (fuel : nat) (n : Z) : str :=
  match fuel with
  | O => []
  | S f => if (n <? 10)%Z then [digit n] else dec f (n / 10) ++ [digit (n mod 10)]
  end.
Definition to_string (z : Z) : str :=
  if (z <? 0)%Z then Byte.x2d :: dec (S (Z.to_nat (Z.log2 (- z)))) (- z)
  else dec (S (Z.to_nat (Z.log2 z))) z.

Definition is_digit (c : byte) : bool := (48 <=? b2z c)%Z && (b2z c <=? 57)%Z.

(** The value of the leading digits, and how many there are. *)
Fixpoint read_digits (acc : Z) (n : nat) (s : str) : Z * nat :=
  match s with
  | c :: r => if is_digit c then read_digits (10 * acc + (b2z c - 48))%Z (S n) r else (acc, n)
  | [] => (acc, n)
  end.

Definition is_space (c : byte) : bool :=
  (b2z c =? 32)%Z || ((9 <=? b2z c)%Z && (b2z c <=? 13)%Z).
Fixpoint skip_spaces (s : str) : str :=
  match s with
  | c :: r => if is_space c then skip_spaces r else s
  | [] => []
  end.

Definition sign (s : str) : bool * str :=
  match s with
  | Byte.x2d :: r => (true, r)
  | Byte.x2b :: r => (false, r)
  | _ => (false, s)
  end.
(** [std::stoull]: leading spaces, a sign, digits; what follows is ignored.
    [None] is the exception (no digits, or the value does not fit). *)
Definition stoull (s : str) : option Z :=
  let '(neg, s) := sign (skip_spaces s) in
  let '(v, n) := read_digits 0 0 s in
  if decide (n = O) then None
  else if (2 ^ 64 <=? v)%Z then None
  else Some (if neg then u64 (- v) else v).

(** [std::stoll], likewise. *)
Definition stoll (s : str) : option Z :=
  let '(neg, s) := sign (skip_spaces s) in
  let '(v, n) := read_digits 0 0 s in
  let x := if (neg : bool) then (- v)%Z else v in
  if decide (n = O) then None
  else if int64_ok x then Some x else None.

(** [std::hex << std::setw(2) << std::setfill('0')], and [%02x]. *)
Definition hex_digits : str := "0123456789abcdef".
Definition hexdig (n : Z) : byte := nth (Z.to_nat (n mod 16)) hex_digits Byte.x30.
Definition hex2 (b : byte) : str := [hexdig (b2z b / 16); hexdig (b2z b)].
Definition hex_of (v : str) : str := v ≫= hex2.

(** [m.emplace(k, v)] on a map: no effect when the key is present. *)
Definition emplace {V} (k : str) (v : V) (m : gmap str V) : gmap str V :=
  match m !! k with Some _ => m | None => <[k := v]> m end.

Lemma emplace_fresh {V} k (v : V) m : m !! k = None -> emplace k v m = <[k := v]> m.
Proof. unfold emplace. by intros ->. Qed.

(** ** Lemmas on bytes *)

Lemma b2z_range (b : byte) : (0 <= b2z b < 256)%Z.
Proof.
  unfold b2z. pose proof (Byte.to_N_bounded b). lia.
Qed.

Lemma b2z_z2b (z : Z) : b2z (z2b z) = u8 z.
Proof.
  unfold z2b, u8. change (2 ^ 8)%Z with 256%Z.
  pose proof (Z.mod_pos_bound z 256 ltac:(lia)) as Hb.
  destruct (Byte.of_N _) as [b|] eqn:E.
  - apply Byte.to_of_N in E. unfold b2z. rewrite E. lia.
  - apply Byte.of_N_None_iff in E. lia.
Qed.

Lemma z2b_b2z (b : byte) : z2b (b2z b) = b.
Proof.
  unfold z2b. pose proof (b2z_range b). rewrite Z.mod_small by lia.
  unfold b2z. rewrite N2Z.id, Byte.of_to_N. done.
Qed.

#[export] Instance b2z_inj : Inj (=) (=) b2z.
Proof. intros b c E. by rewrite <-(z2b_b2z b), E, z2b_b2z. Qed.

Lemma z2b_mod (z : Z) : z2b (z mod 256) = z2b z.
Proof. unfold z2b. by rewrite Z.mod_mod. Qed.

Lemma zlen_nonneg {A} (l : list A) : (0 <= zlen l)%Z.
Proof. unfold zlen. lia. Qed.
Lemma zlen_app {A} (l k : list A) : zlen (l ++ k) = (zlen l + zlen k)%Z.
Proof. unfold zlen. rewrite length_app. lia. Qed.
Lemma zlen_cons {A} (x : A) l : zlen (x :: l) = (zlen l + 1)%Z.
Proof. unfold zlen. simpl. lia. Qed.
Lemma zlen_nil {A} : zlen (@nil A) = 0%Z.
Proof. done. Qed.
Lemma zlen_to_nat {A} (l : list A) : Z.to_nat (zlen l) = length l.
Proof. unfold zlen. lia. Qed.

Create Rewrite HintDb zlen.
#[export] Hint Rewrite @zlen_app @zlen_cons @zlen_nil : zlen.

(** [lsize]: arithmetic over list sizes. *)
Ltac lsize :=
  autorewrite with zlen in *; unfold zlen, u8, u32, u64, max_object in *;
  rewrite ?length_app, ?length_take, ?length_drop in *; cbn [length] in *; lia.

(** A list cut after [n] elements. *)
Lemma split_at {A} (n : nat) (l : list A) :
  (n <= length l)%nat -> exists a b, l = a ++ b /\ length a = n.
Proof.
  intros. exists (take n l), (drop n l).
  by rewrite take_drop, length_take_le by lia.
Qed.
Lemma zsplit_at {A} (n : Z) (l : list A) :
  (0 <= n <= zlen l)%Z -> exists a b, l = a ++ b /\ zlen a = n.
Proof.
  intros. destruct (split_at (Z.to_nat n) l) as (a & b & -> & Ha); [unfold zlen in *; lia|].
  exists a, b. split; [done|]. unfold zlen. lia.
Qed.

Lemma slice_ok (v : str) (i j : Z) :
  (0 <= i <= j)%Z -> (j <= zlen v)%Z ->
  slice v i j = Ok (take (Z.to_nat (j - i)) (drop (Z.to_nat i) v)).
Proof.
  intros. unfold slice.
  by rewrite !(proj2 (Z.leb_le _ _)) by lia.
Qed.

(** A slice that starts where a prefix ends. *)
Lemma slice_app (p m q : str) :
  slice (p ++ m ++ q) (zlen p) (zlen p + zlen m) = Ok m.
Proof.
  rewrite slice_ok by lsize. f_equal.
  replace (zlen p + zlen m - zlen p)%Z with (zlen m) by lia.
  rewrite !zlen_to_nat, drop_app_length, take_app_length. done.
Qed.

(** [decided]: a closed decidable goal, by evaluation. *)
Ltac decided := apply (bool_decide_unpack _); vm_compute; exact I.

Lemma c_str_id s : Byte.x00 ∉ s -> c_str s = s.
Proof.
  induction s as [|c s IH]; intros H; [done|]. apply not_elem_of_cons in H as [Hc H].
  cbn. by rewrite bool_decide_eq_false_2, IH by done.
Qed.

Lemma to_int_id n : (- 2 ^ 31 <= n < 2 ^ 31)%Z -> to_int n = n.
Proof. intros. unfold to_int. rewrite Z.mod_small; lia. Qed.

(** ** Lemmas on searching *)

Lemma starts_with_true p s : starts_with p s = true <-> exists r, s = p ++ r.
Proof.
  unfold starts_with. rewrite bool_decide_eq_true. split.
  - intros E. exists (drop (length p) s). by rewrite <-E at 1; rewrite take_drop.
  - intros [r ->]. by rewrite take_app_length.
Qed.

Lemma starts_with_false p s : (forall r, s <> p ++ r) -> starts_with p s = false.
Proof.
  intros H. destruct (starts_with p s) eqn:E; [|done].
  apply starts_with_true in E as [r E]. by apply H in E.
Qed.

Lemma find_sub_here p s : find_sub p (p ++ s) = Some O.
Proof.
  assert (starts_with p (p ++ s) = true) as H by (apply starts_with_true; eauto).
  destruct (p ++ s); cbn [find_sub]; by rewrite H.
Qed.

Lemma find_sub_cons p c s :
  starts_with p (c :: s) = false -> find_sub p (c :: s) = S <$> find_sub p s.
Proof. intros H. cbn [find_sub]. by rewrite H. Qed.

(** No occurrence of [p] begins inside [a], when [s] follows. *)
Definition skips (p a s : str) : Prop :=
  find_sub p (a ++ s) = (fun i => (length a + i)%nat) <$> find_sub p s.

Lemma skips_nil p s : skips p [] s.
Proof. unfold skips. cbn. by destruct (find_sub p s). Qed.

Lemma skips_app p a b s : skips p a (b ++ s) -> skips p b s -> skips p (a ++ b) s.
Proof.
  unfold skips. intros Ha Hb. rewrite <-app_assoc, Ha, Hb.
  destruct (find_sub p s); cbn; [|done]. f_equal. rewrite length_app. lia.
Qed.

Lemma skips_one p c s : starts_with p (c :: s) = false -> skips p [c] s.
Proof. intros H. unfold skips. cbn [app]. by rewrite find_sub_cons. Qed.

Lemma skips_without c p a s : c ∉ a -> skips (c :: p) a s.
Proof.
  induction a as [|d a IH]; intros Hc; [apply skips_nil|].
  apply not_elem_of_cons in Hc as [Hd Hc].
  apply (skips_app _ [d]); [|by apply IH]. apply skips_one, starts_with_false.
  intros r [= E _]. done.
Qed.

Lemma find_from_app p a s : find_from p (a ++ s) (length a) =
  (fun i => (length a + i)%nat) <$> find_sub p s.
Proof.
  unfold find_from. rewrite decide_True by (rewrite length_app; lia). by rewrite drop_app_length.
Qed.

(** The first occurrence of a character. *)
Lemma find_char c a s : c ∉ a -> find_sub [c] (a ++ c :: s) = Some (length a).
Proof.
  intros H. rewrite (skips_without c [] a (c :: s) H).
  change (c :: s) with ([c] ++ s). rewrite find_sub_here. cbn. f_equal. lia.
Qed.

(** A prefix without the separator [c] is determined. *)
Lemma split_unique {A} (c : A) a b x y :
  c ∉ a -> c ∉ b -> a ++ c :: x = b ++ c :: y -> a = b /\ x = y.
Proof.
  revert b. induction a as [|d a IH]; intros [|e b] Ha Hb E; cbn in E.
  - by injection E as ->.
  - injection E as <- _. by apply not_elem_of_cons in Hb as [? _].
  - injection E as -> _. by apply not_elem_of_cons in Ha as [? _].
  - injection E as <- E. apply not_elem_of_cons in Ha as [_ Ha], Hb as [_ Hb].
    destruct (IH b Ha Hb E) as [-> ->]. done.
Qed.

(** ** Lemmas on decimal numbers *)

Lemma b2z_digit d : (0 <= d < 10)%Z -> b2z (digit d) = (48 + d)%Z.
Proof. intros. unfold digit. rewrite b2z_z2b. unfold u8. apply Z.mod_small. lia. Qed.

Lemma is_digit_digit d : (0 <= d < 10)%Z -> is_digit (digit d) = true.
Proof.
  intros. unfold is_digit. rewrite b2z_digit by done.
  apply andb_true_intro. split; apply Z.leb_le; lia.
Qed.

Lemma dec_digits f n : (0 <= n)%Z -> Forall (fun c => is_digit c = true) (dec f n).
Proof.
  revert n. induction f as [|f IH]; intros n Hn; cbn [dec]; [constructor|].
  pose proof (Z.mod_pos_bound n 10 ltac:(lia)).
  destruct (Z.ltb_spec n 10).
  - repeat constructor. apply is_digit_digit. lia.
  - apply Forall_app. split; [apply IH, Z.div_pos; lia|].
    repeat constructor. by apply is_digit_digit.
Qed.

Lemma read_digits_app l : forall s acc n, Forall (fun c => is_digit c = true) l ->
  read_digits acc n (l ++ s) =
  read_digits (fold_left (fun a c => 10 * a + (b2z c - 48))%Z l acc) (length l + n) s.
Proof.
  induction l as [|c l IH]; intros s acc n Hl; [done|].
  inversion Hl as [|? ? Hc Hl']; subst. cbn. rewrite Hc, IH by done. f_equal. lia.
Qed.

Lemma dec_value f n : (0 <= n < 2 ^ Z.of_nat f)%Z ->
  fold_left (fun a c => 10 * a + (b2z c - 48))%Z (dec f n) 0%Z = n.
Proof.
  revert n. induction f as [|f IH]; intros n Hn; [simpl in *; lia|].
  rewrite Nat2Z.inj_succ, Z.pow_succ_r in Hn by lia. cbn [dec].
  pose proof (Z.mod_pos_bound n 10 ltac:(lia)). pose proof (Z.div_mod n 10 ltac:(lia)).
  destruct (Z.ltb_spec n 10).
  - cbn. rewrite b2z_digit by lia. lia.
  - rewrite fold_left_app, IH.
    + cbn. rewrite b2z_digit by done. lia.
    + split; [apply Z.div_pos; lia|]. lia.
Qed.

Lemma dec_nonempty f n : dec (S f) n <> [].
Proof. cbn [dec]. case_match; [done|]. by destruct (dec f (n / 10)). Qed.

Lemma to_string_digits n : (0 <= n)%Z -> Forall (fun c => is_digit c = true) (to_string n).
Proof.
  intros. unfold to_string. rewrite (proj2 (Z.ltb_ge _ _)) by done. by apply dec_digits.
Qed.

Lemma to_string_negative n : (n < 0)%Z -> exists s, to_string n = Byte.x2d :: s
  /\ Forall (fun c => is_digit c = true) s.
Proof.
  intros. unfold to_string. rewrite (proj2 (Z.ltb_lt _ _)) by done.
  eexists. split; [done|]. apply dec_digits. lia.
Qed.

Lemma to_string_nonempty n : to_string n <> [].
Proof. unfold to_string. case_match; [done|apply dec_nonempty]. Qed.

Lemma to_string_value n : (0 <= n)%Z ->
  fold_left (fun a c => 10 * a + (b2z c - 48))%Z (to_string n) 0%Z = n.
Proof.
  intros Hn. unfold to_string. rewrite (proj2 (Z.ltb_ge _ _)) by done.
  apply dec_value. split; [done|].
  rewrite Nat2Z.inj_succ, Z2Nat.id by apply Z.log2_nonneg.
  destruct (decide (n = 0%Z)) as [->|]; [done|]. apply Z.log2_spec. lia.
Qed.

Lemma to_string_inj n m : (0 <= n)%Z -> (0 <= m)%Z -> to_string n = to_string m -> n = m.
Proof. intros Hn Hm E. by rewrite <-(to_string_value n), E, to_string_value. Qed.

Lemma read_digits_nonneg s : forall acc n, (0 <= acc)%Z -> (0 <= (read_digits acc n s).1)%Z.
Proof.
  induction s as [|c s IH]; intros acc n Ha; cbn [read_digits]; [done|].
  destruct (is_digit c) eqn:Hc; [|done]. apply IH. unfold is_digit in Hc.
  apply andb_true_iff in Hc as [H1%Z.leb_le _]. lia.
Qed.

Lemma stoull_range s n : stoull s = Some n -> (0 <= n < 2 ^ 64)%Z.
Proof.
  unfold stoull. destruct (sign _) as [neg s'].
  pose proof (read_digits_nonneg s' 0 0 ltac:(lia)) as Hv.
  destruct (read_digits 0 0 s') as [v k]. cbn [fst] in Hv. case_decide; [done|].
  destruct (Z.leb_spec (2 ^ 64) v); [done|]. intros [= <-].
  destruct neg; [apply Z.mod_pos_bound|]; lia.
Qed.

(** Digits have no spaces or sign before them. *)
Lemma sign_digits s : Forall (fun c => is_digit c = true) s -> sign (skip_spaces s) = (false, s).
Proof.
  intros Hd. destruct s as [|c l]; [done|]. apply Forall_inv in Hd. unfold is_digit in Hd.
  apply andb_true_iff in Hd as [H1%Z.leb_le H2%Z.leb_le].
  assert (is_space c = false) as Hs.
  { unfold is_space. apply orb_false_iff. split; [apply Z.eqb_neq; lia|].
    apply andb_false_iff. right. apply Z.leb_gt. lia. }
  cbn [skip_spaces]. rewrite Hs.
  destruct c; try reflexivity; exfalso; vm_compute in H1; by apply H1.
Qed.

Lemma read_to_string n : (0 <= n)%Z -> read_digits 0 0 (to_string n) = (n, length (to_string n)).
Proof.
  intros Hn. pose proof (read_digits_app (to_string n) [] 0 0 (to_string_digits n Hn)) as Hr.
  rewrite app_nil_r, to_string_value in Hr by done. rewrite Hr. cbn. f_equal. lia.
Qed.

(** What was printed is read back. *)
Lemma stoull_to_string n : (0 <= n < 2 ^ 64)%Z -> stoull (to_string n) = Some n.
Proof.
  intros Hn. unfold stoull. rewrite sign_digits by (apply to_string_digits; lia).
  rewrite read_to_string by lia. rewrite decide_False.
  - by rewrite (proj2 (Z.leb_gt _ _)) by lia.
  - intros E%length_zero_iff_nil. by apply to_string_nonempty in E.
Qed.

Lemma stoll_to_string n : int64_ok n = true -> stoll (to_string n) = Some n.
Proof.
  intros Hn. unfold stoll. destruct (Z.ltb_spec n 0) as [Hneg|Hpos].
  - assert (to_string n = Byte.x2d :: to_string (- n)) as ->.
    { unfold to_string. by rewrite (proj2 (Z.ltb_lt _ _)), (proj2 (Z.ltb_ge (- n) 0)) by lia. }
    cbn [skip_spaces is_space sign]. change (is_space Byte.x2d) with false. cbn iota. cbn [sign].
    rewrite read_to_string by lia. rewrite decide_False.
    + by rewrite Z.opp_involutive, Hn.
    + intros E%length_zero_iff_nil. by apply to_string_nonempty in E.
  - rewrite sign_digits by (by apply to_string_digits). rewrite read_to_string by done. rewrite decide_False.
    + by rewrite Hn.
    + intros E%length_zero_iff_nil. by apply to_string_nonempty in E.
Qed.

Lemma stoll_range s n : stoll s = Some n -> int64_ok n = true.
Proof.
  unfold stoll. destruct (sign _) as [neg s']. destruct (read_digits 0 0 s') as [v k].
  case_decide; [done|]. destruct (int64_ok _) eqn:E; [|done]. by intros [= <-].
Qed.

(** ** Reasoning about the monad *)

(** [steps R m]: whatever [m] returns, it moves the state along [R]. With [R]
    a preorder this composes along the program, throws included. *)
Definition steps {S A} (R : relation S) (m : M S A) : Prop :=
  forall s, R s (m s).2.

(** [triple P m Q]: from a state in [P], outcome and final state are in [Q]. *)
Definition triple {S A} (P : S -> Prop) (m : M S A) (Q : outcome A -> S -> Prop) : Prop :=
  forall s, P s -> Q (m s).1 (m s).2.

(** The relation that says an invariant is kept. *)
Definition keeps {S} (I : S -> Prop) : relation S := fun s s' => I s -> I s'.
#[export] Instance keeps_preorder {S} (I : S -> Prop) : PreOrder (keeps I).
Proof. split; [by intros s Hs|intros s t u ?? ?; unfold keeps in *; auto]. Qed.

(** The relation that says a part of the state is not touched. *)
Definition same {S T} (f : S -> T) : relation S := fun s s' => f s' = f s.
#[export] Instance same_preorder {S T} (f : S -> T) : PreOrder (same f).
Proof. split; [by intros s|intros s t u E F; unfold same in *; congruence]. Qed.

Section Steps.
Context {S : Type} (R : relation S) `{!PreOrder R}.

Lemma steps_ret {A} (a : A) : steps R (mret a : M S A).
Proof using Type*. intros s. simpl. reflexivity. Qed.
Lemma steps_throw {A} e : steps R (throw e : M S A).
Proof using Type*. intros s. simpl. reflexivity. Qed.
Lemma steps_undef {A} : steps R (undef : M S A).
Proof using Type*. intros s. simpl. reflexivity. Qed.
Lemma steps_gets {A} (f : S -> A) : steps R (gets f).
Proof using Type*. intros s. simpl. reflexivity. Qed.
Lemma steps_reads {A} (f : S -> outcome A) : steps R (reads f).
Proof using Type*. intros s. simpl. reflexivity. Qed.
Lemma steps_liftO {A} (o : outcome A) : steps R (liftO o).
Proof using Type*. intros s. simpl. reflexivity. Qed.
Lemma steps_modify (f : S -> S) : (forall s, R s (f s)) -> steps R (modify f).
Proof using Type*. intros H s. apply H. Qed.
Lemma steps_bind {A B} (m : M S A) (f : A -> M S B) :
  steps R m -> (forall a, steps R (f a)) -> steps R (m ≫= f).
Proof using Type*.
  intros Hm Hf s. unfold mbind, M_bind. specialize (Hm s).
  destruct (m s) as [[a|e|] s']; simpl in *; [|done..].
  etrans; [exact Hm|apply Hf].
Qed.
Lemma steps_try {A} (m : M S A) (h : exn -> M S A) :
  steps R m -> (forall e, steps R (h e)) -> steps R (try_catch m h).
Proof using Type*.
  intros Hm Hh s. unfold try_catch. specialize (Hm s).
  destruct (m s) as [[a|e|] s']; simpl in *; [done| |done].
  etrans; [exact Hm|apply Hh].
Qed.
Lemma steps_when b (m : M S unit) : steps R m -> steps R (when b m).
Proof using Type*. intros. destruct b; [done|apply steps_ret]. Qed.
End Steps.

Create HintDb steps.
#[export] Hint Resolve steps_ret steps_throw steps_undef steps_gets steps_reads
  steps_liftO steps_when steps_try : steps.

(** [steps_auto] walks over a program: every bind, branch and handler; what is
    left are the primitive operations the hint database does not know. *)
Ltac steps_auto :=
  repeat first
    [ progress intros
    | solve [eauto 3 with steps typeclass_instances]
    | apply steps_bind; [typeclasses eauto| |]
    | apply steps_try; [typeclasses eauto| |]
    | apply steps_when; [typeclasses eauto|]
    | case_match ].

Lemma steps_zoom {S T A} (R : relation S) (Q : relation T)
    (g : S -> T) (p : T -> S -> S) (m : M T A) :
  steps Q m -> (forall s t, Q (g s) t -> R s (p t s)) -> steps R (zoom g p m).
Proof.
  intros Hm HR s. unfold zoom. specialize (Hm (g s)).
  destruct (m (g s)) as [o t]. simpl in *. auto.
Qed.

Lemma M_bind_eq {S A B} (m : M S A) (f : A -> M S B) (s : S) :
  (m ≫= f) s =
  match m s with
  | (Ok a, s') => f a s'
  | (Throw e, s') => (Throw e, s')
  | (Undef, s') => (Undef, s')
  end.
Proof. done. Qed.

Lemma M_bind_run {S A B} (m : M S A) (f : A -> M S B) s a s' :
  m s = (Ok a, s') -> (m ≫= f) s = f a s'.
Proof. intros E. by rewrite M_bind_eq, E. Qed.

Lemma zoom_run {S T A} (g : S -> T) (p : T -> S -> S) (m : M T A) s o t :
  m (g s) = (o, t) -> zoom g p m s = (o, p t s).
Proof. intros E. unfold zoom. by rewrite E. Qed.

(** A run that returns went through every step of the program. *)
Lemma M_bind_Ok {S A B} (m : M S A) (f : A -> M S B) s b s' :
  (m ≫= f) s = (Ok b, s') <-> exists a s1, m s = (Ok a, s1) /\ f a s1 = (Ok b, s').
Proof.
  rewrite M_bind_eq. split.
  - destruct (m s) as [[a|e|] s1]; [eauto|discriminate..].
  - by intros (a & s1 & -> & E).
Qed.

Lemma reads_Ok {S A} (f : S -> outcome A) s a s' :
  reads f s = (Ok a, s') <-> f s = Ok a /\ s' = s.
Proof. unfold reads. split; [by intros [= -> ->]|by intros [-> ->]]. Qed.

(** [mred]: run the monad's combinators on the goal, [mred_in H] in [H]. *)
Ltac mcbn :=
  cbn [mbind mret M_ret outcome_bind outcome_ret throw undef get put gets
       modify reads liftO when fst snd].
Ltac mred := mcbn; repeat (rewrite M_bind_eq; mcbn).
Tactic Notation "mred_in" hyp(H) :=
  repeat (cbn [mbind mret M_ret outcome_bind outcome_ret throw undef get put gets
       modify reads liftO when fst snd] in H; rewrite M_bind_eq in H);
  cbn [mbind mret M_ret outcome_bind outcome_ret throw undef get put gets
       modify reads liftO when fst snd] in H.
