(* ===== verification/Domain.v ===== *)
(** * Domain entities

    [include/domain/*.hpp] and [src/domain/ids.cpp]: identifiers, [Result],
    users, sessions, files, transfers, download tokens, audit events, the
    random-identifier generators and the clocks. A constructor that validates
    its arguments is a function into [outcome]. *)
From S2P Require Import Prelude.
From Stdlib Require Import ZArith Lia.
From stdpp Require Import base gmap strings list numbers.
Local Open Scope Z_scope.

(** ** Identifiers ([domain/ids.hpp]) *)
Record UserId := MkUserId { uid_value : str }.
Record FileId := MkFileId { fid_value : str }.
Record TransferId := MkTransferId { tid_value : str }.
Record SessionId := MkSessionId { sid_value : str }.

#[export] Instance UserId_eq_dec : EqDecision UserId.
Proof. solve_decision. Defined.
#[export] Instance FileId_eq_dec : EqDecision FileId.
Proof. solve_decision. Defined.
#[export] Instance TransferId_eq_dec : EqDecision TransferId.
Proof. solve_decision. Defined.
#[export] Instance SessionId_eq_dec : EqDecision SessionId.
Proof. solve_decision. Defined.

(** ** [std::random_device] and the generators ([src/domain/ids.cpp])

    The operating system's generator is an arbitrary stream of 32-bit numbers
    with the position of the next one to be drawn. *)
Record Rng := MkRng { rng_stream : nat -> Z; rng_pos : nat }.

(** [rd() & 0xFF]. *)
Definition rd_byte : M Rng byte := fun r =>
  (Ok (z2b (Z.land (rng_stream r (rng_pos r)) 255)),
   MkRng (rng_stream r) (S (rng_pos r))).

Fixpoint rd_bytes (n : nat) : M Rng str :=
  match n with
  | O => mret []
  | S n' => b ← rd_byte; bs ← rd_bytes n'; mret (b :: bs)
  end.

Definition randomHex (bytes : nat) : M Rng str :=
  bs ← rd_bytes bytes; mret (hex_of bs).

Definition generateUserId : M Rng UserId :=
  h ← randomHex 16;
  a ← liftO (substr h 0 (Some 8%nat));
  b ← liftO (substr h 8 (Some 4%nat));
  c ← liftO (substr h 12 (Some 4%nat));
  d ← liftO (substr h 16 (Some 4%nat));
  e ← liftO (substr h 20 (Some 12%nat));
  mret (MkUserId (a ++ "-" ++ b ++ "-" ++ c ++ "-" ++ d ++ "-" ++ e)).

Definition generateSessionId : M Rng SessionId :=
  h ← randomHex 32; mret (MkSessionId ("sess_" ++ h)).

(** ** [Result<T>] ([domain/result.hpp]) *)
Record Result (T : Type) := MkResult { ok : bool; value : option T; error : str }.
Arguments MkResult {T}. Arguments ok {T}. Arguments value {T}. Arguments error {T}.

Definition success {T} (v : T) : Result T := MkResult true (Some v) [].
Definition failure {T} (e : str) : Result T := MkResult false None e.

(** [!r.ok || !r.value.has_value()] is the test every caller makes; this is
    the value it goes on with when the test fails. *)
Definition result_get {T} (r : Result T) : option T :=
  if ok r then value r else None.

(** ** Clocks ([domain/clock.hpp])

    [nowMs] is a read of the environment: a clock is the stream of the readings
    it will give. [FakeClock]'s readings are all its current [t_]. *)
Record Clock := MkClock { clk_reading : nat -> Z; clk_tick : nat }.
Definition nowMs : M Clock Z := fun c =>
  (Ok (clk_reading c (clk_tick c)), MkClock (clk_reading c) (S (clk_tick c))).
Definition FakeClock (t : Z) : Clock := MkClock (fun _ => t) 0.
Definition FakeClock_set (t : Z) (c : Clock) : Clock := FakeClock t.
Definition FakeClock_advance (d : Z) (c : Clock) : outcome Clock :=
  t ← add_i64 (clk_reading c (clk_tick c)) d; mret (FakeClock t).

(** ** Users ([domain/user.hpp]) *)
Record User := MkUser {
  id_ : UserId;
  username_ : str;
  email_ : str;
  role_ : str;
  status_ : str;
  failedAttempts_ : Z;
  lockoutUntil_ : Z
}.

#[export] Instance User_eq_dec : EqDecision User.
Proof. solve_decision. Defined.

(** The constructor. *)
Definition new_User (id : UserId) (username email role status : str)
    (failedAttempts lockoutUntil : Z) : outcome User :=
  if bool_decide (uid_value id = []) || bool_decide (username = [])
     || bool_decide (email = [])
  then Throw (ValidationException "user fields empty")
  else Ok (MkUser id username email role status failedAttempts lockoutUntil).

Definition isAdmin (u : User) : bool := bool_decide (role_ u = lit "admin").
Definition isActive (u : User) : bool := bool_decide (status_ u = lit "active").
Definition canLogin (u : User) (now : Z) : bool :=
  isActive u && (lockoutUntil_ u <=? now).
Definition setStatus (s : str) (u : User) : User :=
  MkUser (id_ u) (username_ u) (email_ u) (role_ u) s
         (failedAttempts_ u) (lockoutUntil_ u).
Definition setLockout (until attempts : Z) (u : User) : User :=
  MkUser (id_ u) (username_ u) (email_ u) (role_ u) (status_ u) attempts until.

(** ** Sessions ([domain/session.hpp]) *)
Record Session := MkSession {
  s_id : SessionId;
  s_userId : UserId;
  createdAt : Z;
  expiresAt : Z;
  revoked : bool
}.

Definition new_Session (sid : SessionId) (uid : UserId) (c e : Z) (rev : bool)
    : outcome Session :=
  if e <=? c then Throw (ValidationException "session time range invalid")
  else Ok (MkSession sid uid c e rev).

Definition Session_isValid (s : Session) (now : Z) : bool :=
  negb (revoked s) && (createdAt s <=? now) && (now <? expiresAt s).

Definition Session_revoke (s : Session) : Session :=
  MkSession (s_id s) (s_userId s) (createdAt s) (expiresAt s) true.

(** ** Digests ([domain/digest.hpp]) *)
Record Digest := MkDigest { d_bytes : str }.
#[export] Instance Digest_eq_dec : EqDecision Digest.
Proof. solve_decision. Defined.

(** [std::array<uint8_t,32> bytes{}]. *)
Definition zero_Digest : Digest := MkDigest (replicate 32 Byte.x00).

Definition fnv1a32 (s : str) : Z :=
  fold_left (fun h c => u32 (Z.lxor h (b2z c) * 16777619)) s 2166136261.

Definition sha256stub (s : str) : Digest :=
  let h := fnv1a32 s in
  MkDigest (map (fun i : nat =>
    z2b (Z.lxor (Z.shiftr h (Z.of_nat (Nat.modulo i 4) * 8)) (Z.of_nat i * 31)))
    (seq 0 32)).

(** ** Wrapped keys ([domain/wrapped_key.hpp]) *)
Record WrappedKey := MkWrappedKey {
  recipientId : UserId;
  nonce : str;
  wk_bytes : str;
  alg : str
}.
Definition default_alg : str := "X25519-AES-GCM-Seal".

(** [WrappedKey() = default]. *)
Definition default_WrappedKey : WrappedKey := MkWrappedKey (MkUserId []) [] [] default_alg.

Definition new_WrappedKey (rid : UserId) (n b a : str) : outcome WrappedKey :=
  if negb (zlen n =? 12) then Throw (ValidationException "nonce must be 12")
  else if bool_decide (b = []) then Throw (ValidationException "wrapped bytes empty")
  else Ok (MkWrappedKey rid n b a).

(** ** File records ([domain/file_record.hpp]) *)
Record FileRecord := MkFileRecord {
  fr_id : FileId;
  owner : UserId;
  origName : str;
  storageId : str;
  fr_size : Z;
  digest : Digest;
  wrapped : WrappedKey;
  recipient : UserId;
  uploadId : str;
  fr_createdAt : Z
}.
Definition isOwnedBy (f : FileRecord) (u : UserId) : bool := bool_decide (owner f = u).

Definition validateFileRecord (r : FileRecord) : outcome unit :=
  if bool_decide (origName r = []) then Throw (ValidationException "origName empty")
  else if bool_decide (storageId r = []) then Throw (ValidationException "storageId empty")
  else if bool_decide (uploadId r = []) then Throw (ValidationException "uploadId empty")
  else Ok tt.

(** ** Transfers ([domain/transfer.hpp]) *)
Inductive Status := CREATED | UPLOADED | DOWNLOADED | FAILED.
#[export] Instance Status_eq_dec : EqDecision Status.
Proof. solve_decision. Defined.

Record Transfer := MkTransfer {
  t_id : TransferId;
  t_file : FileId;
  t_sender : UserId;
  t_recipient : UserId;
  t_status : Status
}.
Definition markDownloaded (t : Transfer) : Transfer :=
  MkTransfer (t_id t) (t_file t) (t_sender t) (t_recipient t) DOWNLOADED.

(** ** Download tokens ([domain/download_token.hpp]) *)
Record DownloadToken := MkDownloadToken {
  tokenHash : str;
  dt_file : FileId;
  creator : UserId;
  bind_ : UserId;
  dt_expiresAt : Z;
  maxUses : Z;
  useCount : Z;
  dt_revoked : bool
}.
Definition validFor (t : DownloadToken) (u : UserId) (now : Z) : bool :=
  if dt_revoked t then false
  else if negb (bool_decide (bind_ t = u)) then false
  else if dt_expiresAt t <? now then false
  else if maxUses t <=? useCount t then false
  else true.

(** ** Audit events ([domain/audit_event.hpp]) *)
Record AuditEvent := MkAuditEvent {
  seq_ : Z;
  ts : str;
  actor : str;
  action : str;
  fileId : str;
  cipherHash : str;
  prevHash : str;
  msgHash : str
}.
(** [{0, "", actor, action, fileId, "", "", ""}], the shape of every event the
    services record. *)
Definition event (actor action fileId : str) : AuditEvent :=
  MkAuditEvent 0 [] actor action fileId [] [] [].

Module AuditAction.
Definition REGISTER_OK : str := "REGISTER_OK".
Definition REGISTER_FAIL : str := "REGISTER_FAIL".
Definition LOGIN_OK : str := "LOGIN_OK".
Definition LOGIN_FAIL : str := "LOGIN_FAIL".
Definition LOGOUT : str := "LOGOUT".
Definition ACTIVATE : str := "ACTIVATE".
Definition DEACTIVATE : str := "DEACTIVATE".
Definition ADMIN_DENIED : str := "ADMIN_DENIED".
Definition TLS_FAIL : str := "TLS_FAIL".
End AuditAction.

(** ** Permissions ([domain/permission.hpp]), which nothing uses *)
Record Permission := MkPermission { p_file : FileId; p_user : UserId; p_expiresAt : Z; p_revoked : bool }.
Definition new_Permission (f : FileId) (u : UserId) : Permission := MkPermission f u 4102444800 false.

(** ** Facts the services share *)

Lemma rd_bytes_length n : forall r, exists b r', rd_bytes n r = (Ok b, r') /\ length b = n
  /\ rng_stream r' = rng_stream r.
Proof.
  induction n as [|n IH]; intros r; [by eexists [], r|].
  cbn [rd_bytes]. unfold rd_byte. mred.
  destruct (IH (MkRng (rng_stream r) (S (rng_pos r)))) as (b & r' & -> & Hl & Hs).
  eexists _, r'. split; [done|]. split; [by rewrite <-Hl|done].
Qed.

Lemma length_hex_of v : length (hex_of v) = (2 * length v)%nat.
Proof. induction v; simpl; [done|]. rewrite IHv. lia. Qed.

Lemma substr_ok s i j : (i <= length s)%nat -> substr s i (Some j) = Ok (take j (drop i s)).
Proof. intros. unfold substr. by rewrite decide_True. Qed.

(** A generated identifier has the five groups of a UUID; it is never empty. *)
Lemma generateUserId_ok r : exists b r', length b = 16%nat /\
  generateUserId r = (Ok (MkUserId (take 8 (hex_of b) ++ "-" ++ take 4 (drop 8 (hex_of b)) ++ "-"
    ++ take 4 (drop 12 (hex_of b)) ++ "-" ++ take 4 (drop 16 (hex_of b)) ++ "-"
    ++ take 12 (drop 20 (hex_of b)))), r').
Proof.
  destruct (rd_bytes_length 16 r) as (b & r' & E & Hl & _). exists b, r'. split; [done|].
  assert (Hh : length (hex_of b) = 32%nat) by by rewrite length_hex_of, Hl.
  unfold generateUserId, randomHex. rewrite M_bind_eq, M_bind_eq, E. mred.
  rewrite !substr_ok by lia. mred. done.
Qed.

Lemma generateUserId_some r :
  exists id r', generateUserId r = (Ok id, r') /\ uid_value id <> [].
Proof.
  destruct (generateUserId_ok r) as (b & r' & Hb & E). eexists _, r'. split; [exact E|].
  cbn [uid_value]. destruct b; [discriminate Hb|discriminate].
Qed.

Lemma new_User_ok id u e r s f l :
  uid_value id <> [] -> u <> [] -> e <> [] -> new_User id u e r s f l = Ok (MkUser id u e r s f l).
Proof. intros. unfold new_User. by rewrite !bool_decide_eq_false_2. Qed.
