(* ===== verification/Framing.v ===== *)
(** * Wire framing ([include/ports/transport.hpp]) and the receive loops

    Big-endian integers, length-prefixed fields, the frame codec, the receive
    loops of [AsioTlsTransport] and [AsioTcpTransport], and [FakeTransport].
    Reads through a pointer into a vector are checked: a read outside the
    vector is [Undef]. *)
From S2P Require Import Prelude.
From Stdlib Require Import ZArith Lia.
From stdpp Require Import base gmap strings list numbers.
Local Open Scope Z_scope.

(** ** [enum class MsgType : uint8_t]

    The underlying type is fixed, so the cast [(MsgType)buf[4]] is defined for
    every byte: the type is the byte. *)
Abbreviation MsgType := byte.
Module MsgType.
Definition HELLO : byte := Byte.x01.
Definition AUTH : byte := Byte.x02.
Definition REGISTER : byte := Byte.x03.
Definition LOGOUT : byte := Byte.x04.
Definition ADMIN_ACTIVATE : byte := Byte.x05.
Definition ADMIN_DEACTIVATE : byte := Byte.x06.
Definition UPLOAD_INIT : byte := Byte.x07.
Definition UPLOAD_DATA : byte := Byte.x08.
Definition UPLOAD_COMMIT : byte := Byte.x09.
Definition DOWNLOAD_REQ : byte := Byte.x0a.
Definition DOWNLOAD_DATA : byte := Byte.x0b.
Definition LIST : byte := Byte.x0c.
Definition ERR : byte := Byte.xff.
End MsgType.

Record Frame := MkFrame { f_type : byte; requestId : Z; f_body : str }.
#[export] Instance Frame_eq_dec : EqDecision Frame.
Proof. solve_decision. Defined.

(** ** Integers in network byte order *)

Definition put32be (v : str) (x : Z) : str :=
  v ++ [z2b (Z.land (Z.shiftr x 24) 255); z2b (Z.land (Z.shiftr x 16) 255);
        z2b (Z.land (Z.shiftr x 8) 255); z2b (Z.land x 255)].

(** [get32be(p)]: the four bytes at [p], the tail of the buffer from [p] on. *)
Definition get32be (p : str) : outcome Z :=
  match p with
  | p0 :: p1 :: p2 :: p3 :: _ =>
      Ok (Z.lor (Z.lor (Z.lor (Z.shiftl (b2z p0) 24) (Z.shiftl (b2z p1) 16))
                       (Z.shiftl (b2z p2) 8)) (b2z p3))
  | _ => Undef
  end.

Definition put64be (v : str) (x : Z) : str :=
  fold_left (fun v i => v ++ [z2b (Z.land (Z.shiftr x (i * 8)) 255)])
            [7; 6; 5; 4; 3; 2; 1; 0] v.

Definition get64be (p : str) : outcome Z :=
  if (length p <? 8)%nat then Undef
  else Ok (fold_left (fun v b => Z.lor (u64 (Z.shiftl v 8)) (b2z b)) (take 8 p) 0).

(** ** Length-prefixed fields *)

Definition putBytesWithLen (v b : str) : str := put32be v (u32 (zlen b)) ++ b.
Definition putStringWithLen (v s : str) : str := put32be v (u32 (zlen s)) ++ s.

(** The two readers; [off] is the reference parameter they advance. *)
Definition getBytesWithLen (buf : str) : M Z str :=
  off ← get;
  if zlen buf <? u64 (off + 4) then throw (RuntimeError "short") else
  len ← liftO (get32be (drop (Z.to_nat off) buf));
  let off := u64 (off + 4) in
  _ ← put off;
  if zlen buf <? u64 (off + len) then throw (RuntimeError "short body") else
  out ← liftO (slice buf off (off + len));
  _ ← put (u64 (off + len));
  mret out.

Definition getStringWithLen (buf : str) : M Z str :=
  off ← get;
  if zlen buf <? u64 (off + 4) then throw (RuntimeError "short") else
  len ← liftO (get32be (drop (Z.to_nat off) buf));
  let off := u64 (off + 4) in
  _ ← put off;
  if zlen buf <? u64 (off + len) then throw (RuntimeError "short body") else
  s ← liftO (slice buf off (off + len));
  _ ← put (u64 (off + len));
  mret s.

(** ** The frame codec *)

(** [4u*1024u*1024u]. *)
Definition max_frame : Z := 4 * 1024 * 1024.

Definition encodeFrame (f : Frame) : str :=
  let payload := put32be [f_type f] (requestId f) ++ f_body f in
  put32be [] (u32 (zlen payload)) ++ payload.

(** [None] is the [false] return; [Some (out, consumed)] the [true] one. *)
Definition tryDecode (buf : str) : outcome (option (Frame * Z)) :=
  if zlen buf <? 4 then Ok None else
  len ← get32be buf;
  if max_frame <? len then Ok None else
  if (zlen buf <? u32 (4 + len)) || (len <? 5) then Ok None else
  ty ← at_ buf 4;
  rid ← get32be (drop 5 buf);
  bd ← slice buf 9 (u32 (4 + len));
  Ok (Some (MkFrame ty rid bd, u32 (4 + len))).

(** ** The receive loops

    A connection is the bytes received and not yet consumed, and what the
    socket will deliver: the successive results of [read_some], an exhausted
    list standing for the error that ends the connection. *)
Record Conn := MkConn { rxBuf : str; incoming : list str }.

(** One look at the buffer: a frame and the rest of the buffer, a length that
    makes the loop give up, or not enough bytes yet. *)
Inductive look := Got (f : Frame) (rest : str) | Reject | NeedMore.

Definition take_frame (rx : str) (len : Z) : outcome look :=
  ty ← at_ rx 4;
  rid ← get32be (drop 5 rx);
  bd ← slice rx 9 (u32 (4 + len));
  Ok (Got (MkFrame ty rid bd) (drop (Z.to_nat (u32 (4 + len))) rx)).

(** [AsioTlsTransport::recvFrame]'s test of the buffer. *)
Definition tls_look (rx : str) : outcome look :=
  if 4 <=? zlen rx then
    len ← get32be rx;
    if (len <? 5) || (max_frame <? len) then Ok Reject
    else if u32 (4 + len) <=? zlen rx then take_frame rx len
    else Ok NeedMore
  else Ok NeedMore.

(** [AsioTcpTransport::recvFrame]'s: it does not test [len < 5]. *)
Definition tcp_look (rx : str) : outcome look :=
  if 4 <=? zlen rx then
    len ← get32be rx;
    if max_frame <? len then Ok Reject
    else if u32 (4 + len) <=? zlen rx then take_frame rx len
    else Ok NeedMore
  else Ok NeedMore.

(** The loop around it. [stop_on_empty] is the test [n == 0] that only the TLS
    transport makes. Each round consumes one [read_some]. *)
Fixpoint recv_loop (look_at : str -> outcome look) (stop_on_empty : bool)
    (rx : str) (inc : list str) : outcome (option Frame) * Conn :=
  match look_at rx with
  | Undef => (Undef, MkConn rx inc)
  | Throw e => (Throw e, MkConn rx inc)
  | Ok (Got f rest) => (Ok (Some f), MkConn rest inc)
  | Ok Reject => (Ok None, MkConn [] inc)
  | Ok NeedMore =>
      match inc with
      | [] => (Ok None, MkConn rx [])
      | c :: inc' =>
          if stop_on_empty && bool_decide (c = []) then (Ok None, MkConn rx inc')
          else recv_loop look_at stop_on_empty (rx ++ c) inc'
      end
  end.

(** [recvFrame(out, timeoutMs)]: [Some f] is [true] with [out = f]. *)
Definition tls_recvFrame : M Conn (option Frame) := fun c =>
  recv_loop tls_look true (rxBuf c) (incoming c).
Definition tcp_recvFrame : M Conn (option Frame) := fun c =>
  recv_loop tcp_look false (rxBuf c) (incoming c).

(** A server reading until [recvFrame] returns [false]. *)
Fixpoint recv_all (fuel : nat) (c : Conn) : outcome (list Frame) :=
  match fuel with
  | O => Ok []
  | S n =>
      match tls_recvFrame c with
      | (Ok (Some f), c') => fs ← recv_all n c'; Ok (f :: fs)
      | (Ok None, _) => Ok []
      | (Throw e, _) => Throw e
      | (Undef, _) => Undef
      end
  end.

(** ** [FakeTransport]: a queue of encoded frames *)
Module FakeTransport.
Definition t := list str.
Definition sendFrame (f : Frame) : M t unit := modify (fun q => q ++ [encodeFrame f]).
Definition recvFrame : M t (option Frame) := fun q =>
  match q with
  | [] => (Ok None, [])
  | w :: q' =>
      match tryDecode w with
      | Ok (Some (f, _)) => (Ok (Some f), q')
      | Ok None => (Ok None, q')
      | Throw e => (Throw e, q')
      | Undef => (Undef, q')
      end
  end.
End FakeTransport.

(** ** Network byte order: the codecs against the positional value *)

(** The reference: the value of a big-endian digit string, and its digits. *)
Fixpoint be_val (l : str) : Z :=
  match l with
  | [] => 0
  | b :: l' => b2z b * 256 ^ zlen l' + be_val l'
  end.
Fixpoint be_bytes (n : nat) (x : Z) : str :=
  match n with
  | O => []
  | S n' => z2b (x / 256 ^ Z.of_nat n') :: be_bytes n' x
  end.

Lemma be_val_range l : 0 <= be_val l < 256 ^ zlen l.
Proof.
  induction l as [|b l IH]; cbn [be_val]; [done|].
  rewrite zlen_cons, Z.pow_add_r by lsize.
  pose proof (b2z_range b). nia.
Qed.

Lemma length_be_bytes n x : length (be_bytes n x) = n.
Proof. induction n; simpl; congruence. Qed.
Lemma zlen_be_bytes n x : zlen (be_bytes n x) = Z.of_nat n.
Proof. unfold zlen. by rewrite length_be_bytes. Qed.
#[export] Hint Rewrite zlen_be_bytes : zlen.

Lemma be_val_bytes n x : be_val (be_bytes n x) = x mod 256 ^ Z.of_nat n.
Proof.
  induction n as [|n IH]; [by rewrite Z.mod_1_r|].
  cbn [be_bytes be_val]. rewrite zlen_be_bytes, b2z_z2b, IH.
  unfold u8. change (2 ^ 8) with 256.
  rewrite Nat2Z.inj_succ, Z.pow_succ_r by lia.
  rewrite (Z.mul_comm 256), Z.rem_mul_r by lia. lia.
Qed.

Lemma be_val_app l k : be_val (l ++ k) = be_val l * 256 ^ zlen k + be_val k.
Proof.
  induction l as [|b l IH]; cbn [be_val app]; [lia|].
  rewrite IH, zlen_app, Z.pow_add_r by lsize. ring.
Qed.

Lemma be_bytes_add n x q k :
  (n <= k)%nat -> be_bytes n (x + q * 256 ^ Z.of_nat k) = be_bytes n x.
Proof.
  induction n as [|n IH]; intros Hk; [done|]. cbn [be_bytes].
  rewrite IH by lia. f_equal.
  replace (Z.of_nat k) with (Z.of_nat (k - n - 1) + 1 + Z.of_nat n) by lia.
  rewrite Z.pow_add_r, Z.mul_assoc, Z.div_add by lia.
  rewrite <-z2b_mod, Z.pow_add_r, Z.pow_1_r, Z.mul_assoc, Z.mod_add by lia.
  apply z2b_mod.
Qed.

Lemma be_bytes_mod n x : be_bytes n (x mod 256 ^ Z.of_nat n) = be_bytes n x.
Proof.
  rewrite (Z.div_mod x (256 ^ Z.of_nat n)) at 2 by lia.
  rewrite Z.add_comm, Z.mul_comm. by rewrite be_bytes_add.
Qed.

Lemma be_bytes_val l : be_bytes (length l) (be_val l) = l.
Proof.
  induction l as [|b l IH]; [done|].
  cbn [be_bytes be_val length]. pose proof (be_val_range l) as Hr.
  unfold zlen in *. f_equal.
  - rewrite Z.div_add_l, Z.div_small, Z.add_0_r by lia. apply z2b_b2z.
  - rewrite Z.add_comm. by rewrite be_bytes_add.
Qed.

(** A shifted value and a smaller one share no bit. *)
Lemma lor_shiftl_add a b n :
  0 <= n -> 0 <= b < 2 ^ n -> Z.lor (Z.shiftl a n) b = a * 2 ^ n + b.
Proof.
  intros Hn Hb. rewrite <-Z.shiftl_mul_pow2 by done.
  assert (Z.land (Z.shiftl a n) b = 0) as Hd.
  { apply Z.bits_inj'. intros i Hi. rewrite Z.land_spec, Z.bits_0.
    destruct (decide (i < n)); [by rewrite Z.shiftl_spec_low by lia|].
    rewrite <-(Z.mod_small b (2 ^ n)), Z.mod_pow2_bits_high, andb_false_r by lia. done. }
  rewrite Z.add_nocarry_lxor by done. symmetry. by apply Z.lxor_lor.
Qed.

Lemma z2b_land_255 x : z2b (Z.land x 255) = z2b x.
Proof. change 255 with (Z.ones 8). by rewrite Z.land_ones, z2b_mod by lia. Qed.

Lemma put32be_bytes v x : put32be v x = v ++ be_bytes 4 x.
Proof.
  unfold put32be. rewrite !z2b_land_255, !Z.shiftr_div_pow2 by lia.
  cbn [be_bytes]. do 4 f_equal. by rewrite Z.div_1_r.
Qed.

Lemma put64be_bytes v x : put64be v x = v ++ be_bytes 8 x.
Proof.
  unfold put64be. cbn [fold_left]. rewrite !z2b_land_255, !Z.shiftr_div_pow2 by lia.
  rewrite <-!app_assoc. done.
Qed.

Lemma get32be_val p q :
  length p = 4%nat -> get32be (p ++ q) = Ok (be_val p).
Proof.
  intros Hp. destruct p as [|a [|b [|c [|d [|]]]]]; try discriminate Hp.
  cbn [app get32be]. f_equal.
  pose proof (b2z_range a). pose proof (b2z_range b).
  pose proof (b2z_range c). pose proof (b2z_range d).
  replace (Z.shiftl (b2z a) 24) with (Z.shiftl (Z.shiftl (b2z a) 8) 16)
    by (rewrite Z.shiftl_shiftl by lia; done).
  rewrite <-Z.shiftl_lor, (lor_shiftl_add (b2z a) (b2z b) 8) by lia.
  replace (Z.shiftl (b2z a * 2 ^ 8 + b2z b) 16)
    with (Z.shiftl (Z.shiftl (b2z a * 2 ^ 8 + b2z b) 8) 8)
    by (rewrite Z.shiftl_shiftl by lia; done).
  rewrite <-Z.shiftl_lor, !lor_shiftl_add by lia.
  cbn [be_val]. unfold zlen. cbn [length Z.of_nat]. lia.
Qed.

Lemma get64be_val p q :
  length p = 8%nat -> get64be (p ++ q) = Ok (be_val p).
Proof.
  intros Hp. unfold get64be. rewrite length_app, Hp.
  replace (8 + length q <? 8)%nat with false by (symmetry; apply Nat.ltb_ge; lia).
  rewrite take_app_le, take_ge by lia. f_equal.
  assert (forall l v, 0 <= v -> v * 256 ^ zlen l + be_val l < 2 ^ 64 ->
    fold_left (fun v b => Z.lor (u64 (Z.shiftl v 8)) (b2z b)) l v
    = v * 256 ^ zlen l + be_val l) as Hgen.
  { induction l as [|b l IH]; intros v Hv Hlt; cbn [fold_left be_val].
    { rewrite zlen_nil. lia. }
    pose proof (be_val_range l). pose proof (b2z_range b).
    cbn [be_val] in Hlt. rewrite zlen_cons, Z.pow_add_r in * by lsize.
    assert (1 <= 256 ^ zlen l) by (apply (Z.pow_le_mono_r 256 0); lsize).
    assert (u64 (Z.shiftl v 8) = Z.shiftl v 8) as ->.
    { unfold u64. rewrite Z.shiftl_mul_pow2 by lia. apply Z.mod_small. nia. }
    rewrite lor_shiftl_add by lia.
    rewrite IH by nia. ring. }
  pose proof (be_val_range p) as Hr. unfold zlen in Hr. rewrite Hp in Hr.
  rewrite Hgen; [done|lia|]. change (256 ^ Z.of_nat 8) with (2 ^ 64) in Hr. lia.
Qed.

Lemma get32be_defined p : (4 <= length p)%nat -> exists x, get32be p = Ok x /\ 0 <= x < 2 ^ 32.
Proof.
  intros Hp. rewrite <-(take_drop 4 p).
  assert (length (take 4 p) = 4%nat) as Hl by (rewrite length_take; lia).
  exists (be_val (take 4 p)). rewrite get32be_val by done. split; [done|].
  pose proof (be_val_range (take 4 p)) as Hr. unfold zlen in Hr. rewrite Hl in Hr. done.
Qed.

Lemma get64be_defined p : (8 <= length p)%nat -> exists x, get64be p = Ok x /\ 0 <= x < 2 ^ 64.
Proof.
  intros Hp. rewrite <-(take_drop 8 p).
  assert (length (take 8 p) = 8%nat) as Hl by (rewrite length_take; lia).
  exists (be_val (take 8 p)). rewrite get64be_val by done. split; [done|].
  pose proof (be_val_range (take 8 p)) as Hr. unfold zlen in Hr. rewrite Hl in Hr. done.
Qed.

Lemma be_bytes_u32 x : be_bytes 4 (u32 x) = be_bytes 4 x.
Proof. exact (be_bytes_mod 4 x). Qed.
Lemma be_bytes_u64 x : be_bytes 8 (u64 x) = be_bytes 8 x.
Proof. exact (be_bytes_mod 8 x). Qed.

Lemma get32be_put p x : get32be (be_bytes 4 x ++ p) = Ok (u32 x).
Proof. rewrite get32be_val by done. f_equal. apply be_val_bytes. Qed.
Lemma get64be_put p x : get64be (be_bytes 8 x ++ p) = Ok (u64 x).
Proof. rewrite get64be_val by done. f_equal. apply be_val_bytes. Qed.

(** ** The frame codec *)

(** What [sendFrame]'s caller must respect for the receiver to accept it. *)
Definition frame_fits (f : Frame) : Prop :=
  0 <= requestId f < 2 ^ 32 /\ zlen (f_body f) + 5 <= max_frame.

Lemma encodeFrame_layout f :
  encodeFrame f =
  be_bytes 4 (zlen (f_body f) + 5) ++ f_type f :: be_bytes 4 (requestId f) ++ f_body f.
Proof.
  unfold encodeFrame. rewrite !put32be_bytes.
  cbn [app]. rewrite be_bytes_u32, zlen_cons, zlen_app, zlen_be_bytes.
  do 2 f_equal. lia.
Qed.

Lemma zlen_encodeFrame f : zlen (encodeFrame f) = zlen (f_body f) + 9.
Proof. rewrite encodeFrame_layout, zlen_app, zlen_cons, zlen_app, !zlen_be_bytes. lia. Qed.

Lemma get32be_encodeFrame f rest :
  zlen (f_body f) + 5 < 2 ^ 32 ->
  get32be (encodeFrame f ++ rest) = Ok (zlen (f_body f) + 5).
Proof.
  intros. rewrite encodeFrame_layout, <-app_assoc, get32be_put. f_equal.
  apply Z.mod_small. lsize.
Qed.

(** The pieces of a frame, read back at the offsets the code uses. *)
Lemma frame_fields f rest :
  0 <= requestId f < 2 ^ 32 ->
  at_ (encodeFrame f ++ rest) 4 = Ok (f_type f)
  /\ get32be (drop 5 (encodeFrame f ++ rest)) = Ok (requestId f)
  /\ slice (encodeFrame f ++ rest) 9 (zlen (f_body f) + 9) = Ok (f_body f).
Proof.
  intros Hr. split_and!.
  - by rewrite encodeFrame_layout.
  - rewrite encodeFrame_layout. rewrite (cons_middle (f_type f)), app_assoc, <-!app_assoc.
    rewrite (app_assoc _ [f_type f]), drop_app_length' by done.
    rewrite get32be_put. f_equal. by apply Z.mod_small.
  - assert (exists p, encodeFrame f = p ++ f_body f /\ zlen p = 9) as (p & -> & Hp).
    { exists (be_bytes 4 (zlen (f_body f) + 5) ++ f_type f :: be_bytes 4 (requestId f)).
      split; [by rewrite encodeFrame_layout, <-app_assoc|]. lsize. }
    rewrite <-app_assoc, <-Hp, Z.add_comm. apply slice_app.
Qed.

(** A buffer whose length field is acceptable and that holds that many bytes
    starts with an encoded frame. *)
Lemma frame_split buf len :
  get32be buf = Ok len -> 5 <= len <= max_frame -> 4 + len <= zlen buf ->
  exists f rest, buf = encodeFrame f ++ rest /\ zlen (f_body f) + 5 = len /\ frame_fits f.
Proof.
  intros Hg Hlen Hb. unfold max_frame in *.
  destruct (split_at 4 buf) as (a & r & -> & Ha); [lsize|].
  rewrite get32be_val in Hg by done. injection Hg as Hg.
  destruct r as [|ty r]; [lsize|].
  destruct (split_at 4 r) as (b & r' & -> & Hb4); [lsize|].
  destruct (zsplit_at (len - 5) r') as (body & rest & -> & Hbody); [lsize|].
  exists (MkFrame ty (be_val b) body), rest.
  split_and!; [|simpl; lia|split; simpl; [|unfold max_frame; lia]].
  - rewrite encodeFrame_layout. cbn [f_body f_type requestId].
    replace (zlen body + 5) with (be_val a) by lia.
    rewrite <-Ha at 1. rewrite be_bytes_val. rewrite <-Hb4 at 1. rewrite be_bytes_val.
    rewrite <-!app_assoc. cbn [app]. by rewrite <-app_assoc.
  - pose proof (be_val_range b) as H. unfold zlen in H. by rewrite Hb4 in H.
Qed.

Lemma take_frame_encodeFrame f rest :
  frame_fits f ->
  take_frame (encodeFrame f ++ rest) (zlen (f_body f) + 5) = Ok (Got f rest).
Proof.
  intros [Hr Hs]. unfold max_frame in Hs. pose proof (zlen_nonneg (f_body f)).
  destruct (frame_fields f rest Hr) as (Hty & Hrid & Hbd).
  unfold take_frame.
  assert (u32 (4 + (zlen (f_body f) + 5)) = zlen (f_body f) + 9) as ->
    by (unfold u32; rewrite Z.mod_small; lia).
  rewrite Hty, Hrid, Hbd. mred.
  rewrite <-zlen_encodeFrame, zlen_to_nat, drop_app_length. by destruct f.
Qed.

(** [tryDecode] is the same look at the buffer, with its own error order. *)
Lemma tryDecode_encodeFrame f rest :
  frame_fits f ->
  tryDecode (encodeFrame f ++ rest) = Ok (Some (f, zlen (encodeFrame f))).
Proof.
  intros Hf. pose proof (take_frame_encodeFrame f rest Hf) as Ht.
  destruct Hf as [Hr Hs]. unfold max_frame in Hs. pose proof (zlen_nonneg (f_body f)).
  assert (u32 (4 + (zlen (f_body f) + 5)) = zlen (f_body f) + 9) as Hu
    by (unfold u32; rewrite Z.mod_small; lia).
  assert (zlen (encodeFrame f ++ rest) >= zlen (f_body f) + 9) as Hlen
    by (rewrite zlen_app, zlen_encodeFrame; pose proof (zlen_nonneg rest); lia).
  unfold tryDecode, max_frame.
  rewrite (proj2 (Z.ltb_ge _ 4)), get32be_encodeFrame by lia. mred.
  rewrite Hu, !(proj2 (Z.ltb_ge _ _)) by lia. cbn [orb].
  unfold take_frame in Ht. rewrite Hu in Ht.
  destruct (at_ _ 4); mred; [|discriminate..].
  destruct (get32be (drop 5 _)); mred; [|discriminate..].
  destruct (slice _ 9 _); mred; [|discriminate..].
  injection Ht as <- _. by rewrite zlen_encodeFrame.
Qed.

(** Every result of [tryDecode]: a fitting frame at the front of the buffer, or
    none because the buffer is too short or its length field is refused. *)
Lemma tryDecode_cases buf :
  (exists f rest, frame_fits f /\ buf = encodeFrame f ++ rest)
  \/ (tryDecode buf = Ok None /\ forall f rest, frame_fits f -> buf <> encodeFrame f ++ rest).
Proof.
  unfold tryDecode. destruct (Z.ltb_spec (zlen buf) 4) as [H4|H4].
  { right. split; [done|]. intros f rest _ ->.
    rewrite zlen_app, zlen_encodeFrame in H4. lsize. }
  destruct (get32be_defined buf) as (len & Hg & Hlen); [lsize|].
  assert (forall f rest, frame_fits f -> buf = encodeFrame f ++ rest ->
    len = zlen (f_body f) + 5 /\ 5 <= len <= max_frame /\ 4 + len <= zlen buf) as Hinv.
  { intros f rest [Hr Hs] ->. unfold max_frame in *.
    rewrite get32be_encodeFrame in Hg by lia. injection Hg as <-.
    rewrite zlen_app, zlen_encodeFrame. lsize. }
  rewrite Hg. mred. unfold max_frame in *.
  destruct (Z.ltb_spec (4 * 1024 * 1024) len).
  { right. split; [done|]. intros f rest Hf E. specialize (Hinv f rest Hf E). lia. }
  assert (u32 (4 + len) = 4 + len) as -> by (unfold u32; rewrite Z.mod_small; lia).
  destruct (Z.ltb_spec (zlen buf) (4 + len)), (Z.ltb_spec len 5); cbn [orb];
    try (right; split; [done|]; intros f rest Hf E; specialize (Hinv f rest Hf E); lia).
  left. destruct (frame_split buf len Hg) as (f & rest & ? & ? & ?);
    unfold max_frame; eauto with lia.
Qed.

(** C25: The frame codec is exact. Decoding a buffer gives frame [f] and consumes
    [n] bytes exactly when the buffer starts with the encoding of [f], [n] is
    that encoding's length, and [f] fits the 4 MiB limit. *)
Theorem tryDecode_iff buf f n :
  tryDecode buf = Ok (Some (f, n)) <->
  frame_fits f /\ n = zlen (encodeFrame f) /\ exists rest, buf = encodeFrame f ++ rest.
Proof.
  split.
  - intros H. destruct (tryDecode_cases buf) as [(g & rest & Hg & ->)|[E _]]; [|congruence].
    rewrite tryDecode_encodeFrame in H by done. injection H as <- <-. eauto.
  - intros (Hf & -> & rest & ->). by apply tryDecode_encodeFrame.
Qed.

(** Decoding is memory safe: for every buffer whatever [tryDecode] returns
    [true] or [false]; it never reads outside the buffer and never throws. *)
Theorem tryDecode_total buf : exists r, tryDecode buf = Ok r.
Proof.
  destruct (tryDecode_cases buf) as [(f & rest & Hf & ->)|[E _]]; [|eauto].
  rewrite tryDecode_encodeFrame by done. eauto.
Qed.

(** ** The receive loops *)

(** What the TLS loop decides on a prefix of a stream that starts with the
    encoding of [f]: nothing before the four length bytes are there, then by
    the length they carry. *)
Lemma tls_look_stream rx q f s :
  rx ++ q = encodeFrame f ++ s -> zlen (f_body f) + 5 < 2 ^ 32 ->
  tls_look rx =
    if zlen rx <? 4 then Ok NeedMore
    else if max_frame <? zlen (f_body f) + 5 then Ok Reject
    else if zlen rx <? zlen (encodeFrame f) then Ok NeedMore
    else take_frame rx (zlen (f_body f) + 5).
Proof.
  intros E Hlt. unfold tls_look. pose proof (zlen_nonneg (f_body f)).
  destruct (Z.ltb_spec (zlen rx) 4) as [|H4].
  { by rewrite (proj2 (Z.leb_gt _ _)) by lia. }
  rewrite (proj2 (Z.leb_le _ _)) by lia.
  assert (get32be rx = Ok (zlen (f_body f) + 5)) as ->.
  { rewrite <-(get32be_encodeFrame f s) by done. rewrite <-E.
    destruct (split_at 4 rx) as (a & r & -> & Ha); [lsize|].
    by rewrite <-app_assoc, !get32be_val. }
  mred. rewrite (proj2 (Z.ltb_ge (zlen (f_body f) + 5) 5)) by lia. cbn [orb].
  destruct (Z.ltb_spec max_frame (zlen (f_body f) + 5)) as [|Hm]; [done|].
  unfold max_frame in Hm. rewrite zlen_encodeFrame.
  unfold u32. rewrite Z.mod_small by lia.
  destruct (Z.leb_spec (4 + (zlen (f_body f) + 5)) (zlen rx)),
    (Z.ltb_spec (zlen rx) (zlen (f_body f) + 9)); done || lia.
Qed.

(** Two ways to cut one stream. *)
Lemma app_cut (a b c d : str) :
  a ++ b = c ++ d -> (length c <= length a)%nat -> exists r, a = c ++ r /\ d = r ++ b.
Proof.
  intros E Hl. apply (f_equal (take (length c))) in E as E1.
  apply (f_equal (drop (length c))) in E as E2.
  rewrite take_app_length, take_app_le in E1 by done.
  rewrite drop_app_length, drop_app_le in E2 by done.
  exists (drop (length c) a). split; [|done]. rewrite <-E1 at 1. by rewrite take_drop.
Qed.

Lemma tls_look_frame rx q f s :
  rx ++ q = encodeFrame f ++ s -> frame_fits f ->
  (tls_look rx = Ok NeedMore /\ zlen rx < zlen (encodeFrame f))
  \/ exists r, tls_look rx = Ok (Got f r) /\ r ++ q = s.
Proof.
  intros E Hf. pose proof Hf as [_ Hs]. unfold max_frame in Hs.
  pose proof (zlen_encodeFrame f). pose proof (zlen_nonneg (f_body f)).
  rewrite (tls_look_stream rx q f s E) by lia. unfold max_frame.
  destruct (Z.ltb_spec (zlen rx) 4); [left; split; [done|lia]|].
  rewrite (proj2 (Z.ltb_ge _ (zlen (f_body f) + 5))) by lia.
  destruct (Z.ltb_spec (zlen rx) (zlen (encodeFrame f))); [left; done|right].
  destruct (app_cut rx q (encodeFrame f) s E) as (r & -> & ->); [lsize|].
  exists r. by rewrite take_frame_encodeFrame.
Qed.

(** One [recvFrame] on a stream that starts with a fitting frame, however the
    network cut it: the frame comes out and the rest of the stream is kept. *)
Lemma tls_recv_frame f s rx inc :
  frame_fits f -> Forall (fun c => c <> []) inc -> rx ++ concat inc = encodeFrame f ++ s ->
  exists rx' inc', tls_recvFrame (MkConn rx inc) = (Ok (Some f), MkConn rx' inc')
    /\ Forall (fun c => c <> []) inc' /\ rx' ++ concat inc' = s.
Proof.
  intros Hf. unfold tls_recvFrame. cbn [rxBuf incoming].
  revert rx. induction inc as [|c inc IH]; intros rx Hne E; cbn [recv_loop];
    (destruct (tls_look_frame rx _ f s E Hf) as [[-> Hlt]|(r & -> & <-)]; [|eauto 6]).
  - exfalso. cbn [concat] in E. rewrite app_nil_r in E. subst rx.
    rewrite zlen_app in Hlt. pose proof (zlen_nonneg s). lia.
  - inversion Hne as [|? ? Hc Hne']; subst. rewrite bool_decide_eq_false_2 by done.
    cbn [andb]. apply IH; [done|]. cbn [concat] in E. by rewrite <-app_assoc.
Qed.

(** One [recvFrame] on a stream that ends inside a frame: [false], and the
    incomplete bytes stay in the buffer. *)
Lemma tls_recv_truncated f s rx inc :
  frame_fits f -> s <> [] -> Forall (fun c => c <> []) inc ->
  (rx ++ concat inc) ++ s = encodeFrame f ->
  tls_recvFrame (MkConn rx inc) = (Ok None, MkConn (rx ++ concat inc) []).
Proof.
  intros Hf Hs. unfold tls_recvFrame. cbn [rxBuf incoming].
  assert (0 < zlen s) by (destruct s; [done|lsize]).
  revert rx. induction inc as [|c inc IH]; intros rx Hne E; cbn [recv_loop concat] in *.
  all: assert (zlen rx < zlen (encodeFrame f)) as Hlt by (rewrite <-E; lsize).
  all: rewrite <-app_assoc in E.
  all: destruct (tls_look_frame rx _ f [] (eq_trans E (eq_sym (app_nil_r _))) Hf)
         as [[-> _]|(r & _ & Hr)]; [|apply app_eq_nil in Hr as [_ Hr];
         apply app_eq_nil in Hr as [_ Hr]; done].
  - by rewrite app_nil_r.
  - inversion Hne as [|? ? Hc Hne']; subst. rewrite bool_decide_eq_false_2 by done.
    cbn [andb]. rewrite IH; [by rewrite <-app_assoc|done|].
    by rewrite <-!app_assoc in *.
Qed.

(** C26: Stream reassembly. However the network fragments a stream of fitting
    frames (any cut into nonempty pieces, one frame per read, many frames per
    read, one byte at a time), and even if the connection breaks inside a last
    frame, the TLS receive loop delivers exactly the complete frames, in order. *)
Theorem tls_recv_all_frames fs last cut inc :
  Forall frame_fits fs -> frame_fits last -> Forall (fun c => c <> []) inc ->
  (cut < length (encodeFrame last))%nat ->
  concat inc = concat (map encodeFrame fs) ++ take cut (encodeFrame last) ->
  recv_all (S (length fs)) (MkConn [] inc) = Ok fs.
Proof.
  intros Hfs Hl Hne Hcut. change (concat inc) with ([] ++ concat inc).
  generalize (@nil byte) as rx. revert inc Hne.
  induction Hfs as [|f fs Hf Hfs IH]; intros inc Hne rx E.
  - cbn [map concat app] in E. cbn [length recv_all].
    rewrite (tls_recv_truncated last (drop cut (encodeFrame last))); [done|done| |done|].
    + intros Hd. apply (f_equal length) in Hd. rewrite length_drop in Hd. cbn [length] in Hd. lia.
    + by rewrite E, take_drop.
  - cbn [map concat] in E. rewrite <-app_assoc in E.
    destruct (tls_recv_frame f _ rx inc Hf Hne E) as (rx' & inc' & Hr & Hne' & E').
    cbn [length recv_all] in *. rewrite Hr. rewrite (IH inc' Hne' rx' E'). done.
Qed.

(** C38: The TLS receive loop is memory safe: on any buffered and incoming bytes
    whatever it returns [true] or [false], without an access outside the buffer
    and without an exception. *)
Theorem tls_recvFrame_safe c : exists r, (tls_recvFrame c).1 = Ok r.
Proof.
  unfold tls_recvFrame. destruct c as [rx inc]. cbn [rxBuf incoming].
  assert (forall rx, exists l, tls_look rx = Ok l) as Hlook.
  { clear rx. intros rx. unfold tls_look.
    destruct (Z.leb_spec 4 (zlen rx)); [|eauto].
    destruct (get32be_defined rx) as (len & Hg & Hlen); [lsize|]. rewrite Hg. mred.
    unfold max_frame. destruct (Z.ltb_spec len 5), (Z.ltb_spec (4 * 1024 * 1024) len);
      cbn [orb]; eauto.
    destruct (Z.leb_spec (u32 (4 + len)) (zlen rx)) as [Hle|]; [|eauto].
    unfold u32 in Hle. rewrite Z.mod_small in Hle by lia.
    destruct (frame_split rx len Hg) as (f & rest & -> & <- & Hf); unfold max_frame; try lia.
    rewrite take_frame_encodeFrame by done. eauto. }
  revert rx. induction inc as [|c inc IH]; intros rx; cbn [recv_loop];
    destruct (Hlook rx) as [[] ->]; simpl; eauto. case_match; simpl; eauto.
Qed.

(** ** Every frame takes bytes *)
Definition bytes_left (c : Conn) : nat := length (rxBuf c ++ concat (incoming c)).

Lemma tls_look_got rx f r : tls_look rx = Ok (Got f r) -> (length r < length rx)%nat.
Proof.
  unfold tls_look. destruct (Z.leb_spec 4 (zlen rx)); [|done].
  destruct (get32be rx) as [len|e|] eqn:Hg; mred; try done. unfold max_frame.
  destruct (Z.ltb_spec len 5), (Z.ltb_spec (4 * 1024 * 1024) len); cbn [orb]; try done.
  destruct (Z.leb_spec (u32 (4 + len)) (zlen rx)) as [Hle|]; [|done].
  unfold u32 in Hle. rewrite Z.mod_small in Hle by lia.
  destruct (frame_split rx len Hg) as (g & rest & -> & <- & Hf); unfold max_frame; try lia.
  rewrite take_frame_encodeFrame by done. intros [= -> ->].
  pose proof (zlen_encodeFrame f). pose proof (zlen_nonneg (f_body f)). lsize.
Qed.

Lemma tls_recv_consumes c f c' : tls_recvFrame c = (Ok (Some f), c') -> (bytes_left c' < bytes_left c)%nat.
Proof.
  destruct c as [rx inc]. unfold tls_recvFrame, bytes_left. cbn [rxBuf incoming].
  revert rx. induction inc as [|b inc IH]; intros rx; cbn [recv_loop];
    destruct (tls_look rx) as [[g r| |]|e|] eqn:El; try done.
  all: try (intros [= -> <-]; apply tls_look_got in El; cbn [rxBuf incoming concat]; rewrite !length_app; lia).
  case_match; [done|]. intros E. apply IH in E. cbn [concat]. by rewrite <-app_assoc in E.
Qed.

(** The plain TCP loop lacks the TLS loop's [len < 5] test. On any buffer
    whose length field is below 5 and whose announced bytes have arrived, it
    runs into undefined behaviour (the body's iterator range is reversed), where
    the TLS loop drops the buffer and returns [false]. *)
Theorem tcp_recvFrame_short_length rx inc len :
  get32be rx = Ok len -> len < 5 -> 4 + len <= zlen rx ->
  (tcp_recvFrame (MkConn rx inc)).1 = Undef
  /\ tls_recvFrame (MkConn rx inc) = (Ok None, MkConn [] inc).
Proof.
  intros Hg H5 Hl.
  assert (4 <= zlen rx) as H4.
  { unfold zlen. destruct rx as [|? [|? [|? [|? ?]]]]; try discriminate Hg. cbn [length]. lia. }
  destruct (get32be_defined rx) as (len' & Hg' & Hlen); [lsize|].
  rewrite Hg in Hg'. injection Hg' as <-.
  assert (tcp_look rx = Undef) as Htcp.
  { unfold tcp_look, take_frame. rewrite (proj2 (Z.leb_le _ _)), Hg by done. mred.
    rewrite (proj2 (Z.ltb_ge _ _)) by (unfold max_frame; lia).
    assert (u32 (4 + len) = 4 + len) as -> by (unfold u32; rewrite Z.mod_small; lia).
    rewrite (proj2 (Z.leb_le _ _)) by lia.
    assert (slice rx 9 (4 + len) = Undef) as ->.
    { unfold slice. rewrite (proj2 (Z.leb_gt 9 _)) by lia. done. }
    unfold at_. cbn [Z.ltb Z.compare]. destruct (rx !! _); mred; [|done].
    destruct (drop 5 rx) as [|? [|? [|? [|? ?]]]]; done. }
  assert (tls_look rx = Ok Reject) as Htls.
  { unfold tls_look. rewrite (proj2 (Z.leb_le _ _)), Hg by done. mred.
    by rewrite (proj2 (Z.ltb_lt _ _)) by done. }
  unfold tcp_recvFrame, tls_recvFrame. cbn [rxBuf incoming].
  destruct inc; cbn [recv_loop]; by rewrite Htcp, Htls.
Qed.

(** A frame above the limit is lost. The sender's [encodeFrame] has no size
    check; a frame whose body exceeds the limit makes every receive of it return
    [false], however the stream is cut. *)
Theorem tls_recvFrame_oversize f s rx inc :
  max_frame < zlen (f_body f) + 5 < 2 ^ 32 -> rx ++ concat inc = encodeFrame f ++ s ->
  Forall (fun c => c <> []) inc ->
  exists c', tls_recvFrame (MkConn rx inc) = (Ok None, c').
Proof.
  intros [Hm Hlt]. unfold tls_recvFrame. cbn [rxBuf incoming].
  revert rx. induction inc as [|c inc IH]; intros rx E Hne; cbn [recv_loop];
    rewrite (tls_look_stream rx _ f s E Hlt), (proj2 (Z.ltb_lt max_frame _)) by done;
    destruct (Z.ltb_spec (zlen rx) 4); eauto.
  inversion Hne as [|? ? Hc Hne']; subst. rewrite bool_decide_eq_false_2 by done.
  cbn [andb]. apply IH; [|done]. cbn [concat] in E. by rewrite <-app_assoc.
Qed.

(** ** The theorems at work *)

Definition hello : Frame := MkFrame MsgType.HELLO 7 "hi".
Definition bye : Frame := MkFrame MsgType.LOGOUT 8 [].

Lemma tls_recv_all_frames_witness :
  recv_all 2 (MkConn [] [take 5 (encodeFrame hello);
                         drop 5 (encodeFrame hello) ++ take 3 (encodeFrame bye)]) = Ok [hello].
Proof.
  apply (tls_recv_all_frames [hello] bye 3).
  - constructor; [vm_compute; repeat split; discriminate|constructor].
  - vm_compute; repeat split; discriminate.
  - repeat constructor; discriminate.
  - vm_compute; lia.
  - reflexivity.
Defined.

Lemma tcp_recvFrame_short_length_witness :
  let rx := [Byte.x00; Byte.x00; Byte.x00; Byte.x00] in
  (tcp_recvFrame (MkConn rx [])).1 = Undef /\ tls_recvFrame (MkConn rx []) = (Ok None, MkConn [] []).
Proof.
  apply (tcp_recvFrame_short_length [Byte.x00; Byte.x00; Byte.x00; Byte.x00] [] 0);
    [reflexivity|reflexivity|vm_compute; discriminate].
Defined.

(** A download reply of 4 MiB: one frame, one byte of header too many. *)
Definition big_reply : Frame := MkFrame MsgType.DOWNLOAD_DATA 1 (replicate (Z.to_nat max_frame) Byte.x00).

Lemma zlen_big_reply : zlen (f_body big_reply) = max_frame.
Proof. unfold big_reply, zlen. cbn [f_body]. rewrite length_replicate. apply Z2Nat.id. unfold max_frame. lia. Qed.

Lemma tls_recvFrame_oversize_witness :
  exists c', tls_recvFrame (MkConn [] [encodeFrame big_reply]) = (Ok None, c').
Proof.
  apply (tls_recvFrame_oversize big_reply [] [] [encodeFrame big_reply]).
  - rewrite zlen_big_reply. unfold max_frame. split; reflexivity.
  - reflexivity.
  - apply Forall_cons; [|apply Forall_nil]. rewrite encodeFrame_layout. discriminate.
Defined.
