(* ===== verification/Protocol.v ===== *)
(** * Message bodies ([include/presentation/protocol.hpp], [src/presentation/protocol.cpp])

    The six payload codecs. A decoder runs its readers on an offset that starts
    at 0, as the source's lambdas advance the captured [off]; arithmetic on
    offsets is [size_t] arithmetic. *)
From S2P Require Import Prelude Domain Framing.
From Stdlib Require Import ZArith Lia.
From stdpp Require Import base gmap strings list numbers.
Local Open Scope Z_scope.

Record RegisterPayload := MkRegisterPayload { rp_username : str; rp_email : str; rp_password : str }.
Record LoginPayload := MkLoginPayload { lp_username : str; lp_password : str }.
Record AdminPayload := MkAdminPayload { ap_token : str; ap_targetId : str }.
Record UploadInit := MkUploadInit {
  ui_recipient : str; ui_origName : str; ui_uploadId : str;
  ui_size : Z; ui_digest : Digest; ui_wrapped : WrappedKey
}.
Record UploadData := MkUploadData { ud_uploadId : str; ud_offset : Z; ud_chunk : str }.
Record DownloadReq := MkDownloadReq { dr_fileId : str; dr_token : str }.

(** ** The readers *)

(** [readStr] and [readBytes], the lambdas of every decoder. *)
Definition readStr (b : str) : M Z str :=
  off ← get;
  if zlen b <? u64 (off + 4) then throw (ValidationException "short") else
  len ← liftO (get32be (drop (Z.to_nat off) b));
  let off := u64 (off + 4) in
  _ ← put off;
  if zlen b <? u64 (off + len) then throw (ValidationException "short body") else
  s ← liftO (slice b off (off + len));
  _ ← put (u64 (off + len));
  mret s.

(** The fixed-size reads of [decodeUploadInit] and [decodeUploadData]. *)
Definition read64 (b msg : str) : M Z Z :=
  off ← get;
  if zlen b <? u64 (off + 8) then throw (ValidationException msg) else
  x ← liftO (get64be (drop (Z.to_nat off) b));
  _ ← put (u64 (off + 8));
  mret x.
Definition read_digest (b : str) : M Z Digest :=
  off ← get;
  if zlen b <? u64 (off + 32) then throw (ValidationException "short digest") else
  d ← liftO (slice b off (off + 32));
  _ ← put (u64 (off + 32));
  mret (MkDigest d).

(** Running a decoder from [off = 0]. *)
Definition decode_with {A} (r : M Z A) : outcome A := (r 0).1.

(** ** The codecs *)

Definition encodeRegister (u e p : str) : str :=
  putStringWithLen (putStringWithLen (putStringWithLen [] u) e) p.
Definition decodeRegister (b : str) : outcome RegisterPayload :=
  decode_with (
    u ← readStr b; e ← readStr b; p ← readStr b;
    mret (MkRegisterPayload u e p)).

Definition encodeLogin (u p : str) : str :=
  putStringWithLen (putStringWithLen [] u) p.
Definition decodeLogin (b : str) : outcome LoginPayload :=
  decode_with (u ← readStr b; p ← readStr b; mret (MkLoginPayload u p)).

Definition encodeAdmin (token target : str) : str :=
  putStringWithLen (putStringWithLen [] token) target.
Definition decodeAdmin (b : str) : outcome AdminPayload :=
  decode_with (t ← readStr b; x ← readStr b; mret (MkAdminPayload t x)).

Definition encodeUploadInit (p : UploadInit) : str :=
  let out := putStringWithLen [] (ui_recipient p) in
  let out := putStringWithLen out (ui_origName p) in
  let out := putStringWithLen out (ui_uploadId p) in
  let out := put64be out (ui_size p) in
  let out := out ++ d_bytes (ui_digest p) in
  let out := putStringWithLen out (uid_value (recipientId (ui_wrapped p))) in
  let out := putBytesWithLen out (nonce (ui_wrapped p)) in
  let out := putBytesWithLen out (wk_bytes (ui_wrapped p)) in
  putStringWithLen out (alg (ui_wrapped p)).
Definition decodeUploadInit (b : str) : outcome UploadInit :=
  decode_with (
    rcp ← readStr b;
    name ← readStr b;
    up ← readStr b;
    sz ← read64 b "short size";
    dg ← read_digest b;
    recipId ← readStr b;
    n ← readStr b;
    wb ← readStr b;
    a ← readStr b;
    let a := if bool_decide (a = []) then default_alg else a in
    mret (MkUploadInit rcp name up sz dg (MkWrappedKey (MkUserId recipId) n wb a))).

Definition encodeUploadData (p : UploadData) : str :=
  putBytesWithLen (put64be (putStringWithLen [] (ud_uploadId p)) (ud_offset p)) (ud_chunk p).
Definition decodeUploadData (b : str) : outcome UploadData :=
  decode_with (
    up ← readStr b; off ← read64 b "short offset"; c ← readStr b;
    mret (MkUploadData up off c)).

Definition encodeDownloadReq (p : DownloadReq) : str :=
  putStringWithLen (putStringWithLen [] (dr_fileId p)) (dr_token p).
Definition decodeDownloadReq (b : str) : outcome DownloadReq :=
  decode_with (f ← readStr b; t ← readStr b; mret (MkDownloadReq f t)).

(** ** The cursor *)

(** The reader stands at [off] and has [l] left to read. *)
Definition cursor (b : str) (off : Z) (l : str) : Prop :=
  0 <= off /\ off + zlen l = zlen b /\ drop (Z.to_nat off) b = l.

Lemma cursor_start b l : b = l -> cursor b 0 l.
Proof. intros ->. split_and!; lia || done. Qed.

Lemma cursor_start_any b : exists l, l = b /\ cursor b 0 l.
Proof. exists b. split; [done|by apply cursor_start]. Qed.

Lemma cursor_move b off p l :
  cursor b off (p ++ l) -> cursor b (off + zlen p) l.
Proof.
  intros (H0 & Hl & Hd). rewrite zlen_app in Hl. pose proof (zlen_nonneg p).
  split_and!; [lia|lia|].
  rewrite Z2Nat.inj_add, zlen_to_nat, <-drop_drop, Hd by lia. apply drop_app_length.
Qed.

Lemma cursor_slice b off p l :
  cursor b off (p ++ l) -> slice b off (off + zlen p) = Ok p.
Proof.
  intros (H0 & Hl & Hd). rewrite zlen_app in Hl.
  pose proof (zlen_nonneg p). pose proof (zlen_nonneg l).
  rewrite slice_ok by lia. rewrite Hd.
  replace (off + zlen p - off) with (zlen p) by lia.
  rewrite zlen_to_nat. by rewrite take_app_length.
Qed.

Lemma cursor_bounds b off l : cursor b off l -> 0 <= off <= zlen b /\ zlen l <= zlen b.
Proof. intros (H0 & Hl & _). pose proof (zlen_nonneg l). lia. Qed.

(** An unsigned 64-bit sum of in-bounds offsets does not wrap. *)
Lemma u64_small x : 0 <= x < 2 ^ 64 -> u64 x = x.
Proof. apply Z.mod_small. Qed.

(** The wire form of a length-prefixed field. *)
Definition field (s : str) : str := be_bytes 4 (zlen s) ++ s.

Lemma put_field v s : putStringWithLen v s = v ++ field s.
Proof.
  unfold putStringWithLen, field. by rewrite put32be_bytes, be_bytes_u32, <-app_assoc.
Qed.
Lemma put_bytes_field v s : putBytesWithLen v s = v ++ field s.
Proof. exact (put_field v s). Qed.

(** Fields the length prefix can carry. *)
Definition fits (s : str) : Prop := zlen s < 2 ^ 32.

Lemma readStr_field b off s l :
  zlen b <= max_object -> fits s -> cursor b off (field s ++ l) ->
  exists off', readStr b off = (Ok s, off') /\ cursor b off' l.
Proof.
  unfold max_object, fits. intros Hb Hs Hc. pose proof Hc as (H0 & Hl & Hd).
  unfold field in Hl. rewrite !zlen_app, zlen_be_bytes in Hl.
  pose proof (zlen_nonneg s). pose proof (zlen_nonneg l).
  unfold field in Hc. rewrite <-app_assoc in Hc.
  apply cursor_move in Hc as Hc1. rewrite zlen_be_bytes in Hc1.
  apply cursor_move in Hc1 as Hc2. change (Z.of_nat 4) with 4 in *.
  exists (off + 4 + zlen s). split; [|done].
  unfold readStr. mred. rewrite (u64_small (off + 4)) by lia.
  rewrite (proj2 (Z.ltb_ge _ _)) by lia. mred.
  rewrite Hd. unfold field. rewrite <-app_assoc, get32be_put.
  unfold u32. rewrite Z.mod_small by lia. mred.
  rewrite !(u64_small (off + 4 + zlen s)) by lia.
  rewrite (proj2 (Z.ltb_ge _ _)) by lia. mred.
  by rewrite (cursor_slice b _ s l Hc1).
Qed.

Lemma read64_field b off msg x l :
  zlen b <= max_object -> cursor b off (be_bytes 8 x ++ l) ->
  exists off', read64 b msg off = (Ok (u64 x), off') /\ cursor b off' l.
Proof.
  unfold max_object. intros Hb Hc. pose proof Hc as (H0 & Hl & Hd).
  rewrite zlen_app, zlen_be_bytes in Hl. pose proof (zlen_nonneg l).
  apply cursor_move in Hc. rewrite zlen_be_bytes in Hc. change (Z.of_nat 8) with 8 in *.
  exists (off + 8). split; [|done].
  unfold read64. mred. rewrite (u64_small (off + 8)) by lia.
  rewrite (proj2 (Z.ltb_ge _ _)) by lia. mred.
  by rewrite Hd, get64be_put.
Qed.

Lemma read_digest_field b off d l :
  zlen b <= max_object -> zlen d = 32 -> cursor b off (d ++ l) ->
  exists off', read_digest b off = (Ok (MkDigest d), off') /\ cursor b off' l.
Proof.
  unfold max_object. intros Hb Hs Hc. pose proof Hc as (H0 & Hl & Hd).
  rewrite zlen_app in Hl. pose proof (zlen_nonneg l).
  apply cursor_move in Hc as Hc1. rewrite Hs in Hc1.
  exists (off + 32). split; [|done].
  unfold read_digest. mred. rewrite (u64_small (off + 32)) by lia.
  rewrite (proj2 (Z.ltb_ge _ _)) by lia. mred.
  rewrite <-Hs. by rewrite (cursor_slice b off d l Hc).
Qed.

(** ** The readers, inverted

    A reader either finds its field at the cursor and moves past it, or throws
    [ValidationException]; it never reads outside the body. *)
Definition rejected {A} (r : outcome A * Z) : Prop :=
  exists msg off, r = (Throw (ValidationException msg), off).

Lemma readStr_cases b off l :
  zlen b <= max_object -> cursor b off l ->
  (exists s l' off', l = field s ++ l' /\ fits s
     /\ readStr b off = (Ok s, off') /\ cursor b off' l')
  \/ rejected (readStr b off).
Proof.
  unfold max_object, rejected. intros Hb Hc. pose proof (cursor_bounds _ _ _ Hc).
  destruct Hc as (H0 & Hl & Hd).
  unfold readStr. mred. rewrite (u64_small (off + 4)) by lia.
  destruct (Z.ltb_spec (zlen b) (off + 4)) as [|H4]; [right; eauto|].
  destruct (split_at 4 l) as (a & l1 & -> & Ha); [lsize|].
  rewrite Hd, get32be_val by done. mred.
  pose proof (be_val_range a) as Hr. unfold zlen in Hr. rewrite Ha in Hr.
  change (256 ^ Z.of_nat 4) with (2 ^ 32) in Hr.
  rewrite (u64_small (off + 4 + be_val a)) by lia.
  destruct (Z.ltb_spec (zlen b) (off + 4 + be_val a)) as [|Hs]; [right; mred; eauto|].
  left. destruct (zsplit_at (be_val a) l1) as (s & l' & -> & Hsl); [lsize|].
  assert (a = be_bytes 4 (zlen s)) as Hae by (rewrite Hsl, <-Ha; symmetry; apply be_bytes_val).
  assert (cursor b off (a ++ s ++ l')) as Hc by (split_and!; done).
  apply cursor_move in Hc. assert (zlen a = 4) as Ha4 by (unfold zlen; lia).
  rewrite Ha4 in Hc. apply cursor_move in Hc as Hc'.
  exists s, l', (off + 4 + zlen s). unfold field. rewrite <-Hae, <-app_assoc.
  split_and!; [done|unfold fits; lia| |done].
  mred. rewrite <-Hsl. by rewrite (cursor_slice b _ s l' Hc).
Qed.

Lemma read64_cases b msg off l :
  zlen b <= max_object -> cursor b off l ->
  (exists x l' off', l = be_bytes 8 x ++ l' /\ 0 <= x < 2 ^ 64
     /\ read64 b msg off = (Ok x, off') /\ cursor b off' l')
  \/ rejected (read64 b msg off).
Proof.
  unfold max_object, rejected. intros Hb Hc. pose proof (cursor_bounds _ _ _ Hc).
  destruct Hc as (H0 & Hl & Hd).
  unfold read64. mred. rewrite (u64_small (off + 8)) by lia.
  destruct (Z.ltb_spec (zlen b) (off + 8)) as [|H8]; [right; eauto|]. left.
  destruct (split_at 8 l) as (a & l' & -> & Ha); [lsize|].
  assert (zlen a = 8) as Ha8 by (unfold zlen; lia).
  assert (cursor b off (a ++ l')) as Hc by (split_and!; done).
  apply cursor_move in Hc. rewrite Ha8 in Hc.
  pose proof (be_val_range a) as Hr. rewrite Ha8 in Hr.
  exists (be_val a), l', (off + 8). rewrite <-Ha at 1. rewrite be_bytes_val.
  split_and!; [done|lia..| |done]. by rewrite Hd, get64be_val.
Qed.

Lemma read_digest_cases b off l :
  zlen b <= max_object -> cursor b off l ->
  (exists d l' off', l = d ++ l' /\ zlen d = 32
     /\ read_digest b off = (Ok (MkDigest d), off') /\ cursor b off' l')
  \/ rejected (read_digest b off).
Proof.
  unfold max_object, rejected. intros Hb Hc. pose proof (cursor_bounds _ _ _ Hc).
  destruct Hc as (H0 & Hl & Hd).
  unfold read_digest. mred. rewrite (u64_small (off + 32)) by lia.
  destruct (Z.ltb_spec (zlen b) (off + 32)) as [|H8]; [right; eauto|]. left.
  destruct (zsplit_at 32 l) as (d & l' & -> & Ha); [lsize|].
  assert (cursor b off (d ++ l')) as Hc by (split_and!; done).
  apply cursor_move in Hc as Hc'. rewrite Ha in Hc'.
  exists d, l', (off + 32). split_and!; [done..| |done].
  mred. rewrite <-Ha. by rewrite (cursor_slice b off d l' Hc).
Qed.

(** ** Automation for the decoders *)

(** [read_all Hc]: run the readers of a decoder one after the other, each on the
    field the cursor [Hc] stands at. *)
Ltac read_all Hc :=
  mred;
  repeat (
    lazymatch type of Hc with
    | cursor _ _ (field _ ++ _) =>
        destruct (fun H1 H2 => readStr_field _ _ _ _ H1 H2 Hc) as (? & ?Hr & Hc');
          [eassumption|eassumption|]
    | cursor _ _ (be_bytes 8 _ ++ _) =>
        match goal with
        | |- context [read64 _ ?msg _] =>
            destruct (fun H1 => read64_field _ _ msg _ _ H1 Hc) as (? & ?Hr & Hc');
              [eassumption|]
        end
    | cursor _ _ (_ ++ _) =>
        destruct (fun H1 H2 => read_digest_field _ _ _ _ H1 H2 Hc) as (? & ?Hr & Hc');
          [eassumption|eassumption|]
    end;
    clear Hc; rename Hc' into Hc;
    match goal with
    | H : _ = (Ok _, _) |- _ => rewrite H; clear H; mred
    end).

(** What an upload announcement must respect: each field fits its 32-bit length,
    the size is a [uint64_t], the digest has its 32 bytes. *)
Definition UploadInit_ok (p : UploadInit) : Prop :=
  fits (ui_recipient p) /\ fits (ui_origName p) /\ fits (ui_uploadId p)
  /\ 0 <= ui_size p < 2 ^ 64 /\ zlen (d_bytes (ui_digest p)) = 32
  /\ fits (uid_value (recipientId (ui_wrapped p))) /\ fits (nonce (ui_wrapped p))
  /\ fits (wk_bytes (ui_wrapped p)) /\ fits (alg (ui_wrapped p)).

(** The decoder replaces an empty algorithm name by the default. *)
Definition UploadInit_norm (p : UploadInit) : UploadInit :=
  let w := ui_wrapped p in
  MkUploadInit (ui_recipient p) (ui_origName p) (ui_uploadId p) (ui_size p) (ui_digest p)
    (MkWrappedKey (recipientId w) (nonce w) (wk_bytes w)
       (if bool_decide (alg w = []) then default_alg else alg w)).

Lemma encodeUploadInit_layout p :
  encodeUploadInit p =
  field (ui_recipient p) ++ field (ui_origName p) ++ field (ui_uploadId p)
  ++ be_bytes 8 (ui_size p) ++ d_bytes (ui_digest p)
  ++ field (uid_value (recipientId (ui_wrapped p))) ++ field (nonce (ui_wrapped p))
  ++ field (wk_bytes (ui_wrapped p)) ++ field (alg (ui_wrapped p)).
Proof.
  unfold encodeUploadInit. cbv zeta. rewrite ?put_bytes_field, ?put_field, put64be_bytes, ?put_field.
  by rewrite <-!app_assoc.
Qed.

(** [read_back Hc tac]: a decoder's readers, one after the other, on an arbitrary
    body; [tac] closes the case of a rejection. *)
Ltac read_back Hc tac :=
  mred;
  repeat (
    match goal with
    | |- context [readStr ?b ?o] =>
        destruct (fun H => readStr_cases b o _ H Hc)
          as [(?fs & ?fl & ?fo & -> & ? & ?Hr & ?Hnext)|(? & ? & ?Hr)]; [eassumption| |]
    | |- context [read64 ?b ?m ?o] =>
        destruct (fun H => read64_cases b m o _ H Hc)
          as [(?fx & ?fl & ?fo & -> & ? & ?Hr & ?Hnext)|(? & ? & ?Hr)]; [eassumption| |]
    | |- context [read_digest ?b ?o] =>
        destruct (fun H => read_digest_cases b o _ H Hc)
          as [(?fd & ?fl & ?fo & -> & ? & ?Hr & ?Hnext)|(? & ? & ?Hr)]; [eassumption| |]
    end;
    match goal with H : _ = (_, _) |- _ => rewrite H; clear H; mred end;
    [clear Hc; match goal with H : cursor _ _ _ |- _ => rename H into Hc end
    |solve [tac]]).
(** [wire_layout Hc]: the cursor's layout as the encoder's output. *)
Ltac wire_layout Hc :=
  rewrite ?put_bytes_field, ?put_field, ?put64be_bytes, ?put_bytes_field, ?put_field,
    ?app_nil_l, <-?app_assoc in Hc;
  cbn [ud_uploadId ud_offset ud_chunk dr_fileId dr_token] in Hc.

(** The upload announcement codec is exact. A body decodes to [q] exactly when
    it is the encoding of some well-formed announcement [p], possibly followed by
    other bytes, and [q] is [p] with an empty algorithm name replaced by the
    default. *)
Theorem decodeUploadInit_iff b q :
  zlen b <= max_object ->
  decodeUploadInit b = Ok q <->
  exists p junk, UploadInit_ok p /\ b = encodeUploadInit p ++ junk /\ q = UploadInit_norm p.
Proof.
  intros Hb. unfold decodeUploadInit, decode_with. split.
  - destruct (cursor_start_any b) as (l & E & Hc).
    read_back Hc ltac:(intros ?; discriminate). intros [= <-].
    exists (MkUploadInit fs fs0 fs1 fx (MkDigest fd) (MkWrappedKey (MkUserId fs2) fs3 fs4 fs5)), fl.
    split_and!; [done| |done].
    rewrite encodeUploadInit_layout, <-!app_assoc. done.
  - intros (p & junk & (?&?&?&?&?&?&?&?&?) & E & ->).
    pose proof (cursor_start b _ E) as Hc.
    rewrite encodeUploadInit_layout, <-!app_assoc in Hc. clear E.
    read_all Hc. rewrite u64_small by done.
    unfold UploadInit_norm. by destruct p as [? ? ? ? [] [[] ? ? ?]].
Qed.

(** [codec_exact]: the two directions of a codec's exactness, for the decoders
    whose payload is the record of its fields. *)
Ltac codec_exact b enc :=
  split;
  [ let l := fresh "l" in let E := fresh "E" in let Hc := fresh "Hc" in
    destruct (cursor_start_any b) as (l & E & Hc);
    read_back Hc ltac:(intros ?; discriminate); intros ?; simplify_eq;
    repeat (split; [assumption|]); eexists; unfold enc;
    rewrite ?put_bytes_field, ?put_field, ?put64be_bytes, ?put_bytes_field, ?put_field;
    cbn [app]; rewrite <-?app_assoc; reflexivity
  | intros;
    repeat match goal with
      | H : _ /\ _ |- _ => destruct H
      | H : exists _, _ |- _ => destruct H
      end;
    match goal with
    | E : b = _ |- _ =>
        let Hc := fresh "Hc" in pose proof (cursor_start b _ E) as Hc;
        unfold enc in Hc; wire_layout Hc; clear E; read_all Hc;
        rewrite ?u64_small by lia; reflexivity
    end ].

Lemma decodeUploadData_iff b up off c :
  zlen b <= max_object ->
  decodeUploadData b = Ok (MkUploadData up off c) <->
  fits up /\ 0 <= off < 2 ^ 64 /\ fits c
  /\ exists junk, b = encodeUploadData (MkUploadData up off c) ++ junk.
Proof.
  intros Hb. unfold decodeUploadData, decode_with. codec_exact b encodeUploadData.
Qed.

Lemma decodeRegister_iff b u e p :
  zlen b <= max_object ->
  decodeRegister b = Ok (MkRegisterPayload u e p) <->
  fits u /\ fits e /\ fits p /\ exists junk, b = encodeRegister u e p ++ junk.
Proof.
  intros Hb. unfold decodeRegister, decode_with. codec_exact b encodeRegister.
Qed.

Lemma decodeLogin_iff b u p :
  zlen b <= max_object ->
  decodeLogin b = Ok (MkLoginPayload u p) <->
  fits u /\ fits p /\ exists junk, b = encodeLogin u p ++ junk.
Proof.
  intros Hb. unfold decodeLogin, decode_with. codec_exact b encodeLogin.
Qed.

Lemma decodeAdmin_iff b t x :
  zlen b <= max_object ->
  decodeAdmin b = Ok (MkAdminPayload t x) <->
  fits t /\ fits x /\ exists junk, b = encodeAdmin t x ++ junk.
Proof.
  intros Hb. unfold decodeAdmin, decode_with. codec_exact b encodeAdmin.
Qed.

Lemma decodeDownloadReq_iff b f t :
  zlen b <= max_object ->
  decodeDownloadReq b = Ok (MkDownloadReq f t) <->
  fits f /\ fits t /\ exists junk, b = encodeDownloadReq (MkDownloadReq f t) ++ junk.
Proof.
  intros Hb. unfold decodeDownloadReq, decode_with. codec_exact b encodeDownloadReq.
Qed.

(** C35: The request codecs are exact: a register, login, administration, upload
    data or download body decodes to a payload exactly when it is the encoding of
    that payload, possibly followed by other bytes. *)
Theorem request_codecs_exact b :
  zlen b <= max_object ->
  (forall u e p, decodeRegister b = Ok (MkRegisterPayload u e p) <->
     fits u /\ fits e /\ fits p /\ exists junk, b = encodeRegister u e p ++ junk)
  /\ (forall u p, decodeLogin b = Ok (MkLoginPayload u p) <->
     fits u /\ fits p /\ exists junk, b = encodeLogin u p ++ junk)
  /\ (forall t x, decodeAdmin b = Ok (MkAdminPayload t x) <->
     fits t /\ fits x /\ exists junk, b = encodeAdmin t x ++ junk)
  /\ (forall up off c, decodeUploadData b = Ok (MkUploadData up off c) <->
     fits up /\ 0 <= off < 2 ^ 64 /\ fits c
     /\ exists junk, b = encodeUploadData (MkUploadData up off c) ++ junk)
  /\ (forall f t, decodeDownloadReq b = Ok (MkDownloadReq f t) <->
     fits f /\ fits t /\ exists junk, b = encodeDownloadReq (MkDownloadReq f t) ++ junk).
Proof.
  intros Hb. split_and!; intros.
  - by apply decodeRegister_iff.
  - by apply decodeLogin_iff.
  - by apply decodeAdmin_iff.
  - by apply decodeUploadData_iff.
  - by apply decodeDownloadReq_iff.
Qed.

(** What a decoder may do with an arbitrary body: return a payload or throw
    [ValidationException]. *)
Definition accepts_or_rejects {A} (o : outcome A) : Prop :=
  match o with
  | Ok _ | Throw (ValidationException _) => True
  | _ => False
  end.

(** [read_safe f b]: the decoder [f], run on the arbitrary body [b]. *)
Ltac read_safe f b :=
  unfold f, decode_with;
  let Hc := fresh "Hc" in
  destruct (cursor_start_any b) as (? & _ & Hc); read_back Hc ltac:(exact I); exact I.

(** C36: The decoders are memory safe on hostile input: for every body, each of
    the six decoders returns a payload or throws [ValidationException]; none
    reads outside the body or throws anything else. *)
Theorem decoders_safe b :
  zlen b <= max_object ->
  accepts_or_rejects (decodeRegister b) /\ accepts_or_rejects (decodeLogin b)
  /\ accepts_or_rejects (decodeAdmin b) /\ accepts_or_rejects (decodeUploadInit b)
  /\ accepts_or_rejects (decodeUploadData b) /\ accepts_or_rejects (decodeDownloadReq b).
Proof.
  intros Hb. split_and!.
  - read_safe decodeRegister b.
  - read_safe decodeLogin b.
  - read_safe decodeAdmin b.
  - read_safe decodeUploadInit b.
  - read_safe decodeUploadData b.
  - read_safe decodeDownloadReq b.
Qed.

(** ** The theorems at work *)

Definition demo_init : UploadInit :=
  MkUploadInit "bob" "plan.pdf" "u-1" 12 zero_Digest
    (MkWrappedKey (MkUserId "id") (replicate 12 Byte.x01) "key" []).

Lemma decodeUploadInit_iff_witness :
  decodeUploadInit (encodeUploadInit demo_init ++ lit "junk") = Ok (UploadInit_norm demo_init).
Proof.
  apply (decodeUploadInit_iff (encodeUploadInit demo_init ++ lit "junk")); [vm_compute; discriminate|].
  exists demo_init, (lit "junk"). split; [vm_compute; repeat split; discriminate|]. split; reflexivity.
Defined.

Lemma request_codecs_exact_witness :
  decodeLogin (encodeLogin "alice" "secret" ++ lit "junk") = Ok (MkLoginPayload "alice" "secret").
Proof.
  apply (request_codecs_exact (encodeLogin "alice" "secret" ++ lit "junk")); [vm_compute; discriminate|].
  split; [reflexivity|]. split; [reflexivity|]. exists (lit "junk"). reflexivity.
Defined.

Lemma decoders_safe_witness :
  let b : str := [Byte.xff; Byte.xff; Byte.xff; Byte.xff; Byte.x00] in
  accepts_or_rejects (decodeRegister b) /\ accepts_or_rejects (decodeUploadInit b).
Proof.
  destruct (decoders_safe [Byte.xff; Byte.xff; Byte.xff; Byte.xff; Byte.x00])
    as (H1 & _ & _ & H2 & _); [vm_compute; discriminate|]. split; [exact H1|exact H2].
Defined.
