(* ===== verification/Sha256.v ===== *)
(** * SHA-256 ([include/infrastructure/sha256.hpp], namespace [real_sha256])

    The hash used for session tokens and for the audit chain, as the source
    computes it: 32-bit words reduced modulo [2^32], the padding loop, the
    message schedule, the 64 rounds, block after block. *)
From S2P Require Import Prelude Domain Framing.
From Stdlib Require Import ZArith Lia.
From stdpp Require Import base gmap strings list numbers.
Local Open Scope Z_scope.

(** ** The round functions *)

Definition ch (x y z : Z) : Z := Z.lxor (Z.land x y) (Z.land (u32 (Z.lnot x)) z).
Definition maj (x y z : Z) : Z := Z.lxor (Z.lxor (Z.land x y) (Z.land x z)) (Z.land y z).
Definition rotr (x n : Z) : Z := Z.lor (Z.shiftr x n) (u32 (Z.shiftl x (32 - n))).
Definition bsig0 (x : Z) : Z := Z.lxor (Z.lxor (rotr x 2) (rotr x 13)) (rotr x 22).
Definition bsig1 (x : Z) : Z := Z.lxor (Z.lxor (rotr x 6) (rotr x 11)) (rotr x 25).
Definition ssig0 (x : Z) : Z := Z.lxor (Z.lxor (rotr x 7) (rotr x 18)) (Z.shiftr x 3).
Definition ssig1 (x : Z) : Z := Z.lxor (Z.lxor (rotr x 17) (rotr x 19)) (Z.shiftr x 10).

(** The value of a hexadecimal numeral, and the words of eight digits a row of
    them spells. *)
Definition hex_digit (c : byte) : Z :=
  if is_digit c then b2z c - 48 else b2z c - 87.
Definition hex_value (s : str) : Z := fold_left (fun x c => 16 * x + hex_digit c) s 0.
Definition hex_words (row : str) : list Z :=
  map (fun i => hex_value (take 8 (drop (8 * i) row))) (seq 0 (length row / 8)).

Definition k : list Z := Eval vm_compute in flat_map hex_words [
  ("428a2f9871374491b5c0fbcfe9b5dba53956c25b59f111f1923f82a4ab1c5ed5" : str);
  ("d807aa9812835b01243185be550c7dc372be5d7480deb1fe9bdc06a7c19bf174" : str);
  ("e49b69c1efbe47860fc19dc6240ca1cc2de92c6f4a7484aa5cb0a9dc76f988da" : str);
  ("983e5152a831c66db00327c8bf597fc7c6e00bf3d5a7914706ca635114292967" : str);
  ("27b70a852e1b21384d2c6dfc53380d13650a7354766a0abb81c2c92e92722c85" : str);
  ("a2bfe8a1a81a664bc24b8b70c76c51a3d192e819d6990624f40e3585106aa070" : str);
  ("19a4c1161e376c082748774c34b0bcb5391c0cb34ed8aa4a5b9cca4f682e6ff3" : str);
  ("748f82ee78a5636f84c878148cc7020890befffaa4506cebbef9a3f7c67178f2" : str)].

(** ** Padding *)

(** [while((data.size()*8)%512 != 448) data.push_back(0);] at most 63 rounds. *)
Fixpoint pad_zeros (fuel : nat) (data : str) : str :=
  match fuel with
  | O => data
  | S n => if u64 (zlen data * 8) mod 512 =? 448 then data
           else pad_zeros n (data ++ [Byte.x00])
  end.

Definition pad (msg : str) : str :=
  let bitlen := u64 (zlen msg * 8) in
  let data := pad_zeros 64 (msg ++ [Byte.x80]) in
  put64be data bitlen.

(** ** One block *)

(** The 16 words of a block, then the schedule's recurrence. *)
Definition word_at (block : str) (i : nat) : Z :=
  let b j := b2z (nth (i * 4 + j) block Byte.x00) in
  Z.lor (Z.lor (Z.lor (Z.shiftl (b 0%nat) 24) (Z.shiftl (b 1%nat) 16))
               (Z.shiftl (b 2%nat) 8)) (b 3%nat).

Definition wn (w : list Z) (i : nat) : Z := nth i w 0.

Definition schedule_step (w : list Z) (i : nat) : list Z :=
  w ++ [u32 (ssig1 (wn w (i - 2)) + wn w (i - 7) + ssig0 (wn w (i - 15)) + wn w (i - 16))].

Definition schedule (block : str) : list Z :=
  fold_left schedule_step (seq 16 48) (map (word_at block) (seq 0 16)).

(** The working variables [a] to [h] of the rounds; also the chaining value. *)
Record Vars := MkVars { va : Z; vb : Z; vc : Z; vd : Z; ve : Z; vf : Z; vg : Z; vh : Z }.

Definition h0 : Vars := MkVars
  0x6a09e667 0xbb67ae85 0x3c6ef372 0xa54ff53a 0x510e527f 0x9b05688c 0x1f83d9ab 0x5be0cd19.

Definition round (w : list Z) (v : Vars) (i : nat) : Vars :=
  let '(MkVars a b c d e f g hh) := v in
  let t1 := u32 (hh + bsig1 e + ch e f g + wn k i + wn w i) in
  let t2 := u32 (bsig0 a + maj a b c) in
  MkVars (u32 (t1 + t2)) a b c (u32 (d + t1)) e f g.

Definition add_vars (v w : Vars) : Vars :=
  let '(MkVars a b c d e f g h) := v in
  let '(MkVars a' b' c' d' e' f' g' h') := w in
  MkVars (u32 (a + a')) (u32 (b + b')) (u32 (c + c')) (u32 (d + d'))
         (u32 (e + e')) (u32 (f + f')) (u32 (g + g')) (u32 (h + h')).

Definition compress (h : Vars) (block : str) : Vars :=
  add_vars h (fold_left (round (schedule block)) (seq 0 64) h).

(** [for(size_t chunk=0; chunk<data.size(); chunk+=64)]: the rounds are bounded
    by the number of bytes. *)
Fixpoint blocks (fuel : nat) (h : Vars) (data : str) : Vars :=
  match fuel, data with
  | O, _ | _, [] => h
  | S n, _ => blocks n (compress h (take 64 data)) (drop 64 data)
  end.

Definition vars_list (v : Vars) : list Z :=
  let '(MkVars a b c d e f g h) := v in [a; b; c; d; e; f; g; h].

Definition hash_bytes (msg : str) : str :=
  let data := pad msg in
  let h := blocks (length data) h0 data in
  concat (map (fun x => [z2b (Z.land (Z.shiftr x 24) 255); z2b (Z.land (Z.shiftr x 16) 255);
                         z2b (Z.land (Z.shiftr x 8) 255); z2b (Z.land x 255)]) (vars_list h)).

(** [real_sha256::hex]. *)
Definition sha256_hex (s : str) : str := hex_of (hash_bytes s).

Example sha256_empty :
  sha256_hex [] = lit "e3b0c44298fc1c149afbf4c8996fb92427ae41e4649b934ca495991b7852b855".
Proof. vm_compute. reflexivity. Qed.

(** ** Lengths and alphabet *)

Lemma length_hash_bytes msg : length (hash_bytes msg) = 32%nat.
Proof. unfold hash_bytes. by destruct (blocks _ _ _). Qed.

Definition is_hexdig (b : byte) : Prop := b ∈ hex_digits.

Lemma hexdig_is_hexdig n : is_hexdig (hexdig n).
Proof.
  unfold is_hexdig, hexdig. apply list_elem_of_In, nth_In.
  pose proof (Z.mod_pos_bound n 16 ltac:(lia)). simpl. lia.
Qed.

Lemma hex_of_hexdig v : Forall is_hexdig (hex_of v).
Proof.
  unfold hex_of. induction v as [|b v IH]; [constructor|].
  cbn. do 2 (constructor; [apply hexdig_is_hexdig|]). exact IH.
Qed.

(** Two digits determine a byte, and the digits of a string the string. *)
Lemma hex_value_hex2 b : hex_value (hex2 b) = b2z b.
Proof. destruct b; reflexivity. Qed.

#[export] Instance hex_of_inj : Inj (=) (=) hex_of.
Proof.
  intros a. induction a as [|x a IH]; intros [|y b] E; try done.
  change (hex2 x ++ hex_of a = hex2 y ++ hex_of b) in E.
  apply app_inj_1 in E as [E1 E2]; [|done].
  apply (f_equal hex_value) in E1. rewrite !hex_value_hex2 in E1.
  by rewrite (inj b2z _ _ E1), (IH b E2).
Qed.

Lemma length_sha256_hex s : length (sha256_hex s) = 64%nat.
Proof. unfold sha256_hex. by rewrite length_hex_of, length_hash_bytes. Qed.

Lemma sha256_hex_hexdig s : Forall is_hexdig (sha256_hex s).
Proof. apply hex_of_hexdig. Qed.

(** ** The padding *)

Lemma bits_mod_512 d : d * 8 mod 512 = d mod 64 * 8.
Proof. apply (Z.mul_mod_distr_r d 64 8); lia. Qed.

Lemma pad_zeros_app f n data :
  zlen data + Z.of_nat n < 2 ^ 60 -> (n < f)%nat ->
  (forall i, (i < n)%nat -> (zlen data + Z.of_nat i) mod 64 <> 56) ->
  (zlen data + Z.of_nat n) mod 64 = 56 ->
  pad_zeros f data = data ++ replicate n Byte.x00.
Proof.
  revert f data. induction n as [|n IH]; intros f data Hb Hf Hn He;
    (destruct f as [|f]; [lia|]); cbn [pad_zeros replicate];
    unfold u64; rewrite (Z.mod_small _ (2 ^ 64)), bits_mod_512 by (pose proof (zlen_nonneg data); lia).
  - rewrite app_nil_r, Z.add_0_r in *. by destruct (Z.eqb_spec (zlen data mod 64 * 8) 448); [|lia].
  - pose proof (Hn 0%nat ltac:(lia)) as H0. rewrite Z.add_0_r in H0.
    destruct (Z.eqb_spec (zlen data mod 64 * 8) 448) as [E|_]; [lia|].
    rewrite IH; rewrite ?zlen_app, ?zlen_cons, ?zlen_nil; try lia.
    + by rewrite <-app_assoc.
    + intros i Hlt. specialize (Hn (S i) ltac:(lia)). intros E. apply Hn. rewrite <-E. f_equal. lia.
    + rewrite <-He. f_equal. lia.
Qed.

(** The padding loop terminates with the FIPS 180-4 padding: for every
    message of less than 2^57 bytes, the padded data is the message, one [0x80]
    byte, fewer than 64 zero bytes and the 64-bit bit length, and its length is a
    multiple of the 64-byte block. *)
Theorem pad_fips msg :
  zlen msg < 2 ^ 57 ->
  exists z, (z < 64)%nat
    /\ pad msg = msg ++ Byte.x80 :: replicate z Byte.x00 ++ be_bytes 8 (8 * zlen msg)
    /\ zlen (pad msg) mod 64 = 0.
Proof.
  intros Hm. pose proof (zlen_nonneg msg).
  destruct (Z.mod_pos_bound (55 - zlen msg) 64 ltac:(lia)) as [Hz1 Hz2].
  pose proof (Z.div_mod (55 - zlen msg) 64 ltac:(lia)) as Hq.
  set (z := (55 - zlen msg) mod 64) in *. set (q := (55 - zlen msg) / 64) in *.
  clearbody z q. assert (0 <= z < 64) as Hz by done.
  assert (forall i, 0 <= i < 64 -> (zlen msg + 1 + i) mod 64 = 56 <-> i = z) as Hi.
  { intros i Hi. split; [intros E|intros ->].
    - pose proof (Z.div_mod (zlen msg + 1 + i) 64 ltac:(lia)). lia.
    - replace (zlen msg + 1 + z) with (56 + - q * 64) by lia. by rewrite Z.mod_add. }
  exists (Z.to_nat z). split; [lia|].
  assert (pad msg = msg ++ Byte.x80 :: replicate (Z.to_nat z) Byte.x00
                    ++ be_bytes 8 (8 * zlen msg)) as E.
  { unfold pad. rewrite (pad_zeros_app 64 (Z.to_nat z)); rewrite ?zlen_app, ?zlen_cons, ?zlen_nil;
      try lia.
    - rewrite put64be_bytes, be_bytes_u64, <-!app_assoc. cbn [app].
      by rewrite (Z.mul_comm 8).
    - intros i Hlt E. apply Hi in E; lia.
    - apply Hi; lia. }
  split; [done|]. rewrite E, !zlen_app, zlen_cons, zlen_app, zlen_be_bytes.
  assert (zlen (replicate (Z.to_nat z) Byte.x00) = z) as ->
    by (unfold zlen; rewrite length_replicate; lia).
  replace (zlen msg + (z + Z.of_nat 8 + 1)) with (zlen msg + 1 + z + 8) by lia.
  pose proof (proj2 (Hi z Hz) eq_refl). rewrite Z.add_mod by lia.
  by rewrite (proj2 (Hi z Hz) eq_refl).
Qed.

Lemma pad_fips_witness :
  exists z, (z < 64)%nat
    /\ pad "abc" = lit "abc" ++ Byte.x80 :: replicate z Byte.x00 ++ be_bytes 8 (8 * zlen (lit "abc"))
    /\ zlen (pad "abc") mod 64 = 0.
Proof. apply (pad_fips "abc"). reflexivity. Defined.

(** Only its length and alphabet matter to the components that use the hash. *)
#[global] Opaque hash_bytes sha256_hex.
