(* ===== verification/Ports.v ===== *)
(** * Ports: the interfaces between services and infrastructure ([include/ports/*.hpp])

    Each abstract class is a [Class] of operations over the state type of the
    implementation: a [const] member reads the state, the others are monadic
    operations on it. Next to it stands the contract the services rely on: a
    class of laws over an abstract model of the state. The components the
    services share (the objects [ServerApp::run] creates once and passes by
    pointer) are the fields of one record, so that what one service changes
    the others see. *)
From S2P Require Import Prelude Domain.
From Stdlib Require Import ZArith Lia.
From stdpp Require Import base gmap strings list numbers.
Local Open Scope Z_scope.

(** ** The interfaces *)

Class IUserRepository (R : Type) := {
  findByUsername : str -> R -> outcome (Result User);
  findByEmail : str -> R -> outcome (Result User);
  findById : UserId -> R -> outcome (Result User);
  saveUser : User -> str -> M R unit;
  update : User -> M R unit;
  updateHash : UserId -> str -> M R unit;
  recordLoginFailure : UserId -> Z -> M R unit;
  setLoginFailure : UserId -> Z -> Z -> M R unit;
  resetLoginFailures : UserId -> M R unit;
  getEncodedHash : UserId -> R -> outcome str;
  listAll : R -> outcome (list User)
}.

Class IPasswordHasher (H : Type) := {
  hash : str -> M H str;
  verify : str -> str -> H -> outcome bool
}.

(** [createForUser] draws the token from the process-wide generator. *)
Class ISessionStore (S : Type) := {
  createForUser : UserId -> Z -> M (S * Rng) SessionId;
  findByToken : SessionId -> S -> outcome (Result Session);
  invalidate : SessionId -> M S bool;
  invalidateAllForUser : UserId -> M S Z;
  isValid : SessionId -> Z -> S -> outcome bool;
  userFor : SessionId -> S -> outcome UserId
}.

Class IAuditLogger (A : Type) := {
  record : AuditEvent -> M A unit;
  allEvents : A -> outcome (list AuditEvent)
}.

Class IStorage (St : Type) := {
  write : str -> str -> M St unit;
  read : str -> St -> outcome str;
  stagedWrite : str -> str -> M St unit;
  removeStaged : str -> M St unit
}.

Class IKeyDirectory (K : Type) := {
  savePubkey : UserId -> str -> M K unit;
  getPubkey : UserId -> K -> outcome str;
  keyExists : UserId -> K -> outcome bool;
  listKeys : K -> outcome (list UserId)
}.

Class IFileRepository (F : Type) := {
  saveFile : FileRecord -> M F unit;
  findFile : FileId -> F -> outcome (Result FileRecord);
  findByOwner : UserId -> F -> outcome (list FileRecord);
  existsUploadId : str -> F -> outcome bool
}.

Class ITransferRepository (T : Type) := {
  saveTransfer : Transfer -> M T unit;
  findTransfer : TransferId -> T -> outcome (Result Transfer);
  listFor : UserId -> T -> outcome (list Transfer)
}.

Class IFileValidator := {
  validate : str -> Z -> str -> outcome unit
}.

(** ** The shared components *)

(** What [AuthService] and [AdminService] point to. *)
Record Core (R H S A : Type) := MkCore {
  users : R; hasher : H; sessions : S; audit : A; clock : Clock; rng : Rng
}.
Arguments MkCore {R H S A}. Arguments users {R H S A}. Arguments hasher {R H S A}.
Arguments sessions {R H S A}. Arguments audit {R H S A}. Arguments clock {R H S A}.
Arguments rng {R H S A}.

Section Core.
Context {R H S A : Type}.
Local Abbreviation core := (Core R H S A).

Definition set_users (x : R) (c : core) : core :=
  MkCore x (hasher c) (sessions c) (audit c) (clock c) (rng c).
Definition set_hasher (x : H) (c : core) : core :=
  MkCore (users c) x (sessions c) (audit c) (clock c) (rng c).
Definition set_sessions (x : S) (c : core) : core :=
  MkCore (users c) (hasher c) x (audit c) (clock c) (rng c).
Definition set_audit (x : A) (c : core) : core :=
  MkCore (users c) (hasher c) (sessions c) x (clock c) (rng c).
Definition set_clock (x : Clock) (c : core) : core :=
  MkCore (users c) (hasher c) (sessions c) (audit c) x (rng c).
Definition set_rng (x : Rng) (c : core) : core :=
  MkCore (users c) (hasher c) (sessions c) (audit c) (clock c) x.

Definition on_users {X} (m : M R X) : M core X := zoom users set_users m.
Definition on_hasher {X} (m : M H X) : M core X := zoom hasher set_hasher m.
Definition on_sessions {X} (m : M S X) : M core X := zoom sessions set_sessions m.
Definition on_audit {X} (m : M A X) : M core X := zoom audit set_audit m.
Definition on_clock {X} (m : M Clock X) : M core X := zoom clock set_clock m.
Definition on_rng {X} (m : M Rng X) : M core X := zoom rng set_rng m.
Definition on_sessions_rng {X} (m : M (S * Rng) X) : M core X :=
  zoom (fun c => (sessions c, rng c))
       (fun sr c => set_rng sr.2 (set_sessions sr.1 c)) m.
Definition from_users {X} (f : R -> outcome X) : M core X := reads (fun c => f (users c)).
Definition from_hasher {X} (f : H -> outcome X) : M core X := reads (fun c => f (hasher c)).
Definition from_sessions {X} (f : S -> outcome X) : M core X := reads (fun c => f (sessions c)).
End Core.

(** What [TransferService] adds. *)
Record World (R H S A St K F T : Type) := MkWorld {
  core : Core R H S A; storage : St; keys : K; files : F; transfers : T
}.
Arguments MkWorld {R H S A St K F T}. Arguments core {R H S A St K F T}.
Arguments storage {R H S A St K F T}. Arguments keys {R H S A St K F T}.
Arguments files {R H S A St K F T}. Arguments transfers {R H S A St K F T}.

Section World.
Context {R H S A St K F T : Type}.
Local Abbreviation world := (World R H S A St K F T).

Definition set_core (x : Core R H S A) (w : world) : world :=
  MkWorld x (storage w) (keys w) (files w) (transfers w).
Definition set_storage (x : St) (w : world) : world :=
  MkWorld (core w) x (keys w) (files w) (transfers w).
Definition set_keys (x : K) (w : world) : world :=
  MkWorld (core w) (storage w) x (files w) (transfers w).
Definition set_files (x : F) (w : world) : world :=
  MkWorld (core w) (storage w) (keys w) x (transfers w).
Definition set_transfers (x : T) (w : world) : world :=
  MkWorld (core w) (storage w) (keys w) (files w) x.

Definition on_core {X} (m : M (Core R H S A) X) : M world X := zoom core set_core m.
Definition on_storage {X} (m : M St X) : M world X := zoom storage set_storage m.
Definition on_keys {X} (m : M K X) : M world X := zoom keys set_keys m.
Definition on_files {X} (m : M F X) : M world X := zoom files set_files m.
Definition on_transfers {X} (m : M T X) : M world X := zoom transfers set_transfers m.
Definition from_storage {X} (f : St -> outcome X) : M world X := reads (fun w => f (storage w)).
Definition from_keys {X} (f : K -> outcome X) : M world X := reads (fun w => f (keys w)).
Definition from_files {X} (f : F -> outcome X) : M world X := reads (fun w => f (files w)).
Definition from_transfers {X} (f : T -> outcome X) : M world X := reads (fun w => f (transfers w)).
End World.

(** ** The contract of a user repository

    The abstract state is a table from identifiers to accounts with their
    encoded password hash, in which identifiers, user names and e-mail
    addresses are unique. *)
Definition UserTable : Type := gmap str (User * str).

Definition user_ok (u : User) : Prop :=
  uid_value (id_ u) <> [] /\ username_ u <> [] /\ email_ u <> [].

Record table_ok (m : gmap str (User * str)) : Prop := {
  tab_key : forall k u h, m !! k = Some (u, h) -> uid_value (id_ u) = k;
  tab_user : forall k u h, m !! k = Some (u, h) -> user_ok u;
  tab_username : forall k1 k2 u1 h1 u2 h2,
    m !! k1 = Some (u1, h1) -> m !! k2 = Some (u2, h2) ->
    username_ u1 = username_ u2 -> k1 = k2;
  tab_email : forall k1 k2 u1 h1 u2 h2,
    m !! k1 = Some (u1, h1) -> m !! k2 = Some (u2, h2) ->
    email_ u1 = email_ u2 -> k1 = k2
}.

(** The account that bears a name or an address. *)
Definition named (m : gmap str (User * str)) (n : str) (u : User) (h : str) : Prop :=
  m !! uid_value (id_ u) = Some (u, h) /\ username_ u = n.
Definition addressed (m : gmap str (User * str)) (e : str) (u : User) (h : str) : Prop :=
  m !! uid_value (id_ u) = Some (u, h) /\ email_ u = e.

Lemma named_unique m n u h u' h' :
  table_ok m -> named m n u h -> named m n u' h' -> u = u' /\ h = h'.
Proof.
  intros Hm [H1 E1] [H2 E2].
  pose proof (tab_username m Hm _ _ _ _ _ _ H1 H2 ltac:(congruence)) as E.
  rewrite E in H1. rewrite H1 in H2. by injection H2.
Qed.

(** An insertion that would break uniqueness. *)
Definition conflict (m : gmap str (User * str)) (u : User) : Prop :=
  is_Some (m !! uid_value (id_ u))
  \/ (exists v h, named m (username_ u) v h) \/ (exists v h, addressed m (email_ u) v h).

(** The lockout rule both repositories implement: the counter goes up, and from
    the fifth failure on the account is locked for 15 minutes from [now]. *)
Definition lockout_ms : Z := 15 * 60 * 1000.
Definition fail_login (u : User) (now : Z) : outcome User :=
  fails ← add_i32 (failedAttempts_ u) 1;
  lock ← (if 5 <=? fails then add_i64 now lockout_ms else Ok (lockoutUntil_ u));
  Ok (setLockout lock fails u).

Definition not_found {T} : Result T := failure "not found".

(** Every account of [m'] is in [m], with the same hash, up to its counters. *)
Definition but_counters (m m' : gmap str (User * str)) : Prop :=
  forall k u h, m' !! k = Some (u, h) ->
    exists u0, m !! k = Some (u0, h) /\ setLockout 0 0 u = setLockout 0 0 u0.

Class UserRepositoryLaws (R : Type) `{!IUserRepository R} := {
  ur_model : R -> gmap str (User * str);
  ur_inv : R -> Prop;
  ur_table r : ur_inv r -> table_ok (ur_model r);
  ur_findById r id : ur_inv r ->
    findById id r = Ok (match ur_model r !! uid_value id with
                        | Some (u, _) => success u | None => not_found end);
  ur_findByUsername r n : ur_inv r ->
    (exists u h, named (ur_model r) n u h /\ findByUsername n r = Ok (success u))
    \/ ((forall u h, ~ named (ur_model r) n u h) /\ findByUsername n r = Ok not_found);
  ur_findByEmail r e : ur_inv r ->
    (exists u h, addressed (ur_model r) e u h /\ findByEmail e r = Ok (success u))
    \/ ((forall u h, ~ addressed (ur_model r) e u h) /\ findByEmail e r = Ok not_found);
  ur_save r u h : ur_inv r -> user_ok u ->
    exists o r', saveUser u h r = (o, r') /\ ur_inv r'
      /\ ((conflict (ur_model r) u /\ (exists m, o = Throw (ValidationException m))
             /\ ur_model r' = ur_model r)
          \/ (~ conflict (ur_model r) u /\ o = Ok tt
             /\ ur_model r' = <[uid_value (id_ u) := (u, h)]> (ur_model r)));
  ur_update r u u0 h : ur_inv r ->
    ur_model r !! uid_value (id_ u) = Some (u0, h) ->
    username_ u = username_ u0 -> email_ u = email_ u0 ->
    exists r', update u r = (Ok tt, r') /\ ur_inv r'
      /\ ur_model r' = <[uid_value (id_ u) := (u, h)]> (ur_model r);
  ur_recordLoginFailure r id now u h u' : ur_inv r ->
    ur_model r !! uid_value id = Some (u, h) -> fail_login u now = Ok u' ->
    exists r', recordLoginFailure id now r = (Ok tt, r') /\ ur_inv r'
      /\ ur_model r' = <[uid_value id := (u', h)]> (ur_model r);
  ur_resetLoginFailures r id u h : ur_inv r ->
    ur_model r !! uid_value id = Some (u, h) ->
    exists r', resetLoginFailures id r = (Ok tt, r') /\ ur_inv r'
      /\ ur_model r' = <[uid_value id := (setLockout 0 0 u, h)]> (ur_model r);
  (** whatever their outcome, these two move only counters *)
  ur_counters r id now m : m = recordLoginFailure id now \/ m = resetLoginFailures id ->
    ur_inv r -> ur_inv (m r).2 /\ but_counters (ur_model r) (ur_model (m r).2);
  ur_getEncodedHash r id u h : ur_inv r ->
    ur_model r !! uid_value id = Some (u, h) -> getEncodedHash id r = Ok h;
  ur_listAll r : ur_inv r ->
    exists l, listAll r = Ok l /\ l ≡ₚ map (fun x => x.2.1) (map_to_list (ur_model r))
}.

(** ** The contract of a password hasher

    Checking never throws, and the hash of a password accepts that password. *)
Class PasswordHasherLaws (H : Type) `{!IPasswordHasher H} := {
  ph_verify enc pw h : exists b, verify enc pw h = Ok b;
  ph_round pw h enc h' : hash pw h = (Ok enc, h') -> verify enc pw h' = Ok true
}.

(** ** The contract of an audit logger

    A logger in good order keeps every acceptable event, after the events it
    has, with the actor, action and file it was given. *)
Class AuditLoggerLaws (A : Type) `{!IAuditLogger A} := {
  au_inv : A -> Prop;
  au_good : AuditEvent -> Prop;
  au_events : A -> list AuditEvent;
  au_record a e : au_inv a -> au_good e -> exists a' e', record e a = (Ok tt, a') /\ au_inv a'
    /\ au_events a' = au_events a ++ [e']
    /\ actor e' = actor e /\ action e' = action e /\ fileId e' = fileId e
}.

(** ** The contract of a session store

    The abstract state is a partial map from tokens to sessions. *)
Class SessionStoreLaws (S : Type) `{!ISessionStore S} := {
  ss_model : S -> SessionId -> option Session;
  ss_find s t : findByToken t s = Ok (match ss_model s t with
                                     | Some x => success x | None => not_found end);
  ss_isValid s t now : isValid t now s = Ok (match ss_model s t with
                                             | Some x => Session_isValid x now
                                             | None => false end);
  ss_userFor s t : userFor t s = match ss_model s t with
                                 | Some x => Ok (s_userId x)
                                 | None => Throw (AuthException "Login failed") end;
  (** every session of the user is revoked, the others are as before *)
  ss_invalidateAll s u : exists n s', invalidateAllForUser u s = (Ok n, s')
    /\ forall t, ss_model s' t =
         match ss_model s t with
         | Some x => Some (if decide (s_userId x = u) then Session_revoke x else x)
         | None => None
         end;
  (** the session of the token is revoked; no other session comes back to life *)
  ss_invalidate s t : exists s', invalidate t s = (Ok (bool_decide (is_Some (ss_model s t))), s')
    /\ ss_model s' t = Session_revoke <$> ss_model s t
    /\ forall t', ss_model s' t' = ss_model s t' \/ ss_model s' t' = Session_revoke <$> ss_model s t';
  (** the new token stands for a fresh one-hour session; other tokens are as before *)
  ss_create s r u now : int64_ok (now + 3600 * 1000) = true ->
    exists tok s' r' x, createForUser u now (s, r) = (Ok tok, (s', r'))
      /\ ss_model s' tok = Some x /\ s_userId x = u
      /\ createdAt x = now /\ expiresAt x = now + 3600 * 1000 /\ revoked x = false
      /\ forall t, ss_model s' t = ss_model s t \/ ss_model s' t = Some x
}.

(** ** The contract of a blob storage

    Writes may fail. A write that returns stores the whole blob; one that throws
    leaves the old blob or none, never a part of the new one. Only the blob
    itself and its staging entry are touched. *)
Definition staging (k : str) : str := ("tmp." : str) ++ k ++ (".part" : str).

Class StorageLaws (St : Type) `{!IStorage St} := {
  st_inv : St -> Prop;
  st_blob : St -> str -> option str;
  (** identifiers the storage takes, and states in which nothing will fail *)
  st_usable : str -> Prop;
  st_reliable : St -> Prop;
  st_read s k : st_inv s -> st_usable k ->
    match st_blob s k with
    | Some d => read k s = Ok d
    | None => exists m, read k s = Throw (NotFoundException m)
    end;
  st_staged s k d : st_inv s -> st_usable k ->
    exists o s', stagedWrite k d s = (o, s') /\ st_inv s'
      /\ (forall k', k' <> k -> k' <> staging k -> st_blob s' k' = st_blob s k')
      /\ ((o = Ok tt /\ st_blob s' k = Some d)
          \/ ((exists e, o = Throw e) /\ (st_blob s' k = st_blob s k \/ st_blob s' k = None)))
      /\ (st_reliable s -> o = Ok tt /\ st_reliable s');
  st_remove s k : st_inv s -> st_usable k ->
    exists s', removeStaged k s = (Ok tt, s') /\ st_inv s'
      /\ (forall k', k' <> k -> k' <> staging k -> st_blob s' k' = st_blob s k')
      /\ (st_blob s' k = st_blob s k \/ st_blob s' k = None)
      /\ (st_reliable s -> st_blob s' k = None /\ st_reliable s')
}.

(** ** The contract of a file repository

    The abstract state is a table of records in which identifiers, upload
    identifiers and storage identifiers are unique. A save that throws changes
    nothing; a reliable repository throws on a conflict only. *)
Record files_ok (m : gmap str FileRecord) : Prop := {
  fo_key : forall k r, m !! k = Some r -> fid_value (fr_id r) = k;
  fo_upload : forall k1 k2 r1 r2, m !! k1 = Some r1 -> m !! k2 = Some r2 ->
    uploadId r1 = uploadId r2 -> k1 = k2;
  fo_storage : forall k1 k2 r1 r2, m !! k1 = Some r1 -> m !! k2 = Some r2 ->
    storageId r1 = storageId r2 -> k1 = k2
}.

(** The record would be the second with one of its identifiers. *)
Definition file_conflict (m : gmap str FileRecord) (r : FileRecord) : Prop :=
  is_Some (m !! fid_value (fr_id r))
  \/ exists k r', m !! k = Some r' /\ (uploadId r' = uploadId r \/ storageId r' = storageId r).

(** The record with another name and algorithm on its wrapped key: a repository
    need not keep these two, which the services never read. *)
Definition relabel (rid : UserId) (a : str) (r : FileRecord) : FileRecord :=
  MkFileRecord (fr_id r) (owner r) (origName r) (storageId r) (fr_size r) (digest r)
    (MkWrappedKey rid (nonce (wrapped r)) (wk_bytes (wrapped r)) a) (recipient r) (uploadId r) (fr_createdAt r).

Definition file_ok (r : FileRecord) : Prop :=
  fid_value (fr_id r) <> [] /\ uploadId r <> [] /\ storageId r <> [].

Class FileRepositoryLaws (F : Type) `{!IFileRepository F} := {
  fr_inv : F -> Prop;
  fr_model : F -> gmap str FileRecord;
  fr_reliable : F -> Prop;
  fr_table f : fr_inv f -> files_ok (fr_model f);
  fr_find f id : fr_inv f ->
    findFile id f = Ok (match fr_model f !! fid_value id with
                        | Some r => success r | None => not_found end);
  fr_exists f u : fr_inv f ->
    exists b, existsUploadId u f = Ok b
      /\ (b = true <-> exists k r, fr_model f !! k = Some r /\ uploadId r = u);
  fr_save f r : fr_inv f -> file_ok r ->
    exists o f', saveFile r f = (o, f') /\ fr_inv f'
      /\ ((o = Ok tt /\ ~ file_conflict (fr_model f) r
             /\ exists rid a, fr_model f' = <[fid_value (fr_id r) := relabel rid a r]> (fr_model f))
          \/ ((exists e, o = Throw e) /\ (fr_reliable f -> file_conflict (fr_model f) r)
             /\ fr_model f' = fr_model f))
}.

(** ** The contract of a public-key directory: a partial map to 32-byte keys,
    each user's written once. *)
Class KeyDirectoryLaws (K : Type) `{!IKeyDirectory K} := {
  kd_model : K -> gmap str str;
  kd_exists k u : uid_value u <> [] ->
    keyExists u k = Ok (bool_decide (is_Some (kd_model k !! uid_value u)));
  kd_get k u pub : kd_model k !! uid_value u = Some pub -> uid_value u <> [] ->
    getPubkey u k = Ok pub;
  kd_save k u pub : exists o k', savePubkey u pub k = (o, k')
    /\ ((o = Ok tt /\ uid_value u <> [] /\ zlen pub = 32 /\ kd_model k !! uid_value u = None
           /\ kd_model k' = <[uid_value u := pub]> (kd_model k))
        \/ ((exists m, o = Throw (ValidationException m)) /\ k' = k))
}.

(** ** The contract of a file validator: it accepts or throws. *)
Class FileValidatorLaws `{!IFileValidator} := {
  fv_defined n size hdr : defined (validate n size hdr)
}.

(** ** The contract of a transfer repository

    A save that returns adds the transfer; one that throws adds nothing. *)
Class TransferRepositoryLaws (T : Type) `{!ITransferRepository T} := {
  tr_model : T -> gmap str Transfer;
  tr_save t x : exists o t', saveTransfer x t = (o, t')
    /\ ((o = Ok tt /\ tr_model t' = <[tid_value (t_id x) := x]> (tr_model t))
        \/ ((exists e, o = Throw e) /\ tr_model t' = tr_model t))
}.

(** ** What the services do to the shared components *)

(** [audit_->record(...)]. *)
Definition audit_event {R H S A} `{!IAuditLogger A} (e : AuditEvent) : M (Core R H S A) unit :=
  on_audit (record e).

Section Shared.
Context {R H S A : Type} `{!IUserRepository R, !ISessionStore S, !IAuditLogger A}.
Context `{!UserRepositoryLaws R, !SessionStoreLaws S, !AuditLoggerLaws A}.
Local Abbreviation core := (Core R H S A).

(** The accounts and sessions behind the components. *)
Definition table (c : core) : gmap str (User * str) := ur_model (users c).
Definition session (c : core) (t : SessionId) : option Session := ss_model (sessions c) t.
Definition core_ok (c : core) : Prop := ur_inv (users c) /\ au_inv (audit c).

(** The reading the next call of the clock gives. *)
Definition time (c : core) : Z := clk_reading (clock c) (clk_tick (clock c)).

(** What was logged between two states. *)
Definition logged (c c' : core) (l : list (str * str * str)) : Prop :=
  map (fun e => (actor e, action e, fileId e)) (au_events (audit c'))
  = map (fun e => (actor e, action e, fileId e)) (au_events (audit c)) ++ l.

(** The parts of the state other than the log. *)
Definition beside_audit (c : core) : R * H * S * Clock * Rng :=
  (users c, hasher c, sessions c, clock c, rng c).

(** An event is recorded: everything else is untouched. *)
Lemma audit_event_ok (e : AuditEvent) (c : core) :
  au_inv (audit c) -> au_good e ->
  exists c', audit_event e c = (Ok tt, c') /\ beside_audit c' = beside_audit c
    /\ au_inv (audit c') /\ logged c c' [(actor e, action e, fileId e)].
Proof.
  intros Hi Hg. destruct (au_record (audit c) e Hi Hg) as (a' & e' & E & Hi' & Hl & H1 & H2 & H3).
  exists (set_audit a' c). unfold audit_event, on_audit, zoom. rewrite E.
  split; [done|]. split; [done|]. split; [done|].
  unfold logged. cbn. rewrite Hl, map_app. cbn. by rewrite H1, H2, H3.
Qed.

(** The state with one more reading of the clock. *)
Definition tick (c : core) : core :=
  set_clock (MkClock (clk_reading (clock c)) (Datatypes.S (clk_tick (clock c)))) c.

(** [m] returns in a good state as [P] says, with the hasher in state [hs]. *)
Definition returns {X} (m : outcome X * core) (hs : H) (c : core) (P : X -> core -> Prop) : Prop :=
  exists r c', m = (Ok r, c') /\ core_ok c' /\ P r c' /\ hasher c' = hs /\ clock c' = clock c.

Lemma log_and_return {X} (e : AuditEvent) (x : X) (c c1 : core) (P : X -> core -> Prop) :
  core_ok c1 -> au_good e -> clock c1 = clock c ->
  (forall c', table c' = table c1 -> session c' = session c1 ->
     logged c1 c' [(actor e, action e, fileId e)] -> P x c') ->
  returns ((_ ← audit_event e; mret x) c1) (hasher c1) c P.
Proof.
  intros [Hu Ha] Hg Hcl HP. destruct (audit_event_ok e c1 Ha Hg) as (c' & E & Hb & Ha' & Hl).
  unfold beside_audit in Hb. injection Hb as H1 H2 H3 H4 H5.
  exists x, c'. rewrite M_bind_eq, E. split; [done|]. unfold core_ok. rewrite H1.
  split; [done|]. split; [|split; congruence].
  apply HP; [by unfold table; rewrite H1|by unfold session; rewrite H3|done].
Qed.

End Shared.

(** Which parts an operation on one component leaves alone. *)
Section Frames.
Context {R H S A : Type}.
Local Abbreviation core := (Core R H S A).

Lemma steps_any {T X} (m : M T X) : steps (fun _ _ => True) m.
Proof. done. Qed.

Lemma on_audit_frame {X T} (m : M A X) (f : core -> T) :
  (forall a c, f (set_audit a c) = f c) -> steps (same f) (on_audit m).
Proof. intros Hf. eapply steps_zoom; [apply steps_any|]. intros. apply Hf. Qed.
Lemma on_clock_frame {X T} (m : M Clock X) (f : core -> T) :
  (forall a c, f (set_clock a c) = f c) -> steps (same f) (on_clock m).
Proof. intros Hf. eapply steps_zoom; [apply steps_any|]. intros. apply Hf. Qed.
Lemma on_sessions_frame {X T} (m : M S X) (f : core -> T) :
  (forall a c, f (set_sessions a c) = f c) -> steps (same f) (on_sessions m).
Proof. intros Hf. eapply steps_zoom; [apply steps_any|]. intros. apply Hf. Qed.
Lemma on_users_frame {X T} (m : M R X) (f : core -> T) :
  (forall a c, f (set_users a c) = f c) -> steps (same f) (on_users m).
Proof. intros Hf. eapply steps_zoom; [apply steps_any|]. intros. apply Hf. Qed.
End Frames.
#[export] Hint Resolve on_audit_frame on_clock_frame on_sessions_frame on_users_frame : steps.
