(* ===== verification/Users.v ===== *)
(** * [MemoryUserRepository] ([memory_user_repo.hpp], [memory_user_repo.cpp])

    Four hash maps: accounts by identifier, the two indexes, the encoded hashes.
    The representation invariant ties them together; under it the repository
    satisfies the contract of [Ports]. *)
From S2P Require Import Prelude Domain Ports.
From Stdlib Require Import ZArith Lia.
From stdpp Require Import base gmap strings list numbers.
Local Open Scope Z_scope.

Module MemoryUserRepository.

Record t := Mk {
  usersById_ : gmap str User;
  usernameToId_ : gmap str str;
  emailToId_ : gmap str str;
  hashById_ : gmap str str
}.

Definition empty : t := Mk ∅ ∅ ∅ ∅.

Definition set_usersById (x : gmap str User) (r : t) : t :=
  Mk x (usernameToId_ r) (emailToId_ r) (hashById_ r).

Definition findByUsername (n : str) (r : t) : outcome (Result User) :=
  match usernameToId_ r !! n with
  | None => Ok (failure "not found")
  | Some id =>
      match usersById_ r !! id with
      | None => Ok (failure "not found")
      | Some u => Ok (success u)
      end
  end.

Definition findByEmail (e : str) (r : t) : outcome (Result User) :=
  match emailToId_ r !! e with
  | None => Ok (failure "not found")
  | Some id =>
      match usersById_ r !! id with
      | None => Ok (failure "not found")
      | Some u => Ok (success u)
      end
  end.

Definition findById (id : UserId) (r : t) : outcome (Result User) :=
  match usersById_ r !! uid_value id with
  | None => Ok (failure "not found")
  | Some u => Ok (success u)
  end.

Definition save (u : User) (encodedHash : str) : M t unit :=
  r ← get;
  if bool_decide (is_Some (usernameToId_ r !! username_ u)) then
    throw (ValidationException "username exists") else
  if bool_decide (is_Some (emailToId_ r !! email_ u)) then
    throw (ValidationException "email exists") else
  if bool_decide (is_Some (usersById_ r !! uid_value (id_ u))) then
    throw (ValidationException "id exists") else
  put (Mk (emplace (uid_value (id_ u)) u (usersById_ r))
          (emplace (username_ u) (uid_value (id_ u)) (usernameToId_ r))
          (emplace (email_ u) (uid_value (id_ u)) (emailToId_ r))
          (emplace (uid_value (id_ u)) encodedHash (hashById_ r))).

Definition update (u : User) : M t unit :=
  r ← get;
  match usersById_ r !! uid_value (id_ u) with
  | None => throw (NotFoundException "not found")
  | Some old =>
      if negb (bool_decide (username_ old = username_ u))
         || negb (bool_decide (email_ old = email_ u))
      then throw (ValidationException "username/email immutable")
      else put (set_usersById (<[uid_value (id_ u) := u]> (usersById_ r)) r)
  end.

Definition updateHash (id : UserId) (h : str) : M t unit :=
  r ← get;
  if bool_decide (is_Some (usersById_ r !! uid_value id)) then
    put (Mk (usersById_ r) (usernameToId_ r) (emailToId_ r)
            (<[uid_value id := h]> (hashById_ r)))
  else throw (NotFoundException "not found").

Definition recordLoginFailure (id : UserId) (now : Z) : M t unit :=
  r ← get;
  match usersById_ r !! uid_value id with
  | None => throw (NotFoundException "not found")
  | Some u =>
      fails ← liftO (add_i32 (failedAttempts_ u) 1);
      lockout ← (if 5 <=? fails then liftO (add_i64 now (15 * 60 * 1000))
                 else mret (lockoutUntil_ u));
      put (set_usersById (<[uid_value id := setLockout lockout fails u]> (usersById_ r)) r)
  end.

(** The overload [recordLoginFailure(id, f, until)]. *)
Definition setLoginFailure (id : UserId) (f until : Z) : M t unit :=
  r ← get;
  match usersById_ r !! uid_value id with
  | None => throw (NotFoundException "not found")
  | Some u => put (set_usersById (<[uid_value id := setLockout until f u]> (usersById_ r)) r)
  end.

Definition resetLoginFailures (id : UserId) : M t unit :=
  r ← get;
  match usersById_ r !! uid_value id with
  | None => throw (NotFoundException "not found")
  | Some u => put (set_usersById (<[uid_value id := setLockout 0 0 u]> (usersById_ r)) r)
  end.

Definition getEncodedHash (id : UserId) (r : t) : outcome str :=
  match hashById_ r !! uid_value id with
  | None => Throw (NotFoundException "hash not found")
  | Some h => Ok h
  end.

(** The order of an [unordered_map]'s elements is unspecified; the model's is
    the one of [map_to_list]. *)
Definition listAll (r : t) : outcome (list User) :=
  Ok (map snd (map_to_list (usersById_ r))).

#[global] Instance ops : IUserRepository t := {
  Ports.findByUsername := findByUsername;
  Ports.findByEmail := findByEmail;
  Ports.findById := findById;
  Ports.saveUser := save;
  Ports.update := update;
  Ports.updateHash := updateHash;
  Ports.recordLoginFailure := recordLoginFailure;
  Ports.setLoginFailure := setLoginFailure;
  Ports.resetLoginFailures := resetLoginFailures;
  Ports.getEncodedHash := getEncodedHash;
  Ports.listAll := listAll
}.

(** ** The representation invariant and the abstract table *)

Record inv (r : t) : Prop := {
  inv_id : forall k u, usersById_ r !! k = Some u -> uid_value (id_ u) = k /\ user_ok u;
  inv_username : forall k u, usersById_ r !! k = Some u ->
    usernameToId_ r !! username_ u = Some k;
  inv_email : forall k u, usersById_ r !! k = Some u -> emailToId_ r !! email_ u = Some k;
  inv_username' : forall n k, usernameToId_ r !! n = Some k ->
    exists u, usersById_ r !! k = Some u /\ username_ u = n;
  inv_email' : forall e k, emailToId_ r !! e = Some k ->
    exists u, usersById_ r !! k = Some u /\ email_ u = e;
  inv_hash : forall k, is_Some (hashById_ r !! k) <-> is_Some (usersById_ r !! k)
}.

Definition model (r : t) : gmap str (User * str) :=
  map_zip_with pair (usersById_ r) (hashById_ r).

Lemma model_lookup r k u h :
  model r !! k = Some (u, h) <-> usersById_ r !! k = Some u /\ hashById_ r !! k = Some h.
Proof.
  unfold model. rewrite map_lookup_zip_with_Some. split.
  - by intros (x & y & [= -> ->] & ? & ?).
  - intros [? ?]. by exists u, h.
Qed.

Lemma inv_empty : inv empty.
Proof.
  split; cbn; intros *; rewrite ?lookup_empty; try discriminate.
  by rewrite !is_Some_alt.
Qed.

Lemma model_empty : model empty = ∅.
Proof. unfold model. cbn. apply map_zip_with_empty. Qed.

(** An account replaced by one that bears the same identifier, name and
    address: the same keys are bound, to accounts that look the same. *)
Definition alike (u v : User) : Prop :=
  id_ u = id_ v /\ username_ u = username_ v /\ email_ u = email_ v.

Lemma alike_ok u v : alike u v -> user_ok v -> user_ok u.
Proof. unfold alike, user_ok. intros (-> & -> & ->). done. Qed.

Lemma lookup_alike (m : gmap str User) k u u' k1 :
  m !! k = Some u -> alike u' u ->
  (forall v, <[k := u']> m !! k1 = Some v -> exists w, m !! k1 = Some w /\ alike v w)
  /\ (forall w, m !! k1 = Some w -> exists v, <[k := u']> m !! k1 = Some v /\ alike v w).
Proof.
  intros Hk Ha. destruct (decide (k = k1)) as [<-|Hne].
  - rewrite lookup_insert_eq. split; intros v Hv; simplify_eq; eauto.
  - rewrite lookup_insert_ne by done. split; intros v Hv; exists v; done.
Qed.

Section Inv.
Context (r : t) (Hinv : inv r).

Lemma model_user k u : usersById_ r !! k = Some u -> exists h, model r !! k = Some (u, h).
Proof using Hinv.
  intros Hu. destruct (proj2 (inv_hash r Hinv k)) as [h Hh]; [by eexists|].
  exists h. by apply model_lookup.
Qed.

Lemma model_none k : usersById_ r !! k = None <-> model r !! k = None.
Proof using Hinv.
  split; intros Hk.
  - destruct (model r !! k) as [[u h]|] eqn:E; [|done].
    apply model_lookup in E as [E _]. congruence.
  - destruct (usersById_ r !! k) as [u|] eqn:E; [|done].
    apply model_user in E as [h E]. congruence.
Qed.

Lemma users_of_model : usersById_ r = fst <$> model r.
Proof using Hinv.
  apply map_eq. intros k. rewrite lookup_fmap.
  destruct (usersById_ r !! k) as [u|] eqn:E.
  - by destruct (model_user _ _ E) as [h ->].
  - by rewrite (proj1 (model_none _) E).
Qed.

Lemma inv_table : table_ok (model r).
Proof using Hinv.
  destruct Hinv as [Hid Hun Hem _ _ _].
  split; intros *; rewrite !model_lookup.
  - intros [H _]. by apply Hid.
  - intros [H _]. by eapply Hid.
  - intros [H1 _] [H2 _] E. apply Hun in H1, H2. congruence.
  - intros [H1 _] [H2 _] E. apply Hem in H1, H2. congruence.
Qed.

Lemma inv_replace k u u' h :
  model r !! k = Some (u, h) -> alike u' u ->
  inv (set_usersById (<[k := u']> (usersById_ r)) r)
  /\ model (set_usersById (<[k := u']> (usersById_ r)) r) = <[k := (u', h)]> (model r).
Proof using Hinv.
  intros Hk Ha. apply model_lookup in Hk as [Hu Hh].
  pose proof (fun k1 => proj1 (lookup_alike _ k u u' k1 Hu Ha)) as Hback.
  pose proof (fun k1 => proj2 (lookup_alike _ k u u' k1 Hu Ha)) as Hforth.
  destruct Hinv as [Hid Hun Hem Hun' Hem' Hha]. split.
  - split; cbn.
    + intros k1 v (w & Hw & Hal)%Hback. pose proof Hal as (-> & _).
      split; [by apply Hid|]. eapply alike_ok; [done|by eapply Hid].
    + intros k1 v (w & Hw & _ & -> & _)%Hback. by apply Hun.
    + intros k1 v (w & Hw & _ & _ & ->)%Hback. by apply Hem.
    + intros n k1 (w & Hw & <-)%Hun'. destruct (Hforth _ _ Hw) as (v & Hv & _ & Hvw & _).
      by exists v.
    + intros e k1 (w & Hw & <-)%Hem'. destruct (Hforth _ _ Hw) as (v & Hv & _ & _ & Hvw).
      by exists v.
    + intros k1. rewrite Hha. split; intros [w Hw].
      * destruct (Hforth _ _ Hw) as (v & Hv & _). by eexists.
      * destruct (Hback _ _ Hw) as (v & Hv & _). by eexists.
  - unfold model. cbn. rewrite <-(insert_id (hashById_ r) k h) at 1 by done.
    by rewrite map_insert_zip_with.
Qed.

(** The indexes find exactly the accounts of the table. *)
Lemma by_username n :
  match usernameToId_ r !! n with
  | Some k => exists u h, usersById_ r !! k = Some u /\ named (model r) n u h
  | None => forall u h, ~ named (model r) n u h
  end.
Proof using Hinv.
  destruct (usernameToId_ r !! n) as [k|] eqn:E.
  - destruct (inv_username' r Hinv _ _ E) as (u & Hu & Hn).
    destruct (model_user _ _ Hu) as [h Hm]. exists u, h. unfold named.
    by rewrite (proj1 (inv_id r Hinv _ _ Hu)).
  - intros u h [[Hu _]%model_lookup <-]. apply (inv_username r Hinv) in Hu. congruence.
Qed.

Lemma by_email e :
  match emailToId_ r !! e with
  | Some k => exists u h, usersById_ r !! k = Some u /\ addressed (model r) e u h
  | None => forall u h, ~ addressed (model r) e u h
  end.
Proof using Hinv.
  destruct (emailToId_ r !! e) as [k|] eqn:E.
  - destruct (inv_email' r Hinv _ _ E) as (u & Hu & Hn).
    destruct (model_user _ _ Hu) as [h Hm]. exists u, h. unfold addressed.
    by rewrite (proj1 (inv_id r Hinv _ _ Hu)).
  - intros u h [[Hu _]%model_lookup <-]. apply (inv_email r Hinv) in Hu. congruence.
Qed.

(** A new account whose identifier, name and address are all unused. *)
Lemma inv_add u h :
  user_ok u -> ~ conflict (model r) u ->
  let r' := Mk (<[uid_value (id_ u) := u]> (usersById_ r))
               (<[username_ u := uid_value (id_ u)]> (usernameToId_ r))
               (<[email_ u := uid_value (id_ u)]> (emailToId_ r))
               (<[uid_value (id_ u) := h]> (hashById_ r)) in
  inv r' /\ model r' = <[uid_value (id_ u) := (u, h)]> (model r).
Proof using Hinv.
  intros Hok Hc.
  assert (Hk : usersById_ r !! uid_value (id_ u) = None).
  { apply model_none, eq_None_not_Some. intros H. apply Hc. by left. }
  assert (Hn : forall k v, usersById_ r !! k = Some v -> username_ u <> username_ v
                                                        /\ email_ u <> email_ v).
  { intros k v Hv. destruct (model_user _ _ Hv) as [hv Hm].
    pose proof (proj1 (inv_id r Hinv _ _ Hv)) as Hkv. rewrite <-Hkv in Hm.
    split; intros E; apply Hc; right; [left|right]; exists v, hv; by split. }
  destruct Hinv as [Hid Hun Hem Hun' Hem' Hha]. split; [|unfold model; by rewrite map_insert_zip_with].
  split; cbn.
  - intros k v [[<- <-]|[_ H]]%lookup_insert_Some; [done|by apply Hid].
  - intros k v [[<- <-]|[Hne H]]%lookup_insert_Some; [apply lookup_insert_eq|].
    rewrite lookup_insert_ne; [by apply Hun|by eapply Hn].
  - intros k v [[<- <-]|[Hne H]]%lookup_insert_Some; [apply lookup_insert_eq|].
    rewrite lookup_insert_ne; [by apply Hem|by eapply Hn].
  - intros n k [[<- <-]|[Hne (v & Hv & <-)%Hun']]%lookup_insert_Some.
    { exists u. by rewrite lookup_insert_eq. }
    exists v. rewrite lookup_insert_ne; [done|]. intros <-. congruence.
  - intros n k [[<- <-]|[Hne (v & Hv & <-)%Hem']]%lookup_insert_Some.
    { exists u. by rewrite lookup_insert_eq. }
    exists v. rewrite lookup_insert_ne; [done|]. intros <-. congruence.
  - intros k. rewrite !lookup_insert_is_Some, Hha. done.
Qed.
End Inv.

(** [save] refuses exactly the accounts that conflict with the table. *)
Lemma save_spec r u h : inv r -> user_ok u ->
  exists o r', save u h r = (o, r') /\ inv r'
    /\ ((conflict (model r) u /\ (exists m, o = Throw (ValidationException m))
           /\ model r' = model r)
        \/ (~ conflict (model r) u /\ o = Ok tt
           /\ model r' = <[uid_value (id_ u) := (u, h)]> (model r))).
Proof.
  intros Hinv Hok. unfold save. mred.
  pose proof (by_username r Hinv (username_ u)) as Hn.
  pose proof (by_email r Hinv (email_ u)) as He.
  destruct (usernameToId_ r !! username_ u) as [k|] eqn:En.
  { rewrite bool_decide_eq_true_2 by (by eexists). eexists _, _. split; [done|].
    split; [done|]. left. split; [|eauto]. destruct Hn as (v & hv & _ & Hv).
    right. left. eauto. }
  rewrite bool_decide_eq_false_2 by (by intros [? ?]).
  destruct (emailToId_ r !! email_ u) as [k|] eqn:Ee.
  { rewrite bool_decide_eq_true_2 by (by eexists). eexists _, _. split; [done|].
    split; [done|]. left. split; [|eauto]. destruct He as (v & hv & _ & Hv).
    right. right. eauto. }
  rewrite bool_decide_eq_false_2 by (by intros [? ?]).
  destruct (usersById_ r !! uid_value (id_ u)) as [v|] eqn:Ei.
  { rewrite bool_decide_eq_true_2 by (by eexists). eexists _, _. split; [done|].
    split; [done|]. left. split; [|eauto]. left.
    destruct (model_user r Hinv _ _ Ei) as [hv Hm]. by eexists. }
  rewrite bool_decide_eq_false_2 by (by intros [? ?]). unfold put.
  rewrite !emplace_fresh; try done.
  2:{ apply eq_None_not_Some. rewrite (inv_hash r Hinv), Ei. by intros [? ?]. }
  assert (Hc : ~ conflict (model r) u).
  { intros [Hs|[(v & hv & Hv)|(v & hv & Hv)]]; [|by eapply Hn|by eapply He].
    apply (model_none r Hinv) in Ei. rewrite Ei in Hs. by destruct Hs. }
  destruct (inv_add r Hinv u h Hok Hc) as [Hi Hm].
  eexists _, _. split; [done|]. split; [exact Hi|]. by right.
Qed.

#[global] Program Instance laws : UserRepositoryLaws t := {
  ur_model := model;
  ur_inv := inv
}.
Next Obligation. apply inv_table. Qed.
Next Obligation.
  intros r id Hinv. cbn. unfold findById.
  destruct (usersById_ r !! uid_value id) as [u|] eqn:E.
  - destruct (model_user r Hinv _ _ E) as [h ->]. done.
  - rewrite (proj1 (model_none r Hinv _) E). done.
Qed.
Next Obligation.
  intros r n Hinv. cbn. unfold findByUsername. pose proof (by_username r Hinv n) as H.
  destruct (usernameToId_ r !! n) as [k|]; [|by right].
  destruct H as (u & h & -> & Hn). left. eauto.
Qed.
Next Obligation.
  intros r n Hinv. cbn. unfold findByEmail. pose proof (by_email r Hinv n) as H.
  destruct (emailToId_ r !! n) as [k|]; [|by right].
  destruct H as (u & h & -> & Hn). left. eauto.
Qed.
Next Obligation. intros. by apply save_spec. Qed.
Next Obligation.
  intros r u u0 h Hinv Hm En Ee. cbn. unfold update. mred.
  pose proof Hm as [Hu _]%model_lookup. rewrite Hu.
  rewrite !bool_decide_eq_true_2 by done. cbn. eexists. split; [done|].
  apply (inv_replace r Hinv _ u0); [done|].
  split; [|done]. destruct (id_ u) as [i] eqn:E, (id_ u0) as [j] eqn:E'.
  pose proof (proj1 (inv_id r Hinv _ _ Hu)) as Hid. rewrite E' in Hid. cbn in Hid.
  by subst.
Qed.
Next Obligation.
  intros r id now u h u' Hinv Hm Hf. cbn. unfold recordLoginFailure. mred.
  pose proof Hm as [Hu _]%model_lookup. rewrite Hu.
  unfold fail_login in Hf. mred.
  destruct (add_i32 (failedAttempts_ u) 1) as [f|e|]; [|done..]. cbn in Hf |- *.
  change (15 * 60 * 1000) with lockout_ms.
  destruct (5 <=? f); [destruct (add_i64 now lockout_ms) as [l|e|]; [|done..]|];
    cbn in Hf |- *; injection Hf as <-; (eexists; split; [done|]);
    by apply (inv_replace r Hinv _ u).
Qed.
Next Obligation.
  intros r id u h Hinv Hm. cbn. unfold resetLoginFailures. mred.
  pose proof Hm as [Hu _]%model_lookup. rewrite Hu. eexists. split; [done|].
  by apply (inv_replace r Hinv _ u).
Qed.
Next Obligation.
  intros r id now m Hm Hinv.
  assert (Hmove : (m r).2 = r \/ exists u l a, usersById_ r !! uid_value id = Some u
    /\ (m r).2 = set_usersById (<[uid_value id := setLockout l a u]> (usersById_ r)) r).
  { destruct Hm as [->| ->]; cbn.
    - unfold recordLoginFailure. mred. destruct (usersById_ r !! uid_value id) as [u|]; [|by left].
      mred. destruct (add_i32 (failedAttempts_ u) 1) as [f|e|]; mred; [|by left..].
      destruct (5 <=? f); mred; [|right; by exists u, (lockoutUntil_ u), f].
      destruct (add_i64 now _) as [l|e|]; mred; [right; by exists u, l, f|by left..].
    - unfold resetLoginFailures. mred. destruct (usersById_ r !! uid_value id) as [u|]; [|by left].
      right. by exists u, 0, 0. }
  destruct Hmove as [->|(u & l & a & Hu & ->)].
  { split; [done|]. intros k v h Hk. by exists v. }
  destruct (model_user r Hinv _ _ Hu) as [h Hh].
  destruct (inv_replace r Hinv (uid_value id) u (setLockout l a u) h Hh (conj eq_refl (conj eq_refl eq_refl)))
    as [Hi' ->].
  split; [done|]. intros k v h'. rewrite lookup_insert_Some. intros [[<- [= <- <-]]|[_ Hk]].
  - by exists u.
  - by exists v.
Qed.
Next Obligation.
  intros r id u h Hinv [_ Hh]%model_lookup. cbn. unfold getEncodedHash. by rewrite Hh.
Qed.
Next Obligation.
  intros r Hinv. cbn. eexists. split; [done|].
  by rewrite (users_of_model r Hinv) at 1; rewrite map_to_list_fmap, map_map.
Qed.

End MemoryUserRepository.
