(* ===== verification/Sessions.v ===== *)
(** * [MemorySessionStore] ([memory_session_store.hpp], [memory_session_store.cpp])

    Sessions are kept by the SHA-256 of their token. The store satisfies the
    contract of [Ports]; the life of a token over an arbitrary sequence of
    operations is a step relation. *)
From S2P Require Import Prelude Domain Sha256 Ports.
From Stdlib Require Import ZArith Lia.
From stdpp Require Import base gmap strings list numbers.
Local Open Scope Z_scope.

Module MemorySessionStore.

Record t := Mk { byHash_ : gmap str Session; userByHash_ : gmap str str }.

Definition empty : t := Mk ∅ ∅.

Definition hashToken (tok : str) : str := sha256_hex tok.

(** The random bytes are drawn first; the session is stored under the hash of
    its token. *)
Definition createForUser (uid : UserId) (now : Z) : M (t * Rng) SessionId :=
  buf ← zoom snd (fun r s => (s.1, r)) (rd_bytes 32);
  let token : str := "sess_" ++ hex_of buf in
  let h := hashToken token in
  expires ← liftO (add_i64 now (3600 * 1000));
  s ← liftO (new_Session (MkSessionId token) uid now expires false);
  _ ← modify (fun s' => (Mk (<[h := s]> (byHash_ s'.1))
                            (<[h := uid_value uid]> (userByHash_ s'.1)), s'.2));
  mret (MkSessionId token).

Definition findByToken (token : SessionId) (s : t) : outcome (Result Session) :=
  match byHash_ s !! hashToken (sid_value token) with
  | None => Ok (failure "not found")
  | Some x => Ok (success x)
  end.

Definition invalidate (token : SessionId) : M t bool :=
  s ← get;
  let h := hashToken (sid_value token) in
  match byHash_ s !! h with
  | None => mret false
  | Some x => _ ← put (Mk (<[h := Session_revoke x]> (byHash_ s)) (userByHash_ s)); mret true
  end.

(** The loop's test on one session, and its effect. *)
Definition to_revoke (u : UserId) (s : Session) : bool :=
  bool_decide (s_userId s = u) && negb (revoked s).
Definition revoke_for (u : UserId) (s : Session) : Session :=
  if to_revoke u s then Session_revoke s else s.

(** One pass over the map that revokes and counts. (The count is an [int]; a
    map of [2^31] sessions does not fit in memory.) *)
Definition invalidateAllForUser (u : UserId) : M t Z := fun s =>
  (Ok (zlen (List.filter (to_revoke u) (snd <$> map_to_list (byHash_ s)))),
   Mk (revoke_for u <$> byHash_ s) (userByHash_ s)).

Definition isValid (token : SessionId) (now : Z) (s : t) : outcome bool :=
  r ← findByToken token s;
  match result_get r with
  | None => Ok false
  | Some x => Ok (Session_isValid x now)
  end.

Definition userFor (token : SessionId) (s : t) : outcome UserId :=
  r ← findByToken token s;
  match result_get r with
  | None => Throw (AuthException "Login failed")
  | Some x => Ok (s_userId x)
  end.

#[global] Instance ops : ISessionStore t := {
  Ports.createForUser := createForUser;
  Ports.findByToken := findByToken;
  Ports.invalidate := invalidate;
  Ports.invalidateAllForUser := invalidateAllForUser;
  Ports.isValid := isValid;
  Ports.userFor := userFor
}.

(** ** The contract *)

(** The session a token stands for. *)
Definition model (s : t) (tok : SessionId) : option Session :=
  byHash_ s !! hashToken (sid_value tok).

Lemma isValid_eq s tok now :
  isValid tok now s = Ok (match model s tok with
                          | Some x => Session_isValid x now | None => false end).
Proof. unfold isValid, findByToken, model. by destruct (byHash_ s !! _). Qed.

(** What [createForUser] does: a new token, and a session of one hour; the sum
    [now+3600*1000] may overflow. *)
Lemma createForUser_eq uid now s r :
  exists buf r', length buf = 32%nat /\ rng_stream r' = rng_stream r /\
    let tok := MkSessionId ("sess_" ++ hex_of buf) in
    let x := MkSession tok uid now (now + 3600 * 1000) false in
    createForUser uid now (s, r) =
      if int64_ok (now + 3600 * 1000)
      then (Ok tok, (Mk (<[hashToken (sid_value tok) := x]> (byHash_ s))
                        (<[hashToken (sid_value tok) := uid_value uid]> (userByHash_ s)), r'))
      else (Undef, (s, r')).
Proof.
  destruct (rd_bytes_length 32 r) as (buf & r' & E & Hl & Hs).
  exists buf, r'. split; [done|]. split; [done|]. cbv zeta.
  assert (Hlt : (now + 3600 * 1000 <=? now) = false) by (apply Z.leb_gt; lia).
  unfold createForUser, zoom. mred. rewrite E. clear E.
  mred. unfold add_i64. destruct (int64_ok _); mred; [|reflexivity]. unfold new_Session.
  destruct (now + 3600 * 1000 <=? now); [discriminate Hlt|reflexivity].
Qed.

Lemma createForUser_inv uid now s r tok s' r' :
  createForUser uid now (s, r) = (Ok tok, (s', r')) ->
  exists x, s' = Mk (<[hashToken (sid_value tok) := x]> (byHash_ s))
                    (<[hashToken (sid_value tok) := uid_value uid]> (userByHash_ s))
    /\ x = MkSession tok uid now (now + 3600 * 1000) false.
Proof.
  destruct (createForUser_eq uid now s r) as (buf & r1 & _ & _ & E).
  cbv zeta in E. rewrite E. clear E. destruct (int64_ok _); intros H; [|discriminate H].
  injection H as <- <- <-. eexists. split; reflexivity.
Qed.

Lemma revoke_for_eq u x :
  revoke_for u x = if decide (s_userId x = u) then Session_revoke x else x.
Proof.
  unfold revoke_for, to_revoke. case_bool_decide as E; destruct (decide _); try done.
  destruct x as [? ? ? ? []]; done.
Qed.

#[global] Program Instance laws : SessionStoreLaws t := { ss_model := model }.
Next Obligation. intros s tok. cbn. unfold findByToken, model. by destruct (byHash_ s !! _). Qed.
Next Obligation. intros s tok now. apply isValid_eq. Qed.
Next Obligation.
  intros s tok. cbn. unfold userFor, findByToken, model. by destruct (byHash_ s !! _).
Qed.
Next Obligation.
  intros s u. cbn. eexists _, _. split; [done|]. intros tok. unfold model. cbn.
  rewrite lookup_fmap. destruct (byHash_ s !! _) as [x|]; [|done]. cbn.
  by rewrite revoke_for_eq.
Qed.
Next Obligation.
  intros s tok. cbn. unfold invalidate. mred. fold (model s tok).
  destruct (model s tok) as [x|] eqn:E.
  - mred. eexists. split; [by rewrite bool_decide_eq_true_2|].
    unfold model in *. cbn. split; [by rewrite lookup_insert_eq|]. intros t'.
    destruct (decide (hashToken (sid_value tok) = hashToken (sid_value t'))) as [Eh|Hne].
    + right. rewrite <-Eh, lookup_insert_eq, E. done.
    + left. by rewrite lookup_insert_ne.
  - mred. exists s. split; [by rewrite bool_decide_eq_false_2 by (by intros [? ?])|].
    rewrite E. split; [done|]. by left.
Qed.
Next Obligation.
  intros s r u now Hn. cbn.
  destruct (createForUser_eq u now s r) as (buf & r' & _ & _ & E). cbv zeta in E.
  rewrite Hn in E. clear Hn.
  eexists _, _, _, _. split; [exact E|]. clear E. unfold model. cbn [byHash_].
  split; [apply lookup_insert_eq|]. do 4 (split; [reflexivity|]). intros t'.
  match goal with |- <[?k := _]> _ !! ?k' = _ \/ _ => destruct (decide (k = k')) as [<-|Hne] end.
  - right. by rewrite lookup_insert_eq.
  - left. by rewrite lookup_insert_ne.
Qed.

(** ** The life of a token

    One step is one call of the interface that changes the store. The history
    is the list of calls, latest first, a creation with the token it returned. *)
Inductive call :=
| Created (tok : SessionId) (uid : UserId) (now : Z)
| Invalidated (tok : SessionId)
| InvalidatedAll (uid : UserId).

Inductive step : t -> call -> t -> Prop :=
| step_create s r uid now tok s' r' :
    createForUser uid now (s, r) = (Ok tok, (s', r')) -> step s (Created tok uid now) s'
| step_invalidate s tok b s' :
    invalidate tok s = (Ok b, s') -> step s (Invalidated tok) s'
| step_invalidateAll s uid n s' :
    invalidateAllForUser uid s = (Ok n, s') -> step s (InvalidatedAll uid) s'.

Inductive reached : list call -> t -> Prop :=
| reached_nil : reached [] empty
| reached_cons h s c s' : reached h s -> step s c s' -> reached (c :: h) s'.

(** Whether a call ends the session that [uid] holds under [tok]. *)
Definition ends (tok : SessionId) (uid : UserId) (c : call) : bool :=
  match c with
  | Created t' _ _ => bool_decide (hashToken (sid_value t') = hashToken (sid_value tok))
  | Invalidated t' => bool_decide (hashToken (sid_value t') = hashToken (sid_value tok))
  | InvalidatedAll u => bool_decide (u = uid)
  end.

(** [live h tok uid now0]: the latest call that concerns [tok] is its creation
    for [uid] at [now0]. *)
Inductive live : list call -> SessionId -> UserId -> Z -> Prop :=
| live_here h tok tok' uid now0 :
    hashToken (sid_value tok') = hashToken (sid_value tok) ->
    live (Created tok' uid now0 :: h) tok uid now0
| live_there h c tok uid now0 :
    ends tok uid c = false -> live h tok uid now0 -> live (c :: h) tok uid now0.

Lemma reached_model h s :
  reached h s -> forall tok x, model s tok = Some x ->
  expiresAt x = createdAt x + 3600 * 1000
  /\ (revoked x = false <-> live h tok (s_userId x) (createdAt x)).
Proof.
  induction 1 as [|h s c s' Hr IH Hs]; intros tok x Hx.
  { unfold model in Hx. cbn in Hx. by rewrite lookup_empty in Hx. }
  assert (Hold : forall u n, ends tok u c = false -> live (c :: h) tok u n <-> live h tok u n).
  { intros u n He. split; [|by apply live_there].
    intros Hl. inversion Hl; subst; [|done]. cbn in He.
    by rewrite bool_decide_eq_true_2 in He. }
  destruct Hs as [s r uid now tk s' r' E|s tk b s' E|s uid n s' E].
  - apply createForUser_inv in E as (y & -> & ->). unfold model in Hx. cbn in Hx.
    apply lookup_insert_Some in Hx as [[Eh <-]|[Hne Hx]].
    + split; [done|]. split; [|done]. intros _. by constructor.
    + rewrite Hold by (cbn; by rewrite bool_decide_eq_false_2). by apply IH.
  - unfold invalidate in E. mred_in E. fold (model s tk) in E.
    destruct (decide (hashToken (sid_value tk) = hashToken (sid_value tok))) as [Eh|Hne].
    + unfold model in *. rewrite Eh in E. destruct (byHash_ s !! _) as [y|] eqn:Ey.
      * mred_in E. injection E as <- <-. cbn in Hx. rewrite lookup_insert_eq in Hx.
        injection Hx as <-. cbn. split; [by eapply IH|]. split; [done|].
        intros Hl. inversion Hl as [|? ? ? ? ? He]; subst. cbn in He.
        by rewrite bool_decide_eq_true_2 in He.
      * injection E as <- <-. congruence.
    + rewrite Hold by (cbn; by rewrite bool_decide_eq_false_2). apply IH.
      destruct (model s tk) as [y|] eqn:Ey; mred_in E; injection E as <- <-; [|done].
      unfold model in Hx. cbn in Hx. by rewrite lookup_insert_ne in Hx.
  - injection E as <- <-. unfold model in Hx. cbn in Hx. rewrite lookup_fmap in Hx.
    destruct (byHash_ s !! _) as [y|] eqn:Ey; [|done]. cbn in Hx. injection Hx as <-.
    specialize (IH tok y Ey). rewrite revoke_for_eq. destruct (decide _) as [Eu|Hne]; cbn.
    + split; [apply IH|]. split; [done|].
      intros Hl. inversion Hl as [|? ? ? ? ? He]; subst. cbn in He.
      by rewrite bool_decide_eq_true_2 in He.
    + rewrite Hold by (cbn; by rewrite bool_decide_eq_false_2 by congruence). exact IH.
Qed.

Lemma reached_live h s tok uid now0 :
  reached h s -> live h tok uid now0 ->
  exists x, model s tok = Some x /\ s_userId x = uid /\ createdAt x = now0.
Proof.
  intros Hr Hl. revert s Hr. induction Hl as [h tok tok' uid now0 E|h c tok uid now0 E Hl IH];
    intros s Hr; inversion Hr as [|? s0 ? ? Hr0 Hs]; subst.
  - inversion Hs as [? ? ? ? ? ? ? Hc| |]; subst.
    apply createForUser_inv in Hc as (y & -> & ->). unfold model. cbn.
    rewrite E, lookup_insert_eq. by eexists.
  - destruct (IH _ Hr0) as (x & Hx & Hu & Hn).
    destruct Hs as [s r u now tk s' r' Hc|s tk b s' Hc|s u n s' Hc]; cbn in E.
    + apply bool_decide_eq_false in E. apply createForUser_inv in Hc as (y & -> & ->).
      exists x. unfold model. cbn. by rewrite lookup_insert_ne.
    + apply bool_decide_eq_false in E. exists x. unfold invalidate in Hc. mred_in Hc.
      destruct (byHash_ s !! _); mred_in Hc; injection Hc as <- <-; [|done].
      unfold model. cbn. by rewrite lookup_insert_ne.
    + apply bool_decide_eq_false in E. injection Hc as <- <-. exists x. unfold model in *. cbn.
      rewrite lookup_fmap, Hx. cbn. rewrite revoke_for_eq, decide_False by congruence. done.
Qed.

Lemma reached_create h s (r : Rng) uid now :
  reached h s -> int64_ok (now + 3600 * 1000) = true ->
  exists tok s', reached (Created tok uid now :: h) s' /\ userFor tok s' = Ok uid.
Proof.
  intros Hr Hn. destruct (createForUser_eq uid now s r) as (buf & r' & _ & _ & E).
  cbv zeta in E. rewrite Hn in E. eexists _, _. split.
  - eapply reached_cons; [exact Hr|]. eapply step_create. exact E.
  - clear E. unfold userFor, findByToken. cbn [byHash_]. rewrite lookup_insert_eq. reflexivity.
Qed.

(** C31: Session validity is exact over every history: after any sequence of
    creations and invalidations from the empty store, a token is accepted at
    [now] exactly when its latest creation was for some user at some [now0] with
    [now0 <= now < now0 + 1h], and since then neither the token was invalidated
    nor all sessions of that user were. *)
Theorem isValid_iff_live h s tok now :
  reached h s ->
  isValid tok now s = Ok true <->
  exists uid now0, live h tok uid now0 /\ now0 <= now < now0 + 3600 * 1000
                   /\ userFor tok s = Ok uid.
Proof.
  intros Hr. rewrite isValid_eq.
  assert (Hu : forall x, model s tok = Some x -> userFor tok s = Ok (s_userId x)).
  { intros x Hx. unfold userFor, findByToken. unfold model in Hx. by rewrite Hx. }
  split.
  - intros E. destruct (model s tok) as [x|] eqn:Hx; [|done].
    destruct (reached_model h s Hr tok x Hx) as [He Hl].
    injection E as E. unfold Session_isValid in E. rewrite He in E.
    apply andb_true_iff in E as [[Hv%negb_true_iff Hc]%andb_true_iff Ht].
    exists (s_userId x), (createdAt x). split; [by apply Hl|]. split; [lia|by apply Hu].
  - intros (uid & now0 & Hl & Ht & _).
    destruct (reached_live _ _ _ _ _ Hr Hl) as (x & Hx & Ei & En). rewrite Hx.
    destruct (reached_model h s Hr tok x Hx) as [He Hv]. subst.
    unfold Session_isValid. rewrite He, (proj2 Hv Hl). cbn.
    by rewrite (proj2 (Z.leb_le _ _)), (proj2 (Z.ltb_lt _ _)) by lia.
Qed.

End MemorySessionStore.
