(* ===== verification/AuditLog.v ===== *)
(** * The audit loggers ([vector_audit.hpp], [hash_chain_file_audit.hpp], [hash_chain_file_audit.cpp])

    [VectorAudit] keeps the events in memory. [HashChainFileAuditLogger] appends
    one JSON line per event to a file; each line carries the SHA-256 of its own
    fields and of the line before, and the file is verified before every
    append. The model reads and writes the file's bytes exactly as the code
    does, with its ad hoc JSON printer and field scanner. *)
From S2P Require Import Prelude Domain Sha256 Ports.
From Stdlib Require Import ZArith Lia.
From stdpp Require Import base gmap strings list numbers.
Local Open Scope Z_scope.

Definition GENESIS : str := "GENESIS".

(** ** [VectorAudit] *)
Module VectorAudit.

Record t := Mk { log_ : list AuditEvent }.
Definition empty : t := Mk [].

Definition record (e : AuditEvent) : M t unit :=
  a ← get;
  let seq := u64 (zlen (log_ a)) in
  let prev := match list.last (log_ a) with None => GENESIS | Some x => msgHash x end in
  put (Mk (log_ a ++ [MkAuditEvent seq (ts e) (actor e) (action e) (fileId e) (cipherHash e)
                        prev (("h" : str) ++ to_string seq)])).

Definition all (a : t) : outcome (list AuditEvent) := Ok (log_ a).

#[global] Instance ops : IAuditLogger t := {
  Ports.record := record;
  Ports.allEvents := all
}.

#[global] Program Instance laws : AuditLoggerLaws t := {
  au_inv := fun _ => True;
  au_good := fun _ => True;
  au_events := log_
}.
Next Obligation.
  intros a e _ _. cbn. unfold record. mred. unfold put. eexists _, _.
  split; [reflexivity|]. done.
Qed.

End VectorAudit.

(** ** [HashChainFileAuditLogger] *)
Module HashChain.

Definition dq : byte := Byte.x22.
Definition backslash : byte := Byte.x5c.
Definition lf : byte := Byte.x0a.

(** *** The printer *)

Definition esc (c : byte) : str :=
  if decide (c = dq) then [backslash; dq]
  else if decide (c = backslash) then [backslash; backslash]
  else if decide (c = lf) then backslash :: ("n" : str)
  else if decide (c = Byte.x0d) then backslash :: ("r" : str)
  else if decide (c = Byte.x09) then backslash :: ("t" : str)
  else if b2z c <? 32 then backslash :: ("u00" : str) ++ hex2 c
  else [c].

Definition jsonEscape (s : str) : str := s ≫= esc.

(** A key and its colon: the pattern the scanner looks for. *)
Definition key (k : str) : str := [dq] ++ k ++ [dq] ++ (":" : str).
(** A key with a string value. *)
Definition jstr (k v : str) : str := key k ++ [dq] ++ v ++ [dq].

(** The fields both formats start with, up to the closing brace. *)
Definition fields (e : AuditEvent) : str :=
  ("{" : str) ++ key "seq" ++ to_string (seq_ e)
  ++ ("," : str) ++ jstr "ts" (jsonEscape (ts e))
  ++ ("," : str) ++ jstr "actor" (jsonEscape (actor e))
  ++ ("," : str) ++ jstr "action" (jsonEscape (action e))
  ++ ("," : str) ++ jstr "fileId" (jsonEscape (fileId e))
  ++ ("," : str) ++ jstr "cipherHash" (jsonEscape (cipherHash e))
  ++ ("," : str) ++ jstr "prevHash" (jsonEscape (prevHash e)).

Definition canonical (e : AuditEvent) : str := fields e ++ ("}" : str).

(** The line [record] appends. *)
Definition line_of (e : AuditEvent) : str :=
  fields e ++ ("," : str) ++ jstr "msgHash" (msgHash e) ++ ("}" : str) ++ [lf].

(** *** The scanner *)

(** [std::getline] until the end of the file: a last line without a line feed
    counts when it is not empty. *)
Fixpoint lines (s : str) : list str :=
  match s with
  | [] => []
  | c :: r => if decide (c = lf) then [] :: lines r
              else match lines r with
                   | [] => [[c]]
                   | l :: ls => (c :: l) :: ls
                   end
  end.

(** [l.substr(p, q - p)] for a found [q], the rest of the line for [npos]. The
    scanner's [p] never passes the end of the line, so [substr] does not throw. *)
Definition cut (l : str) (p : nat) (q : option nat) : str :=
  match q with Some q => take (q - p) (drop p l) | None => drop p l end.

(** The loop that skips quotes preceded by a backslash: each round moves [q]
    forward, so the length of the line bounds the rounds. *)
Fixpoint close_quote (fuel : nat) (l : str) (q : option nat) : option nat :=
  match fuel, q with
  | S f, Some i => if decide (l !! (i - 1)%nat = Some backslash)
                   then close_quote f l (find_from [dq] l (i + 1)) else q
  | _, _ => q
  end.

(** A value that is not quoted ends at a comma, or else at a brace. *)
Definition bare_value (l : str) (p : nat) : str :=
  cut l p (match find_from "," l p with Some q => Some q | None => find_from "}" l p end).

(** The lambda [get] of [verify] and [getField] of [all]. *)
Definition getField (k l : str) : str :=
  match find_sub (key k) l with
  | None => []
  | Some p0 =>
      let p := (p0 + length (key k))%nat in
      if decide (l !! p = Some dq) then
        cut l (S p) (close_quote (length l) l (find_from [dq] l (S p)))
      else bare_value l p
  end.

(** The lambda [get] of the constructor, which stops at the first quote. *)
Definition getFirst (k l : str) : str :=
  match find_sub (key k) l with
  | None => []
  | Some p0 =>
      let p := (p0 + length (key k))%nat in
      if decide (l !! p = Some dq) then cut l (S p) (find_from [dq] l (S p))
      else bare_value l p
  end.

(** [try{ seq=std::stoull(s);} catch(...){ seq=0; }] *)
Definition seq_of (s : str) : Z := default 0 (stoull s).

(** *** The logger

    [file] is the content of the file at [path_], [None] when there is none;
    [sys] gives the readings of the system clock, in seconds. The file is
    writable: the code does not look at the stream's state. *)
Record t := Mk { file : option str; lastHash_ : str; lastSeq_ : Z; sys : Clock }.

(** The event [verify] rebuilds from a line, [prev] being the hash before. *)
Definition entry (prev l : str) : AuditEvent :=
  MkAuditEvent (seq_of (getField "seq" l)) (getField "ts" l) (getField "actor" l)
    (getField "action" l) (getField "fileId" l) (getField "cipherHash" l) prev [].

Fixpoint verify_lines (prev : str) (expectedSeq : Z) (ls : list str) : bool :=
  match ls with
  | [] => true
  | l :: ls' =>
      if decide (l = []) then verify_lines prev expectedSeq ls' else
      let e := entry prev l in
      if negb (seq_ e =? expectedSeq) then false else
      let storedPrev := getField "prevHash" l in
      let storedHash := getField "msgHash" l in
      if negb (bool_decide (storedPrev = prev)) then false else
      let recomputed := sha256_hex (canonical e) in
      if negb (bool_decide (recomputed = storedHash)) then false else
      verify_lines storedHash (u64 (expectedSeq + 1)) ls'
  end.

Definition verify (s : t) : bool :=
  match file s with
  | None => true
  | Some c => verify_lines GENESIS 1 (lines c)
  end.

Definition CORRUPTED : str := "CORRUPTED".

(** The constructor. *)
Definition new (content : option str) (clock : Clock) : t :=
  let fresh := Mk content GENESIS 0 clock in
  match content with
  | None => fresh
  | Some c =>
      match list.last (lines c) with
      | None => fresh
      | Some lastLine =>
          if negb (verify fresh) then Mk content CORRUPTED 0 clock
          else
            let h := getFirst "msgHash" lastLine in
            let n := seq_of (getFirst "seq" lastLine) in
            Mk content (if decide (h = []) then GENESIS else h) n clock
      end
  end.

(** [strftime] of [gmtime] with the format Y-m-dTH:M:SZ: the civil date of a
    number of days, counted in 400-year eras. *)
Definition pad2 (n : Z) : str := if n <? 10 then ("0" : str) ++ to_string n else to_string n.
Definition civil (days : Z) : Z * Z * Z :=
  let z := days + 719468 in
  let era := z / 146097 in
  let doe := z mod 146097 in
  let yoe := (doe - doe / 1460 + doe / 36524 - doe / 146096) / 365 in
  let doy := doe - (365 * yoe + yoe / 4 - yoe / 100) in
  let mp := (5 * doy + 2) / 153 in
  let d := doy - (153 * mp + 2) / 5 + 1 in
  let m := if mp <? 10 then mp + 3 else mp - 9 in
  (yoe + era * 400 + (if m <=? 2 then 1 else 0), m, d).
Definition timestamp (secs : Z) : str :=
  let '(y, m, d) := civil (secs / 86400) in
  let s := secs mod 86400 in
  to_string y ++ ("-" : str) ++ pad2 m ++ ("-" : str) ++ pad2 d ++ ("T" : str)
  ++ pad2 (s / 3600) ++ (":" : str) ++ pad2 (s mod 3600 / 60) ++ (":" : str) ++ pad2 (s mod 60)
  ++ ("Z" : str).

Example timestamp_epoch : timestamp 0 = lit "1970-01-01T00:00:00Z".
Proof. vm_compute. reflexivity. Qed.
Example timestamp_leap : timestamp 1709210096 = lit "2024-02-29T12:34:56Z".
Proof. vm_compute. reflexivity. Qed.

Definition on_sys {A} (m : M Clock A) : M t A :=
  zoom sys (fun c s => Mk (file s) (lastHash_ s) (lastSeq_ s) c) m.

Definition record (e : AuditEvent) : M t unit :=
  s ← get;
  if decide (lastHash_ s = CORRUPTED) then
    throw (RuntimeError "audit chain corrupted — refuse to append") else
  if negb (verify s) then
    throw (RuntimeError "audit chain verification failed before append") else
  let prev := lastHash_ s in
  let seq := u64 (lastSeq_ s + 1) in
  _ ← put (Mk (file s) (lastHash_ s) seq (sys s));
  t' ← (if decide (ts e = []) then secs ← on_sys nowMs; mret (timestamp secs) else mret (ts e));
  let e := MkAuditEvent seq t' (actor e) (action e) (fileId e) (cipherHash e) prev [] in
  let h := sha256_hex (canonical e) in
  let e := MkAuditEvent seq t' (actor e) (action e) (fileId e) (cipherHash e) prev h in
  modify (fun s => Mk (Some (default [] (file s) ++ line_of e)) h (lastSeq_ s) (sys s)).

(** [all]: it does not read [cipherHash]. *)
Definition parsed (l : str) : AuditEvent :=
  MkAuditEvent (seq_of (getField "seq" l)) (getField "ts" l) (getField "actor" l)
    (getField "action" l) (getField "fileId" l) [] (getField "prevHash" l)
    (getField "msgHash" l).
Definition events (s : t) : list AuditEvent := map parsed (lines (default [] (file s))).
Definition all (s : t) : outcome (list AuditEvent) := Ok (events s).

#[global] Instance ops : IAuditLogger t := {
  Ports.record := record;
  Ports.allEvents := all
}.

(** ** Scanning what was printed

    A line seen as its fields, each followed by its separator. *)
Record fld := MkFld { f_key : str; f_quoted : bool; f_val : str; f_sep : byte }.

Definition comma : byte := Byte.x2c.
Definition colon : byte := Byte.x3a.
Definition brace : byte := Byte.x7d.

Definition text (f : fld) : str :=
  key (f_key f) ++ (if f_quoted f then [dq] ++ f_val f ++ [dq] else f_val f) ++ [f_sep f].

(** Keys: without quotes, not empty, not beginning with punctuation. *)
Definition word (k : str) : bool :=
  match k with
  | [] => false
  | c :: _ => negb (bool_decide (c ∈ [comma; colon; brace])) && negb (bool_decide (dq ∈ k))
  end.

Lemma word_noquote k : word k = true -> dq ∉ k.
Proof. destruct k; [done|]. cbn [word]. by intros [_ H%negb_true_iff%bool_decide_eq_false]%andb_true_iff. Qed.

Record good_fld (f : fld) : Prop := {
  gf_key : word (f_key f) = true;
  gf_val : ~ dq ∈ f_val f;
  gf_end : list.last (f_val f) <> Some backslash;
  gf_sep : f_sep f = comma \/ f_sep f = brace;
  gf_bare : f_quoted f = false -> f_val f <> [] /\ ~ comma ∈ f_val f /\ f_sep f = comma
}.

(** A quote at which the pattern [key k] does not begin. *)
Lemma not_key_value k v c s :
  word k = true -> dq ∉ v -> (v = k -> c <> colon) ->
  starts_with (key k) (dq :: v ++ dq :: c :: s) = false.
Proof.
  intros Hk Hv Hc. apply starts_with_false. intros r E. unfold key in E. cbn in E.
  injection E as E. rewrite <-!app_assoc in E. cbn in E.
  apply split_unique in E as [-> E]; [|done|by apply word_noquote].
  injection E as -> _. by apply Hc.
Qed.

Lemma not_key_punct k c s :
  word k = true -> c ∈ [comma; colon; brace] -> starts_with (key k) (dq :: c :: s) = false.
Proof.
  intros Hk Hc. apply starts_with_false. intros r E. unfold key in E. cbn in E.
  injection E as E. destruct k as [|d k]; [done|]. cbn in E, Hk. injection E as <- _.
  by rewrite bool_decide_eq_true_2 in Hk.
Qed.

(** No field but its own matches a key. *)
Lemma skips_fld k f s :
  word k = true -> good_fld f -> f_key f <> k -> skips (key k) (text f) s.
Proof.
  intros Hk Hf Hne. pose proof (word_noquote _ (gf_key f Hf)) as Hq.
  assert (Hsep : f_sep f ∈ [comma; colon; brace]) by (destruct (gf_sep f Hf) as [-> | ->]; decided).
  assert (Hsk : forall a s, dq ∉ a -> skips (key k) a s) by (intros; by apply skips_without).
  unfold text, key at 2. rewrite <-!app_assoc.
  apply (skips_app _ [dq]).
  { apply skips_one. cbn. rewrite <-!app_assoc. cbn. by apply not_key_value. }
  apply skips_app; [by apply Hsk|].
  apply (skips_app _ [dq]).
  { apply skips_one. cbn. apply not_key_punct; [done|decided]. }
  apply skips_app; [apply Hsk; decided|].
  assert (Hs : dq ∉ [f_sep f]).
  { destruct (gf_sep f Hf) as [-> | ->]; decided. }
  destruct (f_quoted f); [|apply skips_app; [apply Hsk, Hf|by apply Hsk]].
  rewrite <-!app_assoc. apply (skips_app _ [dq]).
  { apply skips_one. cbn. rewrite <-app_assoc. cbn. apply not_key_value; [done|apply Hf|].
    intros _. by destruct (gf_sep f Hf) as [-> | ->]. }
  apply skips_app; [apply Hsk, Hf|].
  apply (skips_app _ [dq]); [|by apply Hsk].
  apply skips_one. cbn. by apply not_key_punct.
Qed.

Definition body (fs : list fld) : str := concat (map text fs).

Lemma body_app fs fs' : body (fs ++ fs') = body fs ++ body fs'.
Proof. unfold body. by rewrite map_app, concat_app. Qed.

(** The pattern of [k] does not begin inside the field [g]. *)
Definition passes (k : str) (g : fld) : Prop := forall s, skips (key k) (text g) s.

Lemma find_body fs f fs' : Forall (passes (f_key f)) fs ->
  find_sub (key (f_key f)) (body (fs ++ f :: fs')) = Some (length (body fs)).
Proof.
  intros Hfs. induction Hfs as [|g fs Hg _ IH]; unfold body; cbn [app map concat].
  - unfold text at 1. rewrite <-!app_assoc. apply find_sub_here.
  - rewrite (Hg _). unfold body in IH. rewrite IH.
    cbn [fmap option_fmap option_map]. by rewrite (length_app (text g)).
Qed.

Lemma find_fld pre fs f fs' : dq ∉ pre -> Forall (passes (f_key f)) fs ->
  find_sub (key (f_key f)) (pre ++ body (fs ++ f :: fs')) = Some (length (pre ++ body fs)).
Proof.
  intros Hp Hfs.
  rewrite (skips_without dq _ pre _ Hp : skips (key (f_key f)) pre _).
  rewrite (find_body fs f fs' Hfs). cbn [fmap option_fmap option_map].
  by rewrite length_app.
Qed.

Lemma good_passes fs f : Forall (fun g => good_fld g /\ f_key g <> f_key f) fs -> good_fld f ->
  Forall (passes (f_key f)) fs.
Proof.
  intros Hfs Hf. eapply List.Forall_impl; [|exact Hfs]. intros g [Hg Hne] s. apply skips_fld; [apply Hf|done..].
Qed.

(** The scanner's two loops, started right after the key. *)
Lemma cut_app a v s : cut (a ++ v ++ s) (length a) (Some (length a + length v)%nat) = v.
Proof.
  unfold cut. rewrite drop_app_length. replace (_ - _)%nat with (length v) by lia.
  by rewrite take_app_length.
Qed.

Lemma value_quoted a v s fuel :
  dq ∉ v -> list.last v <> Some backslash ->
  let l := a ++ dq :: v ++ dq :: s in
  l !! length a = Some dq
  /\ cut l (S (length a)) (find_from [dq] l (S (length a))) = v
  /\ cut l (S (length a)) (close_quote fuel l (find_from [dq] l (S (length a)))) = v.
Proof.
  intros Hv Hl l. assert (El : l = (a ++ [dq]) ++ v ++ dq :: s)
    by (unfold l; by rewrite <-app_assoc).
  assert (Ha : S (length a) = length (a ++ [dq])) by (rewrite length_app; simpl; lia).
  assert (Hf : find_from [dq] l (S (length a)) = Some (S (length a) + length v)%nat).
  { rewrite Ha, El, find_from_app, find_char by done. done. }
  rewrite Hf. split; [unfold l; by rewrite list_lookup_middle|].
  assert (Hc : cut l (S (length a)) (Some (S (length a) + length v)%nat) = v).
  { rewrite Ha, El. apply cut_app. }
  split; [done|]. destruct fuel as [|fuel]; [done|]. cbn [close_quote].
  rewrite decide_False; [done|]. replace (S (length a) + length v - 1)%nat
    with (length a + length v)%nat by lia. unfold l.
  rewrite lookup_app_r by lia. replace (length a + length v - length a)%nat with (length v) by lia.
  destruct v as [|c v] using rev_ind; [done|].
  rewrite last_snoc in Hl. replace (length (v ++ [c])) with (S (length v))
    by (rewrite length_app; simpl; lia).
  rewrite lookup_cons, <-app_assoc. cbn [app]. by rewrite list_lookup_middle by done.
Qed.

Lemma value_bare a v s :
  dq ∉ v -> v <> [] -> comma ∉ v ->
  let l := a ++ v ++ comma :: s in
  l !! length a <> Some dq /\ bare_value l (length a) = v.
Proof.
  intros Hv Hne Hc l. split.
  - destruct v as [|c v]; [done|]. unfold l. cbn. rewrite list_lookup_middle by done.
    intros [= ->]. by apply not_elem_of_cons in Hv as [? _].
  - unfold bare_value. change (lit ",") with [comma]. unfold l at 2.
    rewrite find_from_app, find_char by done. cbn. apply cut_app.
Qed.

(** Both scanners return the value that was printed. *)
Lemma get_past pre fs f fs' : dq ∉ pre -> Forall (passes (f_key f)) fs -> good_fld f ->
  getField (f_key f) (pre ++ body (fs ++ f :: fs')) = f_val f
  /\ getFirst (f_key f) (pre ++ body (fs ++ f :: fs')) = f_val f.
Proof.
  intros Hp Hfs Hf. unfold getField, getFirst. rewrite (find_fld pre fs f fs' Hp Hfs).
  set (a := (pre ++ body fs) ++ key (f_key f)).
  assert (Hlen : (length (pre ++ body fs) + length (key (f_key f)))%nat = length a)
    by (unfold a; by rewrite (length_app _ (key _))).
  rewrite Hlen. clear Hlen.
  assert (Hb : pre ++ body (fs ++ f :: fs') =
    a ++ (if f_quoted f then [dq] ++ f_val f ++ [dq] else f_val f) ++ f_sep f :: body fs').
  { unfold a. rewrite body_app. unfold body at 2. cbn [map concat]. unfold text at 1.
    by rewrite <-!app_assoc. }
  rewrite Hb. clear Hb. destruct (f_quoted f) eqn:Eq.
  - rewrite <-!app_assoc. cbn [app].
    destruct (value_quoted a (f_val f) (f_sep f :: body fs')
      (length (a ++ dq :: f_val f ++ dq :: f_sep f :: body fs')) (gf_val f Hf) (gf_end f Hf))
      as (H1 & H2 & H3).
    rewrite !(decide_True _ _ H1). split; [exact H3|exact H2].
  - destruct (gf_bare f Hf Eq) as (Hn & Hc & ->).
    destruct (value_bare a (f_val f) (body fs') (gf_val f Hf) Hn Hc) as [H1 H2].
    rewrite !(decide_False _ _ H1). split; exact H2.
Qed.

Lemma get_fld pre fs f fs' :
  dq ∉ pre -> Forall (fun g => good_fld g /\ f_key g <> f_key f) fs -> good_fld f ->
  getField (f_key f) (pre ++ body (fs ++ f :: fs')) = f_val f
  /\ getFirst (f_key f) (pre ++ body (fs ++ f :: fs')) = f_val f.
Proof. intros Hp Hfs Hf. apply get_past; [done|by apply good_passes|done]. Qed.

(** ** The chain of clean events

    An event is clean when its fields hold no quote, backslash or control
    character: those are the events the printer leaves as they are. *)
Definition clean_char (c : byte) : bool :=
  negb (bool_decide (c = dq)) && negb (bool_decide (c = backslash)) && (32 <=? b2z c).
Definition clean (s : str) : bool := forallb clean_char s.
Definition clean_event (e : AuditEvent) : bool :=
  clean (ts e) && clean (actor e) && clean (action e) && clean (fileId e)
  && clean (cipherHash e) && clean (prevHash e) && clean (msgHash e).

Lemma clean_app a b : clean (a ++ b) = clean a && clean b.
Proof. unfold clean. by rewrite forallb_app. Qed.

Lemma clean_without s c : clean s = true -> clean_char c = false -> c ∉ s.
Proof.
  unfold clean. rewrite forallb_forall. intros H Hc Hin%list_elem_of_In.
  rewrite (H c Hin) in Hc. done.
Qed.

Lemma clean_last s : clean s = true -> list.last s <> Some backslash.
Proof.
  intros H E. apply last_Some_elem_of in E. by apply (clean_without s backslash).
Qed.

Lemma esc_clean s : clean s = true -> jsonEscape s = s.
Proof.
  unfold jsonEscape, clean. induction s as [|c s IH]; [done|]. cbn [forallb].
  intros [Hc Hs]%andb_true_iff. cbn. rewrite IH by done.
  assert (esc c = [c]) as ->; [|done].
  unfold clean_char in Hc.
  apply andb_true_iff in Hc as [[Hq Hb]%andb_true_iff Hl%Z.leb_le].
  apply negb_true_iff, bool_decide_eq_false in Hq. apply negb_true_iff, bool_decide_eq_false in Hb.
  unfold esc. rewrite !decide_False; try done.
  - by rewrite (proj2 (Z.ltb_ge _ _)) by done.
  - intros ->. by apply Hl.
  - intros ->. by apply Hl.
  - intros ->. by apply Hl.
Qed.

Lemma digits_clean s : Forall (fun c => is_digit c = true) s ->
  clean s = true /\ comma ∉ s.
Proof.
  intros H. rewrite Forall_forall in H.
  assert (Hd : forall c, is_digit c = true -> clean_char c = true /\ c <> comma).
  { intros c. destruct c; vm_compute; intros ?; (split; [|intros ?]; congruence). }
  split.
  - apply forallb_forall. intros c Hc. exact (proj1 (Hd c (H c Hc))).
  - intros Hin. apply list_elem_of_In in Hin. exact (proj2 (Hd comma (H comma Hin)) eq_refl).
Qed.

Lemma to_string_clean n : clean (to_string n) = true /\ comma ∉ to_string n.
Proof.
  destruct (Z.lt_ge_cases n 0) as [Hn|Hn]; [|by apply digits_clean, to_string_digits].
  destruct (to_string_negative n Hn) as (s & -> & [Hs Hc]%digits_clean). cbn [clean forallb].
  split; [exact Hs|]. apply not_elem_of_cons. done.
Qed.

Lemma hex_clean s : Forall is_hexdig s -> clean s = true.
Proof.
  intros H. apply forallb_forall. intros c Hc.
  rewrite Forall_forall in H. specialize (H c Hc). apply list_elem_of_In in H.
  assert (Forall (fun c => clean_char c = true) hex_digits) as Ha
    by (repeat constructor; vm_compute; reflexivity).
  rewrite Forall_forall in Ha. exact (Ha c H).
Qed.

Lemma sha256_clean s : clean (sha256_hex s) = true /\ length (sha256_hex s) = 64%nat.
Proof. split; [apply hex_clean, sha256_hex_hexdig|apply length_sha256_hex]. Qed.

(** A line without its line feed, and its fields. *)
Definition line_text (e : AuditEvent) : str :=
  fields e ++ ("," : str) ++ jstr "msgHash" (msgHash e) ++ ("}" : str).

Definition line_flds (e : AuditEvent) : list fld := [
  MkFld "seq" false (to_string (seq_ e)) comma;
  MkFld "ts" true (ts e) comma;
  MkFld "actor" true (actor e) comma;
  MkFld "action" true (action e) comma;
  MkFld "fileId" true (fileId e) comma;
  MkFld "cipherHash" true (cipherHash e) comma;
  MkFld "prevHash" true (prevHash e) comma;
  MkFld "msgHash" true (msgHash e) brace ].

Record sound_event (e : AuditEvent) : Prop := {
  se_clean : clean_event e = true;
  se_seq : 0 <= seq_ e < 2 ^ 64
}.

Lemma clean_event_fields e : clean_event e = true ->
  clean (ts e) = true /\ clean (actor e) = true /\ clean (action e) = true
  /\ clean (fileId e) = true /\ clean (cipherHash e) = true /\ clean (prevHash e) = true
  /\ clean (msgHash e) = true.
Proof. unfold clean_event. rewrite !andb_true_iff. tauto. Qed.

Lemma line_text_eq e : clean_event e = true ->
  line_text e = [Byte.x7b] ++ body (line_flds e).
Proof.
  intros (H1 & H2 & H3 & H4 & H5 & H6 & H7)%clean_event_fields.
  unfold line_text, fields, jstr. rewrite !esc_clean by done.
  unfold body, line_flds, text. cbn [map concat f_key f_quoted f_val f_sep].
  rewrite <-!app_assoc. reflexivity.
Qed.

Lemma line_flds_good e : sound_event e -> Forall good_fld (line_flds e).
Proof.
  intros [(H1 & H2 & H3 & H4 & H5 & H6 & H7)%clean_event_fields Hs].
  assert (Hq : forall k v c, word k = true -> clean v = true -> c = comma \/ c = brace ->
                good_fld (MkFld k true v c)).
  { intros k v c Hk Hv Hc. split; cbn; try done.
    - by apply clean_without.
    - by apply clean_last. }
  constructor; [|repeat (constructor; [by apply Hq; auto|]); constructor].
  pose proof (to_string_clean (seq_ e)) as [Hc Hm]. split; cbn; try done.
  - by apply clean_without.
  - by apply clean_last.
  - by left.
  - intros _. split; [|done]. apply to_string_nonempty.
Qed.

(** Reading a field of a printed line gives the field. *)
Lemma read_field e k v :
  sound_event e -> In (k, v) (map (fun f => (f_key f, f_val f)) (line_flds e)) ->
  getField k (line_text e) = v /\ getFirst k (line_text e) = v.
Proof.
  intros He Hin. pose proof (line_flds_good e He) as Hg. rewrite line_text_eq by apply He.
  assert (Hp : dq ∉ [Byte.x7b]) by decided.
  assert (Hnd : NoDup (map f_key (line_flds e))) by decided.
  apply in_map_iff in Hin as (f & [= <- <-] & Hf).
  apply in_split in Hf as (fs & fs' & E). rewrite E in Hg, Hnd |- *.
  apply Forall_app in Hg as [Hfs [Hf _]%Forall_cons_iff].
  rewrite map_app in Hnd. apply list.NoDup_app in Hnd as (_ & Hnd & _).
  apply get_fld; [done| |done]. rewrite Forall_forall in Hfs. apply Forall_forall. intros g Hgin.
  split; [by apply Hfs|]. intros Eg. apply (Hnd (f_key g)).
  - apply list_elem_of_In, in_map. done.
  - rewrite Eg. left.
Qed.

(** ** The lines of a printed log *)
Definition printed (es : list AuditEvent) : str := concat (map line_of es).

Lemma lines_app l s : lf ∉ l -> lines (l ++ lf :: s) = l :: lines s.
Proof.
  induction l as [|c l IH]; intros Hl; cbn [lines app].
  - by rewrite decide_True.
  - apply not_elem_of_cons in Hl as [Hc Hl]. rewrite decide_False by done. by rewrite IH.
Qed.

Lemma line_text_lf e : clean_event e = true -> lf ∉ line_text e.
Proof.
  intros Hc. rewrite line_text_eq by done. apply clean_event_fields in Hc.
  destruct Hc as (H1 & H2 & H3 & H4 & H5 & H6 & H7).
  pose proof (proj1 (to_string_clean (seq_ e))) as H0.
  assert (Hw : forall s, clean s = true -> lf ∉ s) by (intros; by apply clean_without).
  unfold body, line_flds, text. cbn [map concat f_key f_quoted f_val f_sep].
  rewrite !not_elem_of_app. repeat split; try (by apply Hw); decided.
Qed.

Lemma lines_printed_app es s : Forall sound_event es -> lines (printed es ++ s) = map line_text es ++ lines s.
Proof.
  unfold printed. induction 1 as [|e es He _ IH]; [done|]. cbn [map concat].
  assert (line_of e = line_text e ++ [lf]) as ->
    by (unfold line_of, line_text; by rewrite <-!app_assoc).
  rewrite <-!app_assoc. cbn [app]. rewrite lines_app, IH; [done|]. apply line_text_lf, He.
Qed.

Lemma lines_printed es : Forall sound_event es -> lines (printed es) = map line_text es.
Proof. intros Hes. pose proof (lines_printed_app es [] Hes) as H. by rewrite !app_nil_r in H. Qed.

Lemma printed_app es es' : printed (es ++ es') = printed es ++ printed es'.
Proof. unfold printed. by rewrite map_app, concat_app. Qed.

(** Every field of a sound event is read back. *)
Lemma read_event e : sound_event e ->
  let l := line_text e in
  l <> []
  /\ entry (prevHash e) l = MkAuditEvent (seq_ e) (ts e) (actor e) (action e) (fileId e)
                              (cipherHash e) (prevHash e) []
  /\ parsed l = MkAuditEvent (seq_ e) (ts e) (actor e) (action e) (fileId e) []
                  (prevHash e) (msgHash e)
  /\ getField "prevHash" l = prevHash e /\ getField "msgHash" l = msgHash e
  /\ getFirst "msgHash" l = msgHash e /\ seq_of (getFirst "seq" l) = seq_ e.
Proof.
  intros He l. pose proof (fun k v => read_field e k v He) as Hr.
  cbn [line_flds map f_key f_val In] in Hr.
  assert (Hseq : seq_of (to_string (seq_ e)) = seq_ e).
  { unfold seq_of. by rewrite stoull_to_string by apply He. }
  split; [by rewrite (line_text_eq e (se_clean e He) : l = _)|].
  destruct (Hr "seq" (to_string (seq_ e)) ltac:(tauto)) as [E1 F1].
  destruct (Hr "ts" (ts e) ltac:(tauto)) as [E2 _].
  destruct (Hr "actor" (actor e) ltac:(tauto)) as [E3 _].
  destruct (Hr "action" (action e) ltac:(tauto)) as [E4 _].
  destruct (Hr "fileId" (fileId e) ltac:(tauto)) as [E5 _].
  destruct (Hr "cipherHash" (cipherHash e) ltac:(tauto)) as [E6 _].
  destruct (Hr "prevHash" (prevHash e) ltac:(tauto)) as [E7 _].
  destruct (Hr "msgHash" (msgHash e) ltac:(tauto)) as [E8 F8].
  unfold entry, parsed. subst l. by rewrite E1, E2, E3, E4, E5, E6, E7, E8, F1, F8, Hseq.
Qed.

(** ** Chains

    [chain prev m es]: clean events numbered from [m + 1], each sealed by its
    hash and linked to the one before, the first to [prev]. *)
Fixpoint chain (prev : str) (m : Z) (es : list AuditEvent) : Prop :=
  match es with
  | [] => True
  | e :: es' =>
      sound_event e /\ seq_ e = u64 (m + 1) /\ prevHash e = prev
      /\ msgHash e = sha256_hex (canonical e) /\ chain (msgHash e) (seq_ e) es'
  end.

(** The hash and number of the last event. *)
Definition tip (prev : str) (m : Z) (es : list AuditEvent) : str * Z :=
  fold_left (fun _ e => (msgHash e, seq_ e)) es (prev, m).

Lemma chain_sound prev m es : chain prev m es -> Forall sound_event es.
Proof.
  revert prev m. induction es as [|e es IH]; intros prev m; [by constructor|].
  intros (He & _ & _ & _ & H). constructor; [done|by eapply IH].
Qed.

Lemma chain_snoc prev m es e :
  chain prev m (es ++ [e]) <->
  chain prev m es /\ chain (tip prev m es).1 (tip prev m es).2 [e].
Proof.
  revert prev m. induction es as [|e' es IH]; intros prev m.
  { unfold tip. cbn. tauto. }
  cbn [app chain]. rewrite IH. unfold tip. cbn [fold_left chain]. tauto.
Qed.

Lemma tip_snoc prev m es e : tip prev m (es ++ [e]) = (msgHash e, seq_ e).
Proof. unfold tip. by rewrite fold_left_app. Qed.

(** [verify] gets through a printed chain to what follows. *)
Lemma verify_chain_app prev m es ls : chain prev m es ->
  verify_lines prev (u64 (m + 1)) (map line_text es ++ ls) =
  verify_lines (tip prev m es).1 (u64 ((tip prev m es).2 + 1)) ls.
Proof.
  revert prev m. induction es as [|e es IH]; intros prev m; [done|].
  intros (He & Hs & Hp & Hh & Hc). cbn [map app verify_lines].
  destruct (read_event e He) as (Hne & Ee & _ & Ep & Em & _). cbv zeta in *.
  rewrite decide_False by done. subst prev. rewrite Ee, Ep, Em. cbn [seq_].
  rewrite <-Hs, Z.eqb_refl, bool_decide_eq_true_2 by done. cbn [negb].
  rewrite bool_decide_eq_true_2 by (by rewrite Hh). cbn [negb]. apply IH. exact Hc.
Qed.

Lemma verify_chain prev m es :
  chain prev m es -> verify_lines prev (u64 (m + 1)) (map line_text es) = true.
Proof. intros Hc. pose proof (verify_chain_app prev m es [] Hc) as H. by rewrite app_nil_r in H. Qed.

(** A logger in good order: its file is a printed chain and its memory is the
    chain's tip. *)
Record logged (s : t) (es : list AuditEvent) : Prop := {
  lg_file : default [] (file s) = printed es;
  lg_chain : chain GENESIS 0 es;
  lg_tip : (lastHash_ s, lastSeq_ s) = tip GENESIS 0 es
}.

Lemma verify_logged s es : logged s es -> verify s = true.
Proof.
  intros [Hf Hc _]. unfold verify. destruct (file s) as [c|]; [|done]. cbn in Hf. subst c.
  rewrite lines_printed by by eapply chain_sound. exact (verify_chain GENESIS 0 es Hc).
Qed.

Lemma lastHash_logged s es : logged s es -> lastHash_ s <> CORRUPTED /\ clean (lastHash_ s) = true.
Proof.
  intros [_ Hc Ht]. destruct es as [|e es _] using rev_ind.
  - injection Ht as -> _. split; [discriminate|reflexivity].
  - rewrite tip_snoc in Ht. injection Ht as -> _. apply chain_snoc in Hc as [_ Hc].
    destruct Hc as (_ & _ & _ & -> & _).
    destruct (sha256_clean (canonical e)) as [H1 H2]. split; [|done].
    intros E. rewrite E in H2. discriminate.
Qed.

(** An event as the services build it. *)
Definition clean_request (e : AuditEvent) : bool :=
  clean (ts e) && clean (actor e) && clean (action e) && clean (fileId e)
  && clean (cipherHash e).

Lemma timestamp_clean n : clean (timestamp n) = true.
Proof.
  unfold timestamp. destruct (civil _) as [[y m] d]. cbv zeta.
  assert (Hp : forall n, clean (pad2 n) = true).
  { intros k. unfold pad2. case_match; rewrite ?clean_app, (proj1 (to_string_clean k)); done. }
  by rewrite !clean_app, !Hp, (proj1 (to_string_clean y)).
Qed.

Lemma record_logged s es e :
  logged s es -> clean_request e = true ->
  exists s' e', record e s = (Ok tt, s') /\ logged s' (es ++ [e'])
    /\ actor e' = actor e /\ action e' = action e /\ fileId e' = fileId e
    /\ cipherHash e' = cipherHash e /\ (ts e <> [] -> ts e' = ts e).
Proof.
  intros Hl Hc. destruct (lastHash_logged s es Hl) as [Hh Hhc].
  pose proof (verify_logged s es Hl) as Hv. destruct Hl as [Hf Hch Ht].
  assert (exists t' s1,
    (if decide (ts e = []) then secs ← on_sys nowMs; mret (timestamp secs) else mret (ts e))
      (Mk (file s) (lastHash_ s) (u64 (lastSeq_ s + 1)) (sys s)) = (Ok t', s1)
    /\ clean t' = true /\ (ts e <> [] -> t' = ts e) /\ file s1 = file s
    /\ lastSeq_ s1 = u64 (lastSeq_ s + 1)) as (t' & s1 & Et & Htc & Hte & Hf1 & Hs1).
  { destruct (decide (ts e = [])) as [E|E].
    - unfold on_sys, zoom, nowMs. mred. eexists _, _. split; [reflexivity|].
      split; [apply timestamp_clean|]. done.
    - eexists (ts e), _. split; [reflexivity|]. split; [|done]. unfold clean_request in Hc.
      rewrite !andb_true_iff in Hc. tauto. }
  unfold record. mred. rewrite decide_False by done. rewrite Hv. cbn [negb].
  unfold put. mred. rewrite Et. unfold modify.
  set (e0 := MkAuditEvent _ t' _ _ _ _ _ []). set (h := sha256_hex (canonical e0)).
  set (e' := MkAuditEvent _ t' _ _ _ _ _ h).
  exists (Mk (Some (default [] (file s1) ++ line_of e')) h (lastSeq_ s1) (sys s1)), e'.
  split; [done|]. split; [|by split_and!].
  assert (chain (lastHash_ s) (lastSeq_ s) [e']) as He'.
  { split; [|split; [done|split; [done|split; [done|done]]]].
    split; [|apply Z.mod_pos_bound; lia]. unfold clean_request in Hc.
    pose proof (proj1 (sha256_clean (canonical e0)) : clean h = true) as Hsh.
    apply andb_true_iff in Hc as [[[[_ Ha]%andb_true_iff Hb]%andb_true_iff Hfi]%andb_true_iff Hci].
    unfold clean_event. cbn [e' ts actor action fileId cipherHash prevHash msgHash].
    cbn [e0 actor action fileId cipherHash]. by rewrite Htc, Ha, Hb, Hfi, Hci, Hhc, Hsh. }
  rewrite (surjective_pairing (tip _ _ _)) in Ht. injection Ht as Ht1 Ht2.
  rewrite Ht1, Ht2 in He'. split; cbn.
  - rewrite Hf1, Hf, printed_app. unfold printed at 3. cbn. by rewrite app_nil_r.
  - by apply chain_snoc.
  - by rewrite tip_snoc, Hs1.
Qed.

(** Reopening the file of a logger in good order. *)
Lemma new_logged s es c : logged s es -> logged (new (file s) c) es.
Proof.
  intros Hl. pose proof (verify_logged s es Hl) as Hv. destruct Hl as [Hf Hch Ht].
  unfold new. destruct (file s) as [content|] eqn:E.
  2:{ cbn in Hf. destruct es as [|e es]; [by split|]. discriminate Hf. }
  cbn in Hf. subst content. rewrite lines_printed by by eapply chain_sound.
  destruct es as [|e es _] using rev_ind; [by split|].
  rewrite map_app. cbn [map]. rewrite last_snoc. unfold verify in *. rewrite E in Hv.
  rewrite lines_printed, map_app in Hv by by eapply chain_sound. cbn [file].
  rewrite lines_printed, map_app by by eapply chain_sound. rewrite Hv.
  cbn [negb]. pose proof Hch as [_ Hce]%chain_snoc.
  destruct Hce as (He & _ & _ & Hh & _).
  destruct (read_event e He) as (_ & _ & _ & _ & _ & Em & Es). rewrite Em, Es.
  rewrite decide_False.
  - split; [done..|]. by rewrite tip_snoc.
  - rewrite Hh. intros E0. pose proof (length_sha256_hex (canonical e)) as Hlen.
    rewrite E0 in Hlen. discriminate.
Qed.

Lemma events_logged s es : logged s es ->
  events s = map (fun e => MkAuditEvent (seq_ e) (ts e) (actor e) (action e) (fileId e) []
                             (prevHash e) (msgHash e)) es.
Proof.
  intros [Hf Hc _]. apply chain_sound in Hc. unfold events. rewrite Hf, lines_printed, map_map by done.
  apply map_ext_Forall. eapply Forall_impl; [|exact Hc]. intros e He.
  apply (read_event e He).
Qed.

#[global] Program Instance laws : AuditLoggerLaws t := {
  au_inv := fun s => exists es, logged s es;
  au_good := fun e => clean_request e = true;
  au_events := events
}.
Next Obligation.
  intros s e [es Hl] Hc. destruct (record_logged s es e Hl Hc)
    as (s' & e' & Er & Hl' & H1 & H2 & H3 & _).
  eexists s', _. split; [exact Er|]. split; [by eexists|].
  rewrite (events_logged _ _ Hl), (events_logged _ _ Hl'), map_app. done.
Qed.

(** ** Histories of the log: events recorded and restarts of the server *)
Inductive op := Rec (e : AuditEvent) | Reopen (clock : Clock).

Fixpoint exec (ops : list op) : M t unit :=
  match ops with
  | [] => mret tt
  | Rec e :: ops' => _ ← record e; exec ops'
  | Reopen c :: ops' => _ ← modify (fun s => new (file s) c); exec ops'
  end.

Definition requests (ops : list op) : list AuditEvent :=
  omap (fun o => match o with Rec e => Some e | Reopen _ => None end) ops.

(** Numbered from [m + 1] and linked by their hashes. *)
Fixpoint linked (prev : str) (m : Z) (es : list AuditEvent) : Prop :=
  match es with
  | [] => True
  | e :: es' => seq_ e = u64 (m + 1) /\ prevHash e = prev /\ linked (msgHash e) (seq_ e) es'
  end.

Definition subject (e : AuditEvent) : str * str * str := (actor e, action e, fileId e).

Lemma exec_logged ops s es :
  logged s es -> forallb clean_request (requests ops) = true ->
  exists s' es', exec ops s = (Ok tt, s') /\ logged s' (es ++ es')
    /\ map subject es' = map subject (requests ops).
Proof.
  revert s es. induction ops as [|[e|c] ops IH]; intros s es Hl Hc.
  - exists s, []. by rewrite app_nil_r.
  - apply andb_true_iff in Hc as [He Hc].
    destruct (record_logged s es e Hl He) as (s1 & e' & Er & Hl1 & H1 & H2 & H3 & _).
    destruct (IH s1 _ Hl1 Hc) as (s' & es' & Ex & Hl' & Hm).
    exists s', (e' :: es'). cbn [exec]. mred. rewrite Er, Ex. split; [done|].
    split; [by rewrite <-app_assoc in Hl'|]. cbn. unfold subject at 1 3. by rewrite H1, H2, H3, Hm.
  - destruct (IH _ es (new_logged s es c Hl) Hc) as (s' & es' & Ex & Hl' & Hm).
    exists s', es'. by cbn [exec]; mred; unfold modify; mred.
Qed.

Lemma chain_linked prev m es : chain prev m es ->
  linked prev m (map (fun e => MkAuditEvent (seq_ e) (ts e) (actor e) (action e) (fileId e) []
                                 (prevHash e) (msgHash e)) es).
Proof.
  revert prev m. induction es as [|e es IH]; intros prev m; [done|].
  intros (_ & Hs & Hp & _ & Hc). split; [done|]. split; [done|]. by apply IH.
Qed.

(** C4: The hash-chained log is complete and verifiable: whatever clean events
    are recorded, with server restarts anywhere in between, every call succeeds,
    the file verifies, and reading it back gives exactly the recorded events in
    order, numbered from 1 and each linked to the hash of the one before. *)
Theorem log_complete ops clock :
  forallb clean_request (requests ops) = true ->
  exists s log, exec ops (new None clock) = (Ok tt, s) /\ verify s = true
    /\ all s = Ok log /\ map subject log = map subject (requests ops)
    /\ linked GENESIS 0 log.
Proof.
  intros Hc. assert (Hl : logged (new None clock) []) by by split.
  destruct (exec_logged ops _ [] Hl Hc) as (s & es & Ex & Hl' & Hm). cbn [app] in Hl'.
  exists s, (events s). split; [done|]. split; [by eapply verify_logged|]. split; [done|].
  rewrite (events_logged _ _ Hl'). split.
  - rewrite map_map. exact Hm.
  - by apply chain_linked, Hl'.
Qed.

Lemma log_complete_witness :
  exists s log, exec [Rec (event "alice" AuditAction.LOGIN_OK []); Reopen (FakeClock 5);
                      Rec (event "bob" AuditAction.LOGIN_FAIL [])] (new None (FakeClock 0))
    = (Ok tt, s) /\ verify s = true /\ all s = Ok log
    /\ map subject log = [(("alice" : str), AuditAction.LOGIN_OK, []);
                           (("bob" : str), AuditAction.LOGIN_FAIL, [])]
    /\ linked GENESIS 0 log.
Proof.
  apply (log_complete [Rec (event "alice" AuditAction.LOGIN_OK []); Reopen (FakeClock 5);
                       Rec (event "bob" AuditAction.LOGIN_FAIL [])] (FakeClock 0)).
  reflexivity.
Defined.

(** ** Append only *)

(** The log is append-only and never grows on top of a corrupted file: for
    any state of file and logger, [record] either refuses and leaves the file as
    it was, or the file verified and gains exactly one line at its end, sealed
    with the hash of its fields and linked to the logger's last hash. *)
Theorem record_append_only e s :
  let s' := (record e s).2 in
  ((exists m, (record e s).1 = Throw (RuntimeError m)) /\ s' = s
     /\ (lastHash_ s = CORRUPTED \/ verify s = false))
  \/ ((record e s).1 = Ok tt /\ verify s = true
      /\ exists e', file s' = Some (default [] (file s) ++ line_of e')
           /\ subject e' = subject e /\ prevHash e' = lastHash_ s
           /\ msgHash e' = sha256_hex (canonical e') /\ lastHash_ s' = msgHash e'
           /\ cipherHash e' = cipherHash e /\ (ts e <> [] -> ts e' = ts e) /\ 0 <= seq_ e').
Proof.
  cbv zeta. unfold record. mred. case_decide as Hc.
  { left. split; [by eexists|]. split; [done|by left]. }
  destruct (verify s) eqn:Ev; cbn [negb].
  2:{ left. split; [by eexists|]. split; [done|by right]. }
  right. unfold put. mred. set (s1 := Mk _ _ _ _).
  destruct ((if decide (ts e = []) then secs ← on_sys nowMs; mret (timestamp secs)
             else mret (ts e)) s1) as [o s2] eqn:Et.
  assert (exists t', o = Ok t' /\ file s2 = file s /\ (ts e <> [] -> t' = ts e)) as (t' & -> & Hf & Ht).
  { destruct (decide _); unfold on_sys, zoom, nowMs in Et; mred_in Et;
      injection Et as <- <-; eexists; done. }
  unfold modify. cbn [fst snd file lastHash_]. split; [done|]. split; [done|].
  eexists. rewrite Hf. split; [done|]. split_and!; [done..|apply Z.mod_pos_bound; lia].
Qed.

(** ** Tamper evidence *)

Definition all_bytes : list byte := map (fun n => z2b (Z.of_nat n)) (seq 0 256).

Lemma all_bytes_complete c : In c all_bytes.
Proof.
  apply in_map_iff. exists (Z.to_nat (b2z c)). pose proof (b2z_range c).
  rewrite Z2Nat.id by lia. split; [apply z2b_b2z|]. apply in_seq. lia.
Qed.

Lemma esc_prefix_free c d : c <> d -> starts_with (esc c) (esc d) = false.
Proof.
  assert (forallb (fun c => forallb (fun d => bool_decide (c = d)
            || negb (starts_with (esc c) (esc d))) all_bytes) all_bytes = true) as H
    by (vm_compute; reflexivity).
  intros Hne. rewrite forallb_forall in H. specialize (H c (all_bytes_complete c)).
  rewrite forallb_forall in H. specialize (H d (all_bytes_complete d)).
  rewrite bool_decide_eq_false_2 in H by done. by apply negb_true_iff in H.
Qed.

Lemma esc_quote c : exists d r, esc c = d :: r /\ d <> dq.
Proof.
  assert (forallb (fun c => match esc c with
                            | d :: _ => negb (bool_decide (d = dq)) | [] => false end) all_bytes = true)
    as H by (vm_compute; reflexivity).
  rewrite forallb_forall in H. specialize (H c (all_bytes_complete c)).
  destruct (esc c) as [|d r]; [done|]. exists d, r. split; [done|].
  by apply negb_true_iff, bool_decide_eq_false in H.
Qed.

(** Two strings with a common extension: one is a prefix of the other. *)
Lemma app_prefix (a b x y : str) : a ++ x = b ++ y -> (exists r, b = a ++ r) \/ (exists r, a = b ++ r).
Proof.
  revert b. induction a as [|c a IH]; intros [|d b] E; cbn in E; [by left; eexists..| |].
  - right. by eexists.
  - injection E as <- E. destruct (IH b E) as [[r ->]|[r ->]]; [left|right]; by eexists.
Qed.

Lemma esc_unique c d x y : esc c ++ x = esc d ++ y -> c = d /\ x = y.
Proof.
  intros E. destruct (decide (c = d)) as [<-|Hne]; [by apply app_inv_head in E|].
  exfalso. destruct (app_prefix _ _ _ _ E) as [[r Hr]|[r Hr]].
  - assert (starts_with (esc c) (esc d) = true) by (apply starts_with_true; by eexists).
    by rewrite esc_prefix_free in H.
  - assert (starts_with (esc d) (esc c) = true) by (apply starts_with_true; by eexists).
    by rewrite esc_prefix_free in H.
Qed.

(** An escaped string ends at the next quote, so it can be read back. *)
Lemma jsonEscape_unique s : forall s' x y,
  jsonEscape s ++ dq :: x = jsonEscape s' ++ dq :: y -> s = s' /\ x = y.
Proof.
  unfold jsonEscape. induction s as [|c s IH]; intros [|d s'] x y E; cbn in E.
  - by injection E.
  - destruct (esc_quote d) as (f & r & Hd & Hf). rewrite Hd in E.
    by injection E as <- _.
  - destruct (esc_quote c) as (f & r & Hd & Hf). rewrite Hd in E.
    by injection E as -> _.
  - rewrite <-!app_assoc in E. apply esc_unique in E as [<- E].
    by apply IH in E as [-> ->].
Qed.

(** What a line seals: everything but the hash itself. *)
Definition sealed (e : AuditEvent) : AuditEvent :=
  MkAuditEvent (seq_ e) (ts e) (actor e) (action e) (fileId e) (cipherHash e) (prevHash e) [].

Lemma canonical_inj e e' :
  0 <= seq_ e -> 0 <= seq_ e' -> canonical e = canonical e' -> sealed e = sealed e'.
Proof.
  intros Hn Hn' E. unfold canonical, fields, jstr in E. rewrite <-!app_assoc in E.
  apply app_inv_head, app_inv_head in E.
  apply (split_unique comma) in E as [E0 E]; [|apply to_string_clean..].
  apply to_string_inj in E0; [|done..].
  do 6 (apply app_inv_head, app_inv_head in E; apply jsonEscape_unique in E as [? E];
        try apply (app_inv_head [comma]) in E).
  unfold sealed. congruence.
Qed.

(** The sealed events of a file's lines, each with the hash its line stores. *)
Fixpoint records (prev : str) (ls : list str) : list (AuditEvent * str) :=
  match ls with
  | [] => []
  | l :: ls' => if decide (l = []) then records prev ls'
                else (entry prev l, getField "msgHash" l) :: records (getField "msgHash" l) ls'
  end.
Definition log_records (s : t) : list (AuditEvent * str) :=
  records GENESIS (lines (default [] (file s))).
Definition last_hash (rs : list (AuditEvent * str)) : str :=
  match list.last rs with Some r => r.2 | None => GENESIS end.

(** What [verify] establishes of the records, from the last one back. *)
Inductive sealed_chain : list (AuditEvent * str) -> Prop :=
| sealed_nil : sealed_chain []
| sealed_snoc rs e h : sealed_chain rs -> prevHash e = last_hash rs -> msgHash e = [] ->
    0 <= seq_ e -> h = sha256_hex (canonical e) -> sealed_chain (rs ++ [(e, h)]).

Lemma seq_of_nonneg s : 0 <= seq_of s.
Proof. unfold seq_of. destruct (stoull s) eqn:E; [apply stoull_range in E; cbn; lia|done]. Qed.

Lemma verify_sealed ls : forall rs n,
  sealed_chain rs -> verify_lines (last_hash rs) n ls = true ->
  sealed_chain (rs ++ records (last_hash rs) ls).
Proof.
  induction ls as [|l ls IH]; intros rs n Hrs; cbn [verify_lines records].
  { by rewrite app_nil_r. }
  case_decide as El; [by apply IH|].
  destruct (seq_ _ =? n); [|done]. cbn [negb].
  case_bool_decide as Ep; [|done]. cbn [negb].
  case_bool_decide as Eh; [|done]. cbn [negb]. intros Hv.
  set (r := (entry (last_hash rs) l, getField "msgHash" l)).
  assert (Hl : last_hash (rs ++ [r]) = getField "msgHash" l)
    by (unfold last_hash; by rewrite last_snoc).
  rewrite <-Hl in Hv |- *.
  replace (rs ++ r :: _) with ((rs ++ [r]) ++ records (last_hash (rs ++ [r])) ls)
    by by rewrite <-app_assoc.
  eapply IH; [|exact Hv]. apply sealed_snoc; [done..|apply seq_of_nonneg|done].
Qed.

Lemma verify_sealed_log s : verify s = true -> sealed_chain (log_records s).
Proof.
  unfold verify, log_records. destruct (file s) as [c|]; cbn; [|intros; constructor].
  intros H. apply (verify_sealed (lines c) [] 1); [constructor|exact H].
Qed.

Lemma sealed_binding rs : sealed_chain rs -> forall rs', sealed_chain rs' ->
  last_hash rs = last_hash rs' ->
  rs = rs' \/ exists e h e' h', In (e, h) rs /\ In (e', h') rs' /\
    canonical e <> canonical e' /\ sha256_hex (canonical e) = sha256_hex (canonical e').
Proof.
  assert (Hgen : forall e, sha256_hex (canonical e) <> GENESIS).
  { intros e E. pose proof (length_sha256_hex (canonical e)) as H. by rewrite E in H. }
  assert (Hlast : forall rs (r : AuditEvent * str), last_hash (rs ++ [r]) = r.2)
    by (intros; unfold last_hash; by rewrite last_snoc).
  induction 1 as [|rs e h Hrs IH Hp Hm Hs Hh]; intros rs' Hrs' E;
    destruct Hrs' as [|rs' e' h' Hrs' Hp' Hm' Hs' Hh']; rewrite ?Hlast in E; cbn in E.
  - by left.
  - symmetry in E. rewrite Hh' in E. by apply Hgen in E.
  - rewrite Hh in E. by apply Hgen in E.
  - subst h h'. destruct (decide (canonical e = canonical e')) as [Ec|Hne].
    + pose proof (canonical_inj e e' Hs Hs' Ec) as Es.
      assert (e = e') as <- by (destruct e, e'; unfold sealed in Es; cbn in *; congruence).
      destruct (IH rs' Hrs') as [->|(f & k & f' & k' & H1 & H2 & H3)]; [congruence|by left|].
      right. exists f, k, f', k'. rewrite !in_app_iff. auto.
    + right. eexists e, _, e', _. rewrite !in_app_iff. cbn. split_and!; [by right; left..|done|done].
Qed.

(** C32: The chain is tamper evident: if two log files both verify and end in
    the same hash, they hold the same records (number, time, actor, action, file,
    hashes, in the same order and number), or else the two files themselves
    exhibit a SHA-256 collision between the canonical forms of two of their
    records. *)
Theorem chain_tamper_evident s s' :
  verify s = true -> verify s' = true ->
  last_hash (log_records s) = last_hash (log_records s') ->
  log_records s = log_records s'
  \/ exists e h e' h', In (e, h) (log_records s) /\ In (e', h') (log_records s') /\
       canonical e <> canonical e' /\ sha256_hex (canonical e) = sha256_hex (canonical e').
Proof.
  intros Hv Hv'. apply sealed_binding; by apply verify_sealed_log.
Qed.

Definition sample (a : str) : t := (record (event a AuditAction.LOGIN_OK []) (new None (FakeClock 0))).2.

Lemma chain_tamper_evident_witness :
  let s := sample "alice" in
  log_records s = log_records s
  \/ exists e h e' h', In (e, h) (log_records s) /\ In (e', h') (log_records s) /\
       canonical e <> canonical e' /\ sha256_hex (canonical e) = sha256_hex (canonical e').
Proof.
  apply (chain_tamper_evident (sample "alice") (sample "alice"));
    [vm_compute; reflexivity|vm_compute; reflexivity|reflexivity].
Defined.

(** ** The printer and the scanner disagree on escapes *)

(** *** The fields of any line, as they are printed *)
Lemma esc_noquote c : c <> dq -> dq ∉ esc c.
Proof.
  assert (forallb (fun c => bool_decide (c = dq) || negb (bool_decide (dq ∈ esc c))) all_bytes = true) as H
    by (vm_compute; reflexivity).
  rewrite forallb_forall in H. specialize (H c (all_bytes_complete c)). intros Hc.
  rewrite bool_decide_eq_false_2 in H by done. by apply negb_true_iff, bool_decide_eq_false in H.
Qed.

Lemma esc_nolf c : lf ∉ esc c.
Proof.
  assert (forallb (fun c => negb (bool_decide (lf ∈ esc c))) all_bytes = true) as H by (vm_compute; reflexivity).
  rewrite forallb_forall in H. specialize (H c (all_bytes_complete c)).
  by apply negb_true_iff, bool_decide_eq_false in H.
Qed.

Lemma esc_first c : esc c = [c] \/ exists r, esc c = backslash :: r.
Proof.
  unfold esc. repeat case_decide; eauto. case_match; eauto.
Qed.

Lemma jsonEscape_nolf v : lf ∉ jsonEscape v.
Proof.
  unfold jsonEscape. induction v as [|c v IH]; cbn; [apply not_elem_of_nil|].
  apply not_elem_of_app. split; [apply esc_nolf|exact IH].
Qed.

(** A quote in an escaped string has a backslash before it. *)
Lemma escape_quote v : dq ∉ jsonEscape v \/ exists a b, jsonEscape v = a ++ backslash :: dq :: b /\ dq ∉ a.
Proof.
  unfold jsonEscape. induction v as [|c v IH]; [left; apply not_elem_of_nil|]. cbn.
  destruct (decide (c = dq)) as [->|Hc]; [right; exists [], (v ≫= esc); split; [done|apply not_elem_of_nil]|].
  pose proof (esc_noquote c Hc) as He. destruct IH as [IH|(a & b & -> & Ha)].
  - left. by apply not_elem_of_app.
  - right. exists (esc c ++ a), b. split; [by rewrite <-app_assoc|by apply not_elem_of_app].
Qed.

Lemma not_key_escaped k v c s : word k = true -> backslash ∉ k -> c <> colon ->
  starts_with (key k) (dq :: jsonEscape v ++ dq :: c :: s) = false.
Proof.
  intros Hk Hb Hc. apply starts_with_false. intros r E. unfold key in E. cbn in E. injection E as E.
  rewrite <-!app_assoc in E. cbn in E. pose proof (word_noquote _ Hk) as Hq.
  destruct (escape_quote v) as [Hv|(a & b & Hv & Ha)].
  - apply split_unique in E as [_ E]; [|done..]. injection E as E _. by apply Hc.
  - rewrite Hv, <-app_assoc in E. change (backslash :: dq :: b) with ([backslash] ++ dq :: b) in E.
    rewrite <-!app_assoc, app_assoc in E. cbn [app] in E.
    apply split_unique in E as [E _]; [|apply not_elem_of_app; split; [done|decided]|done].
    apply Hb. rewrite <-E. apply elem_of_app. right. left.
Qed.

Lemma skips_escaped k v c s : word k = true -> backslash ∉ k -> c <> colon ->
  skips (key k) (jsonEscape v) (dq :: c :: s).
Proof.
  intros Hk Hb Hc. unfold jsonEscape. induction v as [|d v IH]; [apply skips_nil|]. cbn.
  apply skips_app; [|exact IH]. destruct (decide (d = dq)) as [->|Hd].
  - apply (skips_app _ [backslash] [dq]); [apply skips_without; decided|].
    apply skips_one. fold (jsonEscape v). by apply not_key_escaped.
  - by apply skips_without, esc_noquote.
Qed.

(** A quoted field with an escaped value, and a comma after it. *)
Definition escaped_fld (k v : str) : fld := MkFld k true (jsonEscape v) comma.

Lemma escaped_passes k k' v : word k = true -> backslash ∉ k -> word k' = true -> k' <> k ->
  passes k (escaped_fld k' v).
Proof.
  intros Hk Hb Hk' Hne s. pose proof (word_noquote _ Hk') as Hq.
  assert (forall a s, dq ∉ a -> skips (key k) a s) as Hsk by (intros; by apply skips_without).
  unfold text, escaped_fld, key at 2. cbn [f_key f_quoted f_val f_sep]. rewrite <-!app_assoc.
  apply (skips_app _ [dq]).
  { apply skips_one. cbn. rewrite <-!app_assoc. cbn. by apply not_key_value. }
  apply skips_app; [by apply Hsk|].
  apply (skips_app _ [dq]); [apply skips_one; cbn; apply not_key_punct; [done|decided]|].
  apply skips_app; [apply Hsk; decided|]. apply (skips_app _ [dq]).
  { apply skips_one. rewrite <-!app_assoc. cbn [app]. by apply not_key_escaped. }
  apply skips_app; [by apply skips_escaped|].
  apply (skips_app _ [dq]); [|apply Hsk; decided]. apply skips_one. cbn. apply not_key_punct; [done|decided].
Qed.

(** What the scanner takes from a quoted field begins where the field does. *)
Lemma getField_quoted pre fs f fs' : dq ∉ pre -> Forall (passes (f_key f)) fs -> f_quoted f = true ->
  exists r s, getField (f_key f) (pre ++ body (fs ++ f :: fs')) ++ r = f_val f ++ dq :: s.
Proof.
  intros Hp Hfs Hq. unfold getField. rewrite (find_fld pre fs f fs' Hp Hfs).
  set (a := (pre ++ body fs) ++ key (f_key f)).
  assert ((length (pre ++ body fs) + length (key (f_key f)))%nat = length a) as ->
    by (unfold a; by rewrite (length_app _ (key _))).
  assert (pre ++ body (fs ++ f :: fs') = (a ++ [dq]) ++ f_val f ++ dq :: f_sep f :: body fs') as ->.
  { unfold a. rewrite body_app. unfold body at 2. cbn [map concat]. unfold text at 1. rewrite Hq.
    rewrite <-!app_assoc. cbn. by rewrite <-!app_assoc. }
  rewrite decide_True by (rewrite <-app_assoc; cbn; by rewrite list_lookup_middle).
  assert (S (length a) = length (a ++ [dq])) as -> by (rewrite length_app; simpl; lia).
  unfold cut. rewrite drop_app_length. destruct (close_quote _ _ _) as [q|].
  - eexists _, (f_sep f :: body fs'). apply take_drop.
  - exists [], (f_sep f :: body fs'). apply app_nil_r.
Qed.

(** An escaped string with a quote in it does not begin as the string does. *)
Lemma escaped_differs x : dq ∈ x -> forall n r y, x ++ r = replicate n backslash ++ jsonEscape x ++ y -> False.
Proof.
  unfold jsonEscape. induction x as [|c x IH]; [by intros ?%not_elem_of_nil|].
  intros Hx n r y E. cbn in E. rewrite <-app_assoc in E.
  assert (c = backslash -> forall m, x ++ r = replicate m backslash ++ (x ≫= esc) ++ y -> False) as Hb.
  { intros -> m. apply IH. by apply elem_of_cons in Hx as [?|?]. }
  destruct n as [|n]; cbn in E.
  - destruct (esc_first c) as [Ec|[s Ec]]; rewrite Ec in E; cbn in E.
    + injection E as E. apply (IH ltac:(apply elem_of_cons in Hx as [<-|?]; [discriminate Ec|done]) O _ _ E).
    + assert (c = backslash) as Hc by congruence. apply (Hb Hc 1%nat). subst c. injection Ec as <-.
      by injection E as E.
  - assert (c = backslash) as Hc by congruence. injection E as _ E. apply (Hb Hc (n + 2)%nat).
    rewrite replicate_add, <-app_assoc. subst c. exact E.
Qed.

(** Any line: the fields it was printed from. *)
Definition printed_flds (e : AuditEvent) : list fld := [
  MkFld "seq" false (to_string (seq_ e)) comma;
  escaped_fld "ts" (ts e); escaped_fld "actor" (actor e); escaped_fld "action" (action e);
  escaped_fld "fileId" (fileId e); escaped_fld "cipherHash" (cipherHash e);
  escaped_fld "prevHash" (prevHash e); MkFld "msgHash" true (msgHash e) brace ].

Lemma printed_text e : line_text e = [Byte.x7b] ++ body (printed_flds e).
Proof.
  unfold line_text, fields, jstr, body, printed_flds, escaped_fld, text.
  cbn [map concat f_key f_quoted f_val f_sep]. rewrite <-!app_assoc. reflexivity.
Qed.

Lemma seq_passes k n : word k = true -> k <> lit "seq" -> passes k (MkFld "seq" false (to_string n) comma).
Proof.
  intros Hk Hne s. apply skips_fld; [done| |by apply not_eq_sym].
  pose proof (to_string_clean n) as [Hc Hm]. split; cbn; try done.
  - by apply clean_without.
  - by apply clean_last.
  - by left.
  - intros _. split; [|done]. apply to_string_nonempty.
Qed.

Ltac all_pass := repeat first [apply List.Forall_nil | apply List.Forall_cons];
  first [apply seq_passes | apply escaped_passes]; first [reflexivity | discriminate | decided].

(** The five fields of an event a caller fills in. *)
Definition given (e : AuditEvent) : list (str * str) :=
  [(lit "ts", ts e); (lit "actor", actor e); (lit "action", action e); (lit "fileId", fileId e);
   (lit "cipherHash", cipherHash e)].

Lemma getField_given e k v : (k, v) ∈ given e ->
  exists r s, getField k (line_text e) ++ r = jsonEscape v ++ dq :: s.
Proof.
  intros Hin. rewrite printed_text. assert (dq ∉ [Byte.x7b]) as Hp by decided.
  assert (exists fs fs', printed_flds e = fs ++ escaped_fld k v :: fs' /\ Forall (passes k) fs) as (fs & fs' & -> & Hfs).
  { unfold given in Hin. rewrite !elem_of_cons in Hin.
    destruct Hin as [[= -> ->]|[[= -> ->]|[[= -> ->]|[[= -> ->]|[[= -> ->]|[]%not_elem_of_nil]]]]].
    - eexists [_], _. split; [reflexivity|all_pass].
    - eexists [_; _], _. split; [reflexivity|all_pass].
    - eexists [_; _; _], _. split; [reflexivity|all_pass].
    - eexists [_; _; _; _], _. split; [reflexivity|all_pass].
    - eexists [_; _; _; _; _], _. split; [reflexivity|all_pass]. }
  by apply (getField_quoted _ fs (escaped_fld k v) fs').
Qed.

Lemma getField_msgHash e : clean (msgHash e) = true -> getField "msgHash" (line_text e) = msgHash e.
Proof.
  intros Hc. rewrite printed_text.
  apply (get_past [Byte.x7b] [_; _; _; _; _; _; _] (MkFld "msgHash" true (msgHash e) brace) []); [decided|all_pass|].
  split; cbn; try done; [by apply clean_without|by apply clean_last|by right].
Qed.

Lemma line_text_nolf e : clean (msgHash e) = true -> lf ∉ line_text e.
Proof.
  intros Hc. rewrite printed_text. unfold body, printed_flds, escaped_fld, text.
  cbn [map concat f_key f_quoted f_val f_sep]. rewrite !not_elem_of_app.
  repeat split; try apply jsonEscape_nolf; try decided; apply clean_without; try done. apply to_string_clean.
Qed.

(** *** The log after a quote *)

(** The event has a quote in a field. *)
Definition quoted (e : AuditEvent) : Prop := exists k v, (k, v) ∈ given e /\ dq ∈ v.

(** What is hashed of a line with a quote is not what is hashed to verify it. *)
Lemma quoted_canonical e prev : quoted e -> 0 <= seq_ e -> canonical (entry prev (line_text e)) <> canonical e.
Proof.
  intros (k & v & Hin & Hv) Hs E. apply canonical_inj in E; [|apply seq_of_nonneg|exact Hs].
  assert (getField k (line_text e) = v) as Hg.
  { unfold sealed, entry in E. cbn in E. injection E as _ E1 E2 E3 E4 E5 _.
    unfold given in Hin. rewrite !elem_of_cons in Hin.
    by destruct Hin as [[= -> ->]|[[= -> ->]|[[= -> ->]|[[= -> ->]|[[= -> ->]|[]%not_elem_of_nil]]]]]. }
  destruct (getField_given e k v Hin) as (r & s & Hr). rewrite Hg in Hr.
  exact (escaped_differs v Hv O r (dq :: s) Hr).
Qed.

(** Events recorded and restarts, each whatever became of those before: the
    outcomes of the records. *)
Fixpoint tries (ops : list op) (s : t) : list (outcome unit) * t :=
  match ops with
  | [] => ([], s)
  | Rec e :: ops' =>
      let '(o, s1) := record e s in
      let '(os, s2) := tries ops' s1 in (o :: os, s2)
  | Reopen c :: ops' => tries ops' (new (file s) c)
  end.

Definition refused (o : outcome unit) : Prop := exists m, o = Throw (RuntimeError m).

(** A file with a line that does not verify: nothing is ever written to it again. *)
Record spoiled (s : t) (c : str) : Prop := {
  sp_file : file s = Some c;
  sp_lines : lines c <> [];
  sp_verify : verify_lines GENESIS 1 (lines c) = false
}.

Lemma spoiled_verify s c : spoiled s c -> verify s = false.
Proof. intros [Hf _ Hv]. unfold verify. by rewrite Hf. Qed.

Lemma record_spoiled s c e : spoiled s c -> refused (record e s).1 /\ (record e s).2 = s.
Proof.
  intros Hs. destruct (record_append_only e s) as [(Hm & E & _)|(_ & Hv & _)]; [by split|].
  by rewrite (spoiled_verify s c Hs) in Hv.
Qed.

Lemma new_spoiled s c clock : spoiled s c -> spoiled (new (file s) clock) c.
Proof.
  intros [Hf Hl Hv]. unfold new. rewrite Hf. destruct (list.last (lines c)) as [l|] eqn:El.
  - unfold verify. cbn [file]. rewrite Hv. by split.
  - by apply last_None in El.
Qed.

Lemma tries_spoiled ops : forall s c, spoiled s c ->
  Forall refused (tries ops s).1 /\ spoiled (tries ops s).2 c.
Proof.
  induction ops as [|[e|clock] ops IH]; intros s c Hs; cbn [tries].
  - by split.
  - destruct (record_spoiled s c e Hs) as [Hr E]. destruct (record e s) as [o s1]. cbn in Hr, E. subst s1.
    destruct (IH s c Hs) as [Ho Hs']. destruct (tries ops s) as [os s2]. split; [by constructor|exact Hs'].
  - by apply IH, new_spoiled.
Qed.

(** The line of an event with a quote does not verify at the end of a log in good
    order, unless its two texts have the same hash. *)
Lemma quoted_spoils s es e : logged s es -> quoted e -> 0 <= seq_ e -> clean (msgHash e) = true ->
  msgHash e = sha256_hex (canonical e) ->
  sha256_hex (canonical (entry (lastHash_ s) (line_text e))) <> sha256_hex (canonical e) ->
  verify_lines GENESIS 1 (lines (printed es ++ line_of e)) = false.
Proof.
  intros [_ Hch Ht] Hq Hs Hc Hh Hne. rewrite lines_printed_app by by eapply chain_sound.
  assert (line_of e = line_text e ++ lf :: []) as -> by (unfold line_of, line_text; by rewrite <-!app_assoc).
  rewrite lines_app by by apply line_text_nolf. change 1 with (u64 (0 + 1)).
  rewrite verify_chain_app by done. rewrite <-Ht. cbn [fst snd lines verify_lines].
  rewrite decide_False by (by rewrite printed_text).
  destruct (negb _); [done|]. destruct (negb _); [done|].
  rewrite getField_msgHash, Hh by done. by rewrite bool_decide_eq_false_2.
Qed.

(** C33: The escaping defect: [verify] escapes the fields it has read a second
    time. Whatever log of clean events is open, an event with a quote anywhere in
    the five fields a caller fills in (the user name of a failed login, which
    anyone may choose) is accepted and written, and from then on every event,
    whatever it is and however often the log is reopened in between, is refused
    and the file stays as it is, for good; or else the line written exhibits a
    SHA-256 collision between the text its hash was made of and the different
    text it is verified against. *)
Theorem quote_blocks_log s es e : logged s es -> quoted e ->
  exists e' s1, record e s = (Ok tt, s1) /\ file s1 = Some (printed es ++ line_of e') /\ subject e' = subject e /\
    ((forall ops, Forall refused (tries ops s1).1 /\ file (tries ops s1).2 = file s1)
     \/ (canonical (entry (lastHash_ s) (line_text e')) <> canonical e' /\
         sha256_hex (canonical (entry (lastHash_ s) (line_text e'))) = sha256_hex (canonical e'))).
Proof.
  intros Hl (k & v & Hin & Hv). destruct (lastHash_logged s es Hl) as [Hh _].
  destruct (record_append_only e s) as [(_ & _ & [?|Hf])|(Hok & _ & e' & Hfile & Hsub & Hp & Hmsg & _ & Hci & Hts & Hseq)].
  { done. } { by rewrite (verify_logged s es Hl) in Hf. }
  rewrite (lg_file s es Hl) in Hfile.
  assert (quoted e') as Hq.
  { exists k, v. split; [|exact Hv]. unfold given, subject in *. injection Hsub as Ha Hb Hc. rewrite Ha, Hb, Hc, Hci.
    destruct (decide (ts e = [])) as [Et|Et]; [|by rewrite (Hts Et)]. rewrite Et in Hin.
    apply elem_of_cons in Hin as [[= -> ->]|Hin]; [by apply not_elem_of_nil in Hv|by right]. }
  destruct (record e s) as [o s1]. cbn in Hok, Hfile. subst o. exists e', s1. do 3 (split; [done|]).
  destruct (decide (sha256_hex (canonical (entry (lastHash_ s) (line_text e'))) = sha256_hex (canonical e'))) as [E|Hne].
  { right. split; [|exact E]. by apply quoted_canonical. }
  left. assert (clean (msgHash e') = true) as Hcm by (rewrite Hmsg; apply sha256_clean).
  intros ops. destruct (tries_spoiled ops s1 (printed es ++ line_of e')) as [Ho Hs].
  - split; [done| |by eapply quoted_spoils].
    rewrite lines_printed_app by (eapply chain_sound, Hl).
    assert (line_of e' = line_text e' ++ lf :: []) as -> by (unfold line_of, line_text; by rewrite <-!app_assoc).
    rewrite lines_app by by apply line_text_nolf. by intros [_ [=]]%app_eq_nil.
  - split; [exact Ho|]. by rewrite (sp_file _ _ Hs).
Qed.

(** A failed login under the user name a, quote, b. *)
Definition quoted_login : AuditEvent := event [Byte.x61; dq; Byte.x62] AuditAction.LOGIN_FAIL [].

Lemma quote_blocks_log_witness :
  exists e' s1, record quoted_login (new None (FakeClock 0)) = (Ok tt, s1) /\ file s1 = Some (line_of e')
    /\ ((forall ops, Forall refused (tries ops s1).1 /\ file (tries ops s1).2 = file s1)
        \/ sha256_hex (canonical (entry GENESIS (line_text e'))) = sha256_hex (canonical e')).
Proof.
  destruct (quote_blocks_log (new None (FakeClock 0)) [] quoted_login) as (e' & s1 & Er & Hf & _ & H).
  - by split.
  - exists (lit "actor"), [Byte.x61; dq; Byte.x62]. split; [right; left|decided].
  - exists e', s1. split; [exact Er|]. split; [exact Hf|]. destruct H as [H|[_ H]]; [by left|by right].
Defined.

(** Here it is the first of the two. *)
Example quoted_login_spoils :
  let s := (record quoted_login (new None (FakeClock 0))).2 in
  verify s = false /\ (record (event "bob" AuditAction.LOGIN_OK []) s).1
    = Throw (RuntimeError "audit chain verification failed before append")
  /\ (record (event "bob" AuditAction.LOGIN_OK []) (new (file s) (FakeClock 9))).1
    = Throw (RuntimeError "audit chain corrupted — refuse to append").
Proof. vm_compute. by split_and!. Qed.
End HashChain.
