(* ===== verification/Hasher.v ===== *)
(** * The password hashers ([argon2_hasher.cpp], [fake_hasher.hpp])

    [Argon2Hasher] wraps the argon2 library, which is not part of the
    repository: its two entry points are parameters. [FakeHasher] is the
    hasher of the tests, a table from hashes to passwords. *)
From S2P Require Import Prelude Domain Ports.
From Stdlib Require Import ZArith Lia.
From stdpp Require Import base gmap strings list numbers.
Local Open Scope Z_scope.

Module Argon2Hasher.
Section Argon2.
  (** [argon2id_hash_encoded] with the fixed cost parameters: a password and a
      salt give the encoded hash, or an error message; [argon2id_verify]. *)
Context (argon2id_hash_encoded : str -> str -> str + str)
        (argon2id_verify : str -> str -> bool).

(** The salt is the only state: the operating system's generator. *)
Definition hash (pw : str) : M Rng str :=
  salt ← rd_bytes 16;
  match argon2id_hash_encoded pw salt with
  | inl message => throw (RuntimeError message)
  | inr out => mret out
  end.

Definition verify (enc pw : str) (r : Rng) : outcome bool := Ok (argon2id_verify enc pw).

#[local] Instance ops : IPasswordHasher Rng := {
  Ports.hash := hash;
  Ports.verify := verify
}.

(** Documented of argon2: an encoded hash verifies the password it was made of. *)
Context (argon2_round : forall pw salt enc,
  argon2id_hash_encoded pw salt = inr enc -> argon2id_verify enc pw = true).

#[local] Program Instance laws : PasswordHasherLaws Rng.
Next Obligation. intros. by eexists. Qed.
Next Obligation.
  intros pw r enc r' E. change (hash pw r = (Ok enc, r')) in E.
  unfold hash in E. rewrite M_bind_eq in E.
  destruct (rd_bytes 16 r) as [[salt|e|] r1]; [|discriminate E..].
  destruct (argon2id_hash_encoded pw salt) as [m|out] eqn:Ea; [discriminate|].
  injection E as <- <-. cbn. unfold verify. by erewrite argon2_round.
Qed.
End Argon2.
End Argon2Hasher.

Module FakeHasher.

Record t := Mk { m_ : gmap str str; ctr_ : Z }.
Definition empty : t := Mk ∅ 0.

Definition hash (pw : str) : M t str :=
  s ← get;
  let d := sha256stub (pw ++ to_string (ctr_ s)) in
  ctr ← liftO (add_i32 (ctr_ s) 1);
  let h : str := "$fake$" ++ hex_of (d_bytes d) in
  _ ← put (Mk (<[h := pw]> (m_ s)) ctr);
  mret h.

Definition verify (h pw : str) (s : t) : outcome bool :=
  Ok (match m_ s !! h with Some p => bool_decide (p = pw) | None => false end).

#[global] Instance ops : IPasswordHasher t := {
  Ports.hash := hash;
  Ports.verify := verify
}.

#[global] Program Instance laws : PasswordHasherLaws t.
Next Obligation. intros. by eexists. Qed.
Next Obligation.
  intros pw s enc s' E. cbn in E. unfold hash in E. mred_in E.
  destruct (add_i32 (ctr_ s) 1) as [n|e|]; mred_in E; [|discriminate E..].
  unfold put in E. injection E as <- <-. cbn. unfold verify. cbn [m_].
  rewrite lookup_insert_eq. by rewrite bool_decide_eq_true_2.
Qed.

End FakeHasher.
