(* ===== verification/Auth.v ===== *)
(** * [AuthService] ([auth_service.hpp], [auth_service.cpp])

    Registration, login and logout over the shared components, proved against
    the contracts of [Ports]. *)
From S2P Require Import Prelude Domain Ports.
From Stdlib Require Import ZArith Lia.
From stdpp Require Import base gmap strings list numbers.
Local Open Scope Z_scope.

Module AuthService.
Section Operations.
Context {R H S A : Type} `{!IUserRepository R, !IPasswordHasher H, !ISessionStore S, !IAuditLogger A}.
Local Abbreviation core := (Core R H S A).

Definition registerUser (u email pw role : str) : M core (Result UserId) :=
  if bool_decide (u = []) || bool_decide (email = []) || (zlen pw <? 8)
  then mret (failure "Registration failed") else
  byName ← from_users (findByUsername u);
  taken ← (if ok byName then mret true
           else byEmail ← from_users (findByEmail email); mret (ok byEmail));
  if (taken : bool) then
    _ ← audit_event (event "system" AuditAction.REGISTER_FAIL []);
    mret (failure "Registration failed")
  else
  encoded ← on_hasher (hash pw);
  newId ← on_rng generateUserId;
  nu ← liftO (new_User newId u email role "active" 0 0);
  saved ← try_catch (_ ← on_users (saveUser nu encoded); mret true)
            (fun e => match e with
                      | ValidationException _ =>
                          _ ← audit_event (event "system" AuditAction.REGISTER_FAIL []); mret false
                      | _ =>
                          _ ← audit_event (event "system" AuditAction.REGISTER_FAIL []); mret false
                      end);
  if (saved : bool) then
    _ ← audit_event (event u AuditAction.REGISTER_OK []);
    mret (success newId)
  else mret (failure "Registration failed").

Definition login (u pw : str) : M core (Result SessionId) :=
  now ← on_clock nowMs;
  found ← from_users (findByUsername u);
  match result_get found with
  | None =>
      _ ← audit_event (event u AuditAction.LOGIN_FAIL []);
      mret (failure "Login failed")
  | Some user =>
      if negb (canLogin user now) then
        _ ← audit_event (event u AuditAction.LOGIN_FAIL []);
        mret (failure "Login failed")
      else
      enc ← from_users (getEncodedHash (id_ user));
      good ← from_hasher (verify enc pw);
      if negb good then
        _ ← on_users (recordLoginFailure (id_ user) now);
        _ ← audit_event (event u AuditAction.LOGIN_FAIL []);
        mret (failure "Login failed")
      else
      _ ← on_users (resetLoginFailures (id_ user));
      token ← on_sessions_rng (createForUser (id_ user) now);
      _ ← audit_event (event u AuditAction.LOGIN_OK []);
      mret (success token)
  end.

Definition logout (tok : SessionId) : M core bool :=
  r ← on_sessions (invalidate tok);
  _ ← when r (audit_event (event [] AuditAction.LOGOUT []));
  mret r.

End Operations.

(** ** Correctness *)
Section Correctness.
Context {R H S A : Type} `{!IUserRepository R, !IPasswordHasher H, !ISessionStore S, !IAuditLogger A}.
Context `{!UserRepositoryLaws R, !PasswordHasherLaws H, !SessionStoreLaws S, !AuditLoggerLaws A}.
Local Abbreviation core := (Core R H S A).

Definition checks (c : core) (pw h : str) : bool :=
  match verify h pw (hasher c) with Ok b => b | _ => false end.

Lemma checks_eq c pw h : verify h pw (hasher c) = Ok (checks c pw h).
Proof. unfold checks. by destruct (ph_verify h pw (hasher c)) as [b ->]. Qed.

(** No account's counter or lock can overflow at [now]. *)
Definition counters_ok (t : gmap str (User * str)) (now : Z) : Prop :=
  forall k usr h, t !! k = Some (usr, h) -> is_ok (fail_login usr now) = true.

Lemma checks_tick c pw h : checks (tick c) pw h = checks c pw h.
Proof. done. Qed.

(** What [login] may do to the state: the abstract specification. A refusal is
    the same answer for an unknown name, a blocked account and a wrong password;
    only the last one counts a failure; only an acceptance opens a session. *)
Inductive login_spec (u pw : str) (c : core) : Result SessionId -> core -> Prop :=
| login_unknown c' :
    (forall usr h, ~ named (table c) u usr h) -> table c' = table c ->
    session c' = session c -> logged c c' [(u, AuditAction.LOGIN_FAIL, [])] ->
    login_spec u pw c (failure "Login failed") c'
| login_blocked c' usr h :
    named (table c) u usr h -> canLogin usr (time c) = false -> table c' = table c ->
    session c' = session c -> logged c c' [(u, AuditAction.LOGIN_FAIL, [])] ->
    login_spec u pw c (failure "Login failed") c'
| login_wrong c' usr h usr' :
    named (table c) u usr h -> canLogin usr (time c) = true -> checks c pw h = false ->
    fail_login usr (time c) = Ok usr' ->
    table c' = <[uid_value (id_ usr) := (usr', h)]> (table c) ->
    session c' = session c -> logged c c' [(u, AuditAction.LOGIN_FAIL, [])] ->
    login_spec u pw c (failure "Login failed") c'
| login_right c' usr h tok x :
    named (table c) u usr h -> canLogin usr (time c) = true -> checks c pw h = true ->
    table c' = <[uid_value (id_ usr) := (setLockout 0 0 usr, h)]> (table c) ->
    session c' tok = Some x -> s_userId x = id_ usr -> createdAt x = time c ->
    expiresAt x = time c + 3600 * 1000 -> revoked x = false ->
    (forall t, session c' t = session c t \/ session c' t = Some x) ->
    logged c c' [(u, AuditAction.LOGIN_OK, [])] ->
    login_spec u pw c (success tok) c'.

Lemma find_named (c : core) u usr h :
  ur_inv (users c) -> named (table c) u usr h ->
  findByUsername u (users c) = Ok (success usr).
Proof.
  intros Hi Hn. destruct (ur_findByUsername (users c) u Hi) as [(usr' & h' & Hn' & E)|[Hn' _]].
  - by destruct (named_unique _ _ _ _ _ _ (ur_table _ Hi) Hn Hn') as [-> ->].
  - by apply Hn' in Hn.
Qed.

(** Every refusal ends by logging the failure, from a state in which only the
    accounts and the clock have moved. *)
Lemma refuse (u : str) (c c1 : core) :
  core_ok c1 -> au_good (event u AuditAction.LOGIN_FAIL []) ->
  audit c1 = audit c -> sessions c1 = sessions c ->
  exists c', (_ ← audit_event (event u AuditAction.LOGIN_FAIL []);
              mret (failure "Login failed" : Result SessionId)) c1
             = (Ok (failure "Login failed"), c')
    /\ core_ok c' /\ table c' = table c1 /\ session c' = session c
    /\ hasher c' = hasher c1 /\ clock c' = clock c1
    /\ logged c c' [(u, AuditAction.LOGIN_FAIL, [])].
Proof.
  intros [Hu Ha] Hg Ea Es. destruct (audit_event_ok _ c1 Ha Hg) as (c' & E & Hb & Ha' & Hl).
  exists c'. rewrite M_bind_eq, E. unfold beside_audit in Hb. injection Hb as H1 H2 H3 H4 H5.
  split; [done|]. unfold core_ok, table, session. rewrite H1, H3, Es.
  unfold logged in *. rewrite Hl, Ea. by split_and!.
Qed.

Section Login.
Context (u pw : str) (c : core).
Context (Hok : core_ok c) (Hgood : au_good (event u AuditAction.LOGIN_FAIL [])).

Definition does (P : Result SessionId -> core -> Prop) : Prop :=
  exists r c', login u pw c = (Ok r, c') /\ core_ok c' /\ P r c'
    /\ hasher c' = hasher c /\ clock c' = clock (tick c).

(** [login] after the clock and the lookup. *)
Lemma login_found usr h :
  named (table c) u usr h ->
  login u pw c =
    (if negb (canLogin usr (time c)) then
      _ ← audit_event (event u AuditAction.LOGIN_FAIL []);
      mret (failure "Login failed")
    else
    enc ← from_users (getEncodedHash (id_ usr));
    good ← from_hasher (verify enc pw);
    if negb good then
      _ ← on_users (recordLoginFailure (id_ usr) (time c));
      _ ← audit_event (event u AuditAction.LOGIN_FAIL []);
      mret (failure "Login failed")
    else
    _ ← on_users (resetLoginFailures (id_ usr));
    token ← on_sessions_rng (createForUser (id_ usr) (time c));
    _ ← audit_event (event u AuditAction.LOGIN_OK []);
    mret (success token)) (tick c).
Proof using Hok UserRepositoryLaws0.
  intros Hn. unfold login, on_clock, zoom, nowMs. mred. unfold from_users at 1. mred.
  change (users (set_clock _ c)) with (users c).
  by rewrite (find_named c u usr h (proj1 Hok) Hn).
Qed.

Lemma does_unknown : (forall usr h, ~ named (table c) u usr h) -> does (login_spec u pw c).
Proof using Hok Hgood.
  intros Hn. unfold does.
  destruct (refuse u c (tick c) Hok Hgood eq_refl eq_refl) as (c' & E & Hc & Ht & Hs & Hh & Hcl & Hl).
  exists (failure "Login failed"), c'. split; [|split; [done|split; [by apply login_unknown|done]]].
  unfold login, on_clock, zoom, nowMs. mred. unfold from_users at 1. mred.
  change (users (set_clock _ c)) with (users c).
  destruct (ur_findByUsername (users c) u (proj1 Hok)) as [(usr' & h' & Hn' & _)|[_ ->]];
    [by apply Hn in Hn'|exact E].
Qed.

Lemma does_blocked usr h :
  named (table c) u usr h -> canLogin usr (time c) = false -> does (login_spec u pw c).
Proof using Hok Hgood.
  intros Hn Hcan. unfold does. rewrite (login_found usr h Hn), Hcan. cbn [negb].
  destruct (refuse u c (tick c) Hok Hgood eq_refl eq_refl) as (c' & E & Hc & Ht & Hs & Hh & Hcl & Hl).
  exists (failure "Login failed"), c'. split; [exact E|].
  split; [done|split; [by eapply login_blocked|done]].
Qed.

(** The stored hash and the check of the password. *)
Lemma login_checked usr h {X} (f : str -> bool -> M core X) :
  named (table c) u usr h ->
  (enc ← from_users (getEncodedHash (id_ usr));
   good ← from_hasher (verify enc pw); f enc good) (tick c) = f h (checks c pw h) (tick c).
Proof using Hok UserRepositoryLaws0 PasswordHasherLaws0.
  intros [Hk _]. unfold from_users, from_hasher. mred.
  change (users (tick c)) with (users c).
  rewrite (ur_getEncodedHash _ _ _ _ (proj1 Hok) Hk). mred.
  change (hasher (tick c)) with (hasher c). by rewrite checks_eq.
Qed.

Lemma does_wrong usr h :
  named (table c) u usr h -> canLogin usr (time c) = true -> checks c pw h = false ->
  is_ok (fail_login usr (time c)) = true -> does (login_spec u pw c).
Proof using Hok Hgood PasswordHasherLaws0.
  intros Hn Hcan Hk Hf. unfold does. rewrite (login_found usr h Hn), Hcan. cbn [negb].
  rewrite (login_checked usr h _ Hn), Hk. cbn [negb].
  destruct (fail_login usr (time c)) as [usr'|e|] eqn:Ef; [|done..].
  destruct (ur_recordLoginFailure (users c) (id_ usr) (time c) usr h usr' (proj1 Hok) (proj1 Hn) Ef)
    as (r' & Er & Hi' & Hm').
  rewrite M_bind_eq. unfold on_users, zoom at 1. change (users (tick c)) with (users c). rewrite Er.
  destruct (refuse u c (set_users r' (tick c)) (conj Hi' (proj2 Hok)) Hgood eq_refl eq_refl)
    as (c' & E & Hc & Ht & Hs & Hh & Hcl & Hl).
  exists (failure "Login failed"), c'. split; [exact E|]. split; [done|]. split; [|done].
  eapply login_wrong; try done. by rewrite Ht.
Qed.

Lemma does_right usr h :
  named (table c) u usr h -> canLogin usr (time c) = true -> checks c pw h = true ->
  au_good (event u AuditAction.LOGIN_OK []) -> int64_ok (time c + 3600 * 1000) = true ->
  does (login_spec u pw c).
Proof using Hok SessionStoreLaws0 PasswordHasherLaws0.
  intros Hn Hcan Hk Hg Ht64. unfold does. rewrite (login_found usr h Hn), Hcan. cbn [negb].
  rewrite (login_checked usr h _ Hn), Hk. cbn [negb].
  destruct (ur_resetLoginFailures (users c) (id_ usr) usr h (proj1 Hok) (proj1 Hn))
    as (r' & Er & Hi' & Hm').
  rewrite M_bind_eq. unfold on_users, zoom at 1. change (users (tick c)) with (users c). rewrite Er.
  destruct (ss_create (sessions c) (rng c) (id_ usr) (time c) Ht64)
    as (tok & s' & g' & x & Es & Hx & Hu & Hc & He & Hr & Hall).
  rewrite M_bind_eq. unfold on_sessions_rng, zoom at 1. cbn [fst snd].
  change (sessions (set_users r' (tick c)), rng (set_users r' (tick c))) with (sessions c, rng c).
  rewrite Es. cbn [fst snd]. set (c2 := set_rng g' _).
  destruct (audit_event_ok _ c2 (proj2 Hok : au_inv (audit c2)) Hg) as (c' & E & Hb & Ha' & Hl).
  exists (success tok), c'. rewrite M_bind_eq, E.
  unfold beside_audit in Hb. injection Hb as H1 H2 H3 H4 H5.
  split; [done|]. split; [by split; [rewrite H1|]|]. split; [|by rewrite H2, H4].
  eapply (login_right u pw c c' usr h tok x); try done; unfold table, session; by rewrite ?H1, ?H3.
Qed.
End Login.

(** The three ways in which [login] refuses, and the way it accepts. *)
Inductive login_case (u pw : str) (c : core) : Prop :=
| case_unknown (_ : forall usr h, ~ named (table c) u usr h)
| case_blocked usr h (_ : named (table c) u usr h) (_ : canLogin usr (time c) = false)
| case_wrong usr h (_ : named (table c) u usr h) (_ : canLogin usr (time c) = true)
    (_ : checks c pw h = false)
| case_right usr h (_ : named (table c) u usr h) (_ : canLogin usr (time c) = true)
    (_ : checks c pw h = true).

Lemma login_cases u pw (c : core) : ur_inv (users c) -> login_case u pw c.
Proof.
  intros Hi. destruct (ur_findByUsername (users c) u Hi) as [(usr & h & Hn & _)|[Hn _]];
    [|by apply case_unknown].
  destruct (canLogin usr (time c)) eqn:Ec; [|by eapply case_blocked].
  destruct (checks c pw h) eqn:Ek; [by eapply case_right|by eapply case_wrong].
Qed.

(** C1: [login] implements its specification on every branch: for every account
    table, clock and password it returns (it never throws), answers the same
    "Login failed" for an unknown name, an inactive or locked account and a wrong
    password, counts a failure only for the last, and otherwise resets the
    counter and opens exactly one session, of one hour, for that account; each
    call logs exactly one event that names the user. *)
Theorem login_refines u pw (c : core) :
  core_ok c -> au_good (event u AuditAction.LOGIN_FAIL []) ->
  au_good (event u AuditAction.LOGIN_OK []) ->
  counters_ok (table c) (time c) -> int64_ok (time c + 3600 * 1000) = true ->
  exists r c', login u pw c = (Ok r, c') /\ core_ok c' /\ login_spec u pw c r c'.
Proof.
  intros Hok Hf Hs Hcnt Ht.
  assert (does u pw c (login_spec u pw c)) as (r & c' & E & Hc & Hl & _); [|by exists r, c'].
  destruct (login_cases u pw c (proj1 Hok)) as [Hn|usr h Hn Hcan|usr h Hn Hcan Hk|usr h Hn Hcan Hk].
  - by apply does_unknown.
  - by eapply does_blocked.
  - eapply does_wrong; try done. exact (Hcnt _ _ _ (proj1 Hn)).
  - by eapply does_right.
Qed.

(** ** The lockout *)

(** The clock's reading at the [i]-th call from now. *)
Definition reading (c : core) (i : nat) : Z :=
  clk_reading (clock c) (clk_tick (clock c) + i).

Lemma time_reading c : time c = reading c 0.
Proof. unfold time, reading. by rewrite Nat.add_0_r. Qed.

Fixpoint attempts (u : str) (pws : list str) : M core unit :=
  match pws with
  | [] => mret tt
  | pw :: pws' => _ ← login u pw; attempts u pws'
  end.

(** One attempt with a wrong password. *)
Lemma wrong_attempt u pw (c : core) usr h usr' :
  core_ok c -> au_good (event u AuditAction.LOGIN_FAIL []) ->
  named (table c) u usr h -> canLogin usr (time c) = true -> checks c pw h = false ->
  fail_login usr (time c) = Ok usr' ->
  exists c', login u pw c = (Ok (failure "Login failed"), c') /\ core_ok c'
    /\ named (table c') u usr' h /\ session c' = session c
    /\ (forall p k, checks c' p k = checks c p k) /\ forall i, reading c' i = reading c (Datatypes.S i).
Proof.
  intros Hok Hg Hn Hcan Hk Hf.
  destruct (does_wrong u pw c Hok Hg usr h Hn Hcan Hk) as (r & c' & E & Hc & Hl & Hh & Hcl).
  { by rewrite Hf. }
  exists c'. assert (Hid : id_ usr' = id_ usr /\ username_ usr' = username_ usr).
  { unfold fail_login in Hf. destruct (add_i32 _ _) as [n|e|]; [|done..]. cbn in Hf.
    destruct (5 <=? n); [destruct (add_i64 _ _); [|done..]|]; cbn in Hf;
      by injection Hf as <-. }
  destruct Hid as [Hid Hun].
  assert (Hr : forall i, reading c' i = reading c (Datatypes.S i)).
  { intros i. unfold reading. rewrite Hcl. cbn. f_equal. lia. }
  assert (Hch : forall p k, checks c' p k = checks c p k) by (intros; unfold checks; by rewrite Hh).
  pose proof (ur_table _ (proj1 Hok)) as Htab.
  inversion Hl as [? Hn' Et Es|? v k Hn' Hcan' Et Es|? v k v' Hn' Hcan' Hk' Hf' Et Es|? v k tok x Hn' Hcan' Hk'];
    subst.
  - by apply Hn' in Hn.
  - destruct (named_unique _ _ _ _ _ _ Htab Hn Hn') as [-> ->]. congruence.
  - destruct (named_unique _ _ _ _ _ _ Htab Hn Hn') as [<- <-].
    split; [done|]. split; [done|]. split; [|done].
    rewrite Hf in Hf'. injection Hf' as <-. rewrite Et. split; [|by rewrite Hun; apply Hn].
    by rewrite Hid, lookup_insert_eq.
  - destruct (named_unique _ _ _ _ _ _ Htab Hn Hn') as [<- <-]. congruence.
Qed.

Lemma fail_login_low usr now :
  0 <= failedAttempts_ usr < 4 ->
  fail_login usr now = Ok (setLockout (lockoutUntil_ usr) (failedAttempts_ usr + 1) usr).
Proof.
  intros Hf. unfold fail_login, add_i32.
  assert (int32_ok (failedAttempts_ usr + 1) = true) as ->.
  { unfold int32_ok. apply andb_true_intro. split; [apply Z.leb_le|apply Z.ltb_lt]; lia. }
  cbn. by rewrite (proj2 (Z.leb_gt _ _)) by lia.
Qed.

Lemma fail_login_fifth usr now :
  failedAttempts_ usr = 4 -> int64_ok (now + lockout_ms) = true ->
  fail_login usr now = Ok (setLockout (now + lockout_ms) 5 usr).
Proof. intros Hf Hn. unfold fail_login, add_i64. rewrite Hf. cbn. by rewrite Hn. Qed.

(** Wrong attempts below the limit only count. *)
Lemma wrong_attempts u pws : forall (c : core) usr h,
  core_ok c -> au_good (event u AuditAction.LOGIN_FAIL []) ->
  named (table c) u usr h -> isActive usr = true ->
  0 <= failedAttempts_ usr -> failedAttempts_ usr + zlen pws <= 4 ->
  Forall (fun pw => checks c pw h = false) pws ->
  (forall i, (i < length pws)%nat -> lockoutUntil_ usr <= reading c i) ->
  exists c', attempts u pws c = (Ok tt, c') /\ core_ok c' /\ session c' = session c
    /\ named (table c') u (setLockout (lockoutUntil_ usr) (failedAttempts_ usr + zlen pws) usr) h
    /\ (forall p k, checks c' p k = checks c p k)
    /\ forall i, reading c' i = reading c (length pws + i).
Proof.
  induction pws as [|pw pws IH]; intros c usr h Hok Hg Hn Hact Hpos Hle Hw Hlk.
  { exists c. cbn. rewrite Z.add_0_r. by destruct usr. }
  apply Forall_cons_iff in Hw as [Hpw Hw]. rewrite zlen_cons in *. pose proof (zlen_nonneg pws).
  assert (Hcan : canLogin usr (time c) = true).
  { unfold canLogin. rewrite Hact, time_reading. cbn [andb]. apply Z.leb_le, Hlk. cbn. lia. }
  destruct (wrong_attempt u pw c usr h _ Hok Hg Hn Hcan Hpw
    (fail_login_low usr (time c) ltac:(lia))) as (c1 & E1 & Hok1 & Hn1 & Hs1 & Hch1 & Hr1).
  destruct (IH c1 _ h Hok1 Hg Hn1) as (c' & E & Hok' & Hs & Hn' & Hch & Hr); [done|cbn [failedAttempts_ setLockout]; lia..| | |].
  { eapply Forall_impl; [|exact Hw]. intros p Hp. by rewrite Hch1. }
  { intros i Hi. cbn. rewrite Hr1. apply Hlk. cbn. lia. }
  exists c'. cbn [attempts]. rewrite M_bind_eq, E1, E. split; [done|]. split; [done|].
  split; [congruence|]. split; [|split].
  - cbn in Hn'. replace (failedAttempts_ usr + (zlen pws + 1))
      with (failedAttempts_ usr + 1 + zlen pws) by lia. exact Hn'.
  - intros. by rewrite Hch, Hch1.
  - intros i. by rewrite Hr, Hr1.
Qed.

Lemma attempts_app u pws pws' c :
  attempts u (pws ++ pws') c = (_ ← attempts u pws; attempts u pws') c.
Proof.
  revert c. induction pws as [|pw pws IH]; intros c; [done|]. cbn [attempts app].
  rewrite !M_bind_eq. destruct (login u pw c) as [[r|e|] c1]; [|done..]. by rewrite IH, M_bind_eq.
Qed.

(** C27: Five wrong passwords lock the account for 15 minutes: after five
    consecutive failed logins of an active account with no failures yet, every
    login within 15 minutes of the fifth is refused and opens no session,
    whatever the password, the right one included. *)
Theorem five_failures_lock u pws (c : core) usr h :
  core_ok c -> au_good (event u AuditAction.LOGIN_FAIL []) ->
  named (table c) u usr h -> isActive usr = true -> failedAttempts_ usr = 0 ->
  length pws = 5%nat -> Forall (fun pw => checks c pw h = false) pws ->
  (forall i, (i < 5)%nat -> lockoutUntil_ usr <= reading c i) ->
  int64_ok (reading c 4 + 15 * 60 * 1000) = true ->
  reading c 5 < reading c 4 + 15 * 60 * 1000 ->
  exists c5, attempts u pws c = (Ok tt, c5) /\ session c5 = session c /\
    forall pw, exists c6, login u pw c5 = (Ok (failure "Login failed"), c6)
                          /\ session c6 = session c /\ table c6 = table c5.
Proof.
  intros Hok Hg Hn Hact Hf Hlen Hw Hlk H64 Hwin.
  destruct pws as [|pw pws _] using rev_ind; [done|].
  rewrite length_app in Hlen. cbn in Hlen. apply Forall_app in Hw as [Hw Hpw].
  apply Forall_inv in Hpw. assert (Hz : zlen pws = 4) by (unfold zlen; lia).
  assert (Hl4 : length pws = 4%nat) by lia.
  destruct (wrong_attempts u pws c usr h Hok Hg Hn Hact) as (c4 & E4 & Hok4 & Hs4 & Hn4 & Hch4 & Hr4);
    [lia..|done|intros; apply Hlk; lia|].
  rewrite Hf, Hz in Hn4. rewrite Hl4 in Hr4.
  destruct (wrong_attempt u pw c4 _ h (setLockout (time c4 + lockout_ms) 5
      (setLockout (lockoutUntil_ usr) (0 + 4) usr)) Hok4 Hg Hn4)
    as (c5 & E5 & Hok5 & Hn5 & Hs5 & Hch5 & Hr5).
  { unfold canLogin. rewrite time_reading, Hr4. apply andb_true_intro.
    split; [done|]. apply Z.leb_le, Hlk. lia. }
  { by rewrite Hch4. }
  { apply fail_login_fifth; [done|]. by rewrite time_reading, Hr4. }
  exists c5. rewrite attempts_app, M_bind_eq, E4. cbn [attempts]. rewrite M_bind_eq, E5.
  split; [done|]. split; [congruence|]. intros p.
  assert (Hcan : canLogin (setLockout (time c4 + lockout_ms) 5
      (setLockout (lockoutUntil_ usr) (0 + 4) usr)) (time c5) = false).
  { unfold canLogin. apply andb_false_intro2, Z.leb_gt. cbn.
    rewrite !time_reading, Hr5, !Hr4. exact Hwin. }
  destruct (does_blocked u p c5 Hok5 Hg _ h Hn5 Hcan) as (r & c6 & E6 & _ & Hl & _).
  exists c6. rewrite E6. pose proof (ur_table _ (proj1 Hok5)) as Htab.
  inversion Hl as [? Hn' Et Es|? v k Hn' Hcan' Et Es|? v k v' Hn' Hcan'|? v k tok x Hn' Hcan'];
    subst; [split; [done|]; split; [rewrite Es, Hs5; exact Hs4|exact Et]..| |];
    destruct (named_unique _ _ _ _ _ _ Htab Hn5 Hn') as [<- _]; congruence.
Qed.

(** ** Registration *)

Definition valid_request (u email pw : str) : Prop := u <> [] /\ email <> [] /\ 8 <= zlen pw.

Definition new_account (id : UserId) (u email role : str) : User :=
  MkUser id u email role "active" 0 0.

(** What registration may do to the state. *)
Inductive register_spec (u email pw role enc : str) (c : core) : Result UserId -> core -> Prop :=
| register_invalid :
    ~ valid_request u email pw -> register_spec u email pw role enc c (failure "Registration failed") c
| register_taken c' :
    valid_request u email pw ->
    (exists usr h, named (table c) u usr h) \/ (exists usr h, addressed (table c) email usr h) ->
    table c' = table c -> session c' = session c ->
    logged c c' [(("system" : str), AuditAction.REGISTER_FAIL, [])] ->
    register_spec u email pw role enc c (failure "Registration failed") c'
| register_clash c' id :
    valid_request u email pw -> is_Some (table c !! uid_value id) ->
    table c' = table c -> session c' = session c ->
    logged c c' [(("system" : str), AuditAction.REGISTER_FAIL, [])] ->
    register_spec u email pw role enc c (failure "Registration failed") c'
| register_done c' id :
    valid_request u email pw -> table c !! uid_value id = None ->
    (forall usr h, ~ named (table c) u usr h) -> (forall usr h, ~ addressed (table c) email usr h) ->
    table c' = <[uid_value id := (new_account id u email role, enc)]> (table c) ->
    session c' = session c -> logged c c' [(u, AuditAction.REGISTER_OK, [])] ->
    register_spec u email pw role enc c (success id) c'.

(** Registration once the name and the address are known to be free. *)
Lemma save_account u email pw role enc (c c1 : core) :
  core_ok c1 -> au_good (event u AuditAction.REGISTER_OK []) ->
  au_good (event "system" AuditAction.REGISTER_FAIL []) ->
  valid_request u email pw ->
  (forall usr h, ~ named (table c) u usr h) -> (forall usr h, ~ addressed (table c) email usr h) ->
  users c1 = users c -> sessions c1 = sessions c -> audit c1 = audit c -> clock c1 = clock c ->
  returns ((newId ← on_rng generateUserId;
    nu ← liftO (new_User newId u email role "active" 0 0);
    saved ← try_catch (_ ← on_users (saveUser nu enc); mret true)
              (fun e => match e with
                        | ValidationException _ =>
                            _ ← audit_event (event "system" AuditAction.REGISTER_FAIL []); mret false
                        | _ =>
                            _ ← audit_event (event "system" AuditAction.REGISTER_FAIL []); mret false
                        end);
    if (saved : bool) then
      _ ← audit_event (event u AuditAction.REGISTER_OK []);
      mret (success newId)
    else mret (failure "Registration failed")) c1) (hasher c1) c (register_spec u email pw role enc c).
Proof.
  intros Hok Hgo Hgf Hv Hn He Eu Es Ea Ec.
  destruct (generateUserId_some (rng c1)) as (id & g & Eg & Hid).
  rewrite M_bind_eq. unfold on_rng, zoom at 1. rewrite Eg. clear Eg.
  destruct Hv as (Hu & Hem & Hpw).
  rewrite M_bind_eq. unfold liftO at 1. rewrite new_User_ok by done.
  fold (new_account id u email role). set (c2 := set_rng g c1).
  destruct (ur_save (users c1) (new_account id u email role) enc (proj1 Hok) (conj Hid (conj Hu Hem)))
    as (o & us & Esave & Hi' & Hcases).
  assert (Hc3 : core_ok (set_users us c2)) by (split; [exact Hi'|exact (proj2 Hok)]).
  rewrite M_bind_eq. unfold try_catch. rewrite M_bind_eq. unfold on_users, zoom at 1.
  change (users c2) with (users c1). rewrite Esave.
  destruct Hcases as [(Hconf & [m ->] & Hm)|(Hconf & -> & Hm)].
  - destruct (log_and_return (event "system" AuditAction.REGISTER_FAIL []) false c (set_users us c2)
      (fun r c' => r = false /\ register_spec u email pw role enc c (failure "Registration failed") c')
      Hc3 Hgf Ec) as (x & c' & E & Hok' & [-> HP] & Hh & Hcl).
    { intros c' Ht Hs Hl. split; [done|]. eapply (register_clash _ _ _ _ _ _ c' id); [done| | | |].
      - rewrite Eu in Hconf. destruct Hconf as [Hk|[(v & k & Hv)|(v & k & Hv)]]; [exact Hk| |];
          [by apply Hn in Hv|by apply He in Hv].
      - by rewrite Ht; unfold table; cbn; rewrite Hm, Eu.
      - by rewrite Hs; unfold session; cbn; rewrite Es.
      - unfold logged in *. by rewrite Hl; cbn; rewrite Ea. }
    cbn [fst snd]. rewrite E. eexists _, c'. split; [done|]. done.
  - mred. apply (log_and_return (event u AuditAction.REGISTER_OK []) (success id) c (set_users us c2));
      [done..|]. intros c' Ht Hs Hl. apply register_done; [done| |done|done| | |].
    + apply eq_None_not_Some. intros Hk. apply Hconf. left. by rewrite Eu.
    + by rewrite Ht; unfold table; cbn; rewrite Hm, Eu.
    + by rewrite Hs; unfold session; cbn; rewrite Es.
    + unfold logged in *. by rewrite Hl; cbn; rewrite Ea.
Qed.

Lemma register_returns u email pw role enc hs (c : core) :
  core_ok c -> au_good (event u AuditAction.REGISTER_OK []) ->
  au_good (event "system" AuditAction.REGISTER_FAIL []) ->
  hash pw (hasher c) = (Ok enc, hs) ->
  exists hs', (hs' = hs \/ hs' = hasher c) /\
    returns (registerUser u email pw role c) hs' c
      (fun r c' => register_spec u email pw role enc c r c' /\ (ok r = true -> hs' = hs)).
Proof.
  intros Hok Hgo Hgf Hh. unfold registerUser.
  destruct (bool_decide (u = []) || bool_decide (email = []) || (zlen pw <? 8)) eqn:Eb.
  { exists (hasher c). split; [by right|]. eexists _, c. split; [done|]. split; [done|].
    split; [|done]. split; [|done]. apply register_invalid. intros (Hu & He & Hp).
    rewrite !bool_decide_eq_false_2, (proj2 (Z.ltb_ge _ _)) in Eb by done. done. }
  apply orb_false_iff in Eb as [[Hu%bool_decide_eq_false He%bool_decide_eq_false]%orb_false_iff
                                Hp%Z.ltb_ge].
  assert (Hv : valid_request u email pw) by done.
  assert (Htaken : (exists usr h, named (table c) u usr h)
                   \/ (exists usr h, addressed (table c) email usr h) ->
    returns ((_ ← audit_event (event "system" AuditAction.REGISTER_FAIL []);
              mret (failure "Registration failed")) c) (hasher c) c
      (fun r c' => register_spec u email pw role enc c r c' /\ (ok r = true -> hasher c = hs))).
  { intros Hx. apply log_and_return; [done..|]. intros c' Ht Hs Hl. split; [|done].
    by apply register_taken. }
  rewrite M_bind_eq. unfold from_users at 1, reads.
  destruct (ur_findByUsername (users c) u (proj1 Hok)) as [(usr & h & Hn & ->)|[Hn ->]].
  { exists (hasher c). split; [by right|]. mred. cbn [ok success]. apply Htaken. left. eauto. }
  mred. cbn [ok not_found failure]. rewrite M_bind_eq. unfold from_users, reads. mred.
  destruct (ur_findByEmail (users c) email (proj1 Hok)) as [(usr & h & Hn' & ->)|[Hn' ->]].
  { exists (hasher c). split; [by right|]. mred. cbn [ok success]. apply Htaken. right. eauto. }
  mred. cbn [ok not_found failure]. rewrite M_bind_eq. unfold on_hasher, zoom at 1. rewrite Hh.
  exists hs. split; [by left|].
  destruct (save_account u email pw role enc c (set_hasher hs c) Hok Hgo Hgf Hv Hn Hn')
    as (r & c' & E & H1 & H2 & H3 & H4); [done..|].
  exists r, c'. split; [exact E|]. split; [exact H1|]. split; [split; [exact H2|reflexivity]|].
  split; [exact H3|exact H4].
Qed.

(** C28: [registerUser] implements its specification on every branch: it always
    returns; a missing field or a password under 8 bytes changes nothing; a name
    or address in use (or a clash of identifiers) leaves accounts and sessions as
    they were and answers the same "Registration failed"; otherwise exactly one
    account is added, under a fresh identifier, with the given role, active,
    without failures, and with the hash of the password. *)
Theorem registerUser_refines u email pw role enc hs (c : core) :
  core_ok c -> au_good (event u AuditAction.REGISTER_OK []) ->
  au_good (event "system" AuditAction.REGISTER_FAIL []) ->
  hash pw (hasher c) = (Ok enc, hs) ->
  exists r c', registerUser u email pw role c = (Ok r, c') /\ core_ok c'
    /\ register_spec u email pw role enc c r c'.
Proof.
  intros Hok Hgo Hgf Hh.
  destruct (register_returns u email pw role enc hs c Hok Hgo Hgf Hh)
    as (hs' & _ & r & c' & E & Hok' & [Hr _] & _).
  by exists r, c'.
Qed.

(** Who registers can log in: when [registerUser] succeeds, [login] with the
    same name and password then succeeds, and the session it opens is valid at
    once and belongs to the new account. *)
Theorem register_then_login u email pw role enc hs (c : core) id (c1 : core) :
  core_ok c -> au_good (event u AuditAction.REGISTER_OK []) ->
  au_good (event "system" AuditAction.REGISTER_FAIL []) ->
  au_good (event u AuditAction.LOGIN_FAIL []) -> au_good (event u AuditAction.LOGIN_OK []) ->
  hash pw (hasher c) = (Ok enc, hs) ->
  0 <= time c -> int64_ok (time c + 3600 * 1000) = true ->
  registerUser u email pw role c = (Ok (success id), c1) ->
  exists tok c2, login u pw c1 = (Ok (success tok), c2)
    /\ isValid tok (time c) (sessions c2) = Ok true /\ userFor tok (sessions c2) = Ok id.
Proof.
  intros Hok Hgo Hgf Hglf Hglo Hh Ht0 Ht Ereg.
  destruct (register_returns u email pw role enc hs c Hok Hgo Hgf Hh)
    as (hs' & _ & r & c1' & E & Hok1 & [Hr Hhs] & Hh1 & Hcl).
  rewrite Ereg in E. injection E as <- <-. specialize (Hhs eq_refl). subst hs'.
  inversion Hr as [| | |? ? Hv Hfree Hn Ha Etab Es Hl]; subst.
  assert (Etime : time c1 = time c) by (unfold time; by rewrite Hcl).
  assert (Hnamed : named (table c1) u (new_account id u email role) enc).
  { split; [|done]. rewrite Etab. apply lookup_insert_eq. }
  assert (Hcan : canLogin (new_account id u email role) (time c1) = true).
  { rewrite Etime. unfold canLogin, isActive. cbn. by apply Z.leb_le. }
  assert (Hck : checks c1 pw enc = true).
  { unfold checks. by rewrite (ph_round _ _ _ _ Hh). }
  destruct (does_right u pw c1 Hok1 _ enc Hnamed Hcan Hck Hglo) as (r & c2 & E2 & _ & Hl2 & _).
  { by rewrite Etime. }
  pose proof (ur_table _ (proj1 Hok1)) as Htab.
  inversion Hl2 as [? Hn' |? v k Hn' Hcan'|? v k v' Hn' Hcan' Hck'
                   |? v k tok x Hn' _ _ _ Hx Hu Hc He Hrv _ _]; subst.
  - by apply Hn' in Hnamed.
  - destruct (named_unique _ _ _ _ _ _ Htab Hnamed Hn') as [<- <-]. congruence.
  - destruct (named_unique _ _ _ _ _ _ Htab Hnamed Hn') as [<- <-]. congruence.
  - destruct (named_unique _ _ _ _ _ _ Htab Hnamed Hn') as [<- <-].
    exists tok, c2. split; [done|]. unfold session in Hx.
    rewrite ss_isValid, ss_userFor, Hx. rewrite Hu. split; [|done].
    unfold Session_isValid. rewrite Hrv, Hc, He, Etime. cbn [negb andb]. f_equal.
    rewrite (proj2 (Z.leb_le _ _)), (proj2 (Z.ltb_lt _ _)); [done|lia..].
Qed.

(** [logout] ends the session: it answers whether the token was known, and
    afterwards the token is not valid at any time; no other token becomes valid
    and no account changes. *)
Theorem logout_ends_session tok (c : core) :
  core_ok c -> au_good (event [] AuditAction.LOGOUT []) ->
  exists c', logout tok c = (Ok (bool_decide (is_Some (session c tok))), c') /\ core_ok c'
    /\ (forall now, isValid tok now (sessions c') = Ok false)
    /\ (forall t now, isValid t now (sessions c') = Ok true -> isValid t now (sessions c) = Ok true)
    /\ table c' = table c.
Proof.
  intros Hok Hg. destruct (ss_invalidate (sessions c) tok) as (s' & E & Htok & Hall).
  assert (Hrev : forall t now, isValid t now s' = Ok true -> isValid t now (sessions c) = Ok true).
  { intros t now. rewrite !ss_isValid. destruct (Hall t) as [->| ->]; [done|].
    by destruct (ss_model (sessions c) t). }
  assert (Hdead : forall now, isValid tok now s' = Ok false).
  { intros now. rewrite ss_isValid, Htok. by destruct (ss_model (sessions c) tok). }
  unfold logout. rewrite M_bind_eq. unfold on_sessions, zoom at 1. rewrite E.
  fold (session c tok). destruct (bool_decide (is_Some (session c tok))); cbn [when].
  - destruct (log_and_return (event [] AuditAction.LOGOUT []) true c (set_sessions s' c)
      (fun b c' => b = true /\ table c' = table c /\ session c' = ss_model s') Hok Hg eq_refl)
      as (b & c' & E' & Hok' & (-> & Ht & Hs) & _); [done|].
    exists c'. rewrite E'. split; [done|]. split; [done|].
    assert (Hv : forall t now, isValid t now (sessions c') = isValid t now s')
      by (intros; rewrite !ss_isValid; fold (session c' t); by rewrite Hs).
    split; [|split; [|done]]; intros; rewrite ?Hv in *; auto.
  - exists (set_sessions s' c). by mred.
Qed.
End Correctness.

(** ** Safety without any contract *)
Section Safety.
Context {R H S A : Type} `{!IUserRepository R, !IPasswordHasher H, !ISessionStore S, !IAuditLogger A}.

(** No session without the password: for any repository, hasher, session
    store and audit logger whatsoever (no contract assumed, failing ones
    included), when [login] returns a success, the repository had an account
    under that name, active and not locked at the clock's reading, and the hasher
    accepted the password against that account's stored hash. *)
Theorem login_needs_password u pw (c c' : Core R H S A) r :
  login u pw c = (Ok r, c') -> ok r = true ->
  exists found user enc, findByUsername u (users c) = Ok found /\ result_get found = Some user
    /\ canLogin user (clk_reading (clock c) (clk_tick (clock c))) = true
    /\ getEncodedHash (id_ user) (users c) = Ok enc /\ verify enc pw (hasher c) = Ok true.
Proof.
  intros E Hr. unfold login, on_clock, zoom, nowMs in E. mred_in E.
  apply M_bind_Ok in E as (found & c1 & [Ef ->]%reads_Ok & E). cbn in Ef. exists found.
  assert (Hfail : forall e s, (_ ← audit_event e; mret (failure "Login failed")) s = (Ok r, c') -> False).
  { intros e s Hf. apply M_bind_Ok in Hf as (? & ? & _ & [= <- _]). done. }
  destruct (result_get found) as [user|]; [|by apply Hfail in E].
  destruct (canLogin user _) eqn:Ec; cbn [negb] in E; [|by apply Hfail in E].
  apply M_bind_Ok in E as (enc & c2 & [Ee ->]%reads_Ok & E).
  apply M_bind_Ok in E as (good & c3 & [Eg ->]%reads_Ok & E). cbn in Ee, Eg.
  destruct good; cbn [negb] in E.
  - exists user, enc. by split_and!.
  - apply M_bind_Ok in E as (? & ? & _ & E). by apply Hfail in E.
Qed.
End Safety.
End AuthService.
