(* ===== verification/Admin.v ===== *)
(** * [AdminService] ([admin_service.hpp], [admin_service.cpp])

    Activation and deactivation of accounts, by session token and by the legacy
    overloads on a user identifier. *)
From S2P Require Import Prelude Domain Ports.
From Stdlib Require Import ZArith Lia.
From stdpp Require Import base gmap strings list numbers.
Local Open Scope Z_scope.

Module AdminService.
Section Operations.
Context {R H S A : Type} `{!IUserRepository R, !ISessionStore S, !IAuditLogger A}.
Local Abbreviation core := (Core R H S A).

Definition isAdmin (id : UserId) : M core bool :=
  r ← from_users (findById id);
  mret (match result_get r with
        | Some u => Domain.isAdmin u && isActive u
        | None => false
        end).

(** [isAdminSession(token, outId)]: [Some] of the identifier it stores for
    [true], [None] for [false] (the callers do not look at [outId] then). *)
Definition isAdminSession (token : SessionId) : M core (option UserId) :=
  now ← on_clock nowMs;
  valid ← from_sessions (isValid token now);
  if negb valid then mret None else
  sess ← from_sessions (findByToken token);
  match result_get sess with
  | None => mret None
  | Some s =>
      let uid := s_userId s in
      user ← from_users (findById uid);
      match result_get user with
      | None => mret None
      | Some u =>
          if negb (isActive u) then mret None else
          admin ← isAdmin uid;
          mret (if (admin : bool) then Some uid else None)
      end
  end.

(** [int n] goes up by one for each active administrator. *)
Definition active_admin (u : User) : bool := Domain.isAdmin u && isActive u.
Definition countActiveAdmins : M core Z :=
  l ← from_users listAll;
  mret (zlen (List.filter active_admin l)).

(** The common part of the two [activate] overloads, after the check. *)
Definition activate_user (adminId tgt : UserId) : M core (Result UserId) :=
  r ← from_users (findById tgt);
  match result_get r with
  | None => mret (failure "not found")
  | Some u =>
      _ ← on_users (update (setStatus "active" u));
      _ ← audit_event (event (uid_value adminId) AuditAction.ACTIVATE (uid_value tgt));
      mret (success tgt)
  end.

Definition deactivate_user (adminId tgt : UserId) : M core (Result UserId) :=
  r ← from_users (findById tgt);
  match result_get r with
  | None => mret (failure "not found")
  | Some targetUser =>
      last_admin ← (if Domain.isAdmin targetUser && isActive targetUser
                    then n ← countActiveAdmins; mret (n <=? 1)
                    else mret false);
      if (last_admin : bool) then mret (failure "cannot deactivate last admin") else
      _ ← on_users (update (setStatus "inactive" targetUser));
      _ ← on_sessions (invalidateAllForUser tgt);
      _ ← audit_event (event (uid_value adminId) AuditAction.DEACTIVATE (uid_value tgt));
      mret (success tgt)
  end.

Definition activate (adminToken : SessionId) (tgt : UserId) : M core (Result UserId) :=
  admin ← isAdminSession adminToken;
  match admin with
  | None =>
      _ ← audit_event (event [] AuditAction.ADMIN_DENIED (uid_value tgt));
      mret (failure "Admin denied")
  | Some adminId => activate_user adminId tgt
  end.

Definition deactivate (adminToken : SessionId) (tgt : UserId) : M core (Result UserId) :=
  admin ← isAdminSession adminToken;
  match admin with
  | None =>
      _ ← audit_event (event [] AuditAction.ADMIN_DENIED (uid_value tgt));
      mret (failure "Admin denied")
  | Some adminId => deactivate_user adminId tgt
  end.

(** The legacy overloads. *)
Definition activate_by (admin tgt : UserId) : M core (Result UserId) :=
  ok ← isAdmin admin;
  if negb ok then
    _ ← audit_event (event (uid_value admin) AuditAction.ADMIN_DENIED []);
    mret (failure "Admin denied")
  else activate_user admin tgt.

Definition deactivate_by (admin tgt : UserId) : M core (Result UserId) :=
  ok ← isAdmin admin;
  if negb ok then
    _ ← audit_event (event (uid_value admin) AuditAction.ADMIN_DENIED []);
    mret (failure "Admin denied")
  else deactivate_user admin tgt.

End Operations.

(** ** Correctness *)
Section Correctness.
Context {R H S A : Type} `{!IUserRepository R, !ISessionStore S, !IAuditLogger A}.
Context `{!UserRepositoryLaws R, !SessionStoreLaws S}.
Local Abbreviation core := (Core R H S A).

(** The active administrators of a table. *)
Definition admins (m : gmap str (User * str)) : gmap str (User * str) :=
  filter (fun x => active_admin x.2.1 = true) m.
Definition n_admins (m : gmap str (User * str)) : Z := Z.of_nat (size (admins m)).
Definition one (u : User) : Z := if active_admin u then 1 else 0.

Lemma n_admins_empty : n_admins ∅ = 0.
Proof. unfold n_admins, admins. by rewrite map_filter_empty, map_size_empty. Qed.

Lemma n_admins_fresh m k u h :
  m !! k = None -> n_admins (<[k := (u, h)]> m) = n_admins m + one u.
Proof.
  intros Hk. unfold n_admins, admins, one. destruct (active_admin u) eqn:Ea.
  - rewrite map_filter_insert_True by done. rewrite map_size_insert_None; [lia|].
    apply map_lookup_filter_None. by left.
  - rewrite map_filter_insert_not' by (cbn; rewrite ?Ea; try done; congruence). lia.
Qed.

Lemma n_admins_replace m k u h u' h' :
  m !! k = Some (u, h) -> n_admins (<[k := (u', h')]> m) = n_admins m - one u + one u'.
Proof.
  intros Hk. rewrite <-(insert_delete_id m k (u, h) Hk) at 2.
  rewrite <-insert_delete_eq, !n_admins_fresh by apply lookup_delete_eq. lia.
Qed.

Lemma filter_permutation (f : User -> bool) l l' :
  l ≡ₚ l' -> zlen (List.filter f l) = zlen (List.filter f l').
Proof. unfold zlen. induction 1; cbn; repeat case_match; cbn; lia. Qed.

Lemma n_admins_list (m : gmap str (User * str)) :
  n_admins m = zlen (List.filter active_admin (map (fun x => x.2.1) (map_to_list m))).
Proof.
  induction m as [|k [u h] m Hk IH] using map_ind.
  { by rewrite n_admins_empty, map_to_list_empty. }
  rewrite n_admins_fresh, IH by done.
  assert (E : map (fun x : str * (User * str) => x.2.1) (map_to_list (<[k:=(u, h)]> m))
              ≡ₚ u :: map (fun x => x.2.1) (map_to_list m)).
  { by rewrite map_to_list_insert by done. }
  rewrite (filter_permutation _ _ _ E). unfold one. cbn. destruct (active_admin u); lsize.
Qed.

(** *** The checks, on the abstract state *)
Definition admin_id (m : gmap str (User * str)) (id : UserId) : bool :=
  match m !! uid_value id with Some (u, _) => active_admin u | None => false end.

(** Who acts under a token: the owner of a valid session, if an active
    administrator. *)
Definition acting_admin (c : core) (tok : SessionId) : option UserId :=
  match session c tok with
  | Some x => if Session_isValid x (time c) && admin_id (table c) (s_userId x)
              then Some (s_userId x) else None
  | None => None
  end.

Lemma isAdmin_eq (c : core) id :
  ur_inv (users c) -> isAdmin id c = (Ok (admin_id (table c) id), c).
Proof.
  intros Hi. unfold isAdmin, from_users, admin_id, table. mred.
  rewrite (ur_findById _ id Hi). destruct (ur_model _ !! _) as [[u h]|]; done.
Qed.

Lemma isAdminSession_eq (c : core) tok :
  ur_inv (users c) -> isAdminSession tok c = (Ok (acting_admin c tok), tick c).
Proof.
  intros Hi. unfold isAdminSession, on_clock, zoom, nowMs. mred.
  fold (time c) (tick c). change (sessions (set_clock _ c)) with (sessions c).
  unfold from_sessions, from_users, acting_admin, session. mred.
  change (sessions (tick c)) with (sessions c). rewrite ss_isValid. mred.
  destruct (ss_model (sessions c) tok) as [x|] eqn:Ex; [|done].
  destruct (Session_isValid x (time c)); [cbn [negb andb]|done]. mred.
  change (sessions (tick c)) with (sessions c). rewrite ss_find, Ex. mred. cbn [result_get ok value success].
  mred. change (users (tick c)) with (users c). rewrite (ur_findById _ _ Hi).
  unfold admin_id, table. destruct (ur_model (users c) !! uid_value (s_userId x)) as [[u h]|] eqn:Eu; [|done].
  mred. cbn [result_get ok value success]. unfold active_admin.
  destruct (isActive u) eqn:Ea; cbn [negb]; [|by rewrite andb_false_r].
  rewrite M_bind_eq, isAdmin_eq by done. unfold admin_id, table.
  change (users (tick c)) with (users c). rewrite Eu. unfold active_admin. rewrite Ea. done.
Qed.

Lemma countActiveAdmins_eq (c : core) :
  ur_inv (users c) -> countActiveAdmins c = (Ok (n_admins (table c)), c).
Proof.
  intros Hi. unfold countActiveAdmins, from_users. mred.
  destruct (ur_listAll _ Hi) as (l & -> & Hl). mred.
  by rewrite n_admins_list, (filter_permutation _ _ _ Hl).
Qed.

(** *** The last administrator *)

Definition has_admin (c : core) : Prop := ur_inv (users c) /\ 1 <= n_admins (table c).

(** What does not write the accounts keeps an administrator. *)
Lemma keeps_run {X} (m : M core X) (c : core) :
  steps (same users) m -> has_admin c -> has_admin (m c).2.
Proof. intros Hs. specialize (Hs c). unfold same in Hs. unfold has_admin, table. by rewrite Hs. Qed.

(** An update of the status of one account. *)
Lemma update_status (c : core) tgt u h st :
  ur_inv (users c) -> table c !! uid_value tgt = Some (u, h) ->
  exists r', update (setStatus st u) (users c) = (Ok tt, r') /\ ur_inv r'
    /\ ur_model r' = <[uid_value tgt := (setStatus st u, h)]> (table c).
Proof.
  intros Hi Hk. pose proof (tab_key _ (ur_table _ Hi) _ _ _ Hk) as Hid.
  rewrite <-Hid in Hk |- *. by apply (ur_update (users c) (setStatus st u) u h Hi Hk).
Qed.

Lemma activate_user_keeps adminId tgt : steps (keeps has_admin) (activate_user adminId tgt).
Proof.
  intros c [Hi Hn]. unfold activate_user, from_users. mred. rewrite (ur_findById _ tgt Hi).
  destruct (ur_model (users c) !! uid_value tgt) as [[u h]|] eqn:Eu; [|done].
  cbn [result_get ok value success]. mred.
  destruct (update_status c tgt u h "active" Hi Eu) as (r' & E & Hi' & Hm).
  unfold on_users, zoom. rewrite E. apply keeps_run; [steps_auto|]. split; [done|].
  unfold table. cbn [users set_users]. rewrite Hm, (n_admins_replace _ _ u h) by done.
  assert (one u <= one (setStatus "active" u)); [|lia].
  unfold one, active_admin. change (Domain.isAdmin (setStatus "active" u)) with (Domain.isAdmin u).
  replace (isActive (setStatus "active" u)) with true by by unfold isActive; rewrite bool_decide_eq_true_2.
  destruct (Domain.isAdmin u), (isActive u); cbn; lia.
Qed.

Lemma deactivate_user_keeps adminId tgt : steps (keeps has_admin) (deactivate_user adminId tgt).
Proof.
  intros c [Hi Hn]. unfold deactivate_user, from_users. mred. rewrite (ur_findById _ tgt Hi).
  destruct (ur_model (users c) !! uid_value tgt) as [[u h]|] eqn:Eu; [|done].
  cbn [result_get ok value success]. mred. fold (active_admin u).
  set (b := active_admin u && (n_admins (table c) <=? 1)).
  assert ((if active_admin u then n ← countActiveAdmins; mret (n <=? 1) else mret false) c
          = (Ok b, c)) as ->.
  { unfold b. destruct (active_admin u); [|done]. by rewrite M_bind_eq, countActiveAdmins_eq. }
  destruct b eqn:Eb; [done|]. mred.
  destruct (update_status c tgt u h "inactive" Hi Eu) as (r' & E & Hi' & Hm).
  unfold on_users, zoom. rewrite E. apply keeps_run; [steps_auto|]. split; [done|].
  unfold table. cbn [users set_users]. rewrite Hm, (n_admins_replace _ _ u h) by done.
  unfold b, one in *. assert (active_admin (setStatus "inactive" u) = false) as ->.
  { unfold active_admin, isActive. cbn. apply andb_false_r. }
  destruct (active_admin u); [|lia]. cbn in Eb. apply Z.leb_gt in Eb. lia.
Qed.

Lemma check_keeps {X} (m : M core X) (f : X -> M core (Result UserId)) :
  steps (same users) m -> (forall x, steps (keeps has_admin) (f x)) ->
  steps (keeps has_admin) (m ≫= f).
Proof. intros Hm Hf. apply steps_bind; [apply _|intros c Hc; by apply keeps_run|done]. Qed.

Lemma isAdmin_frame {X} (f : core -> X) id : steps (same f) (isAdmin id).
Proof. unfold isAdmin, from_users. steps_auto. Qed.

Lemma isAdminSession_frame {X} (f : core -> X) tok :
  (forall a c, f (set_clock a c) = f c) -> steps (same f) (isAdminSession tok).
Proof.
  intros Hf. unfold isAdminSession, from_sessions, from_users.
  pose proof (isAdmin_frame f). steps_auto.
Qed.

Lemma denied_keeps e : steps (keeps has_admin)
  (_ ← audit_event e; mret (failure "Admin denied" : Result UserId)).
Proof. intros c Hc. apply keeps_run; [|done]. unfold audit_event. steps_auto. Qed.

(** C2: The system cannot lose its last administrator: each of the four
    operations of [AdminService], for any token or identifier and any target,
    leaves at least one active administrator if there was one, whatever the audit
    logger does (an exception it throws included). *)
Theorem last_admin_kept tok admin tgt :
  steps (keeps has_admin) (activate tok tgt) /\ steps (keeps has_admin) (deactivate tok tgt)
  /\ steps (keeps has_admin) (activate_by admin tgt)
  /\ steps (keeps has_admin) (deactivate_by admin tgt).
Proof.
  split_and!; apply check_keeps;
    try (by apply isAdmin_frame); try (by apply isAdminSession_frame).
  - intros [a|]; [apply activate_user_keeps|apply denied_keeps].
  - intros [a|]; [apply deactivate_user_keeps|apply denied_keeps].
  - intros [|]; [apply activate_user_keeps|apply denied_keeps].
  - intros [|]; [apply deactivate_user_keeps|apply denied_keeps].
Qed.

(** C29: Only administrators act: for any state with a sound repository, any
    token and target, if [activate] or [deactivate] (by session token) changes
    anything in the accounts or the sessions, the token stood for a valid session
    of an active administrator; and the legacy overloads change nothing unless
    the identifier is an active administrator's. *)
Theorem only_admins_act tok admin tgt (c : core) :
  ur_inv (users c) ->
  (acting_admin c tok = None ->
     (forall c', c' = (activate tok tgt c).2 \/ c' = (deactivate tok tgt c).2 ->
        users c' = users c /\ sessions c' = sessions c))
  /\ (admin_id (table c) admin = false ->
     (forall c', c' = (activate_by admin tgt c).2 \/ c' = (deactivate_by admin tgt c).2 ->
        users c' = users c /\ sessions c' = sessions c)).
Proof.
  intros Hi.
  assert (Hden : forall e (c0 : core),
    let c' := ((_ ← audit_event e; mret (failure "Admin denied" : Result UserId)) c0).2 in
    users c' = users c0 /\ sessions c' = sessions c0).
  { intros e c0. rewrite M_bind_eq. unfold audit_event, on_audit, zoom.
    by destruct (record e (audit c0)) as [[a|x|] a']. }
  split; intros Hno c' [-> | ->];
    unfold activate, deactivate, activate_by, deactivate_by; rewrite M_bind_eq;
    rewrite ?isAdminSession_eq, ?isAdmin_eq, Hno by done;
    first [exact (Hden _ (tick c))|exact (Hden _ c)].
Qed.

(** *** What [deactivate] does *)
Context `{!AuditLoggerLaws A}.

Inductive deactivate_spec (tok : SessionId) (tgt : UserId) (c : core) : Result UserId -> core -> Prop :=
| deactivate_denied c' :
    acting_admin c tok = None -> table c' = table c -> session c' = session c ->
    logged c c' [([], AuditAction.ADMIN_DENIED, uid_value tgt)] ->
    deactivate_spec tok tgt c (failure "Admin denied") c'
| deactivate_missing c' a :
    acting_admin c tok = Some a -> table c !! uid_value tgt = None ->
    table c' = table c -> session c' = session c -> logged c c' [] ->
    deactivate_spec tok tgt c (failure "not found") c'
| deactivate_last c' a u h :
    acting_admin c tok = Some a -> table c !! uid_value tgt = Some (u, h) ->
    active_admin u = true -> n_admins (table c) <= 1 ->
    table c' = table c -> session c' = session c -> logged c c' [] ->
    deactivate_spec tok tgt c (failure "cannot deactivate last admin") c'
| deactivate_done c' a u h :
    acting_admin c tok = Some a -> table c !! uid_value tgt = Some (u, h) ->
    (active_admin u = true -> 1 < n_admins (table c)) ->
    table c' = <[uid_value tgt := (setStatus "inactive" u, h)]> (table c) ->
    (forall t, session c' t = match session c t with
       | Some x => Some (if decide (s_userId x = tgt) then Session_revoke x else x)
       | None => None end) ->
    logged c c' [(uid_value a, AuditAction.DEACTIVATE, uid_value tgt)] ->
    deactivate_spec tok tgt c (success tgt) c'.

Lemma deactivate_user_spec (a tgt : UserId) (c c0 : core) tok :
  core_ok c0 -> au_good (event (uid_value a) AuditAction.DEACTIVATE (uid_value tgt)) ->
  acting_admin c tok = Some a -> users c0 = users c -> sessions c0 = sessions c -> audit c0 = audit c ->
  returns (deactivate_user a tgt c0) (hasher c0) c0 (deactivate_spec tok tgt c).
Proof.
  intros Hok Hg Ha Eu Es Ea. pose proof (proj1 Hok) as Hi.
  assert (Et : table c0 = table c) by (unfold table; by rewrite Eu).
  assert (Ess : session c0 = session c) by (unfold session; by rewrite Es).
  assert (El : logged c c0 []) by (unfold logged; by rewrite Ea, app_nil_r).
  unfold deactivate_user, from_users. mred. rewrite (ur_findById _ tgt Hi). fold (table c0).
  destruct (table c0 !! uid_value tgt) as [[u h]|] eqn:Ek.
  2:{ eexists _, c0. do 2 (split; [done|]). split; [|done].
      eapply deactivate_missing; try done. by rewrite <-Et. }
  cbn [result_get ok value success]. mred. fold (active_admin u).
  assert ((if active_admin u then n ← countActiveAdmins; mret (n <=? 1) else mret false) c0
          = (Ok (active_admin u && (n_admins (table c0) <=? 1)), c0)) as ->.
  { destruct (active_admin u); [|done]. by rewrite M_bind_eq, countActiveAdmins_eq. }
  destruct (active_admin u && (n_admins (table c0) <=? 1)) eqn:Eb.
  { apply andb_true_iff in Eb as [Eb1 Eb2%Z.leb_le]. eexists _, c0. do 2 (split; [done|]).
    split; [|done]. eapply (deactivate_last _ _ _ _ a u h); try done; by rewrite <-Et. }
  mred. destruct (update_status c0 tgt u h "inactive" Hi Ek) as (r' & E & Hi' & Hm).
  unfold on_users, zoom at 1. rewrite E.
  destruct (ss_invalidateAll (sessions c0) tgt) as (n & s' & Einv & Hs').
  rewrite M_bind_eq. unfold on_sessions, zoom at 1.
  change (sessions (set_users r' c0)) with (sessions c0). rewrite Einv.
  apply (log_and_return _ _ c0 (set_sessions s' (set_users r' c0)));
    [split; [exact Hi'|apply Hok]|done|done|].
  intros c' Htab Hsess Hlog. eapply (deactivate_done _ _ _ _ a u h); try done.
  - by rewrite <-Et.
  - intros Hadm. rewrite Hadm in Eb. apply Z.leb_gt in Eb. by rewrite <-Et.
  - rewrite Htab, <-Et. exact Hm.
  - intros t. rewrite Hsess, <-Ess. apply Hs'.
  - unfold logged in *. by rewrite Hlog; cbn; rewrite Ea.
Qed.

(** [deactivate] implements its specification on every branch: denied,
    unknown target and last administrator change no account and no session; a
    success makes the target inactive, revokes every session of the target and no
    other, touches no other account and logs the administrator's act. *)
Theorem deactivate_refines tok tgt (c : core) :
  core_ok c -> au_good (event [] AuditAction.ADMIN_DENIED (uid_value tgt)) ->
  (forall a, acting_admin c tok = Some a ->
     au_good (event (uid_value a) AuditAction.DEACTIVATE (uid_value tgt))) ->
  exists r c', deactivate tok tgt c = (Ok r, c') /\ core_ok c' /\ deactivate_spec tok tgt c r c'.
Proof.
  intros Hok Hgd Hg. unfold deactivate. rewrite M_bind_eq, isAdminSession_eq by apply Hok.
  assert (exists hs c0, returns ((match acting_admin c tok with
      | None => _ ← audit_event (event [] AuditAction.ADMIN_DENIED (uid_value tgt));
                mret (failure "Admin denied")
      | Some adminId => deactivate_user adminId tgt
      end) (tick c)) hs c0 (deactivate_spec tok tgt c))
    as (hs & c0 & r & c' & E & Hok' & Hs & _); [|by exists r, c'].
  destruct (acting_admin c tok) as [a|] eqn:Ea; eexists _, (tick c).
  - apply deactivate_user_spec; try done. by apply Hg.
  - apply log_and_return; [done..|]. intros c' Ht Hs Hl. by apply deactivate_denied.
Qed.

(** C30: Deactivation cuts the user off at once: after a successful
    [deactivate], no token of the target is valid at any time and the target's
    account cannot log in at any time. *)
Theorem deactivated_is_out tok tgt (c c' : core) r :
  core_ok c -> au_good (event [] AuditAction.ADMIN_DENIED (uid_value tgt)) ->
  (forall a, acting_admin c tok = Some a ->
     au_good (event (uid_value a) AuditAction.DEACTIVATE (uid_value tgt))) ->
  deactivate tok tgt c = (Ok r, c') -> ok r = true ->
  (forall t now, userFor t (sessions c') = Ok tgt -> isValid t now (sessions c') = Ok false)
  /\ exists u h, table c' !! uid_value tgt = Some (u, h) /\ forall now, canLogin u now = false.
Proof.
  intros Hok Hgd Hg E Hr.
  assert (deactivate_spec tok tgt c r c') as Hspec.
  { unfold deactivate in E. rewrite M_bind_eq, isAdminSession_eq in E by apply Hok.
    destruct (acting_admin c tok) as [a|] eqn:Ea.
    - destruct (deactivate_user_spec a tgt c (tick c) tok Hok (Hg a eq_refl) Ea)
        as (r' & c1 & E1 & _ & Hs & _); [done..|]. congruence.
    - destruct (log_and_return (event [] AuditAction.ADMIN_DENIED (uid_value tgt))
        (failure "Admin denied" : Result UserId) (tick c) (tick c)
        (fun r c' => ok r = false) Hok Hgd eq_refl) as (r' & c1 & E1 & _ & Hf & _); [done|].
      congruence. }
  destruct Hspec as [| | |c' a u h Ha Hk Hl Ht Hs _]; try done.
  split.
  - intros t now. rewrite ss_userFor, ss_isValid. fold (session c' t). rewrite Hs.
    destruct (session c t) as [x|]; [|done]. destruct (decide (s_userId x = tgt)) as [|Hne]; [done|].
    by intros [= ?].
  - exists (setStatus "inactive" u), h. split; [by rewrite Ht, lookup_insert_eq|]. done.
Qed.
End Correctness.
End AdminService.
