(* ===== verification/Validator.v ===== *)
(** * [PdfFileValidator] ([file_validator.hpp], [file_validator.cpp])

    The checks on the name, size and header of an upload. The name is
    normalised with [fs::path::lexically_normal], modelled for the POSIX path
    format (the separator is the slash, no root names). *)
From S2P Require Import Prelude Domain Ports.
From Stdlib Require Import ZArith Lia.
From stdpp Require Import base gmap strings list numbers.
Local Open Scope Z_scope.

Module PdfFileValidator.

Definition slash : byte := Byte.x2f.
Definition dot : str := ".".
Definition dotdot : str := "..".

(** ** [fs::path::lexically_normal] *)

(** The names between separators; the last is empty after a trailing slash. *)
Fixpoint split (s : str) : list str :=
  match s with
  | [] => [[]]
  | c :: r => if decide (c = slash) then [] :: split r
              else match split r with
                   | [] => [[c]]
                   | n :: ns => (c :: n) :: ns
                   end
  end.

(** One name on the way: the names kept so far, last first, and whether the
    path now ends with a separator. Dots vanish; a dot-dot takes the name before
    it away, or vanishes after the root directory, or stays. *)
Definition norm_step (rooted : bool) (st : list str * bool) (n : str) : list str * bool :=
  let '(stack, _) := st in
  if decide (n = [] \/ n = dot) then (stack, true)
  else if decide (n = dotdot) then
    match stack with
    | top :: rest => if decide (top = dotdot) then (n :: stack, false) else (rest, true)
    | [] => if rooted then ([], true) else ([n], false)
    end
  else (n :: stack, false).

Fixpoint join (ns : list str) : str :=
  match ns with
  | [] => []
  | [n] => n
  | n :: ns' => n ++ slash :: join ns'
  end.

Definition rooted (s : str) : bool := bool_decide (head s = Some slash).

Definition lexically_normal (s : str) : str :=
  if decide (s = []) then [] else
  let '(stack, trailing) := fold_left (norm_step (rooted s)) (split s) ([], false) in
  let tail := if trailing && negb (bool_decide (stack = []))
                 && negb (bool_decide (head stack = Some dotdot)) then [slash] else [] in
  let r := (if rooted s then [slash] else []) ++ join (rev stack) ++ tail in
  if decide (r = []) then dot else r.

Example normal_1 : lexically_normal "a/./b/../c.pdf" = lit "a/c.pdf".
Proof. reflexivity. Qed.
Example normal_2 : lexically_normal "foo/.///bar/../" = lit "foo/".
Proof. reflexivity. Qed.
Example normal_3 : lexically_normal "../a/../../b" = lit "../../b".
Proof. reflexivity. Qed.
Example normal_4 : lexically_normal "/../a/.." = lit "/".
Proof. reflexivity. Qed.
Example normal_5 : lexically_normal "a/.." = lit ".".
Proof. reflexivity. Qed.

(** ** The checks *)

Definition ends_with (s suffix : str) : bool :=
  if zlen s <? zlen suffix then false
  else bool_decide (drop (length s - length suffix) s = suffix).

Definition magic (header : str) : bool := bool_decide (take 4 header = lit "%PDF").

Definition validate (origName : str) (size : Z) (headerBytes : str) : outcome unit :=
  if bool_decide (origName = []) || bool_decide (Byte.x00 ∈ origName) then
    Throw (ValidationException "name empty or NUL") else
  let norm := lexically_normal origName in
  if occurs ".." norm then Throw (ValidationException "traversal") else
  if negb (ends_with norm ".pdf") then Throw (ValidationException "PDF-only core") else
  if occurs ".pdf." norm then Throw (ValidationException "double ext") else
  if 100 * 1024 * 1024 <? size then Throw (ValidationException "oversize") else
  if (zlen headerBytes <? 4) || negb (magic headerBytes) then
    Throw (ValidationException "PDF magic") else
  Ok tt.

#[global] Instance ops : IFileValidator := { Ports.validate := validate }.
#[global] Program Instance laws : FileValidatorLaws.
Next Obligation. intros n size hdr. cbn. unfold validate, defined. by repeat case_match. Qed.

(** ** Lemmas *)

Lemma occurs_false pat s : occurs pat s = false -> forall a b, s <> a ++ pat ++ b.
Proof.
  unfold occurs. intros H%bool_decide_eq_false a b ->. apply H.
  assert (forall a, is_Some (find_sub pat (a ++ pat ++ b))) as Hs; [|by apply Hs].
  clear H a. induction a as [|c a IH]; cbn [app].
  - rewrite find_sub_here. by eexists.
  - cbn [find_sub]. case_match; [by eexists|]. apply fmap_is_Some. exact IH.
Qed.

Lemma join_in n ns : n ∈ ns -> exists a b, join ns = a ++ n ++ b.
Proof.
  induction ns as [|m ns IH]; [by intros ?%not_elem_of_nil|].
  intros [->|Hin]%elem_of_cons.
  - destruct ns as [|m' ns]; [exists [], []|exists [], (slash :: join (m' :: ns))]; cbn;
      by rewrite ?app_nil_r.
  - destruct (IH Hin) as (a & b & E). destruct ns as [|m' ns]; [by apply not_elem_of_nil in Hin|].
    exists (m ++ slash :: a), b. cbn [join]. cbn [join] in E. rewrite E, <-app_assoc. done.
Qed.

(** A name that stays on the stack is in the normal form. *)
Lemma normal_stack s :
  s <> [] -> let stack := (fold_left (norm_step (rooted s)) (split s) ([], false)).1 in
  dotdot ∈ stack -> exists a b, lexically_normal s = a ++ dotdot ++ b.
Proof.
  intros Hs stack Hin. unfold lexically_normal. rewrite decide_False by done.
  unfold stack in *. destruct (fold_left _ _ _) as [st tr]. cbn [fst] in Hin.
  destruct (join_in dotdot (rev st)) as (a & b & E).
  { apply list_elem_of_In. rewrite <-in_rev. by apply list_elem_of_In. }
  rewrite E. set (r := _ ++ _ ++ _).
  assert (Hr : r = ((if rooted s then [slash] else []) ++ a) ++ dotdot ++
    (b ++ if tr && negb (bool_decide (st = [])) && negb (bool_decide (head st = Some dotdot))
          then [slash] else [])) by (unfold r; by rewrite <-!app_assoc).
  rewrite decide_False; [by eexists _, _|]. rewrite Hr. intros H%(f_equal length).
  rewrite !length_app in H. cbn in H. lia.
Qed.

(** Walking a path from a directory, given by its names, deepest first: what
    the operating system does with it. [None] is above the file system's root. *)
Definition walk_step (d : list str) (n : str) : list str :=
  if decide (n = [] \/ n = dot) then d
  else if decide (n = dotdot) then tail d
  else n :: d.
Definition walk (s : str) (d : list str) : list str := fold_left walk_step (split s) d.

Lemma norm_keeps_dotdot r ns : forall st, dotdot ∈ st.1 ->
  dotdot ∈ (fold_left (norm_step r) ns st).1.
Proof.
  induction ns as [|n ns IH]; intros [st tr] Hin; [done|]. cbn [fold_left]. apply IH.
  unfold norm_step. cbn [fst] in *. case_decide; [done|]. case_decide as Hn.
  - destruct st as [|top rest]; [by apply not_elem_of_nil in Hin|].
    case_decide as Ht; cbn [fst]; [apply elem_of_cons; by right|].
    by apply elem_of_cons in Hin as [?|?].
  - cbn [fst]. apply elem_of_cons. by right.
Qed.

Lemma walk_below ns d : forall st tr,
  dotdot ∉ st -> dotdot ∉ (fold_left (norm_step false) ns (st, tr)).1 ->
  fold_left walk_step ns (st ++ d) = (fold_left (norm_step false) ns (st, tr)).1 ++ d.
Proof.
  induction ns as [|n ns IH]; intros st tr Hst Hend; [done|].
  cbn [fold_left] in *. revert Hend. unfold norm_step at 2 4, walk_step at 2.
  case_decide as Hn; [by apply IH|]. case_decide as Hd.
  - destruct st as [|top rest]; cbn [app tail].
    + intros Hend. exfalso. apply Hend, norm_keeps_dotdot. cbn. rewrite Hd. left.
    + apply not_elem_of_cons in Hst as [Ht Hr]. rewrite decide_False by congruence. by apply IH.
  - intros Hend. apply (IH (n :: st)); [|done]. apply not_elem_of_cons. split; [congruence|done].
Qed.

(** C37: What [validate] accepts: it returns exactly when the name is not empty
    and holds no NUL, its normal form has no dot-dot, ends in ".pdf" and has no
    ".pdf." inside, the size is at most 100 MiB and the header starts with the
    PDF magic number; otherwise it throws [ValidationException]. *)
Theorem validate_iff origName size headerBytes :
  (validate origName size headerBytes = Ok tt <->
     origName <> [] /\ ~ Byte.x00 ∈ origName
     /\ occurs ".." (lexically_normal origName) = false
     /\ (exists stem, lexically_normal origName = stem ++ lit ".pdf")
     /\ occurs ".pdf." (lexically_normal origName) = false
     /\ size <= 100 * 1024 * 1024
     /\ exists rest, headerBytes = lit "%PDF" ++ rest)
  /\ (validate origName size headerBytes = Ok tt
      \/ exists m, validate origName size headerBytes = Throw (ValidationException m)).
Proof.
  assert (Hends : forall s, ends_with s ".pdf" = true <-> exists stem, s = stem ++ lit ".pdf").
  { intros s. unfold ends_with. destruct (Z.ltb_spec (zlen s) (zlen (lit ".pdf"))) as [Hl|Hl].
    - split; [done|]. intros [stem ->]. rewrite zlen_app in Hl. pose proof (zlen_nonneg stem). lia.
    - rewrite bool_decide_eq_true. split.
      + intros E. exists (take (length s - 4) s). by rewrite <-E at 1; rewrite take_drop.
      + intros [stem ->]. rewrite length_app.
        replace (_ + _ - _)%nat with (length stem) by lia. apply drop_app_length. }
  assert (Hmagic : (zlen headerBytes <? 4) || negb (magic headerBytes) = false <->
                   exists rest, headerBytes = lit "%PDF" ++ rest).
  { unfold magic. rewrite orb_false_iff, Z.ltb_ge, negb_false_iff, bool_decide_eq_true. split.
    - intros [_ E]. exists (drop 4 headerBytes). by rewrite <-E, take_drop.
    - intros [rest ->]. rewrite zlen_app. change (zlen (lit "%PDF")) with 4.
      pose proof (zlen_nonneg rest). split; [lia|done]. }
  unfold validate. split.
  - rewrite <-Hends, <-Hmagic, <-Z.ltb_ge.
    destruct (_ || bool_decide (Byte.x00 ∈ origName)) eqn:E1.
    { split; [done|]. intros (H1 & H2 & _). rewrite !bool_decide_eq_false_2 in E1 by done. done. }
    apply orb_false_iff in E1 as [H1%bool_decide_eq_false H2%bool_decide_eq_false].
    destruct (occurs ".." _), (ends_with _ _), (occurs ".pdf." _), (_ <? size), (_ || _); cbn;
      (split; intros Hx; [try discriminate Hx; by split_and!|]);
      destruct Hx as (_ & _ & H3 & H4 & H5 & H6 & H7); congruence.
  - repeat case_match; first [by left|right; by eexists].
Qed.

(** No traversal: a relative name that [validate] accepts denotes, from any
    directory, an entry at or below that directory: walking it never leaves it. *)
Theorem validate_no_traversal origName size headerBytes d :
  validate origName size headerBytes = Ok tt -> rooted origName = false ->
  exists below, walk origName d = below ++ d.
Proof.
  intros Hv Hr.
  assert (H : origName <> [] /\ occurs ".." (lexically_normal origName) = false).
  { unfold validate in Hv. destruct (_ || _) eqn:E in Hv; [done|].
    destruct (occurs ".." _) eqn:Eo; [done|].
    apply orb_false_iff in E as [H1%bool_decide_eq_false _]. done. }
  destruct H as [Hne Hocc].
  exists (fold_left (norm_step false) (split origName) ([], false)).1.
  apply (walk_below _ d [] false); [apply not_elem_of_nil|].
  intros Hin. pose proof (normal_stack origName Hne) as Hn. cbv zeta in Hn. rewrite Hr in Hn.
  destruct (Hn Hin) as (a & b & E).
  by apply (occurs_false _ _ Hocc) in E.
Qed.

Lemma validate_no_traversal_witness :
  exists below, walk "docs/../a.pdf" [("home" : str)] = below ++ [("home" : str)].
Proof.
  apply (validate_no_traversal "docs/../a.pdf" 5 "%PDF-1.4"); reflexivity.
Defined.

End PdfFileValidator.
