(* ===== verification/Files.v ===== *)
(** * The in-memory repositories of files, keys and generic values

    [MemoryFileRepository] ([memory_file_repo.cpp]), [MemoryPubkeyDirectory]
    ([memory_pubkey_directory.cpp]) and the template [InMemoryRepo]
    ([memory_repo.hpp]), with their contracts; and [PolicyEngine]
    ([policy_engine.hpp]). *)
From S2P Require Import Prelude Domain Ports.
From Stdlib Require Import ZArith Lia.
From stdpp Require Import base gmap strings list numbers.
Local Open Scope Z_scope.

Module MemoryFileRepository.

Record t := Mk {
  byId_ : gmap str FileRecord;
  uploadIdToId_ : gmap str str;
  storageIdToId_ : gmap str str
}.
Definition empty : t := Mk ∅ ∅ ∅.

Definition save (r : FileRecord) : M t unit :=
  s ← get;
  if bool_decide (fid_value (fr_id r) = []) then throw (ValidationException "id empty") else
  if bool_decide (uploadId r = []) then throw (ValidationException "uploadId empty") else
  if bool_decide (storageId r = []) then throw (ValidationException "storageId empty") else
  if bool_decide (is_Some (byId_ s !! fid_value (fr_id r))) then
    throw (ValidationException "duplicate id") else
  if bool_decide (is_Some (uploadIdToId_ s !! uploadId r)) then
    throw (ValidationException "duplicate upload_id") else
  if bool_decide (is_Some (storageIdToId_ s !! storageId r)) then
    throw (ValidationException "duplicate storage_id") else
  put (Mk (emplace (fid_value (fr_id r)) r (byId_ s))
          (emplace (uploadId r) (fid_value (fr_id r)) (uploadIdToId_ s))
          (emplace (storageId r) (fid_value (fr_id r)) (storageIdToId_ s))).

Definition findById (id : FileId) (s : t) : outcome (Result FileRecord) :=
  match byId_ s !! fid_value id with
  | None => Ok (failure "not found")
  | Some r => Ok (success r)
  end.

(** In the order of [map_to_list]; the order of an [unordered_map] is not
    specified. *)
Definition findByOwner (o : UserId) (s : t) : outcome (list FileRecord) :=
  Ok (List.filter (fun r => bool_decide (owner r = o)) (map snd (map_to_list (byId_ s)))).

Definition existsUploadId (u : str) (s : t) : outcome bool :=
  Ok (bool_decide (is_Some (uploadIdToId_ s !! u))).

#[global] Instance ops : IFileRepository t := {
  Ports.saveFile := save;
  Ports.findFile := findById;
  Ports.findByOwner := findByOwner;
  Ports.existsUploadId := existsUploadId
}.

(** The two indexes are exactly those of the records. *)
Definition indexes (f : FileRecord -> str) (recs : gmap str FileRecord) (ix : gmap str str) : Prop :=
  forall x k, ix !! x = Some k <-> exists r, recs !! k = Some r /\ f r = x.

Record inv (s : t) : Prop := {
  inv_key : forall k r, byId_ s !! k = Some r -> fid_value (fr_id r) = k;
  inv_uploads : indexes uploadId (byId_ s) (uploadIdToId_ s);
  inv_storages : indexes storageId (byId_ s) (storageIdToId_ s)
}.

Lemma files_inv_empty : inv empty.
Proof.
  split; cbn; [intros k r; by rewrite lookup_empty|..];
    intros x k; rewrite lookup_empty; (split; [done|]); intros (r & Hr & _);
    by rewrite lookup_empty in Hr.
Qed.

Lemma indexes_unique f recs ix k1 k2 r1 r2 :
  indexes f recs ix -> recs !! k1 = Some r1 -> recs !! k2 = Some r2 -> f r1 = f r2 -> k1 = k2.
Proof.
  intros Hix H1 H2 E. assert (ix !! f r1 = Some k1) as E1 by (apply Hix; eauto).
  assert (ix !! f r1 = Some k2) as E2 by (apply Hix; eauto). congruence.
Qed.

Lemma indexes_insert f recs ix k r :
  indexes f recs ix -> recs !! k = None -> ix !! f r = None ->
  indexes f (<[k := r]> recs) (<[f r := k]> ix).
Proof.
  intros Hix Hk Hx x k'. split.
  - intros [[<- <-]|[Hne H]]%lookup_insert_Some.
    + exists r. by rewrite lookup_insert_eq.
    + apply Hix in H as (r' & Hr' & <-). exists r'. rewrite lookup_insert_ne; [done|].
      intros <-. congruence.
  - intros (r' & [[<- <-]|[Hne H]]%lookup_insert_Some & <-); [apply lookup_insert_eq|].
    rewrite lookup_insert_ne; [apply Hix; eauto|]. intros E.
    assert (ix !! f r' = Some k') as E' by (apply Hix; eauto). congruence.
Qed.

Lemma indexes_none f recs ix x k r :
  indexes f recs ix -> ix !! x = None -> recs !! k = Some r -> f r <> x.
Proof.
  intros Hix Hx Hr E. assert (ix !! x = Some k) by (apply Hix; eauto). congruence.
Qed.

Lemma files_save_spec s r : inv s -> file_ok r ->
  exists o s', save r s = (o, s') /\ inv s'
    /\ ((o = Ok tt /\ ~ file_conflict (byId_ s) r
           /\ byId_ s' = <[fid_value (fr_id r) := r]> (byId_ s))
        \/ ((exists e, o = Throw e) /\ (True -> file_conflict (byId_ s) r) /\ byId_ s' = byId_ s)).
Proof.
  intros [Hkey Hup Hst] (H1 & H2 & H3). unfold save. mred. rewrite !bool_decide_eq_false_2 by done.
  case_bool_decide as Hid.
  { eexists _, s. split; [done|]. split; [done|]. right. split; [by eexists|]. split; [by left|done]. }
  case_bool_decide as Hu.
  { eexists _, s. split; [done|]. split; [done|]. right. split; [by eexists|]. split; [|done].
    intros _. right. destruct Hu as [k Hu]. apply Hup in Hu as (r' & ? & ?). eauto. }
  case_bool_decide as Hs.
  { eexists _, s. split; [done|]. split; [done|]. right. split; [by eexists|]. split; [|done].
    intros _. right. destruct Hs as [k Hs]. apply Hst in Hs as (r' & ? & ?). eauto. }
  apply eq_None_not_Some in Hid, Hu, Hs. unfold put. eexists _, _. split; [done|].
  rewrite !emplace_fresh by done. split; [split; cbn|].
  - intros k r' [[<- <-]|[_ H]]%lookup_insert_Some; [done|by apply Hkey].
  - by apply indexes_insert.
  - by apply indexes_insert.
  - left. split; [done|]. split; [|done]. intros [Hc|(k & r' & Hr & [E|E])].
    + rewrite Hid in Hc. by destruct Hc.
    + exact (indexes_none uploadId _ _ _ _ _ Hup Hu Hr E).
    + exact (indexes_none storageId _ _ _ _ _ Hst Hs Hr E).
Qed.

#[global] Program Instance laws : FileRepositoryLaws t := {
  fr_inv := inv;
  fr_model := byId_;
  fr_reliable := fun _ => True
}.
Next Obligation.
  intros s [Hkey Hup Hst]. split; [done|..]; intros k1 k2 r1 r2.
  - exact (indexes_unique uploadId _ _ _ _ _ _ Hup).
  - exact (indexes_unique storageId _ _ _ _ _ _ Hst).
Qed.
Next Obligation. intros s id _. cbn. unfold findById. by destruct (byId_ s !! _). Qed.
Next Obligation.
  intros s u [_ Hup _]. cbn. unfold existsUploadId. eexists. split; [done|].
  rewrite bool_decide_eq_true. split.
  - intros [k Hk]. apply Hup in Hk as (r & ? & ?). eauto.
  - intros (k & r & Hr & E). exists k. apply Hup. eauto.
Qed.
Next Obligation.
  intros s r Hs Hr. destruct (files_save_spec s r Hs Hr) as (o & s' & E & Hs' & Hc). exists o, s'.
  split; [exact E|]. split; [exact Hs'|]. destruct Hc as [(Ho & Hn & Hm)|Hc]; [left|by right].
  split; [exact Ho|]. split; [exact Hn|]. exists (recipientId (wrapped r)), (alg (wrapped r)).
  rewrite Hm. by destruct r as [? ? ? ? ? ? []].
Qed.

End MemoryFileRepository.

Module MemoryPubkeyDirectory.

Record t := Mk { store_ : gmap str str }.
Definition empty : t := Mk ∅.

Definition savePubkey (uid : UserId) (pub : str) : M t unit :=
  if bool_decide (uid_value uid = []) then throw (ValidationException "user_id empty") else
  if bool_decide (pub = []) then throw (ValidationException "pubkey empty") else
  if negb (zlen pub =? 32) then throw (ValidationException "pubkey must be 32 bytes") else
  s ← get;
  if bool_decide (is_Some (store_ s !! uid_value uid)) then
    throw (ValidationException "duplicate user_id")
  else put (Mk (emplace (uid_value uid) pub (store_ s))).

Definition getPubkey (uid : UserId) (s : t) : outcome str :=
  if bool_decide (uid_value uid = []) then Throw (ValidationException "user_id empty") else
  match store_ s !! uid_value uid with
  | None => Throw (NotFoundException "pubkey not found")
  | Some p => Ok p
  end.

Definition exists_ (uid : UserId) (s : t) : outcome bool :=
  Ok (if bool_decide (uid_value uid = []) then false
      else bool_decide (is_Some (store_ s !! uid_value uid))).

Definition listAll (s : t) : outcome (list UserId) :=
  Ok (map (fun kv => MkUserId kv.1) (map_to_list (store_ s))).

#[global] Instance ops : IKeyDirectory t := {
  Ports.savePubkey := savePubkey;
  Ports.getPubkey := getPubkey;
  Ports.keyExists := exists_;
  Ports.listKeys := listAll
}.

#[global] Program Instance laws : KeyDirectoryLaws t := { kd_model := store_ }.
Next Obligation. intros s u Hu. cbn. unfold exists_. by rewrite bool_decide_eq_false_2. Qed.
Next Obligation.
  intros s u pub Hp Hu. cbn. unfold getPubkey. by rewrite bool_decide_eq_false_2, Hp.
Qed.
Next Obligation.
  intros s u pub. cbn. unfold savePubkey.
  case_bool_decide; [eexists _, s; split; [done|right; eauto]|].
  case_bool_decide; [eexists _, s; split; [done|right; eauto]|].
  destruct (Z.eqb_spec (zlen pub) 32); [|eexists _, s; split; [done|right; eauto]].
  mred. cbn [negb]. mred. case_bool_decide as Hs; [eexists _, s; split; [done|right; eauto]|].
  apply eq_None_not_Some in Hs. eexists _, _. split; [done|]. left. unfold put.
  by rewrite emplace_fresh.
Qed.

End MemoryPubkeyDirectory.

(** The template [InMemoryRepo<T, Id, KeyFn>]: [key] gives a value's key. *)
Module InMemoryRepo.
Section Repo.
Context {T : Type} (key : T -> str).
Definition t : Type := gmap str T.
Definition save (v : T) : M t unit := modify (fun m : t => <[key v := v]> m).
Definition find (id : str) (m : t) : Result T :=
  match m !! id with None => failure "not found" | Some v => success v end.

Lemma find_saved v m : result_get (find (key v) (save v m).2) = Some v.
Proof.
  unfold find, save, modify. cbn [snd].
  by rewrite (lookup_insert_eq (m : gmap str T) (key v) v).
Qed.
End Repo.
End InMemoryRepo.

(** ** [PolicyEngine] *)
Module PolicyEngine.
Record t := Mk { grants_ : gmap str (gset str) }.
Definition empty : t := Mk ∅.

Definition grant (f : FileId) (u : UserId) (p : t) : t :=
  Mk (<[fid_value f := {[ uid_value u ]} ∪ default ∅ (grants_ p !! fid_value f)]> (grants_ p)).

Definition isAuthorized (u : UserId) (f : FileRecord) (p : t) : bool :=
  if isOwnedBy f u then true
  else match grants_ p !! fid_value (fr_id f) with
       | None => false
       | Some us => bool_decide (uid_value u ∈ us)
       end.

Definition grants (p : t) (l : list (FileId * UserId)) : t :=
  fold_left (fun p fu => grant fu.1 fu.2 p) l p.

Lemma grant_spec f u p k x :
  (exists us, grants_ (grant f u p) !! k = Some us /\ x ∈ us)
  <-> (k = fid_value f /\ x = uid_value u) \/ (exists us, grants_ p !! k = Some us /\ x ∈ us).
Proof.
  unfold grant. cbn. destruct (decide (fid_value f = k)) as [<-|Hne].
  - rewrite lookup_insert_eq. split.
    + intros (us & [= <-] & [Hx%elem_of_singleton|Hx]%elem_of_union); [by left|].
      right. destruct (grants_ p !! fid_value f) as [us|]; cbn in Hx; [eauto|set_solver].
    + intros [[_ ->]|(us & -> & Hx)]; (eexists; split; [done|]); cbn; set_solver.
  - rewrite lookup_insert_ne by done. split; [by right|]. by intros [[-> _]|?].
Qed.

(** Access policy: after any sequence of grants, a user may access a file
    exactly when the user owns it or was granted that file. *)
Theorem authorized_iff l u f :
  isAuthorized u f (grants empty l) = true
  <-> owner f = u \/ exists g v, In (g, v) l /\ fid_value g = fid_value (fr_id f)
                               /\ uid_value v = uid_value u.
Proof.
  assert (H : forall l p k x, (exists us, grants_ (grants p l) !! k = Some us /\ x ∈ us)
    <-> (exists us, grants_ p !! k = Some us /\ x ∈ us)
        \/ exists g v, In (g, v) l /\ fid_value g = k /\ uid_value v = x).
  { clear l. induction l as [|[g v] l IH]; intros p k x; cbn.
    - split; [by left|]. intros [?|(? & ? & [] & _)]; done.
    - fold (grants (grant g v p) l). rewrite IH, grant_spec. split.
      + intros [[[-> ->]|?]|(g' & v' & ? & ? & ?)]; [right; exists g, v; auto|by left|].
        right. exists g', v'. auto.
      + intros [?|(g' & v' & [[= -> ->]|?] & <- & <-)]; [by left; right|by left; left|].
        right. eauto. }
  specialize (H l empty (fid_value (fr_id f)) (uid_value u)).
  unfold isAuthorized, isOwnedBy. case_bool_decide as Ho; [by split; [left|]|].
  destruct (grants_ (grants empty l) !! fid_value (fr_id f)) as [us|].
  - rewrite bool_decide_eq_true. split.
    + intros Hu. right. destruct (proj1 H) as [(? & He & _)|?]; [eauto| |done].
      cbn in He. by rewrite lookup_empty in He.
    + intros [?|Hg]; [done|]. by destruct (proj2 H (or_intror Hg)) as (us' & [= <-] & ?).
  - split; [done|]. intros [?|Hg]; [done|].
    by destruct (proj2 H (or_intror Hg)) as (us' & He & _).
Qed.
End PolicyEngine.
