(* ===== verification/Storage.v ===== *)
(** * The blob storages ([memory_storage.hpp], [binary_storage.hpp], [binary_storage.cpp])

    [MemoryStorage] is a map. [BinaryFileStorage] stages a blob in a temporary
    file, synchronises it and renames it into place; it is modelled over a file
    system whose calls may fail, which remembers every state of the disk it went
    through: a crash leaves the disk in one of them. *)
From S2P Require Import Prelude Domain Ports.
From Stdlib Require Import ZArith Lia.
From stdpp Require Import base gmap strings list numbers.
Local Open Scope Z_scope.

Module MemoryStorage.

Record t := Mk { m_ : gmap str str }.
Definition empty : t := Mk ∅.

Definition write (k v : str) : M t unit := modify (fun s => Mk (<[k := v]> (m_ s))).
Definition read (k : str) (s : t) : outcome str :=
  match m_ s !! k with None => Throw (NotFoundException "missing blob") | Some d => Ok d end.
Definition stagedWrite (storageId data : str) : M t unit :=
  modify (fun s => Mk (<[storageId := data]> (m_ s))).
Definition removeStaged (storageId : str) : M t unit :=
  _ ← modify (fun s => Mk (delete storageId (m_ s)));
  let tmp : str := ("tmp." : str) ++ storageId ++ (".part" : str) in
  modify (fun s => Mk (delete tmp (m_ s))).

#[global] Instance ops : IStorage t := {
  Ports.write := write;
  Ports.read := read;
  Ports.stagedWrite := stagedWrite;
  Ports.removeStaged := removeStaged
}.

#[global] Program Instance laws : StorageLaws t := {
  st_inv := fun _ => True;
  st_blob := fun s k => m_ s !! k;
  st_usable := fun _ => True;
  st_reliable := fun _ => True
}.
Next Obligation. intros s k _ _. cbn. unfold read. destruct (m_ s !! k); [done|by eexists]. Qed.
Next Obligation.
  intros s k d _ _. cbn. unfold stagedWrite, modify. eexists _, _. split; [done|].
  split; [done|]. split; [|split; [|done]].
  - intros k' Hk _. cbn. by rewrite lookup_insert_ne.
  - left. cbn. by rewrite lookup_insert_eq.
Qed.
Next Obligation.
  intros s k _ _. cbn. unfold removeStaged, modify. mred. eexists. split; [done|].
  assert (Hd : delete (("tmp." : str) ++ k ++ (".part" : str)) (delete k (m_ s)) !! k = None).
  { rewrite lookup_delete_None. right. apply lookup_delete_eq. }
  split; [done|]. cbn. split; [|split; [by right|done]].
  intros k' H1 H2. rewrite !lookup_delete_ne; [done|congruence..].
Qed.

End MemoryStorage.

Module BinaryFileStorage.

(** ** The file system

    [fault i] says how the [i]-th system call goes: whether it fails, how much a
    write transfers before it fails or before it completes, and the error text.
    Reading a blob does not count as a call; [reading] says how it goes before the
    next one: well, or the status, the opening or the transfer fails, or the file
    is cut short. *)
Inductive Reading := Readable | NoStatus | NoOpen | NoTransfer | CutTo (n : nat).
Record Fault := MkFault { fails : bool; partial : nat; message : str; reading : Reading }.
Local Abbreviation disk_t := (gmap str str).
Record t := Mk {
  root_ : str;
  disk : disk_t;
  seen : list disk_t;
  fault : nat -> Fault;
  calls : nat
}.

Definition syscall : M t Fault := fun s =>
  (Ok (fault s (calls s)), Mk (root_ s) (disk s) (seen s) (fault s) (S (calls s))).

(** A new state of the disk. *)
Definition set_disk (f : disk_t -> disk_t) : M t unit :=
  modify (fun s => Mk (root_ s) (f (disk s)) (f (disk s) :: seen s) (fault s) (calls s)).

(** [std::ofstream ofs(p, binary | trunc)] and its state. *)
Definition open_trunc (p : str) : M t bool :=
  r ← syscall;
  if fails r then mret false else _ ← set_disk (fun d => <[p := []]> d); mret true.

Definition ofs_write (p data : str) : M t bool :=
  r ← syscall;
  _ ← set_disk (fun d => <[p := take (partial r) data]> d);
  if fails r then mret false else _ ← set_disk (fun d => <[p := data]> d); mret true.

(** [ofs.flush()] and [ofs.close()]. *)
Definition ofs_sync : M t bool := r ← syscall; mret (negb (fails r)).

Definition fs_exists (p : str) : M t bool :=
  r ← syscall; s ← get;
  mret (negb (fails r) && bool_decide (is_Some (disk s !! p))).

(** [fs::remove(p, ec)], the error ignored; whether it failed. *)
Definition fs_remove (p : str) : M t bool :=
  r ← syscall;
  if fails r then mret false else _ ← set_disk (fun d => delete p d); mret true.

(** [fs::rename(a, b, ec)]: the error text, if any. *)
Definition fs_rename (a b : str) : M t (option str) :=
  r ← syscall; s ← get;
  match disk s !! a with
  | Some x => if fails r then mret (Some (message r))
              else _ ← set_disk (fun d => <[b := x]> (delete a d)); mret None
  | None => mret (Some (message r))
  end.

(** ** The storage *)

Definition tmp_path (root storageId : str) : str :=
  root ++ ("/tmp." : str) ++ storageId ++ (".part" : str).
Definition dst_path (root k : str) : str := root ++ ("/" : str) ++ k.

Definition fsyncFile (path : str) : M t unit :=
  fd ← syscall;
  if fails fd then throw (StorageException (("fsync open file failed: " : str) ++ path)) else
  r ← syscall;
  if fails r then throw (StorageException (("fsync file failed: " : str) ++ message r)) else
  mret tt.

(** [create_directories(root_, ec)], the error ignored; directories are no files. *)
Definition ensureRootExists : M t unit := _ ← syscall; mret tt.

(** The constructor, on a given disk. *)
Definition make (root : str) : M t unit :=
  _ ← modify (fun s => Mk root (disk s) (seen s) (fault s) (calls s));
  ensureRootExists.

(** The directory's synchronisation ignores every error. *)
Definition fsyncDir (dir : str) : M t unit := _ ← syscall; mret tt.

(** The temporary file is written, closed and synchronised. *)
Definition stage (tmp data : str) : M t unit :=
  opened ← open_trunc tmp;
  if negb opened then
    _ ← fs_remove tmp; throw (StorageException (("open tmp failed: " : str) ++ tmp)) else
  written ← (if bool_decide (data = []) then mret true else ofs_write tmp data);
  if negb written then
    _ ← fs_remove tmp; throw (StorageException (("write tmp failed: " : str) ++ tmp)) else
  flushed ← ofs_sync;
  if negb flushed then
    _ ← fs_remove tmp; throw (StorageException (("flush tmp failed: " : str) ++ tmp)) else
  closed ← ofs_sync;
  if negb closed then
    _ ← fs_remove tmp; throw (StorageException (("close tmp failed: " : str) ++ tmp)) else
  try_catch (fsyncFile tmp) (fun e => _ ← fs_remove tmp; throw e).

(** An existing blob is removed, then the temporary file renamed. *)
Definition commit (root tmp dst : str) : M t unit :=
  there ← fs_exists dst;
  _ ← when there (_ ← fs_remove dst; mret tt);
  ec ← fs_rename tmp dst;
  match ec with
  | Some m => _ ← fs_remove tmp; throw (StorageException (("rename tmp->dst failed: " : str) ++ m))
  | None => fsyncDir root
  end.

Definition stagedWrite (storageId data : str) : M t unit :=
  if bool_decide (storageId = []) then throw (ValidationException "storageId empty") else
  if bool_decide (Byte.x00 ∈ storageId) then throw (ValidationException "storageId NUL") else
  if occurs ".." storageId then throw (ValidationException "storageId traversal") else
  _ ← ensureRootExists;
  s ← get;
  let tmp := tmp_path (root_ s) storageId in
  _ ← stage tmp data;
  commit (root_ s) tmp (dst_path (root_ s) storageId).

Definition write (k v : str) : M t unit := stagedWrite k v.

Definition read (k : str) (s : t) : outcome str :=
  if bool_decide (k = []) then Throw (ValidationException "storageId empty") else
  let dst := dst_path (root_ s) k in
  let missing := Throw (NotFoundException (("missing blob: " : str) ++ k)) in
  match disk s !! dst with
  | None => missing
  | Some d =>
      match reading (fault s (calls s)) with
      | Readable => Ok d
      | NoStatus => missing
      | NoOpen => Throw (StorageException (("open read failed: " : str) ++ dst))
      | NoTransfer => if bool_decide (d = []) then Ok [] else Throw (StorageException (("read failed: " : str) ++ dst))
      | CutTo n => Ok (take n d)
      end
  end.

Definition removeStaged (storageId : str) : M t unit :=
  if bool_decide (storageId = []) then mret tt else
  s ← get;
  _ ← fs_remove (tmp_path (root_ s) storageId);
  _ ← fs_remove (dst_path (root_ s) storageId);
  mret tt.

(** The files directly under [root], with their names. *)
Definition listing (root : str) (d : disk_t) : list (str * str) :=
  omap (fun px : str * str =>
    let path := px.1 in
    let name := drop (length root + 1) path in
    if bool_decide (path = dst_path root name) && negb (bool_decide (Byte.x2f ∈ name))
    then Some (path, name) else None) (map_to_list d).

(** The loop's test on a file name. *)
Definition is_part (filename : str) : bool :=
  if zlen filename <? 5 then false
  else bool_decide (drop (length filename - 5) filename = lit ".part").

(** The loop over the directory: an entry whose status fails is passed over; the
    iterator throws when it cannot go on. *)
Fixpoint sweep (entries : list (str * str)) (count : Z) : M t Z :=
  match entries with
  | [] => mret count
  | (path, filename) :: es =>
      status ← syscall;
      count ← (if negb (fails status) && is_part filename
               then ok ← fs_remove path; mret (if (ok : bool) then count + 1 else count)
               else mret count);
      next ← syscall;
      if fails next then throw (RuntimeError (message next)) else sweep es count
  end.

Definition sweepOrphans : M t Z :=
  there ← syscall;
  if fails there then mret 0 else
  opened ← syscall;
  if fails opened then mret 0 else
  s ← get;
  count ← sweep (listing (root_ s) (disk s)) 0;
  _ ← when (0 <? count) (fsyncDir (root_ s));
  mret count.

#[global] Instance ops : IStorage t := {
  Ports.write := write;
  Ports.read := read;
  Ports.stagedWrite := stagedWrite;
  Ports.removeStaged := removeStaged
}.

(** ** What a run may touch *)

(** [touches ps s s']: every disk seen from [s] to [s'], the last included,
    agrees with [s]'s outside [ps]. *)
Definition agree (ps : list str) (d d' : disk_t) : Prop := forall p, p ∉ ps -> d' !! p = d !! p.

Record touches (ps : list str) (s s' : t) : Prop := {
  tc_root : root_ s' = root_ s;
  tc_fault : fault s' = fault s;
  tc_calls : (calls s <= calls s')%nat;
  tc_disk : agree ps (disk s) (disk s');
  tc_seen : exists l, seen s' = l ++ seen s /\ Forall (agree ps (disk s)) l
}.

#[export] Instance touches_preorder ps : PreOrder (touches ps).
Proof.
  split.
  - intros s. split; [done..|]. by exists [].
  - intros s1 s2 s3 [H1 H2 H3 H4 (l & El & Hl)] [K1 K2 K3 K4 (k & Ek & Hk)].
    assert (Ht : forall d, agree ps (disk s2) d -> agree ps (disk s1) d)
      by (intros d Hd p Hp; by rewrite Hd, H4).
    split; [congruence|congruence|lia|by apply Ht|].
    exists (k ++ l). rewrite Ek, El, app_assoc. split; [done|].
    apply Forall_app. split; [|done]. eapply Forall_impl; [|exact Hk]. done.
Qed.

Section Touches.
Context (ps : list str).

Lemma syscall_touches : steps (touches ps) syscall.
Proof. intros s. split; cbn; [done|done|lia|done|]. by exists []. Qed.

Lemma set_disk_touches f :
  (forall d, agree ps d (f d)) -> steps (touches ps) (set_disk f).
Proof.
  intros Hf s. split; cbn; [done|done|lia|apply Hf|].
  exists [f (disk s)]. split; [done|]. by repeat constructor.
Qed.

Lemma insert_agree p x : p ∈ ps -> forall d : disk_t, agree ps d (<[p := x]> d).
Proof. intros Hp d q Hq. apply lookup_insert_ne. congruence. Qed.
Lemma delete_agree p : p ∈ ps -> forall d : disk_t, agree ps d (delete p d).
Proof. intros Hp d q Hq. apply lookup_delete_ne. congruence. Qed.
End Touches.
#[export] Hint Resolve syscall_touches set_disk_touches insert_agree delete_agree : steps.

Section Primitives.
Context (ps : list str).

Lemma open_trunc_touches p : p ∈ ps -> steps (touches ps) (open_trunc p).
Proof. intros. unfold open_trunc. steps_auto. Qed.
Lemma ofs_write_touches p x : p ∈ ps -> steps (touches ps) (ofs_write p x).
Proof. intros. unfold ofs_write. steps_auto. Qed.
Lemma ofs_sync_touches : steps (touches ps) ofs_sync.
Proof. unfold ofs_sync. steps_auto. Qed.
Lemma fs_remove_touches p : p ∈ ps -> steps (touches ps) (fs_remove p).
Proof. intros. unfold fs_remove. steps_auto. Qed.
Lemma get_touches : steps (touches ps) get.
Proof. intros s. simpl. reflexivity. Qed.
Lemma fs_exists_touches p : steps (touches ps) (fs_exists p).
Proof. pose proof get_touches. unfold fs_exists. steps_auto. Qed.
Lemma fs_rename_touches a b : a ∈ ps -> b ∈ ps -> steps (touches ps) (fs_rename a b).
Proof.
  intros Ha Hb. pose proof get_touches. unfold fs_rename. steps_auto.
  apply set_disk_touches. intros d p Hp. cbv beta.
  rewrite lookup_insert_ne by congruence. apply lookup_delete_ne. congruence.
Qed.
Lemma fsyncFile_touches p : steps (touches ps) (fsyncFile p).
Proof. unfold fsyncFile. steps_auto. Qed.
Lemma fsyncDir_touches p : steps (touches ps) (fsyncDir p).
Proof. unfold fsyncDir. steps_auto. Qed.
End Primitives.
#[export] Hint Resolve open_trunc_touches ofs_write_touches ofs_sync_touches fs_remove_touches
  fs_exists_touches fs_rename_touches fsyncFile_touches fsyncDir_touches : steps.

Lemma stage_touches tmp data : steps (touches [tmp]) (stage tmp data).
Proof.
  assert (tmp ∈ [tmp]) by apply list_elem_of_here. unfold stage. steps_auto.
Qed.

Lemma commit_touches ps root tmp dst :
  tmp ∈ ps -> dst ∈ ps -> steps (touches ps) (commit root tmp dst).
Proof. intros Ht Hd. unfold commit. steps_auto. Qed.

(** ** Outcomes *)

(** From here on no system call fails. *)
Definition reliable (s : t) : Prop := forall i, (calls s <= i)%nat -> fails (fault s i) = false.

Lemma touches_reliable ps s s' : touches ps s s' -> reliable s -> reliable s'.
Proof. intros [_ Hf Hc _ _] Hr i Hi. rewrite Hf. apply Hr. lia. Qed.

(** [run]: symbolic execution of one system call after the other. *)
Ltac run1 :=
  match goal with
  | |- context [fails ?f] => destruct (fails f) eqn:?
  end.
Ltac run := repeat first [progress mred|progress cbn [negb disk fault calls root_ seen]|run1].

Lemma stage_cases tmp data s :
  exists o s', stage tmp data s = (o, s')
    /\ ((o = Ok tt /\ disk s' !! tmp = Some data) \/ exists e, o = Throw e).
Proof.
  unfold stage, open_trunc, syscall, set_disk, modify. run.
  { unfold fs_remove, syscall, set_disk, modify. run; (eexists _, _; split; [done|right; by eexists]). }
  case_bool_decide as Hd; unfold ofs_write, ofs_sync, syscall, set_disk, modify, try_catch,
    fsyncFile, syscall, fs_remove, syscall, set_disk, modify; run;
    (eexists _, _; split; [done|]); try (right; by eexists);
    left; (split; [done|]); cbn; rewrite lookup_insert_eq; congruence.
Qed.

(** A branch in which a reliable call has failed. *)
Ltac no_fault Hr :=
  match goal with
  | H : fails (fault _ _) = true |- _ => rewrite Hr in H by (cbn; lia); discriminate H
  end.

Lemma stage_reliable tmp data s : reliable s -> (stage tmp data s).1 = Ok tt.
Proof.
  intros Hr. unfold stage, open_trunc, syscall, set_disk, modify. run; try no_fault Hr.
  case_bool_decide as Hd; unfold ofs_write, ofs_sync, syscall, set_disk, modify, try_catch,
    fsyncFile, syscall, fs_remove, syscall, set_disk, modify; run; try no_fault Hr; done.
Qed.

(** The disks that a run has added. *)
Definition since (P : disk_t -> Prop) (old new : list disk_t) : Prop :=
  exists l, new = l ++ old /\ Forall P l.
Lemma since_nil P old : since P old old.
Proof. by exists []. Qed.
Lemma since_cons (P : disk_t -> Prop) d old new : P d -> since P old new -> since P old (d :: new).
Proof. intros Hd (l & -> & Hl). exists (d :: l). split; [done|by constructor]. Qed.
Lemma since_trans P s1 s2 s3 : since P s1 s2 -> since P s2 s3 -> since P s1 s3.
Proof.
  intros (l & -> & Hl) (k & -> & Hk). exists (k ++ l). rewrite app_assoc.
  split; [done|]. by apply Forall_app.
Qed.
Lemma since_impl (P Q : disk_t -> Prop) old new :
  (forall d, P d -> Q d) -> since P old new -> since Q old new.
Proof. intros H (l & -> & Hl). exists l. split; [done|]. by eapply Forall_impl. Qed.

(** What [dst] may hold on a disk, at any moment. *)
Definition whole (dst : str) (old : option str) (data : str) (d : disk_t) : Prop :=
  d !! dst = old \/ d !! dst = None \/ d !! dst = Some data.

Lemma commit_cases root tmp dst data s :
  tmp <> dst -> disk s !! tmp = Some data ->
  exists o s', commit root tmp dst s = (o, s')
    /\ since (whole dst (disk s !! dst) data) (seen s) (seen s')
    /\ ((o = Ok tt /\ disk s' !! dst = Some data /\ disk s' !! tmp = None)
        \/ ((exists e, o = Throw e)
            /\ (disk s' !! dst = disk s !! dst \/ disk s' !! dst = None)))
    /\ (reliable s -> o = Ok tt).
Proof.
  intros Hne Htmp. unfold commit, fs_exists, syscall. mred.
  cbn [disk calls fault fst snd]. set (b := negb _ && _). destruct b; cbn [when];
    unfold fs_remove, fs_rename, fsyncDir, syscall, set_disk, modify; mred;
    repeat first [progress mred|progress cbn [negb disk fault calls root_ seen]
                 |rewrite Htmp|rewrite lookup_delete_ne by congruence|run1];
    (eexists _, _; split; [reflexivity|]);
    (split; [cbn [seen]; repeat (apply since_cons; [|]); try apply since_nil; unfold whole|]);
    rewrite ?lookup_insert_eq, ?lookup_delete_eq, ?lookup_delete_ne, ?lookup_insert_ne,
      ?lookup_delete_eq by congruence; auto.
  all: try (split; [|intros Hr; first [done|no_fault Hr]]); cbn [disk seen].
  all: rewrite ?lookup_insert_eq, ?lookup_delete_ne, ?lookup_insert_ne, ?lookup_delete_eq,
      ?lookup_delete_ne by congruence.
  all: try (left; done); right; (split; [by eexists|]); auto.
Qed.

Definition usable (k : str) : Prop := k <> [] /\ Byte.x00 ∉ k /\ occurs ".." k = false.

Lemma tmp_not_dst root k : tmp_path root k <> dst_path root k.
Proof.
  unfold tmp_path, dst_path. intros H%(f_equal length). rewrite !length_app in H. cbn in H. lia.
Qed.

Lemma dst_path_inj root k k' : dst_path root k = dst_path root k' -> k = k'.
Proof. unfold dst_path. intros H%app_inv_head%app_inv_head. done. Qed.

Lemma staging_path root k : tmp_path root k = dst_path root (staging k).
Proof. done. Qed.

(** Every moment of a write, and its end. *)
Lemma staged_cases id data s :
  let tmp := tmp_path (root_ s) id in let dst := dst_path (root_ s) id in
  exists o s', (_ ← stage tmp data; commit (root_ s) tmp dst) s = (o, s') /\ touches [tmp; dst] s s'
    /\ since (whole dst (disk s !! dst) data) (seen s) (seen s')
    /\ ((o = Ok tt /\ disk s' !! dst = Some data /\ disk s' !! tmp = None)
        \/ ((exists e, o = Throw e)
            /\ (disk s' !! dst = disk s !! dst \/ disk s' !! dst = None)))
    /\ (reliable s -> o = Ok tt).
Proof.
  intros tmp dst. pose proof (tmp_not_dst (root_ s) id : tmp <> dst) as Hne.
  rewrite M_bind_eq. pose proof (stage_touches tmp data s) as Ht1.
  destruct (stage_cases tmp data s) as (o & s1 & E & Ho).
  pose proof (stage_reliable tmp data s) as Hrel. rewrite E in Ht1, Hrel |- *. cbn [snd fst] in *.
  assert (Hd1 : disk s1 !! dst = disk s !! dst).
  { apply (tc_disk _ _ _ Ht1). intros Hin%list_elem_of_In. cbn in Hin. by destruct Hin as [?|[]]. }
  assert (Hs1 : since (whole dst (disk s !! dst) data) (seen s) (seen s1)).
  { destruct (tc_seen _ _ _ Ht1) as (l & El & Hl). exists l. split; [done|].
    eapply Forall_impl; [|exact Hl]. intros d Hd. left. apply Hd.
    intros Hin%list_elem_of_In. cbn in Hin. by destruct Hin as [?|[]]. }
  assert (Ht1' : touches [tmp; dst] s s1).
  { destruct Ht1 as [R1 R2 R3 R4 (l & El & Hl)].
    assert (Ha : forall d d', agree [tmp] d d' -> agree [tmp; dst] d d').
    { intros d d' Had p Hp. apply Had. intros Hin. apply Hp.
      apply list_elem_of_In in Hin. cbn in Hin. destruct Hin as [->|[]]. apply list_elem_of_here. }
    split; [done..|by apply Ha|]. exists l. split; [done|]. eapply Forall_impl; [|exact Hl]. auto. }
  destruct Ho as [[-> Hdata]|[e ->]].
  - destruct (commit_cases (root_ s) tmp dst data s1 Hne Hdata) as (o & s' & E' & Hs & Ho & Hr).
    exists o, s'. rewrite E', <-Hd1. split; [done|]. rewrite Hd1 in Hs, Ho |- *.
    assert (Ht2 : touches [tmp; dst] s1 s').
    { assert (tmp ∈ [tmp; dst]) by apply list_elem_of_here.
      assert (dst ∈ [tmp; dst]) by apply list_elem_of_further, list_elem_of_here.
      pose proof (commit_touches [tmp; dst] (root_ s) tmp dst ltac:(done) ltac:(done) s1) as Hc.
      by rewrite E' in Hc. }
    split; [by etrans|]. split; [by eapply since_trans|]. split; [done|].
    intros R. exact (Hr (touches_reliable _ _ _ Ht1 R)).
  - exists (Throw e), s1. split; [done|]. split; [done|]. split; [done|]. split; [|intros R].
    + right. split; [by eexists|by left].
    + by specialize (Hrel R).
Qed.

Lemma stagedWrite_cases id data s :
  usable id ->
  let tmp := tmp_path (root_ s) id in let dst := dst_path (root_ s) id in
  exists o s', stagedWrite id data s = (o, s') /\ touches [tmp; dst] s s'
    /\ since (whole dst (disk s !! dst) data) (seen s) (seen s')
    /\ ((o = Ok tt /\ disk s' !! dst = Some data /\ disk s' !! tmp = None)
        \/ ((exists e, o = Throw e)
            /\ (disk s' !! dst = disk s !! dst \/ disk s' !! dst = None)))
    /\ (reliable s -> o = Ok tt).
Proof.
  intros (H1 & H2 & H3) tmp dst. unfold stagedWrite, ensureRootExists.
  rewrite !bool_decide_eq_false_2, H3 by done. rewrite M_bind_eq. unfold syscall at 1. mcbn. rewrite M_bind_eq. mcbn.
  pose proof (syscall_touches [tmp; dst] s) as Ht0. cbn [syscall snd] in Ht0.
  match type of Ht0 with touches _ _ ?s0 =>
    destruct (staged_cases id data s0) as (o & s' & E & Ht & Hs & Ho & Hr) end.
  exists o, s'. split; [exact E|]. split; [by etrans|]. split; [exact Hs|]. split; [exact Ho|].
  intros R. apply Hr. by eapply touches_reliable.
Qed.

(** C3: Blob writes are atomic at every moment: for any disk and any pattern of
    failing system calls, [stagedWrite] returns or throws; at every intermediate
    state of the disk (where a crash may stop it) only the blob and its temporary
    file differ from before, and the blob is what it was, absent or complete,
    never partial; if it returns, the blob is complete and the temporary file
    gone, and if no call fails, it returns. *)
Theorem stagedWrite_atomic id data s :
  usable id ->
  let tmp := tmp_path (root_ s) id in let dst := dst_path (root_ s) id in
  exists o s', stagedWrite id data s = (o, s')
    /\ since (fun d => agree [tmp; dst] (disk s) d /\ whole dst (disk s !! dst) data d)
             (seen s) (seen s')
    /\ agree [tmp; dst] (disk s) (disk s')
    /\ ((o = Ok tt /\ disk s' !! dst = Some data /\ disk s' !! tmp = None)
        \/ ((exists e, o = Throw e)
            /\ (disk s' !! dst = disk s !! dst \/ disk s' !! dst = None)))
    /\ (reliable s -> o = Ok tt).
Proof.
  intros Hu tmp dst. destruct (stagedWrite_cases id data s Hu) as (o & s' & E & Ht & Hs & Ho & Hr).
  exists o, s'. split; [done|]. split; [|by split; [apply Ht|]].
  destruct (tc_seen _ _ _ Ht) as (l & El & Hl). destruct Hs as (l' & El' & Hl').
  rewrite El in El'. apply app_inv_tail in El' as <-.
  exists l. split; [done|]. apply Forall_forall. intros d Hd.
  rewrite Forall_forall in Hl, Hl'. auto.
Qed.

(** ** Sweeping after a crash *)

Lemma sweep_spec es : forall n s, reliable s ->
  exists s', sweep es n s = (Ok (n + zlen (List.filter (fun e => is_part e.2) es)), s')
    /\ root_ s' = root_ s /\ reliable s'
    /\ forall p, disk s' !! p =
         if bool_decide (p ∈ map fst (List.filter (fun e => is_part e.2) es)) then None
         else disk s !! p.
Proof.
  induction es as [|[path name] es IH]; intros n s Hr; cbn [sweep List.filter].
  - exists s. by rewrite Z.add_0_r.
  - cbn [snd]. unfold fs_remove, syscall, set_disk, modify. mred. cbn [fault calls]. rewrite (Hr (calls s)) by lia.
    destruct (is_part name) eqn:Ep; cbn [negb andb]; mred; cbn [fault calls]; rewrite !Hr by (cbn; lia); mred;
      cbn [fault calls]; rewrite ?Hr by (cbn; lia);
      match goal with |- context [sweep es ?m ?s1] => destruct (IH m s1) as (s' & E & H1 & H2 & H3);
        [intros i Hi; cbn in *; apply Hr; lia|] end; [|by exists s'].
    exists s'. rewrite E. split; [|split; [done|split; [done|]]].
    + rewrite zlen_cons. do 2 f_equal. lia.
    + intros p. rewrite H3. cbn [disk map fst]. case_bool_decide as Hin.
      * rewrite bool_decide_eq_true_2; [done|]. by apply list_elem_of_further.
      * destruct (decide (p = path)) as [->|Hne].
        -- rewrite lookup_delete_eq, bool_decide_eq_true_2; [done|apply list_elem_of_here].
        -- rewrite lookup_delete_ne by done. rewrite bool_decide_eq_false_2; [done|].
           by intros [?|?]%elem_of_cons.
Qed.

Lemma drop_dst root name : drop (length root + 1) (dst_path root name) = name.
Proof. unfold dst_path. by rewrite drop_app_add. Qed.

Lemma listing_elem root d p name :
  In (p, name) (listing root d) <->
  is_Some (d !! p) /\ p = dst_path root name /\ Byte.x2f ∉ name.
Proof.
  unfold listing. rewrite <-list_elem_of_In, list_elem_of_omap. split.
  - intros ([q x] & Hq & E). cbn in E. apply elem_of_map_to_list in Hq.
    case_bool_decide as H1; cbn in E; [|done]. case_bool_decide as H2; cbn in E; [done|].
    injection E as -> <-. split; [by eexists|done].
  - intros ([x Hx] & -> & Hs). exists (dst_path root name, x).
    rewrite elem_of_map_to_list. split; [done|]. cbn [fst].
    rewrite drop_dst.
    by rewrite bool_decide_eq_true_2, bool_decide_eq_false_2.
Qed.

(** The files a sweep is for: directly under the root, with a name in ".part". *)
Definition doomed (root p : str) : bool :=
  let name := drop (length root + 1) p in
  bool_decide (p = dst_path root name) && negb (bool_decide (Byte.x2f ∈ name)) && is_part name.

Lemma doomed_listing root d p :
  bool_decide (p ∈ map fst (List.filter (fun e => is_part e.2) (listing root d)))
  = bool_decide (is_Some (d !! p)) && doomed root p.
Proof.
  apply eq_true_iff_eq. rewrite andb_true_iff, !bool_decide_eq_true, list_elem_of_In, in_map_iff.
  unfold doomed. rewrite !andb_true_iff, bool_decide_eq_true, negb_true_iff, bool_decide_eq_false.
  split.
  - intros ([q name] & <- & [Hin Hp]%filter_In). apply listing_elem in Hin as (Hs & Hq & Hsl).
    cbn [fst snd] in *. split; [done|].
    assert (drop (length root + 1) q = name) as En
      by (rewrite Hq; apply drop_dst).
    rewrite En. done.
  - intros (Hs & (Hp & Hsl) & Hpart). exists (p, drop (length root + 1) p). split; [done|].
    apply filter_In. split; [|done]. by apply listing_elem.
Qed.

(** C34: Recovery after a crash: at every moment of a [stagedWrite], a crash
    followed by a sweep that meets no failure leaves a disk on which the blob is
    what it was, absent or complete, the temporary file is gone, no ".part" file
    is left under the root, and every other file is as before the write. *)
Theorem crash_recovery id data s d fl :
  usable id -> Byte.x2f ∉ id -> doomed (root_ s) (dst_path (root_ s) id) = false ->
  (forall i, fails (fl i) = false) ->
  In d (seen (stagedWrite id data s).2) -> ~ In d (seen s) ->
  exists n s', sweepOrphans (Mk (root_ s) d [] fl 0) = (Ok n, s')
    /\ whole (dst_path (root_ s) id) (disk s !! dst_path (root_ s) id) data (disk s')
    /\ (forall p, doomed (root_ s) p = true -> disk s' !! p = None)
    /\ disk s' !! tmp_path (root_ s) id = None
    /\ (forall p, p <> dst_path (root_ s) id -> doomed (root_ s) p = false ->
          disk s' !! p = disk s !! p).
Proof.
  intros Hu Hsl Hdst Hfl Hin Hnew.
  destruct (stagedWrite_cases id data s Hu) as (o & s1 & E & Ht & Hs & _).
  rewrite E in Hin. cbn [snd] in Hin.
  destruct (tc_seen _ _ _ Ht) as (l & El & Hl). destruct Hs as (l' & El' & Hl').
  rewrite El in El'. apply app_inv_tail in El' as <-. rewrite El in Hin.
  apply in_app_iff in Hin as [Hin|?]; [|done]. rewrite Forall_forall in Hl, Hl'.
  specialize (Hl d Hin). specialize (Hl' d Hin).
  assert (Htmp : doomed (root_ s) (tmp_path (root_ s) id) = true).
  { unfold doomed. rewrite staging_path, drop_dst.
    rewrite bool_decide_eq_true_2 by done. rewrite bool_decide_eq_false_2; cbn [negb andb].
    - unfold is_part, staging. rewrite (proj2 (Z.ltb_ge _ _)) by (rewrite !zlen_app; unfold zlen; cbn; lia).
      apply bool_decide_eq_true. rewrite app_assoc, !length_app.
      replace (_ - 5)%nat with (length (lit "tmp." ++ id)) by (rewrite length_app; cbn; lia).
      by rewrite drop_app_length.
    - unfold staging. rewrite !not_elem_of_app. split; [decided|]. split; [done|decided]. }
  unfold sweepOrphans, syscall. mred. cbn [fault calls]. rewrite !Hfl. mred. cbn [fault calls]. rewrite ?Hfl. mred.
  cbn [root_ disk seen fault calls]. set (s2 := Mk (root_ s) d [] fl 2).
  destruct (sweep_spec (listing (root_ s) d) 0 s2) as (s3 & E3 & Hroot & Hrel & Hd3).
  { intros i _. apply Hfl. }
  rewrite E3.
  assert (Hd3' : forall p, disk s3 !! p = if doomed (root_ s) p then None else d !! p).
  { intros p. rewrite Hd3, doomed_listing. cbn [disk s2].
    destruct (doomed (root_ s) p); [|by rewrite andb_false_r].
    rewrite andb_true_r. case_bool_decide as Hx; [done|]. by apply eq_None_not_Some in Hx. }
  match goal with |- context [when ?b _] => assert (exists s4, (when b (fsyncDir (root_ s)) s3) = (Ok tt, s4)
    /\ disk s4 = disk s3) as (s4 & E4 & Hd4) end.
  { unfold when. case_match; eexists; by split. }
  rewrite M_bind_eq, E4. eexists _, s4. split; [done|]. rewrite Hd4. split; [|split; [|split]].
  - unfold whole in *. by rewrite Hd3', Hdst.
  - intros p Hp. by rewrite Hd3', Hp.
  - by rewrite Hd3', Htmp.
  - intros p Hne Hp. rewrite Hd3', Hp. apply Hl. intros Hq%list_elem_of_In. cbn in Hq.
    destruct Hq as [<-|[<-|[]]]; congruence.
Qed.

(** ** The contract, while blobs can be read *)
Definition readable (s : t) : Prop := forall i, reading (fault s i) = Readable.
Lemma touches_readable ps s s' : touches ps s s' -> readable s -> readable s'.
Proof. intros [_ Hf _ _ _] Hr i. rewrite Hf. apply Hr. Qed.

#[global] Program Instance laws : StorageLaws t := {
  st_inv := readable;
  st_blob := fun s k => disk s !! dst_path (root_ s) k;
  st_usable := usable;
  st_reliable := reliable
}.
Next Obligation.
  intros s k Hs (Hk & _). cbn. unfold read. rewrite bool_decide_eq_false_2, Hs by done.
  destruct (disk s !! _); [done|by eexists].
Qed.
Next Obligation.
  intros s k data Hs Hu. cbn.
  destruct (stagedWrite_cases k data s Hu) as (o & s' & E & Ht & _ & Ho & Hr).
  exists o, s'. split; [exact E|]. split; [by eapply touches_readable|].
  rewrite !(tc_root _ _ _ Ht). split; [|split].
  - intros k' H1 H2. apply (tc_disk _ _ _ Ht). intros Hin%list_elem_of_In. cbn in Hin.
    destruct Hin as [Hx|[Hx|[]]]; [|by apply dst_path_inj in Hx].
    rewrite staging_path in Hx. by apply dst_path_inj in Hx.
  - destruct Ho as [(-> & Hd & _)|Ho]; [by left|by right].
  - intros R. split; [by apply Hr|by eapply touches_reliable].
Qed.
Next Obligation.
  intros s k Hs (Hk & _). cbn. unfold removeStaged. rewrite bool_decide_eq_false_2 by done. mred.
  set (tmp := tmp_path (root_ s) k). set (dst := dst_path (root_ s) k).
  pose proof (fs_remove_touches [tmp; dst] tmp (list_elem_of_here _ _) s) as H1.
  destruct (fs_remove tmp s) as [o1 s1] eqn:E1. cbn [snd] in H1.
  assert (exists b, o1 = Ok b) as [b1 ->].
  { unfold fs_remove, syscall, set_disk, modify in E1. mred_in E1.
    destruct (fails _) in E1; mred_in E1; injection E1 as <- _; by eexists. }
  pose proof (fs_remove_touches [tmp; dst] dst
    (list_elem_of_further _ _ _ (list_elem_of_here _ _)) s1) as H2.
  destruct (fs_remove dst s1) as [o2 s2] eqn:E2. cbn [snd] in H2.
  assert ((exists b, o2 = Ok b) /\ (disk s2 = disk s1 \/ disk s2 = delete dst (disk s1))
          /\ (reliable s1 -> disk s2 = delete dst (disk s1))) as ([b2 ->] & Hd2 & Hr2).
  { unfold fs_remove, syscall, set_disk, modify in E2. mred_in E2.
    destruct (fails (fault s1 (calls s1))) eqn:Ef; mred_in E2; injection E2 as <- <-;
      (split; [by eexists|]); (split; [auto|]); intros R; [|done].
    rewrite R in Ef by lia. done. }
  exists s2. pose proof (transitivity H1 H2 : touches [tmp; dst] s s2) as Ht.
  split; [by rewrite M_bind_eq, E2|]. split; [by eapply touches_readable|].
  rewrite !(tc_root _ _ _ Ht). fold dst.
  assert (Hdst1 : disk s1 !! dst = disk s !! dst).
  { pose proof (fs_remove_touches [tmp] tmp (list_elem_of_here _ _) s) as H3.
    rewrite E1 in H3. apply (tc_disk _ _ _ H3). intros Hin%list_elem_of_In. cbn in Hin.
    destruct Hin as [Hx|[]]. by apply (tmp_not_dst (root_ s) k). }
  split; [|split].
  - intros k' N1 N2. apply (tc_disk _ _ _ Ht). intros Hin%list_elem_of_In. cbn in Hin.
    destruct Hin as [Hx|[Hx|[]]]; [|by apply dst_path_inj in Hx].
    unfold tmp in Hx. rewrite staging_path in Hx. by apply dst_path_inj in Hx.
  - destruct Hd2 as [-> | ->]; [by left|right]. apply lookup_delete_eq.
  - intros R. split; [|by eapply touches_reliable].
    rewrite (Hr2 (touches_reliable _ _ _ H1 R)). apply lookup_delete_eq.
Qed.

End BinaryFileStorage.
