(* ===== verification/Tables.v ===== *)
(** * Lists of records with a key

    What the tables of the SQLite repositories share: lookups in a list of records
    whose keys are distinct, and the finite map such a list stands for. *)
From S2P Require Import Prelude.
From Stdlib Require Import ZArith Lia.
From stdpp Require Import base gmap strings list numbers.

Section Lists.
Context {X : Type}.
Implicit Types (p : X -> bool) (l : list X).

Lemma find_cases p l :
  match List.find p l with Some x => x ∈ l /\ p x = true | None => forall x, x ∈ l -> p x = false end.
Proof.
  destruct (List.find p l) as [x|] eqn:E.
  - apply List.find_some in E as [Hx Hp]. split; [by apply list_elem_of_In|done].
  - intros x Hx. apply (List.find_none _ _ E). by apply list_elem_of_In.
Qed.

Lemma find_unique p l x : (forall y, y ∈ l -> p y = true -> y = x) -> x ∈ l -> p x = true ->
  List.find p l = Some x.
Proof.
  intros Hu Hx Hp. pose proof (find_cases p l) as Hf. destruct (List.find p l) as [y|].
  - destruct Hf as [Hy Hpy]. by rewrite (Hu y Hy Hpy).
  - by rewrite (Hf x Hx) in Hp.
Qed.

Lemma find_absent p l : (forall x, x ∈ l -> p x = false) -> List.find p l = None.
Proof.
  intros Hn. pose proof (find_cases p l) as Hf. destruct (List.find p l) as [y|]; [|done].
  destruct Hf as [Hy Hpy]. by rewrite (Hn y Hy) in Hpy.
Qed.

Lemma NoDup_pick {Y} (f : X -> Y) l x y : NoDup (map f l) -> x ∈ l -> y ∈ l -> f x = f y -> x = y.
Proof.
  intros Hd [i Hi]%list_elem_of_lookup [j Hj]%list_elem_of_lookup E.
  assert (i = j) as ->; [|congruence].
  eapply NoDup_lookup; [exact Hd|..]; [by rewrite list_lookup_fmap, Hi|by rewrite list_lookup_fmap, Hj, E].
Qed.

Lemma NoDup_snoc {Y} (f : X -> Y) l x : NoDup (map f l) -> Forall (fun y => f y <> f x) l ->
  NoDup (map f (l ++ [x])).
Proof.
  intros Hd Hf. rewrite map_app. apply list.NoDup_app. split; [done|]. split; [|apply NoDup_singleton].
  intros y Hy%list_elem_of_fmap Hx%list_elem_of_singleton. subst.
  destruct Hy as (z & E & Hz). by apply (proj1 (list.Forall_forall _ _) Hf z Hz).
Qed.

Lemma existsb_elem p l : existsb p l = true <-> exists x, x ∈ l /\ p x = true.
Proof.
  rewrite existsb_exists. split; intros (x & Hx & Hp); exists x; (split; [by apply list_elem_of_In|done]).
Qed.

Lemma existsb_none p l : existsb p l = false -> Forall (fun x => p x <> true) l.
Proof.
  intros Hn. apply list.Forall_forall. intros x Hx Hp. assert (existsb p l = true) by (apply existsb_elem; eauto).
  congruence.
Qed.
End Lists.

Section Keys.
Context {X : Type} (key : X -> str).
Implicit Types (l : list X).

Definition by_key (k : str) (x : X) : bool := bool_decide (key x = k).
Definition keyed (l : list X) : gmap str X := list_to_map (map (fun x => (key x, x)) l).

Lemma keyed_lookup l k x : NoDup (map key l) -> keyed l !! k = Some x <-> x ∈ l /\ key x = k.
Proof.
  intros Hd. unfold keyed. rewrite <-elem_of_list_to_map.
  - rewrite list_elem_of_fmap. split.
    + by intros (y & [= -> ->] & Hy).
    + intros [Hx <-]. by exists x.
  - by rewrite <-list_fmap_compose.
Qed.

Lemma find_keyed l k : NoDup (map key l) -> List.find (by_key k) l = keyed l !! k.
Proof.
  intros Hd. pose proof (find_cases (by_key k) l) as Hf. destruct (List.find _ l) as [x|].
  - destruct Hf as [Hx Hk%bool_decide_eq_true]. symmetry. by apply keyed_lookup.
  - symmetry. apply eq_None_not_Some. intros [x [Hx Hk]%keyed_lookup]; [|done].
    specialize (Hf x Hx). by apply bool_decide_eq_false in Hf.
Qed.

Lemma keyed_snoc l x : Forall (fun y => key y <> key x) l -> keyed (l ++ [x]) = <[key x := x]> (keyed l).
Proof.
  intros Hf. unfold keyed. rewrite map_app. apply (list_to_map_snoc (M:=gmap str)).
  rewrite <-list_fmap_compose. intros (y & E & Hy)%list_elem_of_fmap. cbn in E.
  by apply (proj1 (list.Forall_forall _ _) Hf y Hy).
Qed.

Lemma find_key_unique l k x : NoDup (map key l) -> x ∈ l -> key x = k -> List.find (by_key k) l = Some x.
Proof.
  intros Hd Hx <-. apply find_unique; [|done|by apply bool_decide_eq_true].
  intros y Hy E%bool_decide_eq_true. by apply (NoDup_pick key l).
Qed.
End Keys.
