(* ===== verification/Sqlite.v ===== *)
(** * The SQLite interface

    The calls of [sqlite3.h] the repositories make, as a class of operations over
    a connection, and what is documented of them as a class of laws: a connection
    sees one table, and one more while a transaction is open. What the SQL texts
    mean is given by the file that contains them ([run] below). A prepared
    statement is passed on by value; finalising one has no effect here. *)
From S2P Require Import Prelude Domain.
From Stdlib Require Import ZArith Lia.
From stdpp Require Import base gmap strings list numbers.
Local Open Scope Z_scope.

Inductive value := VText (s : str) | VInt (z : Z) | VBlob (b : str) | VNull.
#[export] Instance value_eq_dec : EqDecision value.
Proof. solve_decision. Defined.

Abbreviation row := (list value).
Abbreviation table := (list row).

(** [SQLITE_ROW], [SQLITE_DONE], [SQLITE_CONSTRAINT], and every other status. *)
Inductive rc := ROW | DONE | CONSTRAINT | FAILED.
#[export] Instance rc_eq_dec : EqDecision rc.
Proof. solve_decision. Defined.

(** [sqlite3_exec] gives [None] for [SQLITE_OK], else the error text, if any. The
    status of a bind is not among what [sqlite3_bind] gives, since no repository
    looks at it. [sqlite3_column_nomem] says that the text or the bytes of a
    column cannot be had for want of memory, and the pointer is null. *)
Class Sqlite (D : Type) := {
  Stmt : Type;
  sqlite3_exec : str -> M D (option (option str));
  sqlite3_prepare : str -> M D (option Stmt);
  sqlite3_bind : Stmt -> nat -> value -> M D Stmt;
  sqlite3_step : Stmt -> M D (rc * Stmt);
  sqlite3_column : Stmt -> nat -> value;
  sqlite3_column_nomem : Stmt -> nat -> bool;
  sqlite3_changes : M D Z
}.

(** ** SQL conditions *)
Definition cell (i : nat) (r : row) : value := default VNull (r !! i).
(** [a = b] in a condition: never with NULL. *)
Definition sql_eq (a b : value) : bool := bool_decide (a = b) && negb (bool_decide (a = VNull)).
Definition where_ (i : nat) (v : value) (r : row) : bool := sql_eq (cell i r) v.

(** Parameters as they were bound: one whose bind failed is left NULL. *)
Definition bound_as (args args' : list value) : Prop :=
  Forall2 (fun v v' => v' = v \/ v' = VNull) args args'.

(** What a statement does to the table it is run on: new contents and how many
    rows changed, rows to return in some order, or a constraint violated. *)
Inductive effect := Changed (t : table) (n : Z) | Rows (rs : table) | Refused.

(** The table as the connection sees it, and the committed one while a
    transaction is open. *)
Record view := MkView { now : table; before : option table }.
Definition committed (v : view) : table := default (now v) (before v).

(** A failure may roll an open transaction back. *)
Definition lost (v v' : view) : Prop :=
  v' = v \/ exists b, before v = Some b /\ v' = MkView b None.

(** What the call that steps a statement with effect [e] leaves. *)
Definition stepped (at_row : row -> table -> Prop) (changes : Z) (e : effect) (v v' : view) (c : rc) : Prop :=
  match c with
  | FAILED => lost v v'
  | CONSTRAINT => e = Refused /\ v' = v
  | DONE => (exists t, e = Changed t changes /\ v' = MkView t (before v)) \/ (e = Rows [] /\ v' = v)
  | ROW => exists rs r rest, e = Rows rs /\ rs ≡ₚ r :: rest /\ at_row r rest /\ v' = v
  end.

(** [run sql args t]: the effect of a statement, for the statements it knows.
    [reliable]: no call fails for want of memory, space or locks. *)
Class SqliteLaws (D : Type) `{!Sqlite D} (run : str -> list value -> table -> option effect) := {
  view_of : D -> view;
  changes_of : D -> Z;
  reliable : D -> Prop;
  is_stmt : Stmt -> str -> list value -> Prop;
  at_row : Stmt -> row -> table -> Prop;
  law_begin d t : view_of d = MkView t None ->
    exists r d', sqlite3_exec "BEGIN IMMEDIATE;" d = (Ok r, d')
      /\ (reliable d -> reliable d' /\ r = None)
      /\ view_of d' = match r with None => MkView t (Some t) | Some _ => MkView t None end;
  law_commit d t b : view_of d = MkView t (Some b) ->
    exists r d', sqlite3_exec "COMMIT;" d = (Ok r, d')
      /\ (reliable d -> reliable d' /\ r = None)
      /\ match r with None => view_of d' = MkView t None | Some _ => lost (view_of d) (view_of d') end;
  law_commit_idle d t : view_of d = MkView t None ->
    exists e d', sqlite3_exec "COMMIT;" d = (Ok (Some e), d') /\ view_of d' = view_of d;
  law_rollback d : exists r d', sqlite3_exec "ROLLBACK;" d = (Ok r, d')
      /\ (reliable d -> before (view_of d) <> None -> reliable d' /\ r = None)
      /\ match r with
         | None => view_of d' = MkView (committed (view_of d)) None
         | Some _ => lost (view_of d) (view_of d')
         end;
  law_prepare d sql : (exists args t e, run sql args t = Some e) ->
    exists r d', sqlite3_prepare sql d = (Ok r, d') /\ view_of d' = view_of d
      /\ (reliable d -> reliable d' /\ r <> None)
      /\ (forall st, r = Some st -> is_stmt st sql []);
  law_bind d st sql args v : is_stmt st sql args ->
    exists st' d' v', sqlite3_bind st (S (length args)) v d = (Ok st', d') /\ view_of d' = view_of d
      /\ (reliable d -> reliable d' /\ v' = v) /\ (v' = v \/ v' = VNull) /\ is_stmt st' sql (args ++ [v']);
  law_step d st sql args e : is_stmt st sql args -> run sql args (now (view_of d)) = Some e ->
    exists c st' d', sqlite3_step st d = (Ok (c, st'), d')
      /\ (reliable d -> reliable d' /\ c <> FAILED /\ forall i, sqlite3_column_nomem st' i = false)
      /\ stepped (at_row st') (changes_of d') e (view_of d) (view_of d') c;
  law_next d st r rest : at_row st r rest ->
    exists c st' d', sqlite3_step st d = (Ok (c, st'), d')
      /\ (reliable d -> reliable d' /\ c <> FAILED /\ forall i, sqlite3_column_nomem st' i = false)
      /\ match c, rest with
         | ROW, r' :: rest' => at_row st' r' rest' /\ view_of d' = view_of d
         | DONE, [] => view_of d' = view_of d
         | FAILED, _ => lost (view_of d) (view_of d')
         | _, _ => False
         end;
  law_column st r rest i : at_row st r rest -> sqlite3_column st i = default VNull (r !! i);
  law_changes d : exists d', sqlite3_changes d = (Ok (changes_of d), d') /\ view_of d' = view_of d
      /\ (reliable d -> reliable d')
}.

(** ** What the repositories do with it *)
Section Calls.
Context {D : Type} `{!Sqlite D}.

(** The member [exec] of every repository. *)
Definition exec (sql : str) : M D unit :=
  r ← sqlite3_exec sql;
  match r with
  | None => mret tt
  | Some err => throw (RuntimeError (default (lit "exec failed") err))
  end.

(** A repository's constructor: [connection] is what [sqlite3_open] gives, [setup]
    the statements that follow. An exception leaves no repository. *)
Definition opened (connection : option D) (setup : M D unit) : outcome D :=
  match connection with
  | None => Throw (RuntimeError "sqlite open failed")
  | Some d => match setup d with
              | (Ok _, d') => Ok d'
              | (Throw e, _) => Throw e
              | (Undef, _) => Undef
              end
  end.

(** [exec("ROLLBACK;"); throw e;] *)
Definition rollback {X} (e : exn) : M D X := _ ← exec "ROLLBACK;"; throw e.

Fixpoint bind_from (i : nat) (vs : list value) (st : Stmt) : M D Stmt :=
  match vs with
  | [] => mret st
  | v :: vs' => st ← sqlite3_bind st i v; bind_from (S i) vs' st
  end.

(** A statement prepared, its parameters bound, and one step of it: [None] when
    it could not be prepared. *)
Definition first_step (sql : str) (args : list value) : M D (option (rc * Stmt)) :=
  p ← sqlite3_prepare sql;
  match p with
  | None => mret None
  | Some st => st ← bind_from 1 args st; r ← sqlite3_step st; mret (Some r)
  end.

(** The transaction in which the repositories insert one row; the parameters,
    which may overflow, are made once the statement is prepared. *)
Definition insert_row (sql : str) (args : outcome (list value)) (duplicate : str) : M D unit :=
  _ ← exec "BEGIN IMMEDIATE;";
  p ← sqlite3_prepare sql;
  match p with
  | None => rollback (RuntimeError "prepare failed")
  | Some st =>
      vs ← liftO args;
      st ← bind_from 1 vs st;
      r ← sqlite3_step st;
      match r.1 with
      | DONE =>
          n ← sqlite3_changes;
          if negb (n =? 1) then rollback (RuntimeError "no row inserted") else exec "COMMIT;"
      | CONSTRAINT => rollback (ValidationException duplicate)
      | _ => rollback (RuntimeError "insert failed")
      end
  end.

(** [while(sqlite3_step(stmt)==SQLITE_ROW)], at most [fuel] times: the step that
    led here gave [c], and [read] is what the body appends. *)
Fixpoint rows {X} (read : Stmt -> outcome (list X)) (fuel : nat) (c : rc) (st : Stmt) (out : list X)
    : M D (list X) :=
  match c, fuel with
  | ROW, S fuel' =>
      xs ← liftO (read st);
      r ← sqlite3_step st;
      rows read fuel' r.1 r.2 (out ++ xs)
  | ROW, O => undef
  | _, _ => mret out
  end.

(** Every row of a SELECT; nothing when it cannot be prepared. *)
Definition select_list {X} (read : Stmt -> outcome (list X)) (fuel : nat) (sql : str) (args : list value)
    : M D (list X) :=
  r ← first_step sql args;
  match r with
  | None => mret []
  | Some (c, st) => rows read fuel c st []
  end.

(** [sqlite3_bind_text(stmt, i, s.c_str(), -1, SQLITE_TRANSIENT)]. *)
Definition text (s : str) : value := VText (c_str s).

(** [reinterpret_cast<const char*>(sqlite3_column_text(stmt, i))]: a null pointer
    is [None]; a string is made of it up to its NUL. *)
Definition column_text (st : Stmt) (i : nat) : option str :=
  if sqlite3_column_nomem st i then None else
  match sqlite3_column st i with
  | VText s => Some (c_str s)
  | VInt z => Some (to_string z)
  | VBlob b => Some (c_str b)
  | VNull => None
  end.
(** A [std::string] made of a null pointer is undefined. *)
Definition string_of (p : option str) : outcome str :=
  match p with Some s => Ok s | None => Undef end.
Definition column_int64 (st : Stmt) (i : nat) : Z :=
  match sqlite3_column st i with VInt z => z | _ => 0 end.
Definition column_int (st : Stmt) (i : nat) : Z := to_int (column_int64 st i).
(** The bytes [sqlite3_column_blob] points to, [sqlite3_column_bytes] of them;
    none for a null pointer. *)
Definition column_blob (st : Stmt) (i : nat) : str :=
  if sqlite3_column_nomem st i then [] else
  match sqlite3_column st i with
  | VText s | VBlob s => s
  | VInt z => to_string z
  | VNull => []
  end.
End Calls.

(** [sqlite3_bind_blob] of a vector that is not empty, its size cast to [int]; a
    negative size is undefined. [sqlite3_bind_null] otherwise. *)
Definition blob_or_null (b : str) : outcome value :=
  if bool_decide (b = []) then Ok VNull else
  let n := to_int (zlen b) in
  if n <? 0 then Undef else Ok (VBlob (take (Z.to_nat n) b)).

Lemma bind_one {X Y} (f : X -> Y) l : l ≫= (fun x => [f x]) = map f l.
Proof. induction l as [|x l IH]; [done|]. cbn. by rewrite <-IH. Qed.

(** ** Running calls *)
Section Running.
Context {D : Type} `{!Sqlite D} {run : str -> list value -> table -> option effect}
        `{!SqliteLaws D run}.

Lemma exec_begin d t : view_of d = MkView t None ->
  exists o d', exec "BEGIN IMMEDIATE;" d = (o, d') /\ (reliable d -> reliable d' /\ o = Ok tt)
    /\ ((o = Ok tt /\ view_of d' = MkView t (Some t)) \/ ((exists e, o = Throw e) /\ view_of d' = MkView t None)).
Proof.
  intros Hv. destruct (law_begin d t Hv) as (r & d' & E & Hr & Hv'). unfold exec.
  rewrite (M_bind_run _ _ _ _ _ E). destruct r as [e|]; eexists _, d'; (split; [reflexivity|]).
  - split; [intros Hd; by destruct (Hr Hd)|]. right. split; [by eexists|exact Hv'].
  - split; [intros Hd; by destruct (Hr Hd)|]. left. by split.
Qed.

Lemma exec_commit d t b : view_of d = MkView t (Some b) ->
  exists o d', exec "COMMIT;" d = (o, d') /\ (reliable d -> reliable d' /\ o = Ok tt)
    /\ ((o = Ok tt /\ view_of d' = MkView t None)
        \/ ((exists e, o = Throw e) /\ committed (view_of d') = b)).
Proof.
  intros Hv. destruct (law_commit d t b Hv) as (r & d' & E & Hr & Hv'). unfold exec.
  rewrite (M_bind_run _ _ _ _ _ E). destruct r as [e|]; eexists _, d'; (split; [reflexivity|]).
  - split; [intros Hd; by destruct (Hr Hd)|]. right. split; [by eexists|].
    rewrite Hv in Hv'. destruct Hv' as [-> |(b' & [= <-] & ->)]; done.
  - split; [intros Hd; by destruct (Hr Hd)|]. left. by split.
Qed.

(** Whatever the rollback's outcome, what is committed stays. *)
Lemma exec_rollback d : exists o d', exec "ROLLBACK;" d = (o, d')
  /\ committed (view_of d') = committed (view_of d)
  /\ (o = Ok tt \/ exists e, o = Throw e)
  /\ (reliable d -> before (view_of d) <> None ->
      reliable d' /\ o = Ok tt /\ view_of d' = MkView (committed (view_of d)) None).
Proof.
  destruct (law_rollback d) as (r & d' & E & Hr & Hv'). unfold exec.
  rewrite (M_bind_run _ _ _ _ _ E). destruct r as [e|]; eexists _, d'; (split; [reflexivity|]).
  - split; [|split; [by right; eexists|]].
    + destruct Hv' as [-> |(b & Hb & ->)]; [done|]. unfold committed. by rewrite Hb.
    + intros Hd Hb. by destruct (Hr Hd Hb).
  - rewrite Hv'. split; [done|]. split; [by left|]. intros Hd Hb. by destruct (Hr Hd Hb).
Qed.

Lemma bind_from_run vs : forall d st sql args, is_stmt st sql args ->
  exists st' d' vs', bind_from (S (length args)) vs st d = (Ok st', d') /\ view_of d' = view_of d
    /\ (reliable d -> reliable d' /\ vs' = vs) /\ bound_as vs vs' /\ is_stmt st' sql (args ++ vs').
Proof.
  induction vs as [|v vs IH]; intros d st sql args Hst.
  - exists st, d, []. rewrite app_nil_r. split_and!; try done. constructor.
  - destruct (law_bind d st sql args v Hst) as (st1 & d1 & v' & E1 & Hv1 & Hr1 & Hb1 & Hst1).
    destruct (IH d1 st1 sql _ Hst1) as (st2 & d2 & vs' & E2 & Hv2 & Hr2 & Hb2 & Hst2).
    exists st2, d2, (v' :: vs'). cbn [bind_from]. rewrite (M_bind_run _ _ _ _ _ E1).
    rewrite length_app in E2. cbn [length] in E2. rewrite Nat.add_1_r in E2. split; [exact E2|].
    split; [congruence|]. split; [|split; [by constructor|by rewrite <-app_assoc in Hst2]].
    intros [Hd1 ->]%Hr1. by destruct (Hr2 Hd1) as [Hd2 ->].
Qed.

(** The statement [sql] has a meaning on [t] however [args] are bound. *)
Definition known (sql : str) (args : list value) (t : table) : Prop :=
  forall args', bound_as args args' -> is_Some (run sql args' t).

Lemma bound_as_refl args : bound_as args args.
Proof. induction args; constructor; auto. Qed.

(** A statement up to its first step: run on its parameters as they were bound. *)
Lemma first_step_run d sql args : known sql args (now (view_of d)) ->
  exists r d', first_step sql args d = (Ok r, d') /\ (reliable d -> reliable d')
    /\ match r with
       | None => view_of d' = view_of d /\ ~ reliable d
       | Some (c, st) => (reliable d -> c <> FAILED /\ forall i, sqlite3_column_nomem st i = false) /\
           exists args' e, bound_as args args' /\ (reliable d -> args' = args) /\
             run sql args' (now (view_of d)) = Some e /\
             stepped (at_row st) (changes_of d') e (view_of d) (view_of d') c
       end.
Proof.
  intros Hk. destruct (law_prepare d sql) as (p & d1 & E1 & Hv1 & Hr1 & Hp).
  { destruct (Hk args (bound_as_refl args)) as [e He]. by eauto. }
  unfold first_step. rewrite (M_bind_run _ _ _ _ _ E1). destruct p as [st|].
  - destruct (bind_from_run args d1 st sql [] (Hp st eq_refl)) as (st2 & d2 & args' & E2 & Hv2 & Hr2 & Hb & Hst2).
    rewrite (M_bind_run _ _ _ _ _ E2). destruct (Hk args' Hb) as [e He].
    destruct (law_step d2 st2 sql args' e Hst2) as (c & st3 & d3 & E3 & Hr3 & Hs3).
    { by rewrite Hv2, Hv1. }
    rewrite (M_bind_run _ _ _ _ _ E3). eexists _, d3. split; [reflexivity|].
    rewrite Hv2, Hv1 in Hs3. split; [intros Hd; apply Hr3, Hr2, Hr1, Hd|].
    split; [intros Hd; apply Hr3, Hr2, Hr1, Hd|]. exists args', e. split; [done|].
    split; [intros Hd; apply Hr2, Hr1, Hd|done].
  - eexists None, d1. split; [reflexivity|]. split; [intros Hd; apply Hr1, Hd|].
    split; [exact Hv1|]. intros Hd. by destruct (Hr1 Hd).
Qed.

(** *** Single calls on a reliable engine *)
Lemma first_step_reliable d sql args e : reliable d -> run sql args (now (view_of d)) = Some e ->
  exists c st d', first_step sql args d = (Ok (Some (c, st)), d') /\ reliable d' /\ c <> FAILED
    /\ (forall i, sqlite3_column_nomem st i = false)
    /\ stepped (at_row st) (changes_of d') e (view_of d) (view_of d') c.
Proof.
  intros Hd He. destruct (law_prepare d sql) as (p & d1 & E1 & Hv1 & Hr1 & Hp); [by eauto|].
  destruct (Hr1 Hd) as [Hd1 Hn]. destruct p as [st|]; [|done].
  destruct (bind_from_run args d1 st sql [] (Hp st eq_refl)) as (st2 & d2 & args' & E2 & Hv2 & Hr2 & _ & Hst2).
  destruct (Hr2 Hd1) as [Hd2 ->].
  destruct (law_step d2 st2 sql args e Hst2) as (c & st3 & d3 & E3 & Hr3 & Hs3); [by rewrite Hv2, Hv1|].
  destruct (Hr3 Hd2) as (Hd3 & Hc & Hm). exists c, st3, d3. unfold first_step.
  rewrite (M_bind_run _ _ _ _ _ E1), (M_bind_run _ _ _ _ _ E2), (M_bind_run _ _ _ _ _ E3).
  rewrite Hv2, Hv1 in Hs3. by split_and!.
Qed.

(** A row whose columns can all be read. *)
Definition readable (st : Stmt) (r : row) (rest : table) : Prop :=
  at_row st r rest /\ forall i, sqlite3_column_nomem st i = false.

Lemma readable_column st r rest i : readable st r rest -> sqlite3_column st i = default VNull (r !! i).
Proof. intros [H _]. by eapply law_column. Qed.
Lemma readable_text st r rest i : readable st r rest -> column_text st i =
  match default VNull (r !! i) with
  | VText s => Some (c_str s) | VInt z => Some (to_string z) | VBlob b => Some (c_str b) | VNull => None
  end.
Proof. intros H. unfold column_text. by rewrite (proj2 H), (readable_column _ _ _ _ H). Qed.
Lemma readable_blob st r rest i : readable st r rest -> column_blob st i =
  match default VNull (r !! i) with VText s | VBlob s => s | VInt z => to_string z | VNull => [] end.
Proof. intros H. unfold column_blob. by rewrite (proj2 H), (readable_column _ _ _ _ H). Qed.

Lemma step_row (d : D) sql args rs : reliable d ->
  run sql args (now (view_of d)) = Some (Rows rs) ->
  exists c st d', first_step sql args d = (Ok (Some (c, st)), d') /\ view_of d' = view_of d /\ reliable d'
    /\ ((c = DONE /\ rs = []) \/ exists r rest, c = ROW /\ rs ≡ₚ r :: rest /\ readable st r rest).
Proof.
  intros Hd Hrun. destruct (first_step_reliable d sql args _ Hd Hrun) as (c & st & d' & E & Hd' & Hc & Hm & Hs).
  exists c, st, d'. unfold readable. destruct c; cbn in Hs.
  - destruct Hs as (rs' & r & rest & [= <-] & Hp & Ha & Hv). eauto 10.
  - destruct Hs as [(t & [=] & _)|[[= ->] Hv]]. eauto 10.
  - by destruct Hs as [[=] _].
  - done.
Qed.

Lemma step_write (d : D) sql args t n : reliable d ->
  run sql args (now (view_of d)) = Some (Changed t n) ->
  exists st d', first_step sql args d = (Ok (Some (DONE, st)), d') /\ reliable d'
    /\ view_of d' = MkView t (before (view_of d)) /\ changes_of d' = n.
Proof.
  intros Hd Hrun. destruct (first_step_reliable d sql args _ Hd Hrun) as (c & st & d' & E & Hd' & Hc & _ & Hs).
  exists st, d'. destruct c; cbn in Hs.
  - by destruct Hs as (rs' & r & rest & [=] & _).
  - destruct Hs as [(t' & [= <- <-] & Hv)|[[=] _]]. auto.
  - by destruct Hs as [[=] _].
  - done.
Qed.

Lemma step_refused (d : D) sql args : reliable d ->
  run sql args (now (view_of d)) = Some Refused ->
  exists st d', first_step sql args d = (Ok (Some (CONSTRAINT, st)), d') /\ reliable d'
    /\ view_of d' = view_of d.
Proof.
  intros Hd Hrun. destruct (first_step_reliable d sql args _ Hd Hrun) as (c & st & d' & E & Hd' & Hc & _ & Hs).
  exists st, d'. destruct c; cbn in Hs.
  - by destruct Hs as (rs' & r & rest & [=] & _).
  - by destruct Hs as [(t' & [=] & Hv)|[[=] _]].
  - destruct Hs as [_ Hv]. auto.
  - done.
Qed.

Lemma begin_run (d : D) t : reliable d -> view_of d = MkView t None ->
  exists d', exec "BEGIN IMMEDIATE;" d = (Ok tt, d') /\ reliable d' /\ view_of d' = MkView t (Some t).
Proof.
  intros Hd Hv. destruct (exec_begin d t Hv) as (o & d' & E & Hr & Ho). destruct (Hr Hd) as [Hd' ->].
  exists d'. split; [exact E|]. split; [exact Hd'|]. by destruct Ho as [[_ Hv']|[[e [=]] _]].
Qed.

Lemma commit_run (d : D) t b : reliable d -> view_of d = MkView t (Some b) ->
  exists d', exec "COMMIT;" d = (Ok tt, d') /\ reliable d' /\ view_of d' = MkView t None.
Proof.
  intros Hd Hv. destruct (exec_commit d t b Hv) as (o & d' & E & Hr & Ho). destruct (Hr Hd) as [Hd' ->].
  exists d'. split; [exact E|]. split; [exact Hd'|]. by destruct Ho as [[_ Hv']|[[e [=]] _]].
Qed.

Lemma rollback_run {X} (d : D) e t b : reliable d -> view_of d = MkView t (Some b) ->
  exists d', rollback (X:=X) e d = (Throw e, d') /\ reliable d' /\ view_of d' = MkView b None.
Proof.
  intros Hd Hv. destruct (exec_rollback d) as (o & d' & E & _ & _ & Hr).
  destruct (Hr Hd) as (Hd' & -> & Hv'); [by rewrite Hv|]. exists d'. unfold rollback.
  rewrite (M_bind_run _ _ _ _ _ E). split; [done|]. split; [exact Hd'|]. by rewrite Hv', Hv.
Qed.

(** *** Single calls on any engine *)
Lemma rollback_any {X} (d : D) e t : committed (view_of d) = t ->
  exists e' d', rollback (X:=X) e d = (Throw e', d') /\ committed (view_of d') = t.
Proof.
  intros Hc. destruct (exec_rollback d) as (o & d' & E & Hc' & Ho & _). unfold rollback.
  destruct Ho as [-> |[e' ->]].
  - exists e, d'. rewrite (M_bind_run _ _ _ _ _ E). by rewrite Hc'.
  - exists e', d'. rewrite M_bind_eq, E. by rewrite Hc'.
Qed.

Lemma lost_committed v v' : lost v v' -> committed v' = committed v.
Proof. intros [-> |(b & Hb & ->)]; [done|]. unfold committed. by rewrite Hb. Qed.
(** A SELECT up to its first row writes nothing, whatever fails. *)
Lemma first_step_rows (d : D) sql args :
  (forall args', bound_as args args' -> exists rs, run sql args' (now (view_of d)) = Some (Rows rs)) ->
  exists r d', first_step sql args d = (Ok r, d') /\ committed (view_of d') = committed (view_of d)
    /\ (before (view_of d) = None -> view_of d' = view_of d)
    /\ (forall st, r = Some (ROW, st) -> view_of d' = view_of d /\ exists args' rs x rest,
         bound_as args args' /\ run sql args' (now (view_of d)) = Some (Rows rs) /\ x ∈ rs /\ at_row st x rest).
Proof.
  intros Hsql. destruct (first_step_run d sql args) as (r & d1 & E & _ & Hr).
  { intros args' Hb. destruct (Hsql args' Hb) as [rs ->]. by eexists. }
  exists r, d1. split; [exact E|]. destruct r as [[c st]|]; [|by destruct Hr as [-> _]].
  destruct Hr as (_ & args' & e & Hb & _ & He & Hs). destruct (Hsql args' Hb) as [rs Hrs].
  rewrite He in Hrs. injection Hrs as ->. destruct c; cbn in Hs.
  - destruct Hs as (rs' & x & rest & [= <-] & Hp & Ha & ->). do 2 (split; [done|]). intros st' [= <-].
    split; [done|]. exists args', rs, x, rest. do 2 (split; [done|]). split; [|done]. rewrite Hp. left.
  - by destruct Hs as [(t' & [=] & _)|[_ ->]].
  - by destruct Hs as [_ ->].
  - split; [by apply lost_committed|]. split; [|done]. intros Hb'.
    destruct Hs as [?|(b & Hb'' & _)]; [done|]. by rewrite Hb' in Hb''.
Qed.

(** *** All or nothing

    How a transaction that started from [t], with none open, may end: with a
    table as [P] says, or with nothing of it committed. *)
Definition atomic {X} (P : table -> Prop) (t : table) (r : outcome X * D) : Prop :=
  match r.1 with
  | Ok _ => exists t', P t' /\ view_of r.2 = MkView t' None
  | _ => committed (view_of r.2) = t
  end.

Lemma atomic_rollback {X} (P : table -> Prop) (d : D) e t : committed (view_of d) = t ->
  atomic P t (rollback (X:=X) e d).
Proof. intros Hc. destruct (rollback_any (X:=X) d e t Hc) as (e' & d' & -> & H). exact H. Qed.

Lemma atomic_commit (P : table -> Prop) (d : D) t t' : view_of d = MkView t' (Some t) -> P t' ->
  atomic P t (exec "COMMIT;" d).
Proof.
  intros Hv HP. destruct (exec_commit d _ _ Hv) as (o & d' & -> & _ & [[-> Hv']|[[e ->] Hc]]).
  - by exists t'.
  - exact Hc.
Qed.

Lemma atomic_begin {X} (P : table -> Prop) (m : M D X) (d : D) t : view_of d = MkView t None ->
  (forall d1, view_of d1 = MkView t (Some t) -> (reliable d -> reliable d1) -> atomic P t (m d1)) ->
  atomic P t ((_ ← exec "BEGIN IMMEDIATE;"; m) d).
Proof.
  intros Hv Hm. destruct (exec_begin d t Hv) as (o & d1 & E & Hr & [[-> Hv1]|[[e ->] Hv1]]).
  - rewrite (M_bind_run _ _ _ _ _ E). apply Hm; [exact Hv1|apply Hr].
  - rewrite M_bind_eq, E. unfold atomic. cbn. by rewrite Hv1.
Qed.

(** A statement that writes, however its parameters are bound. *)
Definition write_sql (sql : str) (args : list value) (t : table) : Prop :=
  forall args', bound_as args args' -> exists e, run sql args' t = Some e /\ forall rs, e <> Rows rs.

(** A write in an open transaction: after [DONE] the rest of the program decides,
    in every other case it rolls back. *)
Lemma atomic_step {X} (P : table -> Prop) (body : option (rc * Stmt) -> M D X) (d : D) t sql args :
  view_of d = MkView t (Some t) -> write_sql sql args t ->
  (forall st d1 t' args', bound_as args args' -> (reliable d -> args' = args) ->
     run sql args' t = Some (Changed t' (changes_of d1)) ->
     view_of d1 = MkView t' (Some t) -> atomic P t (body (Some (DONE, st)) d1)) ->
  (forall r, (forall st, r <> Some (DONE, st)) -> exists ex, body r = rollback ex) ->
  atomic P t ((r ← first_step sql args; body r) d).
Proof.
  intros Hv Hsql Hdone Hother.
  destruct (first_step_run d sql args) as (r & d1 & E & _ & Hr).
  { intros args' Hb. rewrite Hv. cbn [now]. destruct (Hsql args' Hb) as (e & -> & _). by eexists. }
  rewrite (M_bind_run _ _ _ _ _ E). destruct r as [[c st]|].
  2: { destruct (Hother None) as [ex ->]; [done|]. apply atomic_rollback. destruct Hr as [-> _]. by rewrite Hv. }
  destruct Hr as (_ & args' & e & Hb & Hsame & He & Hs). rewrite Hv in He, Hs.
  destruct (Hsql args' Hb) as (e' & He' & Hrows). cbn [now] in He. rewrite He in He'. injection He' as <-.
  destruct c; cbn in Hs.
  - destruct Hs as (rs & r & rest & -> & _). by destruct (Hrows rs).
  - destruct Hs as [(t' & -> & Hv')|[-> _]]; [|by destruct (Hrows [])].
    by apply (Hdone st d1 t' args').
  - destruct (Hother (Some (CONSTRAINT, st))) as [ex ->]; [done|]. apply atomic_rollback.
    destruct Hs as (_ & ->). done.
  - destruct (Hother (Some (FAILED, st))) as [ex ->]; [done|]. apply atomic_rollback.
    by apply lost_committed in Hs as ->.
Qed.

Lemma atomic_then {X Y} (P : table -> Prop) (m : M D X) (f : X -> Y) t (d : D) :
  atomic P t (m d) -> atomic P t ((x ← m; mret (f x)) d).
Proof. unfold atomic. rewrite M_bind_eq. by destruct (m d) as [[x|e|] d']. Qed.

(** *** One row inserted *)
Lemma insert_eq sql args dup (d : D) : insert_row sql (Ok args) dup d =
  (_ ← exec "BEGIN IMMEDIATE;"; r ← first_step sql args;
   match r with
   | None => rollback (RuntimeError "prepare failed")
   | Some (DONE, _) =>
       n ← sqlite3_changes;
       if negb (n =? 1) then rollback (RuntimeError "no row inserted") else exec "COMMIT;"
   | Some (CONSTRAINT, _) => rollback (ValidationException dup)
   | Some _ => rollback (RuntimeError "insert failed")
   end) d.
Proof.
  unfold insert_row, first_step. rewrite !M_bind_eq. destruct (exec _ d) as [[[]|e|] d1]; [|done..].
  rewrite !M_bind_eq. destruct (sqlite3_prepare sql d1) as [[[st|]|e|] d2]; [|done..].
  unfold liftO. rewrite !M_bind_eq. destruct (bind_from 1 args st d2) as [[st'|e|] d3]; [|done..].
  rewrite !M_bind_eq. by destruct (sqlite3_step st' d3) as [[[[] st2]|e|] d4].
Qed.

(** On any engine: all or nothing, of the parameters as they were bound. *)
Lemma insert_atomic (d : D) t sql args dup : view_of d = MkView t None -> write_sql sql args t ->
  atomic (fun t' => exists args', bound_as args args' /\ (reliable d -> args' = args) /\
            run sql args' t = Some (Changed t' 1)) t
    (insert_row sql (Ok args) dup d).
Proof.
  intros Hv Hsql. rewrite insert_eq. apply atomic_begin; [exact Hv|]. intros d1 Hv1 Hr1.
  eapply atomic_step; [exact Hv1|exact Hsql| |].
  - intros st d2 t' args' Hb Hsame E Hv2. destruct (law_changes d2) as (d3 & E3 & Hv3 & _).
    rewrite (M_bind_run _ _ _ _ _ E3). destruct (Z.eqb_spec (changes_of d2) 1) as [En|_]; cbn [negb].
    + eapply atomic_commit; [by rewrite Hv3|]. exists args'. split; [exact Hb|]. split; [auto|]. by rewrite E, En.
    + apply atomic_rollback. by rewrite Hv3, Hv2.
  - intros r Hr. destruct r as [[[] st]|]; try (by eexists). by destruct (Hr st).
Qed.

(** Parameters that cannot be made leave the transaction open, unwritten. *)
Lemma insert_bad (d : D) t sql o dup : view_of d = MkView t None -> is_ok o = false ->
  (exists args t' e, run sql args t' = Some e) ->
  is_ok (insert_row sql o dup d).1 = false /\ committed (view_of (insert_row sql o dup d).2) = t.
Proof.
  intros Hv Ho Hsql. unfold insert_row. destruct (exec_begin d t Hv) as (o1 & d1 & E & _ & [[-> Hv1]|[[e ->] Hv1]]).
  - rewrite (M_bind_run _ _ _ _ _ E). destruct (law_prepare d1 sql Hsql) as (p & d2 & E2 & Hv2 & _ & _).
    rewrite (M_bind_run _ _ _ _ _ E2). assert (committed (view_of d2) = t) as Hc by (by rewrite Hv2, Hv1).
    destruct p as [st|].
    + unfold liftO. rewrite M_bind_eq. by destruct o.
    + by destruct (rollback_any (X:=unit) d2 (RuntimeError "prepare failed") t Hc) as (e' & d3 & -> & Hc3).
  - rewrite M_bind_eq, E. cbn. by rewrite Hv1.
Qed.

(** On a reliable one: refused, or done. *)
Lemma insert_refused (d : D) t sql args dup : reliable d -> view_of d = MkView t None ->
  run sql args t = Some Refused ->
  exists d', insert_row sql (Ok args) dup d = (Throw (ValidationException dup), d')
    /\ reliable d' /\ view_of d' = MkView t None.
Proof.
  intros Hd Hv Hsql. rewrite insert_eq. destruct (begin_run d t Hd Hv) as (d1 & E1 & Hd1 & Hv1).
  rewrite (M_bind_run _ _ _ _ _ E1).
  destruct (step_refused d1 sql args Hd1 ltac:(by rewrite Hv1)) as (st & d2 & E2 & Hd2 & Hv2).
  rewrite (M_bind_run _ _ _ _ _ E2). rewrite Hv1 in Hv2. by apply (rollback_run d2 _ t t).
Qed.

Lemma insert_done (d : D) t t' sql args dup : reliable d -> view_of d = MkView t None ->
  run sql args t = Some (Changed t' 1) ->
  exists d', insert_row sql (Ok args) dup d = (Ok tt, d') /\ reliable d' /\ view_of d' = MkView t' None.
Proof.
  intros Hd Hv Hsql. rewrite insert_eq. destruct (begin_run d t Hd Hv) as (d1 & E1 & Hd1 & Hv1).
  rewrite (M_bind_run _ _ _ _ _ E1).
  destruct (step_write d1 sql args t' 1 Hd1 ltac:(by rewrite Hv1)) as (st & d2 & E2 & Hd2 & Hv2 & Hn).
  rewrite (M_bind_run _ _ _ _ _ E2). destruct (law_changes d2) as (d3 & E3 & Hv3 & Hr3).
  rewrite (M_bind_run _ _ _ _ _ E3), Hn. rewrite Hv2, Hv1 in Hv3. by apply (commit_run d3 t' t); [apply Hr3|].
Qed.

(** *** The loop over the rows ends after the last one

    The rows are those of the values [ys], and each is read as [g] says. *)
Lemma rows_run {X Y} (read : Stmt -> outcome (list X)) (to_row : Y -> row) (g : Y -> list X) ys :
  forall y fuel st out (d : D), readable st (to_row y) (map to_row ys) -> reliable d -> (length ys < fuel)%nat ->
  (forall st y' rest, y' ∈ y :: ys -> readable st (to_row y') rest -> read st = Ok (g y')) ->
  exists d', rows read fuel ROW st out d = (Ok (out ++ ((y :: ys) ≫= g)), d')
    /\ reliable d' /\ view_of d' = view_of d.
Proof.
  induction ys as [|y' ys IH]; intros y [|fuel] st out d Hrow Hd Hf Hread; cbn in Hf; try lia.
  all: destruct (law_next d st _ _ (proj1 Hrow)) as (c & st' & d1 & E & Hr & Hn); destruct (Hr Hd) as (Hd1 & Hne & Hm);
    cbn [rows]; unfold liftO; rewrite M_bind_eq, (Hread st y _ ltac:(left) Hrow), (M_bind_run _ _ _ _ _ E);
    cbn [fst snd]; destruct c; try done; cbn in Hn.
  - exists d1. cbn. rewrite app_nil_r. destruct fuel; by split_and!.
  - destruct Hn as [Hrow' Hv]. destruct (IH y' fuel st' (out ++ g y) d1 (conj Hrow' Hm) Hd1 ltac:(lia)) as (d2 & E2 & Hd2 & Hv2).
    { intros st0 y0 rest0 Hin. apply Hread. by right. }
    exists d2. rewrite <-app_assoc in E2. split; [exact E2|]. split; [done|congruence].
Qed.

Lemma select_list_run {X Y} (read : Stmt -> outcome (list X)) (to_row : Y -> row) (g : Y -> list X)
    fuel sql args ys (d : D) :
  reliable d -> run sql args (now (view_of d)) = Some (Rows (map to_row ys)) -> (length ys <= fuel)%nat ->
  (forall st y rest, y ∈ ys -> readable st (to_row y) rest -> read st = Ok (g y)) ->
  exists zs d', select_list read fuel sql args d = (Ok (zs ≫= g), d') /\ zs ≡ₚ ys
    /\ reliable d' /\ view_of d' = view_of d.
Proof.
  intros Hd Hsql Hf Hread. destruct (step_row d sql args _ Hd Hsql) as (c & st & d1 & E & Hv & Hd1 & Hc).
  unfold select_list. rewrite (M_bind_run _ _ _ _ _ E).
  destruct Hc as [[-> Hnil]|(r & rest & -> & Hperm & Hrow)].
  - apply map_eq_nil in Hnil. subst ys. exists [], d1. destruct fuel; by split_and!.
  - destruct (Permutation_map_inv _ _ (Permutation_sym Hperm)) as ([|z zs] & Ez & Hz); [done|].
    injection Ez as -> ->. destruct (rows_run read to_row g zs z fuel st [] d1 Hrow Hd1) as (d2 & E2 & Hd2 & Hv2).
    + apply Permutation_length in Hz. cbn in Hz. lia.
    + intros st0 y0 rest0 Hin. apply Hread. by rewrite Hz.
    + exists (z :: zs), d2. split; [exact E2|]. split; [done|]. split; [done|congruence].
Qed.
End Running.

(** ** NULL in conditions *)
Definition is_null (v : value) : bool := match v with VNull => true | _ => false end.

Lemma where_null i r : where_ i VNull r = false.
Proof. unfold where_, sql_eq. by destruct (bool_decide (cell i r = VNull)). Qed.

Lemma filter_null {X} i (g : X -> row) l : List.filter (fun x => where_ i VNull (g x)) l = [].
Proof. induction l as [|x l IH]; [done|]. cbn. by rewrite where_null. Qed.

(** The cells of bound parameters of a known number. *)
Ltac bound_cells := repeat match goal with
  | H : bound_as _ _ |- _ => unfold bound_as in H
  | H : Forall2 _ (_ :: _) _ |- _ => inversion H; clear H; subst
  | H : Forall2 _ [] _ |- _ => inversion H; clear H; subst
  end.

(** Parameters none of which is left NULL are as they were given. *)
Lemma bound_as_full args args' : bound_as args args' -> existsb is_null args' = false -> args' = args.
Proof.
  induction 1 as [|v v' args args' [->| ->] _ IH]; [done| |done]. cbn. intros [_ Hn]%orb_false_iff. by rewrite IH.
Qed.

(** ** Tables of typed records

    The rows of a table as those of a list of records, and strings that [c_str()]
    passes whole. *)
Definition clean (s : str) : Prop := Byte.x00 ∉ s.

Lemma text_clean s : clean s -> text s = VText s.
Proof. intros Hs. unfold text. by rewrite c_str_id. Qed.

Lemma where_text i s v r : cell i r = VText v -> where_ i (VText s) r = bool_decide (v = s).
Proof.
  intros E. unfold where_, sql_eq. rewrite E, (bool_decide_eq_false_2 (_ = VNull)) by done.
  rewrite andb_true_r. apply bool_decide_ext. split; congruence.
Qed.

Lemma sql_eq_text a b : sql_eq (VText a) (VText b) = bool_decide (a = b).
Proof. by rewrite <-(where_text 0 b a [VText a]). Qed.

(** A blob below 2 GiB as its column holds it. *)
Definition blob_value (b : str) : value := if bool_decide (b = []) then VNull else VBlob b.

Lemma blob_bound b : zlen b < 2 ^ 31 -> blob_or_null b = Ok (blob_value b).
Proof.
  intros Hb. unfold blob_or_null, blob_value. case_bool_decide; [done|].
  rewrite to_int_id by (unfold zlen in *; lia). rewrite (proj2 (Z.ltb_ge _ _)) by (unfold zlen; lia).
  by rewrite take_ge by (unfold zlen; lia).
Qed.

Section Typed.
Context {D : Type} `{!Sqlite D} {run : str -> list value -> table -> option effect}
        `{!SqliteLaws D run} {X : Type} (to_row : X -> row).

Lemma filter_rows q p l : (forall x, q (to_row x) = p x) ->
  List.filter q (map to_row l) = map to_row (List.filter p l).
Proof.
  intros Hq. induction l as [|x l IH]; [done|]. cbn [map List.filter]. rewrite Hq, IH.
  by destruct (p x).
Qed.

Lemma existsb_rows q p l : (forall x, q (to_row x) = p x) -> existsb q (map to_row l) = existsb p l.
Proof. intros Hq. induction l as [|x l IH]; [done|]. cbn. by rewrite Hq, IH. Qed.

(** A SELECT with a condition, up to its first row. *)
Lemma select_run (d : D) l sql args q g p :
  reliable d -> now (view_of d) = map to_row l ->
  run sql args (map to_row l) = Some (Rows (map g (List.filter q (map to_row l)))) ->
  (forall x, q (to_row x) = p x) ->
  exists st d', reliable d' /\ view_of d' = view_of d /\
    ((exists x rest, first_step sql args d = (Ok (Some (ROW, st)), d')
        /\ readable st (g (to_row x)) rest /\ x ∈ l /\ p x = true)
     \/ (first_step sql args d = (Ok (Some (DONE, st)), d') /\ forall x, x ∈ l -> p x = false)).
Proof.
  intros Hd Hv Hsql Hp. rewrite <-Hv in Hsql.
  destruct (step_row d sql args _ Hd Hsql) as (c & st & d' & E & Hv' & Hd' & Hc).
  exists st, d'. split; [exact Hd'|]. split; [exact Hv'|]. rewrite Hv, (filter_rows _ p) in Hc by done.
  destruct Hc as [[-> Hnil]|(r & rest & -> & Hperm & Hrow)].
  - right. split; [exact E|]. intros x Hx. apply not_true_is_false. intros Ht.
    assert (x ∈ List.filter p l) as Hin by (apply list_elem_of_In, filter_In; by rewrite <-list_elem_of_In).
    apply map_eq_nil, map_eq_nil in Hnil. rewrite Hnil in Hin. by apply not_elem_of_nil in Hin.
  - left. assert (r ∈ map g (map to_row (List.filter p l))) as Hin by (rewrite Hperm; left).
    apply list_elem_of_fmap in Hin as (y & -> & (x & -> & Hx)%list_elem_of_fmap).
    apply list_elem_of_In, filter_In in Hx as [Hx Ht]. exists x, rest.
    split; [exact E|]. split; [exact Hrow|]. split; [by apply list_elem_of_In|done].
Qed.
End Typed.

(** ** Runs

    Calls one after the other, an exception going to its caller; and two
    components that answer each call alike. *)
Fixpoint plays {S C A} (f : C -> M S A) (cs : list C) (s : S) : list (outcome A) * S :=
  match cs with
  | [] => ([], s)
  | c :: cs' =>
      let '(o, s1) := f c s in
      let '(os, s2) := plays f cs' s1 in (o :: os, s2)
  end.

(** [R n s1 s2]: the states stand for each other, with [n] calls to come. *)
Lemma plays_simulate {S1 S2 C A} (f1 : C -> M S1 A) (f2 : C -> M S2 A) (R : nat -> S1 -> S2 -> Prop)
    (good : C -> Prop) (same : outcome A -> outcome A -> Prop) :
  (forall c n s1 s2, good c -> R (S n) s1 s2 ->
     same (f1 c s1).1 (f2 c s2).1 /\ R n (f1 c s1).2 (f2 c s2).2) ->
  forall cs s1 s2, R (length cs) s1 s2 -> Forall good cs ->
    Forall2 same (plays f1 cs s1).1 (plays f2 cs s2).1 /\ R O (plays f1 cs s1).2 (plays f2 cs s2).2.
Proof.
  intros Hstep. induction cs as [|c cs IH]; intros s1 s2 HR Hg; [by split; [constructor|]|].
  apply list.Forall_cons in Hg as [Hc Hg]. destruct (Hstep c _ s1 s2 Hc HR) as [Ho HR'].
  cbn [plays]. destruct (f1 c s1) as [o1 s1'], (f2 c s2) as [o2 s2']. cbn in *.
  destruct (IH s1' s2' HR' Hg) as [Hos HR0].
  destruct (plays f1 cs s1') as [os1 t1], (plays f2 cs s2') as [os2 t2]. cbn in *. by split; [constructor|].
Qed.
