(* ===== verification/SqliteUsers.v ===== *)
(** * The SQLite user repository ([sqlite_user_repo.hpp], [sqlite_user_repo.cpp])

    The statements and transactions of the repository over the SQLite interface,
    the meaning of the statements, and a list of accounts as what they implement:
    the list satisfies the contract of [Ports], and on accounts without NUL the
    repository answers as the list does. *)
From S2P Require Import Prelude Domain Ports Tables Sqlite.
From Stdlib Require Import ZArith Lia.
From stdpp Require Import base gmap strings list numbers.
Local Open Scope Z_scope.

Module SqliteUserRepository.

(** ** The statements

    The columns of [users], in order: id, username, email, pass_hash, role,
    status, failed_attempts, lockout_until. *)
Definition create_sql : str := ("CREATE TABLE IF NOT EXISTS users(id TEXT PRIMARY KEY, username TEXT UNIQUE NOT NULL, email TEXT UNIQUE NOT NULL, "
  ++ "pass_hash TEXT NOT NULL, role TEXT NOT NULL, status TEXT NOT NULL, failed_attempts INT NOT NULL, lockout_until INTEGER NOT NULL);")%string.
Definition insert_sql : str := ("INSERT INTO users(id, username, email, pass_hash, role, status, failed_attempts, lockout_until) "
  ++ "VALUES(?,?,?,?,?,?,?,?);")%string.
Definition columns : str := "id, username, email, role, status, failed_attempts, lockout_until".
Definition select_by (col : str) : str :=
  ("SELECT " : str) ++ columns ++ (" FROM users WHERE " : str) ++ col ++ ("=?;" : str).
Definition select_all_sql : str := ("SELECT " : str) ++ columns ++ (" FROM users;" : str).
Definition update_sql : str :=
  "UPDATE users SET role=?, status=?, failed_attempts=?, lockout_until=? WHERE id=?;".
Definition update_hash_sql : str := "UPDATE users SET pass_hash=? WHERE id=?;".
Definition select_counters_sql : str := "SELECT failed_attempts, lockout_until FROM users WHERE id=?;".
Definition update_counters_sql : str := "UPDATE users SET failed_attempts=?, lockout_until=? WHERE id=?;".
Definition reset_sql : str := "UPDATE users SET failed_attempts=0, lockout_until=0 WHERE id=?;".
Definition select_hash_sql : str := "SELECT pass_hash FROM users WHERE id=?;".

(** *** What they mean *)
Definition profile (r : row) : row := [cell 0 r; cell 1 r; cell 2 r; cell 4 r; cell 5 r; cell 6 r; cell 7 r].

(** An UPDATE: every row the condition selects, and their number. *)
Definition updated (p : row -> bool) (f : row -> row) (t : table) : effect :=
  Changed (map (fun r => if p r then f r else r) t) (zlen (List.filter p t)).

(** ... of columns that are NOT NULL to [vals]. *)
Definition updating (vals : list value) (p : row -> bool) (f : row -> row) (t : table) : effect :=
  if existsb is_null vals && existsb p t then Refused else updated p f t.

(** NOT NULL, UNIQUE and the primary key. *)
Definition violates (args : row) (t : table) : bool :=
  existsb (fun v => bool_decide (v = VNull)) (drop 1 args)
  || existsb (fun r => sql_eq (cell 0 r) (cell 0 args) || sql_eq (cell 1 r) (cell 1 args)
                       || sql_eq (cell 2 r) (cell 2 args)) t.

Definition users_sql (sql : str) (args : list value) (t : table) : option effect :=
  match args with
  | [] => if bool_decide (sql = select_all_sql) then Some (Rows (map profile t)) else None
  | [k] =>
      if bool_decide (sql = select_by "id") then Some (Rows (map profile (List.filter (where_ 0 k) t))) else
      if bool_decide (sql = select_by "username") then Some (Rows (map profile (List.filter (where_ 1 k) t))) else
      if bool_decide (sql = select_by "email") then Some (Rows (map profile (List.filter (where_ 2 k) t))) else
      if bool_decide (sql = select_hash_sql) then
        Some (Rows (map (fun r => [cell 3 r]) (List.filter (where_ 0 k) t))) else
      if bool_decide (sql = select_counters_sql) then
        Some (Rows (map (fun r => [cell 6 r; cell 7 r]) (List.filter (where_ 0 k) t))) else
      if bool_decide (sql = reset_sql) then
        Some (updated (where_ 0 k) (fun r => <[6%nat := VInt 0]> (<[7%nat := VInt 0]> r)) t) else None
  | [h; k] =>
      if bool_decide (sql = update_hash_sql) then Some (updating [h] (where_ 0 k) (fun r => <[3%nat := h]> r) t)
      else None
  | [f; l; k] =>
      if bool_decide (sql = update_counters_sql) then
        Some (updating [f; l] (where_ 0 k) (fun r => <[6%nat := f]> (<[7%nat := l]> r)) t) else None
  | [ro; st; f; l; k] =>
      if bool_decide (sql = update_sql) then
        Some (updating [ro; st; f; l] (where_ 0 k)
                (fun r => <[4%nat := ro]> (<[5%nat := st]> (<[6%nat := f]> (<[7%nat := l]> r)))) t)
      else None
  | [_; _; _; _; _; _; _; _] =>
      if bool_decide (sql = insert_sql) then
        Some (if violates args t then Refused else Changed (t ++ [args]) 1) else None
  | _ => None
  end.

(** ** The operations *)
Section Operations.
Context {D : Type} `{!Sqlite D}.

(** The constructor, on an open connection. *)
Definition new : M D unit :=
  _ ← exec "PRAGMA journal_mode=WAL;";
  _ ← exec "PRAGMA synchronous=FULL;";
  _ ← exec "PRAGMA foreign_keys=ON;";
  exec create_sql.

Definition construct (connection : option D) : outcome D := opened connection new.

(** A row of [columns] as a user, through its constructor. *)
Definition read_user (st : Stmt) : outcome User :=
  id ← string_of (column_text st 0);
  username ← string_of (column_text st 1);
  email ← string_of (column_text st 2);
  role ← string_of (column_text st 3);
  status ← string_of (column_text st 4);
  new_User (MkUserId id) username email role status (column_int st 5) (column_int64 st 6).

Definition findByColumn (col val : str) : M D (Result User) :=
  r ← first_step (select_by col) [text val];
  match r with
  | None => mret (failure "prepare failed")
  | Some (ROW, st) => u ← liftO (read_user st); mret (success u)
  | Some _ => mret (failure "not found")
  end.
Definition findByUsername (n : str) : M D (Result User) := findByColumn "username" n.
Definition findByEmail (e : str) : M D (Result User) := findByColumn "email" e.
Definition findById (id : UserId) : M D (Result User) := findByColumn "id" (uid_value id).

Definition save (u : User) (encodedHash : str) : M D unit :=
  _ ← exec "BEGIN IMMEDIATE;";
  r ← first_step insert_sql
        [text (uid_value (id_ u)); text (username_ u); text (email_ u); text encodedHash;
         text (role_ u); text (status_ u); VInt (failedAttempts_ u); VInt (lockoutUntil_ u)];
  match r with
  | None => rollback (RuntimeError "prepare failed")
  | Some (DONE, _) => exec "COMMIT;"
  | Some (CONSTRAINT, _) => rollback (ValidationException "username or email exists")
  | Some _ => rollback (RuntimeError "insert failed")
  end.

Definition update (u : User) : M D unit :=
  existing ← findById (id_ u);
  match result_get existing with
  | None => throw (NotFoundException "not found")
  | Some old =>
      if negb (bool_decide (username_ old = username_ u)) || negb (bool_decide (email_ old = email_ u))
      then throw (ValidationException "username/email immutable") else
      _ ← exec "BEGIN IMMEDIATE;";
      r ← first_step update_sql
            [text (role_ u); text (status_ u); VInt (failedAttempts_ u); VInt (lockoutUntil_ u);
             text (uid_value (id_ u))];
      match r with
      | None => rollback (RuntimeError "prepare failed")
      | Some (DONE, _) => exec "COMMIT;"
      | Some _ => rollback (RuntimeError "update failed")
      end
  end.

(** Neither the preparation nor the step is tested. *)
Definition updateHash (id : UserId) (h : str) : M D unit :=
  _ ← exec "BEGIN IMMEDIATE;";
  _ ← first_step update_hash_sql [text h; text (uid_value id)];
  exec "COMMIT;".

(** Inside a transaction: the counters of one account, which must exist. *)
Definition write_counters (id : UserId) (f until : Z) : M D unit :=
  r ← first_step update_counters_sql [VInt f; VInt until; text (uid_value id)];
  match r with
  | None => rollback (RuntimeError "prepare failed")
  | Some (DONE, _) =>
      n ← sqlite3_changes;
      if negb (n =? 1) then rollback (RuntimeError "no row updated") else exec "COMMIT;"
  | Some _ => rollback (RuntimeError "update failed")
  end.

Definition recordLoginFailure (id : UserId) (now : Z) : M D unit :=
  _ ← exec "BEGIN IMMEDIATE;";
  r ← first_step select_counters_sql [text (uid_value id)];
  match r with
  | None => rollback (RuntimeError "prepare failed")
  | Some (ROW, st) =>
      fails ← liftO (add_i32 (column_int st 0) 1);
      newLockout ← (if 5 <=? fails then liftO (add_i64 now (15 * 60 * 1000))
                    else mret (column_int64 st 1));
      write_counters id fails newLockout
  | Some _ => rollback (NotFoundException "not found")
  end.

(** The overload [recordLoginFailure(id, f, until)]. *)
Definition setLoginFailure (id : UserId) (f until : Z) : M D unit :=
  _ ← exec "BEGIN IMMEDIATE;"; write_counters id f until.

Definition resetLoginFailures (id : UserId) : M D unit :=
  _ ← exec "BEGIN IMMEDIATE;";
  r ← first_step reset_sql [text (uid_value id)];
  match r with
  | None => rollback (RuntimeError "prepare failed")
  | Some (DONE, _) => exec "COMMIT;"
  | Some _ => rollback (RuntimeError "reset failed")
  end.

(** A statement that could not be prepared gives no row either. *)
Definition getEncodedHash (id : UserId) : M D str :=
  r ← first_step select_hash_sql [text (uid_value id)];
  match r with
  | Some (ROW, st) => liftO (string_of (column_text st 0))
  | _ => throw (NotFoundException "hash not found")
  end.

Definition listAll (fuel : nat) : M D (list User) :=
  select_list (fun st => u ← read_user st; Ok [u]) fuel select_all_sql [].
End Operations.
End SqliteUserRepository.

(** ** The specification: a list of accounts

    What the repository promises, without statements and transactions: the
    accounts with their hashes, in the order they were saved. *)
Module AccountTable.
Definition t : Type := list (User * str).

Definition uid (x : User * str) : str := uid_value (id_ x.1).
Definition by_id : str -> User * str -> bool := by_key uid.
Definition found (r : option (User * str)) : outcome (Result User) :=
  Ok (match r with Some x => success x.1 | None => failure "not found" end).

Definition findByUsername (n : str) (l : t) : outcome (Result User) :=
  found (List.find (fun x => bool_decide (username_ x.1 = n)) l).
Definition findByEmail (e : str) (l : t) : outcome (Result User) :=
  found (List.find (fun x => bool_decide (email_ x.1 = e)) l).
Definition findById (id : UserId) (l : t) : outcome (Result User) :=
  found (List.find (by_id (uid_value id)) l).

Definition clashes (u : User) (x : User * str) : bool :=
  bool_decide (id_ x.1 = id_ u) || bool_decide (username_ x.1 = username_ u)
  || bool_decide (email_ x.1 = email_ u).
Definition save (u : User) (h : str) : M t unit := fun l =>
  if existsb (clashes u) l then (Throw (ValidationException "username or email exists"), l)
  else (Ok tt, l ++ [(u, h)]).

(** Every account with the identifier, changed. *)
Definition amend (k : str) (f : User * str -> User * str) (l : t) : t :=
  map (fun x => if by_id k x then f x else x) l.

Definition set_mutable (u v : User) : User :=
  MkUser (id_ v) (username_ v) (email_ v) (role_ u) (status_ u) (failedAttempts_ u) (lockoutUntil_ u).
Definition update (u : User) : M t unit := fun l =>
  match List.find (by_id (uid_value (id_ u))) l with
  | None => (Throw (NotFoundException "not found"), l)
  | Some (old, _) =>
      if negb (bool_decide (username_ old = username_ u)) || negb (bool_decide (email_ old = email_ u))
      then (Throw (ValidationException "username/email immutable"), l)
      else (Ok tt, amend (uid_value (id_ u)) (fun x => (set_mutable u x.1, x.2)) l)
  end.

Definition updateHash (id : UserId) (h : str) : M t unit :=
  modify (amend (uid_value id) (fun x => (x.1, h))).

Definition counters (id : UserId) (f until : Z) : t -> t :=
  amend (uid_value id) (fun x => (setLockout until f x.1, x.2)).
Definition recordLoginFailure (id : UserId) (now : Z) : M t unit := fun l =>
  match List.find (by_id (uid_value id)) l with
  | None => (Throw (NotFoundException "not found"), l)
  | Some (u, _) =>
      match fail_login u now with
      | Ok u' => (Ok tt, counters id (failedAttempts_ u') (lockoutUntil_ u') l)
      | Throw e => (Throw e, l)
      | Undef => (Undef, l)
      end
  end.
Definition setLoginFailure (id : UserId) (f until : Z) : M t unit := fun l =>
  match List.find (by_id (uid_value id)) l with
  | None => (Throw (RuntimeError "no row updated"), l)
  | Some _ => (Ok tt, counters id f until l)
  end.
Definition resetLoginFailures (id : UserId) : M t unit := modify (counters id 0 0).

Definition getEncodedHash (id : UserId) (l : t) : outcome str :=
  match List.find (by_id (uid_value id)) l with
  | None => Throw (NotFoundException "hash not found")
  | Some x => Ok x.2
  end.
Definition listAll (l : t) : outcome (list User) := Ok (map fst l).

#[global] Instance ops : IUserRepository t := {
  Ports.findByUsername := findByUsername;
  Ports.findByEmail := findByEmail;
  Ports.findById := findById;
  Ports.saveUser := save;
  Ports.update := update;
  Ports.updateHash := updateHash;
  Ports.recordLoginFailure := recordLoginFailure;
  Ports.setLoginFailure := setLoginFailure;
  Ports.resetLoginFailures := resetLoginFailures;
  Ports.getEncodedHash := getEncodedHash;
  Ports.listAll := listAll
}.

(** *** The contract *)
Record inv (l : t) : Prop := {
  inv_ids : NoDup (map uid l);
  inv_names : NoDup (map (fun x => username_ x.1) l);
  inv_emails : NoDup (map (fun x => email_ x.1) l);
  inv_users : Forall (fun x => user_ok x.1) l
}.

Definition model (l : t) : gmap str (User * str) := keyed uid l.

Lemma account_model_lookup l k x : NoDup (map uid l) -> model l !! k = Some x <-> x ∈ l /\ uid x = k.
Proof. apply keyed_lookup. Qed.

Lemma find_by_id l k : NoDup (map uid l) -> List.find (by_id k) l = model l !! k.
Proof. apply find_keyed. Qed.

Lemma table_ok_model l : inv l -> table_ok (model l).
Proof.
  intros [Hi Hn He Hu].
  assert (forall k1 k2 u1 h1 u2 h2, model l !! k1 = Some (u1, h1) -> model l !! k2 = Some (u2, h2) ->
            username_ u1 = username_ u2 \/ email_ u1 = email_ u2 -> k1 = k2) as Hone.
  { intros k1 k2 u1 h1 u2 h2 [H1 <-]%account_model_lookup [H2 <-]%account_model_lookup E; [|done..].
    assert ((u1, h1) = (u2, h2)) as [= <- <-]; [|done].
    destruct E as [E|E]; [exact (NoDup_pick _ _ _ _ Hn H1 H2 E)|exact (NoDup_pick _ _ _ _ He H1 H2 E)]. }
  split.
  - by intros k u h [_ E]%account_model_lookup.
  - intros k u h [H _]%account_model_lookup; [|done]. exact (proj1 (list.Forall_forall _ _) Hu _ H).
  - eauto.
  - eauto.
Qed.

(** Amending keeps what identifies an account. *)
Definition keeps_identity (f : User * str -> User * str) : Prop := forall x,
  uid (f x) = uid x /\ username_ (f x).1 = username_ x.1 /\ email_ (f x).1 = email_ x.1.

Lemma amend_map {Y} (g : User * str -> Y) k f l : (forall x, g (f x) = g x) ->
  map g (amend k f l) = map g l.
Proof.
  intros Hg. unfold amend. rewrite map_map. apply map_ext. intros x. by destruct (by_id k x).
Qed.

Lemma amend_inv k f l : keeps_identity f -> inv l -> inv (amend k f l).
Proof.
  intros Hf [Hi Hn He Hu]. split.
  - rewrite amend_map; [done|]. intros x. apply Hf.
  - rewrite (amend_map (fun x => username_ x.1)); [done|]. intros x. apply Hf.
  - rewrite (amend_map (fun x => email_ x.1)); [done|]. intros x. apply Hf.
  - unfold amend. apply Forall_map. eapply List.Forall_impl; [|exact Hu]. intros x Hx. simpl.
    destruct (by_id k x); [|done]. destruct (Hf x) as (E1 & E2 & E3).
    unfold user_ok in *. unfold uid in E1. by rewrite E1, E2, E3.
Qed.

Lemma amend_model k f l : keeps_identity f -> inv l -> model (amend k f l) = base.alter f k (model l).
Proof.
  intros Hf Hl. pose proof (amend_inv k f l Hf Hl) as Hl'. apply map_eq. intros i. apply option_eq.
  intros y. rewrite account_model_lookup by apply Hl'. unfold amend. rewrite list_elem_of_fmap.
  destruct (decide (i = k)) as [->|Hne].
  - rewrite lookup_alter_eq, fmap_Some. split.
    + intros [(x & -> & Hx) Ek]. unfold by_id, by_key in *. exists x. case_bool_decide as Hk.
      * split; [|done]. apply account_model_lookup; [apply Hl|done].
      * done.
    + intros (x & [Hx Hk]%account_model_lookup & ->); [|apply Hl]. split; [|rewrite <-Hk; apply Hf].
      exists x. split; [|done]. unfold by_id, by_key. by rewrite bool_decide_eq_true_2.
  - rewrite lookup_alter_ne, account_model_lookup by (done || apply Hl). split.
    + intros [(x & -> & Hx) Ek]. unfold by_id, by_key in *. case_bool_decide as Hk; [|done].
      destruct (Hf x) as [E _]. congruence.
    + intros [Hx Ek]. split; [|done]. exists y. split; [|done].
      unfold by_id, by_key. rewrite bool_decide_eq_false_2; [done|congruence].
Qed.

(** The accounts of the list are those of the model. *)
Lemma account_model_elem l u h : inv l -> model l !! uid_value (id_ u) = Some (u, h) <-> (u, h) ∈ l.
Proof. intros Hl. rewrite account_model_lookup by apply Hl. unfold uid. cbn. tauto. Qed.

Lemma account_clash_conflict l u : inv l -> existsb (clashes u) l = true <-> conflict (model l) u.
Proof.
  intros Hl. rewrite existsb_exists. unfold clashes, conflict, named, addressed. split.
  - intros ([v h] & Hx%list_elem_of_In & Hc). cbn in Hc.
    rewrite !orb_true_iff, !bool_decide_eq_true in Hc. destruct Hc as [[E|E]|E].
    + left. exists (v, h). rewrite <-E. by apply account_model_elem.
    + right; left. exists v, h. split; [by apply account_model_elem|done].
    + right; right. exists v, h. split; [by apply account_model_elem|done].
  - intros Hc. assert (exists v h, (v, h) ∈ l /\ (id_ v = id_ u \/ username_ v = username_ u \/ email_ v = email_ u))
      as (v & h & Hx & E).
    { destruct Hc as [[[v h] [Hx E]%account_model_lookup]|[(v & h & Hx & E)|(v & h & Hx & E)]]; [|apply Hl|..].
      - exists v, h. split; [done|]. left. unfold uid in E. cbn in E. destruct (id_ v), (id_ u). cbn in E. congruence.
      - exists v, h. apply account_model_elem in Hx; auto.
      - exists v, h. apply account_model_elem in Hx; auto. }
    exists (v, h). split; [by apply list_elem_of_In|]. cbn.
    rewrite !orb_true_iff, !bool_decide_eq_true. tauto.
Qed.

Lemma account_no_clash l u : existsb (clashes u) l = false ->
  Forall (fun x => id_ x.1 <> id_ u /\ username_ x.1 <> username_ u /\ email_ x.1 <> email_ u) l.
Proof.
  intros Hc. apply list.Forall_forall. intros x Hx%list_elem_of_In.
  assert (clashes u x <> true) as Hn.
  { intros E. assert (existsb (clashes u) l = true) by (apply existsb_exists; eauto). congruence. }
  unfold clashes in Hn. rewrite !orb_true_iff, !bool_decide_eq_true in Hn. tauto.
Qed.

Lemma account_save_inv l u h : inv l -> user_ok u -> existsb (clashes u) l = false -> inv (l ++ [(u, h)]).
Proof.
  intros [Hi Hn He Hu] Hok Hc. pose proof (account_no_clash l u Hc) as Hf. split.
  - apply NoDup_snoc; [done|]. eapply List.Forall_impl; [|exact Hf]. cbn. intros [v h'] (H1 & _) E.
    unfold uid in E. cbn in *. destruct (id_ v), (id_ u). cbn in E. congruence.
  - apply (NoDup_snoc (fun x => username_ x.1)); [done|]. eapply List.Forall_impl; [|exact Hf]. cbn. tauto.
  - apply (NoDup_snoc (fun x => email_ x.1)); [done|]. eapply List.Forall_impl; [|exact Hf]. cbn. tauto.
  - apply List.Forall_app. split; [done|]. constructor; [exact Hok|constructor].
Qed.

Lemma save_model l u h : existsb (clashes u) l = false ->
  model (l ++ [(u, h)]) = <[uid_value (id_ u) := (u, h)]> (model l).
Proof.
  intros Hc. apply (keyed_snoc uid l (u, h)). eapply List.Forall_impl; [|exact (account_no_clash l u Hc)].
  cbn. intros [v h'] (Hne & _) E. unfold uid in E. cbn in *. destruct (id_ v), (id_ u). cbn in E. congruence.
Qed.

Lemma keeps_counters f until : keeps_identity (fun x => (setLockout until f x.1, x.2)).
Proof. intros x. by split_and!. Qed.
Lemma keeps_mutable u : keeps_identity (fun x => (set_mutable u x.1, x.2)).
Proof. intros x. by split_and!. Qed.

Lemma amend_insert k f l x : keeps_identity f -> inv l -> model l !! k = Some x ->
  model (amend k f l) = <[k := f x]> (model l).
Proof.
  intros Hf Hl Hx. rewrite amend_model by done. apply map_eq. intros i. destruct (decide (i = k)) as [->|].
  - by rewrite lookup_alter_eq, lookup_insert_eq, Hx.
  - by rewrite lookup_alter_ne, lookup_insert_ne.
Qed.

Lemma amend_counters k f until l : inv l -> but_counters (model l) (model (amend k (fun x => (setLockout until f x.1, x.2)) l)).
Proof.
  intros Hl i u h. rewrite amend_model by (done || apply keeps_counters).
  destruct (decide (i = k)) as [->|Hne].
  - rewrite lookup_alter_eq, fmap_Some. intros ([v h'] & Hx & [= -> ->]). exists v. by split.
  - rewrite lookup_alter_ne by done. intros Hx. exists u. by split.
Qed.

#[global] Program Instance laws : UserRepositoryLaws t := { ur_model := model; ur_inv := inv }.
Next Obligation. exact table_ok_model. Qed.
Next Obligation.
  intros l id Hl. cbn. unfold findById, found. rewrite find_by_id by apply Hl.
  by destruct (model l !! _) as [[u h]|].
Qed.
Next Obligation.
  intros l n Hl. cbn. unfold findByUsername, found. pose proof (find_cases (fun x => bool_decide (username_ x.1 = n)) l) as Hf.
  destruct (List.find _ l) as [[u h]|].
  - left. destruct Hf as [Hx E%bool_decide_eq_true]. exists u, h. split; [|done].
    split; [by apply account_model_elem|done].
  - right. split; [|done]. intros u h [Hx%account_model_elem E]; [|done].
    specialize (Hf _ Hx). by apply bool_decide_eq_false in Hf.
Qed.
Next Obligation.
  intros l n Hl. cbn. unfold findByEmail, found. pose proof (find_cases (fun x => bool_decide (email_ x.1 = n)) l) as Hf.
  destruct (List.find _ l) as [[u h]|].
  - left. destruct Hf as [Hx E%bool_decide_eq_true]. exists u, h. split; [|done].
    split; [by apply account_model_elem|done].
  - right. split; [|done]. intros u h [Hx%account_model_elem E]; [|done].
    specialize (Hf _ Hx). by apply bool_decide_eq_false in Hf.
Qed.
Next Obligation.
  intros l u h Hl Hu. cbn. unfold save. pose proof (account_clash_conflict l u Hl) as Hc.
  destruct (existsb (clashes u) l) eqn:E; (eexists _, _; split; [reflexivity|]).
  - split; [done|]. left. split; [by apply Hc|]. split; [by eexists|done].
  - split; [by apply account_save_inv|]. right. split; [|split; [done|by apply save_model]].
    intros Hk%Hc. done.
Qed.
Next Obligation.
  intros l u u0 h Hl Hx En Em. cbn. unfold update. rewrite find_by_id, Hx by apply Hl.
  rewrite En, Em, !bool_decide_eq_true_2 by done. cbn. eexists. split; [reflexivity|].
  split; [apply amend_inv; [apply keeps_mutable|done]|].
  rewrite (amend_insert _ _ _ _ (keeps_mutable u) Hl Hx). cbn. unfold set_mutable.
  apply account_model_lookup in Hx as [_ Eid]; [|apply Hl]. unfold uid in Eid. cbn in Eid.
  rewrite <-En, <-Em. assert (id_ u0 = id_ u) as -> by (destruct (id_ u0), (id_ u); cbn in Eid; congruence).
  by destruct u.
Qed.
Next Obligation.
  intros l id n u h u' Hl Hx Hf. cbn. unfold recordLoginFailure. rewrite find_by_id, Hx, Hf by apply Hl.
  eexists. split; [reflexivity|]. split; [apply amend_inv; [apply keeps_counters|done]|].
  unfold counters. rewrite (amend_insert _ _ _ _ (keeps_counters _ _) Hl Hx). cbn. do 2 f_equal.
  unfold fail_login in Hf. destruct (add_i32 _ _); cbn in Hf; try done.
  destruct (if _ <=? _ then _ else _); cbn in Hf; try done. injection Hf as <-. done.
Qed.
Next Obligation.
  intros l id u h Hl Hx. cbn. eexists. split; [reflexivity|].
  split; [apply amend_inv; [apply keeps_counters|done]|]. unfold counters.
  by rewrite (amend_insert _ _ _ _ (keeps_counters _ _) Hl Hx).
Qed.
Next Obligation.
  intros l id n m Hm Hl. assert (but_counters (model l) (model l)) as Hrefl by (intros k u h Hk; eauto).
  destruct Hm as [-> | ->]; cbn.
  - unfold recordLoginFailure. destruct (List.find _ l) as [[u h]|]; [|done].
    destruct (fail_login u n); [|done..]. split; [apply amend_inv; [apply keeps_counters|done]|].
    by apply amend_counters.
  - split; [apply amend_inv; [apply keeps_counters|done]|]. by apply amend_counters.
Qed.
Next Obligation.
  intros l id u h Hl Hx. cbn. unfold getEncodedHash. by rewrite find_by_id, Hx by apply Hl.
Qed.
Next Obligation.
  intros l Hl. cbn. unfold listAll. eexists. split; [reflexivity|]. unfold model, keyed.
  rewrite map_to_list_to_map.
  - rewrite map_map. done.
  - rewrite <-list_fmap_compose. apply Hl.
Qed.
End AccountTable.

(** ** Calls

    The operations of a repository as data, so that a run is a list of calls and
    the list of their answers. *)
Inductive call :=
| ByName (n : str) | ByEmail (e : str) | ById (id : UserId)
| Save (u : User) (h : str) | Update (u : User) | UpdateHash (id : UserId) (h : str)
| Fails (id : UserId) (now : Z) | SetFails (id : UserId) (f until : Z) | Reset_ (id : UserId)
| GetHash (id : UserId).
Inductive answer := AUser (r : Result User) | ADone | AHash (h : str).

Record repository (S : Type) := MkRepository {
  r_byName : str -> M S (Result User); r_byEmail : str -> M S (Result User);
  r_byId : UserId -> M S (Result User); r_save : User -> str -> M S unit;
  r_update : User -> M S unit; r_updateHash : UserId -> str -> M S unit;
  r_fails : UserId -> Z -> M S unit; r_setFails : UserId -> Z -> Z -> M S unit;
  r_reset : UserId -> M S unit; r_getHash : UserId -> M S str
}.
Arguments r_byName {S}. Arguments r_byEmail {S}. Arguments r_byId {S}. Arguments r_save {S}.
Arguments r_update {S}. Arguments r_updateHash {S}. Arguments r_fails {S}. Arguments r_setFails {S}.
Arguments r_reset {S}. Arguments r_getHash {S}.

Definition perform {S} (r : repository S) (c : call) : M S answer :=
  match c with
  | ByName n => x ← r_byName r n; mret (AUser x)
  | ByEmail e => x ← r_byEmail r e; mret (AUser x)
  | ById id => x ← r_byId r id; mret (AUser x)
  | Save u h => _ ← r_save r u h; mret ADone
  | Update u => _ ← r_update r u; mret ADone
  | UpdateHash id h => _ ← r_updateHash r id h; mret ADone
  | Fails id n => _ ← r_fails r id n; mret ADone
  | SetFails id f l => _ ← r_setFails r id f l; mret ADone
  | Reset_ id => _ ← r_reset r id; mret ADone
  | GetHash id => x ← r_getHash r id; mret (AHash x)
  end.

(** The calls one after the other: an exception goes to its caller. *)
Fixpoint play {S} (r : repository S) (cs : list call) (s : S) : list (outcome answer) * S :=
  match cs with
  | [] => ([], s)
  | c :: cs' =>
      let '(o, s1) := perform r c s in
      let '(os, s2) := play r cs' s1 in (o :: os, s2)
  end.

(** A repository of the ports, and the one over a database. *)
Definition of_port {R} `{!IUserRepository R} : repository R :=
  MkRepository R (fun n => reads (findByUsername n)) (fun e => reads (findByEmail e))
    (fun id => reads (findById id)) saveUser update updateHash recordLoginFailure setLoginFailure
    resetLoginFailures (fun id => reads (getEncodedHash id)).
Definition of_database {D} `{!Sqlite D} : repository D :=
  MkRepository D SqliteUserRepository.findByUsername SqliteUserRepository.findByEmail
    SqliteUserRepository.findById SqliteUserRepository.save SqliteUserRepository.update
    SqliteUserRepository.updateHash SqliteUserRepository.recordLoginFailure
    SqliteUserRepository.setLoginFailure SqliteUserRepository.resetLoginFailures
    SqliteUserRepository.getEncodedHash.

(** ** The repository implements the list *)
Section Refinement.
Context {D : Type} `{!Sqlite D} `{!SqliteLaws D SqliteUserRepository.users_sql}.
Import SqliteUserRepository AccountTable.

(** Numbers that fit their column. *)
Definition int_ok (n : Z) : Prop := - 2 ^ 31 <= n < 2 ^ 31.
Record clean_account (x : User * str) : Prop := {
  cl_id : clean (uid x);
  cl_name : clean (username_ x.1);
  cl_email : clean (email_ x.1);
  cl_hash : clean x.2;
  cl_role : clean (role_ x.1);
  cl_status : clean (status_ x.1);
  cl_count : int_ok (failedAttempts_ x.1);
  cl_ok : user_ok x.1
}.

Definition user_row (x : User * str) : row :=
  [VText (uid x); VText (username_ x.1); VText (email_ x.1); VText x.2; VText (role_ x.1);
   VText (status_ x.1); VInt (failedAttempts_ x.1); VInt (lockoutUntil_ x.1)].

(** The database holds the accounts, no transaction is open, the engine is well. *)
Record holds (l : AccountTable.t) (d : D) : Prop := {
  ho_view : view_of d = MkView (map user_row l) None;
  ho_reliable : reliable d;
  ho_clean : Forall clean_account l;
  ho_inv : inv l
}.

(** *** Reading one account *)
Lemma select_where (d : D) l sql k i g p :
  reliable d -> now (view_of d) = map user_row l ->
  users_sql sql [VText k] (map user_row l) =
    Some (Rows (map g (List.filter (where_ i (VText k)) (map user_row l)))) ->
  (forall x, where_ i (VText k) (user_row x) = p x) ->
  exists st d', reliable d' /\ view_of d' = view_of d /\
    ((exists x rest, first_step sql [VText k] d = (Ok (Some (ROW, st)), d')
        /\ readable st (g (user_row x)) rest /\ x ∈ l /\ p x = true)
     \/ (first_step sql [VText k] d = (Ok (Some (DONE, st)), d') /\ forall x, x ∈ l -> p x = false)).
Proof. intros. by eapply select_run. Qed.

Lemma read_user_run st x rest : readable st (profile (user_row x)) rest -> clean_account x ->
  read_user st = Ok x.1.
Proof.
  intros Hrow [Hi Hn He _ Hr Hs Hf Hok].
  unfold read_user, column_int, column_int64.
  rewrite !(readable_text _ _ _ _ Hrow), !(readable_column _ _ _ _ Hrow). cbn.
  rewrite !c_str_id by done. mred. rewrite new_User_ok by apply Hok. rewrite to_int_id by apply Hf.
  destruct x as [[[] ? ? ? ? ? ?] ?]. done.
Qed.

(** *** Each operation *)
Definition agrees {X} (m : M D X) (m' : M AccountTable.t X) : Prop := forall d l, holds l d ->
  match m' l with
  | (Undef, _) => True
  | (o, l') => exists d', m d = (o, d') /\ holds l' d'
  end.

Lemma account_holds_view l (d d' : D) : holds l d -> view_of d' = view_of d -> reliable d' -> holds l d'.
Proof. intros [Hv Hr Hc Hi] Hv' Hr'. split; [by rewrite Hv'|done..]. Qed.

Lemma account_clean_in l d x : holds l d -> x ∈ l -> clean_account x.
Proof. intros Hl. apply (proj1 (list.Forall_forall _ _) (ho_clean _ _ Hl)). Qed.

(** A lookup by a column whose values are distinct. *)
Lemma find_agrees col k i (f : User * str -> str) : clean k ->
  (forall t, users_sql (select_by col) [VText k] t =
     Some (Rows (map profile (List.filter (where_ i (VText k)) t)))) ->
  (forall x, cell i (user_row x) = VText (f x)) ->
  (forall l x y, inv l -> x ∈ l -> y ∈ l -> f x = f y -> x = y) ->
  agrees (findByColumn col k) (reads (fun l => found (List.find (fun x => bool_decide (f x = k)) l))).
Proof.
  intros Hk Hsql Hcell Hinj d l Hl. unfold reads, found.
  destruct (select_where d l _ k i profile (fun x => bool_decide (f x = k)) (ho_reliable _ _ Hl)
    ltac:(by rewrite (ho_view _ _ Hl)) (Hsql _) ltac:(intros x; by apply where_text))
    as (st & d' & Hd' & Hv' & Ho).
  exists d'. split; [|by apply (account_holds_view l d)]. unfold findByColumn. rewrite (text_clean k Hk).
  destruct Ho as [(x & rest & E & Hrow & Hx & Hp)|[E Hn]].
  - rewrite (M_bind_run _ _ _ _ _ E). unfold liftO. rewrite M_bind_eq, (read_user_run _ _ _ Hrow (account_clean_in _ _ _ Hl Hx)).
    rewrite (find_unique _ l x); [done| |done..]. apply bool_decide_eq_true in Hp.
    intros y Hy Hpy%bool_decide_eq_true. apply (Hinj l); [apply Hl|done..|congruence].
  - rewrite (M_bind_run _ _ _ _ _ E), find_absent by done. done.
Qed.

Lemma findById_agrees id : clean (uid_value id) ->
  agrees (SqliteUserRepository.findById id) (reads (AccountTable.findById id)).
Proof.
  intros Hk. apply (find_agrees "id" _ 0 uid); [done..| |].
  - done.
  - intros l x y Hi. apply NoDup_pick, Hi.
Qed.
Lemma findByUsername_agrees n : clean n ->
  agrees (SqliteUserRepository.findByUsername n) (reads (AccountTable.findByUsername n)).
Proof.
  intros Hk. apply (find_agrees "username" _ 1 (fun x => username_ x.1)); [done..| |].
  - done.
  - intros l x y Hi. apply (NoDup_pick (fun x => username_ x.1)), Hi.
Qed.
Lemma findByEmail_agrees e : clean e ->
  agrees (SqliteUserRepository.findByEmail e) (reads (AccountTable.findByEmail e)).
Proof.
  intros Hk. apply (find_agrees "email" _ 2 (fun x => email_ x.1)); [done..| |].
  - done.
  - intros l x y Hi. apply (NoDup_pick (fun x => email_ x.1)), Hi.
Qed.

Lemma uid_inj l x y : inv l -> x ∈ l -> y ∈ l -> uid x = uid y -> x = y.
Proof. intros Hi. apply NoDup_pick, Hi. Qed.

Lemma where_uid k x : where_ 0 (VText k) (user_row x) = by_id k x.
Proof. by apply where_text. Qed.

Lemma find_id_unique l k x : inv l -> x ∈ l -> by_id k x = true -> List.find (by_id k) l = Some x.
Proof.
  intros Hi Hx Hp. apply find_unique; [|done..]. apply bool_decide_eq_true in Hp.
  intros y Hy Hpy%bool_decide_eq_true. apply (uid_inj l); [done..|]. congruence.
Qed.

Lemma getEncodedHash_agrees id : clean (uid_value id) ->
  agrees (SqliteUserRepository.getEncodedHash id) (reads (AccountTable.getEncodedHash id)).
Proof.
  intros Hk d l Hl. unfold reads, AccountTable.getEncodedHash.
  destruct (select_where d l select_hash_sql (uid_value id) 0 (fun r => [cell 3 r]) (by_id (uid_value id))
    (ho_reliable _ _ Hl) ltac:(by rewrite (ho_view _ _ Hl)) eq_refl (where_uid _))
    as (st & d' & Hd' & Hv' & Ho).
  unfold SqliteUserRepository.getEncodedHash. rewrite (text_clean _ Hk).
  destruct Ho as [(x & rest & E & Hrow & Hx & Hp)|[E Hn]].
  - rewrite (find_id_unique l _ x (ho_inv _ _ Hl) Hx Hp). exists d'. split; [|by apply (account_holds_view l d)].
    rewrite (M_bind_run _ _ _ _ _ E). rewrite (readable_text _ _ _ 0%nat Hrow). cbn.
    rewrite c_str_id by apply (account_clean_in _ _ _ Hl Hx). done.
  - rewrite find_absent by done. exists d'. split; [|by apply (account_holds_view l d)].
    by rewrite (M_bind_run _ _ _ _ _ E).
Qed.

(** *** Writing *)
Lemma updated_rows k f g l : (forall x, f (user_row x) = user_row (g x)) ->
  updated (where_ 0 (VText k)) f (map user_row l) =
  Changed (map user_row (amend k g l)) (zlen (List.filter (by_id k) l)).
Proof.
  intros Hf. unfold updated, amend. f_equal.
  - rewrite !map_map. apply map_ext. intros x. rewrite where_uid. by destruct (by_id k x).
  - rewrite (filter_rows user_row _ (by_id k)) by apply where_uid. unfold zlen. by rewrite length_map.
Qed.

Lemma filter_count l k : inv l ->
  zlen (List.filter (by_id k) l) = match List.find (by_id k) l with Some _ => 1 | None => 0 end.
Proof.
  intros [Hi _ _ _]. induction l as [|x l IH]; [done|]. apply list.NoDup_cons in Hi as [Hx Hi].
  cbn [List.filter List.find]. destruct (by_id k x) eqn:Ek; [|by apply IH].
  rewrite zlen_cons. assert (List.filter (by_id k) l = []) as ->; [|done].
  apply bool_decide_eq_true in Ek. destruct (List.filter (by_id k) l) as [|y r] eqn:Ef; [done|].
  assert (y ∈ List.filter (by_id k) l) as Hy by (rewrite Ef; left).
  apply list_elem_of_In, filter_In in Hy as [Hy Hk%bool_decide_eq_true]. destruct Hx.
  rewrite Ek, <-Hk. apply list_elem_of_fmap. exists y. split; [done|by apply list_elem_of_In].
Qed.

Lemma amend_clean k f l : (forall x, clean_account x -> clean_account (f x)) ->
  Forall clean_account l -> Forall clean_account (amend k f l).
Proof.
  intros Hf Hl. unfold amend. apply List.Forall_map. eapply List.Forall_impl; [|exact Hl].
  intros x Hx. destruct (by_id k x); auto.
Qed.

(** An UPDATE in an open transaction, up to its step. *)
Lemma write_run (d : D) l b sql args k f g :
  reliable d -> view_of d = MkView (map user_row l) b ->
  users_sql sql args (map user_row l) = Some (updated (where_ 0 (VText k)) f (map user_row l)) ->
  (forall x, f (user_row x) = user_row (g x)) ->
  exists st d', first_step sql args d = (Ok (Some (DONE, st)), d') /\ reliable d'
    /\ view_of d' = MkView (map user_row (amend k g l)) b
    /\ changes_of d' = zlen (List.filter (by_id k) l).
Proof.
  intros Hd Hv Hsql Hf. rewrite (updated_rows k f g l Hf) in Hsql.
  assert (users_sql sql args (now (view_of d)) = Some (Changed (map user_row (amend k g l))
    (zlen (List.filter (by_id k) l)))) as Hsql' by (by rewrite Hv).
  destruct (step_write d sql args _ _ Hd Hsql') as (st & d' & E & Hd' & Hv' & Hn).
  exists st, d'. split; [exact E|]. split; [exact Hd'|]. split; [|exact Hn]. by rewrite Hv', Hv.
Qed.

(** The whole of a transaction around an UPDATE. *)
Lemma amend_holds l d k g : holds l d -> keeps_identity g ->
  (forall x, clean_account x -> clean_account (g x)) ->
  forall d', reliable d' -> view_of d' = MkView (map user_row (amend k g l)) None -> holds (amend k g l) d'.
Proof.
  intros Hl Hg Hc d' Hd' Hv'. split; [done..| |].
  - apply amend_clean; [done|apply Hl].
  - apply amend_inv; [done|apply Hl].
Qed.

Lemma save_agrees u h : clean_account (u, h) ->
  agrees (SqliteUserRepository.save u h) (AccountTable.save u h).
Proof.
  intros Hc d l Hl. unfold AccountTable.save, SqliteUserRepository.save.
  destruct (begin_run d _ (ho_reliable _ _ Hl) (ho_view _ _ Hl)) as (d1 & E1 & Hd1 & Hv1).
  rewrite (M_bind_run _ _ _ _ _ E1).
  rewrite !text_clean by apply Hc.
  assert (forall t, users_sql insert_sql (user_row (u, h)) t =
    Some (if violates (user_row (u, h)) t then Refused else Changed (t ++ [user_row (u, h)]) 1)) as Hsql by done.
  assert (violates (user_row (u, h)) (map user_row l) = existsb (clashes u) l) as Hvio.
  { unfold violates. cbn [user_row drop existsb]. rewrite !bool_decide_eq_false_2 by done. cbn [orb].
    clear -l. induction l as [|x l IH]; [done|]. cbn [map existsb]. rewrite IH. f_equal.
    unfold clashes, sql_eq. cbn [cell user_row lookup list_lookup default from_option].
    change (cell 0 (user_row x)) with (VText (uid x)). change (cell 1 (user_row x)) with (VText (username_ x.1)).
    change (cell 2 (user_row x)) with (VText (email_ x.1)). cbn.
    rewrite !(bool_decide_eq_false_2 (_ = VNull)) by done. cbn. rewrite !andb_true_r.
    f_equal; [f_equal|]; apply bool_decide_ext; [|by split; [intros [= E]|intros ->]..].
    unfold uid. cbn. destruct (id_ x.1), (id_ u). cbn. by split; [intros [= ->]|intros [= ->]]. }
  destruct (existsb (clashes u) l) eqn:Ecl.
  - destruct (step_refused d1 insert_sql (user_row (u, h)) Hd1) as (st & d2 & E2 & Hd2 & Hv2).
    { rewrite Hv1. cbn [now]. by rewrite Hsql, Hvio. }
    rewrite (M_bind_run _ _ _ _ _ E2). rewrite Hv1 in Hv2.
    destruct (rollback_run (X:=unit) d2 (ValidationException "username or email exists") _ _ Hd2 Hv2)
      as (d3 & E3 & Hd3 & Hv3).
    exists d3. split; [exact E3|]. split; [done..|apply Hl|apply Hl].
  - destruct (step_write d1 insert_sql (user_row (u, h)) (map user_row l ++ [user_row (u, h)]) 1 Hd1)
      as (st & d2 & E2 & Hd2 & Hv2 & _).
    { rewrite Hv1. cbn [now]. by rewrite Hsql, Hvio. }
    rewrite (M_bind_run _ _ _ _ _ E2). rewrite Hv1 in Hv2.
    destruct (commit_run d2 _ _ Hd2 Hv2) as (d3 & E3 & Hd3 & Hv3).
    exists d3. split; [exact E3|]. split; [|done|..].
    + rewrite Hv3, map_app. done.
    + apply List.Forall_app. split; [apply Hl|]. by constructor.
    + apply account_save_inv; [apply Hl|apply Hc|done].
Qed.

Lemma counters_clean f until x : int_ok f -> clean_account x -> clean_account (setLockout until f x.1, x.2).
Proof. intros Hf [? ? ? ? ? ? ? ?]. by split. Qed.

(** From an open transaction that has not written yet to its commit. *)
Lemma write_counters_run (d : D) d0 l id f until : holds l d0 -> clean (uid_value id) -> int_ok f ->
  reliable d -> view_of d = MkView (map user_row l) (Some (map user_row l)) ->
  match List.find (by_id (uid_value id)) l with
  | Some _ => exists d', write_counters id f until d = (Ok tt, d') /\ holds (counters id f until l) d'
  | None => exists d', write_counters id f until d = (Throw (RuntimeError "no row updated"), d') /\ holds l d'
  end.
Proof.
  intros Hl Hk Hf Hd Hv.
  destruct (write_run d l _ update_counters_sql [VInt f; VInt until; VText (uid_value id)] (uid_value id)
    (fun r => <[6%nat := VInt f]> (<[7%nat := VInt until]> r)) (fun x => (setLockout until f x.1, x.2)) Hd Hv)
    as (st & d1 & E1 & Hd1 & Hv1 & Hn); [done..|].
  destruct (law_changes d1) as (d2 & E2 & Hv2 & Hr2).
  unfold write_counters. rewrite (text_clean _ Hk), (M_bind_run _ _ _ _ _ E1), (M_bind_run _ _ _ _ _ E2).
  rewrite Hn, filter_count by apply Hl. rewrite Hv1 in Hv2.
  destruct (List.find _ l).
  - destruct (commit_run d2 _ _ (Hr2 Hd1) Hv2) as (d3 & E3 & Hd3 & Hv3). exists d3. split; [exact E3|].
    apply (amend_holds l d0); [done|apply keeps_counters| |done..]. intros x. by apply counters_clean.
  - destruct (rollback_run (X:=unit) d2 (RuntimeError "no row updated") _ _ (Hr2 Hd1) Hv2) as (d3 & E3 & Hd3 & Hv3).
    exists d3. split; [exact E3|]. by apply (account_holds_view l d0); [|rewrite Hv3, (ho_view _ _ Hl)|].
Qed.

Lemma setLoginFailure_agrees id f until : clean (uid_value id) -> int_ok f ->
  agrees (SqliteUserRepository.setLoginFailure id f until) (AccountTable.setLoginFailure id f until).
Proof.
  intros Hk Hf d l Hl. unfold AccountTable.setLoginFailure, SqliteUserRepository.setLoginFailure.
  destruct (begin_run d _ (ho_reliable _ _ Hl) (ho_view _ _ Hl)) as (d1 & E1 & Hd1 & Hv1).
  rewrite (M_bind_run _ _ _ _ _ E1).
  pose proof (write_counters_run d1 d l id f until Hl Hk Hf Hd1 Hv1) as Hw. by destruct (List.find _ l).
Qed.

Lemma recordLoginFailure_agrees id time : clean (uid_value id) ->
  agrees (SqliteUserRepository.recordLoginFailure id time) (AccountTable.recordLoginFailure id time).
Proof.
  intros Hk d l Hl. unfold AccountTable.recordLoginFailure, SqliteUserRepository.recordLoginFailure.
  destruct (begin_run d _ (ho_reliable _ _ Hl) (ho_view _ _ Hl)) as (d1 & E1 & Hd1 & Hv1).
  rewrite (M_bind_run _ _ _ _ _ E1). rewrite (text_clean _ Hk).
  destruct (select_where d1 l select_counters_sql (uid_value id) 0 (fun r => [cell 6 r; cell 7 r])
    (by_id (uid_value id)) Hd1 ltac:(by rewrite Hv1) eq_refl (where_uid _)) as (st & d2 & Hd2 & Hv2 & Ho).
  destruct Ho as [(x & rest & E & Hrow & Hx & Hp)|[E Hn]].
  - pose proof (find_id_unique l _ x (ho_inv _ _ Hl) Hx Hp) as Hfind. rewrite Hfind.
    pose proof (account_clean_in _ _ _ Hl Hx) as Hcx. destruct x as [u h].
    rewrite (M_bind_run _ _ _ _ _ E). unfold column_int, column_int64.
    assert (sqlite3_column st 0 = VInt (failedAttempts_ u)) as -> by exact (readable_column _ _ _ 0%nat Hrow).
    assert (sqlite3_column st 1 = VInt (lockoutUntil_ u)) as -> by exact (readable_column _ _ _ 1%nat Hrow).
    rewrite to_int_id by apply Hcx.
    unfold fail_login. change (15 * 60 * 1000) with lockout_ms.
    assert (add_i32 (failedAttempts_ u) 1 =
      if int32_ok (failedAttempts_ u + 1) then Ok (failedAttempts_ u + 1) else Undef) as -> by done.
    assert (add_i64 time lockout_ms = if int64_ok (time + lockout_ms) then Ok (time + lockout_ms) else Undef)
      as -> by done.
    destruct (int32_ok (failedAttempts_ u + 1)) eqn:Ei; [|done].
    assert (int_ok (failedAttempts_ u + 1)) as Hi.
    { unfold int32_ok in Ei. apply andb_true_iff in Ei as [H1%Z.leb_le H2%Z.ltb_lt]. by split. }
    assert (forall until, exists d', write_counters id (failedAttempts_ u + 1) until d2 = (Ok tt, d')
              /\ holds (counters id (failedAttempts_ u + 1) until l) d') as Hw.
    { intros til. pose proof (write_counters_run d2 d l id (failedAttempts_ u + 1) til Hl Hk Hi Hd2
        ltac:(by rewrite Hv2)) as Hw. by rewrite Hfind in Hw. }
    mred. destruct (5 <=? failedAttempts_ u + 1); [destruct (int64_ok _); [|done]|]; mred; apply Hw.
  - rewrite find_absent by done. rewrite (M_bind_run _ _ _ _ _ E). rewrite Hv1 in Hv2.
    destruct (rollback_run (X:=unit) d2 (NotFoundException "not found") _ _ Hd2 Hv2) as (d3 & E3 & Hd3 & Hv3).
    exists d3. split; [exact E3|]. by apply (account_holds_view l d); [|rewrite Hv3, (ho_view _ _ Hl)|].
Qed.

(** An UPDATE alone between BEGIN and COMMIT. *)
Lemma plain_update_run d l sql args k f g (body : option (rc * Stmt) -> M D unit) :
  holds l d -> keeps_identity g -> (forall x, clean_account x -> clean_account (g x)) ->
  (forall t, users_sql sql args t = Some (updated (where_ 0 (VText k)) f t)) ->
  (forall x, f (user_row x) = user_row (g x)) ->
  (forall st, body (Some (DONE, st)) = exec "COMMIT;") ->
  exists d', (_ ← exec "BEGIN IMMEDIATE;"; r ← first_step sql args; body r) d = (Ok tt, d')
    /\ holds (amend k g l) d'.
Proof.
  intros Hl Hg Hc Hsql Hf Hbody.
  destruct (begin_run d _ (ho_reliable _ _ Hl) (ho_view _ _ Hl)) as (d1 & E1 & Hd1 & Hv1).
  rewrite (M_bind_run _ _ _ _ _ E1).
  destruct (write_run d1 l _ sql args k f g Hd1 Hv1 (Hsql _) Hf) as (st & d2 & E2 & Hd2 & Hv2 & _).
  rewrite (M_bind_run _ _ _ _ _ E2), Hbody.
  destruct (commit_run d2 _ _ Hd2 Hv2) as (d3 & E3 & Hd3 & Hv3). exists d3. split; [exact E3|].
  by apply (amend_holds l d).
Qed.

Lemma resetLoginFailures_agrees id : clean (uid_value id) ->
  agrees (SqliteUserRepository.resetLoginFailures id) (AccountTable.resetLoginFailures id).
Proof.
  intros Hk d l Hl. unfold SqliteUserRepository.resetLoginFailures. rewrite (text_clean _ Hk).
  destruct (plain_update_run d l reset_sql [VText (uid_value id)] (uid_value id)
    (fun r => <[6%nat := VInt 0]> (<[7%nat := VInt 0]> r)) (fun x => (setLockout 0 0 x.1, x.2))
    (fun r => match r with
              | None => rollback (RuntimeError "prepare failed")
              | Some (DONE, _) => exec "COMMIT;"
              | Some _ => rollback (RuntimeError "reset failed")
              end) Hl (keeps_counters 0 0)) as (d' & E & Hh); [|done..|by exists d'].
  intros x. by apply counters_clean.
Qed.

Lemma updateHash_agrees id h : clean (uid_value id) -> clean h ->
  agrees (SqliteUserRepository.updateHash id h) (AccountTable.updateHash id h).
Proof.
  intros Hk Hh d l Hl. unfold SqliteUserRepository.updateHash. rewrite !text_clean by done.
  destruct (plain_update_run d l update_hash_sql [VText h; VText (uid_value id)] (uid_value id)
    (fun r => <[3%nat := VText h]> r) (fun x => (x.1, h)) (fun _ => exec "COMMIT;") Hl)
    as (d' & E & Hh'); [| |done..|by exists d'].
  - intros x. by split_and!.
  - intros x [? ? ? ? ? ? ? ?]. by split.
Qed.

Lemma update_agrees u : clean (uid_value (id_ u)) -> clean (role_ u) -> clean (status_ u) ->
  int_ok (failedAttempts_ u) ->
  agrees (SqliteUserRepository.update u) (AccountTable.update u).
Proof.
  intros Hk Hr Hs Hf d l Hl. unfold SqliteUserRepository.update, AccountTable.update.
  pose proof (findById_agrees (id_ u) Hk d l Hl) as Hfind. unfold reads, AccountTable.findById, found in Hfind.
  destruct Hfind as (d1 & E1 & Hl1). rewrite (M_bind_run _ _ _ _ _ E1).
  destruct (List.find _ l) as [[old h]|]; cbn; [|by exists d1].
  destruct (negb _ || negb _); [by exists d1|]. rewrite !text_clean by done.
  destruct (plain_update_run d1 l update_sql
    [VText (role_ u); VText (status_ u); VInt (failedAttempts_ u); VInt (lockoutUntil_ u); VText (uid_value (id_ u))]
    (uid_value (id_ u))
    (fun r => <[4%nat := VText (role_ u)]> (<[5%nat := VText (status_ u)]>
                (<[6%nat := VInt (failedAttempts_ u)]> (<[7%nat := VInt (lockoutUntil_ u)]> r))))
    (fun x => (set_mutable u x.1, x.2))
    (fun r => match r with
              | None => rollback (RuntimeError "prepare failed")
              | Some (DONE, _) => exec "COMMIT;"
              | Some _ => rollback (RuntimeError "update failed")
              end) Hl1 (keeps_mutable u)) as (d' & E & Hh); [|done..|by exists d'].
  intros x [? ? ? ? ? ? ? ?]. by split.
Qed.

(** *** Runs *)
Definition clean_call (c : call) : Prop :=
  match c with
  | ByName s | ByEmail s => clean s
  | ById id | Fails id _ | Reset_ id | GetHash id => clean (uid_value id)
  | Save u h => clean_account (u, h)
  | Update u => clean (uid_value (id_ u)) /\ clean (role_ u) /\ clean (status_ u) /\ int_ok (failedAttempts_ u)
  | UpdateHash id h => clean (uid_value id) /\ clean h
  | SetFails id f _ => clean (uid_value id) /\ int_ok f
  end.

Lemma agrees_then {X} (m : M D X) (m' : M AccountTable.t X) (f : X -> answer) :
  agrees m m' -> agrees (x ← m; mret (f x)) (x ← m'; mret (f x)).
Proof.
  intros Hm d l Hl. specialize (Hm d l Hl). rewrite M_bind_eq.
  destruct (m' l) as [[x|e|] l']; [| |done].
  - destruct Hm as (d' & E & Hl'). exists d'. by rewrite (M_bind_run _ _ _ _ _ E).
  - destruct Hm as (d' & E & Hl'). exists d'. by rewrite M_bind_eq, E.
Qed.

Lemma perform_agrees c : clean_call c -> agrees (perform of_database c) (perform of_port c).
Proof.
  intros Hc. destruct c; apply agrees_then; cbn in *.
  - by apply findByUsername_agrees.
  - by apply findByEmail_agrees.
  - by apply findById_agrees.
  - by apply save_agrees.
  - destruct Hc as (? & ? & ? & ?). by apply update_agrees.
  - destruct Hc. by apply updateHash_agrees.
  - by apply recordLoginFailure_agrees.
  - destruct Hc. by apply setLoginFailure_agrees.
  - by apply resetLoginFailures_agrees.
  - by apply getEncodedHash_agrees.
Qed.

(** C16: The SQLite repository implements its specification: on any sequence of
    calls whose strings hold no NUL, as long as the engine does not fail, every
    call answers (values, exceptions and their messages) as the list of accounts
    does, which satisfies the contract every service is proved against, and the
    database holds exactly the list's accounts after it, with no transaction left
    open; statements, parameters and transactions do not show. *)
Theorem sqlite_implements_accounts cs d l :
  holds l d -> Forall clean_call cs -> Undef ∉ (play of_port cs l).1 ->
  (play of_database cs d).1 = (play of_port cs l).1 /\
  holds (play of_port cs l).2 (play of_database cs d).2.
Proof.
  revert d l. induction cs as [|c cs IH]; intros d l Hl Hcs Hu; [done|].
  apply list.Forall_cons in Hcs as [Hc Hcs]. pose proof (perform_agrees c Hc d l Hl) as Hp. cbn [play] in *.
  destruct (perform of_port c l) as [o l1].
  destruct (play of_port cs l1) as [os l2] eqn:Ep. cbn in Hu. apply not_elem_of_cons in Hu as [Ho Hu].
  assert (exists d1, perform of_database c d = (o, d1) /\ holds l1 d1) as (d1 & Ed & Hl1)
    by (by destruct o).
  specialize (IH d1 l1 Hl1 Hcs). rewrite Ep in IH. rewrite Ed.
  destruct (play of_database cs d1) as [os' d2]. destruct (IH Hu) as [E Hl2]. cbn in *. by rewrite E.
Qed.

(** *** Listing *)
Lemma listAll_run l d fuel : holds l d -> (length l <= fuel)%nat ->
  exists us d', SqliteUserRepository.listAll fuel d = (Ok us, d') /\ us ≡ₚ map fst l /\ holds l d'.
Proof.
  intros Hl Hf.
  destruct (select_list_run (fun st => u ← read_user st; Ok [u]) (fun x => profile (user_row x)) (fun x => [x.1])
    fuel select_all_sql [] l d (ho_reliable _ _ Hl)) as (zs & d' & E & Hz & Hd' & Hv'); [|done| |].
  - rewrite (ho_view _ _ Hl). cbn [now]. by rewrite <-(map_map user_row profile).
  - intros st y rest Hy Hrow. by rewrite (read_user_run st y rest Hrow (account_clean_in _ _ _ Hl Hy)).
  - exists (zs ≫= (fun x => [x.1])), d'. split; [exact E|]. split; [|by apply (account_holds_view l d)].
    rewrite bind_one. by rewrite Hz.
Qed.
End Refinement.

(** ** All or nothing

    On an engine that may fail at every call, binds and columns included, over a
    table with any contents. *)
Section Atomicity.
Context {D : Type} `{!Sqlite D} `{!SqliteLaws D SqliteUserRepository.users_sql}.
Import SqliteUserRepository.

Definition int_of (v : value) : Z := match v with VInt z => z | _ => 0 end.
Definition save_args (u : User) (h : str) : list value :=
  [text (uid_value (id_ u)); text (username_ u); text (email_ u); text h;
   text (role_ u); text (status_ u); VInt (failedAttempts_ u); VInt (lockoutUntil_ u)].

(** The statement a call writes with, on the table [t]: a login failure adds one
    to the counter of a row of the account, and locks it from the fifth on. *)
Inductive writes (t : table) : call -> str -> list value -> Prop :=
| w_save u h : writes t (Save u h) insert_sql (save_args u h)
| w_update u : writes t (Update u) update_sql
    [text (role_ u); text (status_ u); VInt (failedAttempts_ u); VInt (lockoutUntil_ u); text (uid_value (id_ u))]
| w_hash id h : writes t (UpdateHash id h) update_hash_sql [text h; text (uid_value id)]
| w_fails id time r : r ∈ t -> where_ 0 (text (uid_value id)) r = true ->
    writes t (Fails id time) update_counters_sql
      [VInt (to_int (int_of (cell 6 r)) + 1);
       VInt (if 5 <=? to_int (int_of (cell 6 r)) + 1 then time + 15 * 60 * 1000 else int_of (cell 7 r));
       text (uid_value id)]
| w_set id f l : writes t (SetFails id f l) update_counters_sql [VInt f; VInt l; text (uid_value id)]
| w_reset id : writes t (Reset_ id) reset_sql [text (uid_value id)].

Definition a_write (c : call) : bool :=
  match c with Save _ _ | Update _ | UpdateHash _ _ | Fails _ _ | SetFails _ _ _ | Reset_ _ => true | _ => false end.
Definition may_be_lost (c : call) : bool :=
  match c with Update _ | UpdateHash _ _ | Reset_ _ => true | _ => false end.

(** What a call that returned has made of the table [t]; [well] says that no call
    of the engine failed. *)
Inductive left_by (well : Prop) (c : call) (t : table) : table -> Prop :=
| left_done sql args t' n : writes t c sql args -> users_sql sql args t = Some (Changed t' n) -> left_by well c t t'
| left_lost : may_be_lost c = true -> ~ well -> left_by well c t t
| left_nameless u h : c = Save u h -> ~ well -> violates (VNull :: tl (save_args u h)) t = false ->
    left_by well c t (t ++ [VNull :: tl (save_args u h)]).

(** How a call that started from [t], with no transaction open, may end. *)
Definition all_or_nothing {X} (well : Prop) (c : call) (t : table) (r : outcome X * D) : Prop :=
  atomic (left_by well c t) t r.

(** *** Parameters left NULL

    An UPDATE that came through changed nothing, or all its parameters are bound. *)
Lemma updating_cases vals vals' k k' f t t' n : bound_as vals vals' -> k' = k \/ k' = VNull ->
  updating vals' (where_ 0 k') f t = Changed t' n -> (n = 0 /\ t' = t) \/ (vals' = vals /\ k' = k).
Proof.
  intros Hb Hk E. unfold updating, updated in E.
  assert (existsb (where_ 0 k') t = false -> n = 0 /\ t' = t) as Hnone.
  { intros Hn. rewrite Hn, andb_false_r in E. injection E as <- <-. clear -Hn.
    induction t as [|r t IH]; [done|]. cbn in Hn |- *. apply orb_false_iff in Hn as [-> Hn].
    destruct (IH Hn) as [Hz Ht]. by rewrite Ht. }
  destruct Hk as [->| ->].
  - destruct (existsb (where_ 0 k) t) eqn:Ex; [|by left; apply Hnone]. right. split; [|done].
    rewrite andb_true_r in E. destruct (existsb is_null vals') eqn:Ev; [done|]. by apply bound_as_full.
  - left. apply Hnone. clear. induction t as [|r t IH]; [done|]. cbn. by rewrite where_null.
Qed.

(** Every UPDATE of the repository is one of [updating], its key the last parameter. *)
Definition updates (sql : str) (vals : list value) (k : value) : Prop :=
  forall args' t, bound_as (vals ++ [k]) args' -> exists vals' k' f, args' = vals' ++ [k'] /\
    bound_as vals vals' /\ (k' = k \/ k' = VNull) /\ users_sql sql args' t = Some (updating vals' (where_ 0 k') f t).

Ltac an_update := intros args' t Hb; cbn [app] in Hb; bound_cells;
  match goal with |- exists _ _ _, ?l = _ /\ _ =>
    exists (removelast l), (List.last l VNull); eexists end;
  split; [reflexivity|]; split; [repeat first [apply List.Forall2_nil | apply List.Forall2_cons; [assumption|]]|]; split; [assumption|reflexivity].

Lemma update_updates a b c d k : updates update_sql [a; b; c; d] k.
Proof. an_update. Qed.
Lemma hash_updates h k : updates update_hash_sql [h] k.
Proof. an_update. Qed.
Lemma counters_updates f l k : updates update_counters_sql [f; l] k.
Proof. an_update. Qed.
Lemma reset_updates k : updates reset_sql [] k.
Proof. an_update. Qed.

Lemma updates_write sql vals k t : updates sql vals k -> write_sql (run := users_sql) sql (vals ++ [k]) t.
Proof.
  intros Hu args' Hb. destruct (Hu args' t Hb) as (vals' & k' & f & _ & _ & _ & E). eexists. split; [exact E|].
  intros rs. unfold updating. by destruct (_ && _).
Qed.

(** Where an UPDATE that came through leaves the table. *)
Lemma updates_left (well : Prop) sql vals k c t t' n args' : updates sql vals k -> writes t c sql (vals ++ [k]) ->
  bound_as (vals ++ [k]) args' -> (well -> args' = vals ++ [k]) -> may_be_lost c = true ->
  users_sql sql args' t = Some (Changed t' n) -> left_by well c t t'.
Proof.
  intros Hu Hw Hb Hsame Hm E. destruct (decide (args' = vals ++ [k])) as [->|Hne]; [by eapply left_done|].
  destruct (Hu args' t Hb) as (vals' & k' & f & Ea & Hbv & Hk & E'). rewrite E in E'. injection E' as E'.
  symmetry in E'. destruct (updating_cases _ _ _ _ _ _ _ _ Hbv Hk E') as [[_ ->]|[-> ->]]; [|done].
  apply left_lost; [done|]. intros Hwell. by apply Hne, Hsame.
Qed.

(** The tests after a step, as the hypothesis of [atomic_step] wants them. *)
Ltac other_rolls := let r := fresh in let Hr := fresh in
  intros r Hr; destruct r as [[[] ?]|]; try (by eexists); exfalso; eapply Hr; reflexivity.

(** *** The operations *)
Lemma aon_counters (well : Prop) (d : D) c t id f l :
  writes t c update_counters_sql [VInt f; VInt l; text (uid_value id)] ->
  view_of d = MkView t (Some t) -> all_or_nothing well c t (write_counters id f l d).
Proof.
  intros Hw Hv. unfold write_counters.
  pose proof (counters_updates (VInt f) (VInt l) (text (uid_value id))) as Hu.
  eapply atomic_step; [exact Hv|exact (updates_write _ _ _ t Hu)| |other_rolls].
  intros st d1 t' args' Hb _ E Hv1. destruct (law_changes d1) as (d2 & E2 & Hv2 & _).
  rewrite (M_bind_run _ _ _ _ _ E2). destruct (Z.eqb_spec (changes_of d1) 1) as [En|_]; cbn [negb].
  - eapply atomic_commit; [by rewrite Hv2|].
    destruct (Hu args' t Hb) as (vals' & k' & g & -> & Hbv & Hk & E'). rewrite E in E'. injection E' as E'.
    symmetry in E'. destruct (updating_cases _ _ _ _ _ _ _ _ Hbv Hk E') as [[Hz _]|[-> ->]]; [lia|].
    by eapply left_done.
  - apply atomic_rollback. by rewrite Hv2, Hv1.
Qed.

(** A lookup leaves the table alone. *)
Lemma findById_view id (d : D) t : view_of d = MkView t None ->
  view_of (findById id d).2 = MkView t None /\ (reliable d -> reliable (findById id d).2).
Proof.
  intros Hv. unfold findById, findByColumn.
  destruct (first_step_run d (select_by "id") [text (uid_value id)]) as (r & d1 & E & Hr & Hs).
  { intros args' Hb. bound_cells; by eexists. }
  rewrite (M_bind_run _ _ _ _ _ E).
  assert (view_of d1 = MkView t None) as Hv1.
  { destruct r as [[c st]|]; [|by destruct Hs as [-> _]]. destruct Hs as (_ & args' & e & Hb & _ & He & Hs).
    rewrite Hv in Hs. bound_cells; injection He as <-; destruct c; cbn in Hs.
    all: try (by destruct Hs as (? & ? & ? & _ & _ & _ & ->)).
    all: try (by destruct Hs as [(? & [=] & _)|[_ ->]]).
    all: try (by destruct Hs as [[=] _]).
    all: destruct Hs as [->|(b & [=] & _)]; done. }
  destruct r as [[[] st]|]; try by split.
  unfold liftO. rewrite M_bind_eq. destruct (read_user st) as [u|e|]; by split.
Qed.

(** One UPDATE between a BEGIN and a COMMIT. *)
Lemma aon_update (body : option (rc * Stmt) -> M D unit) (d : D) c t sql vals k : view_of d = MkView t None ->
  updates sql vals k -> writes t c sql (vals ++ [k]) -> may_be_lost c = true ->
  (forall st, body (Some (DONE, st)) = exec "COMMIT;") ->
  (forall r, (forall st, r <> Some (DONE, st)) -> exists ex, body r = rollback ex) ->
  all_or_nothing (reliable d) c t ((_ ← exec "BEGIN IMMEDIATE;"; r ← first_step sql (vals ++ [k]); body r) d).
Proof.
  intros Hv Hu Hw Hm Hdone Hother. apply atomic_begin; [done|]. intros d1 Hv1 Hr1.
  eapply atomic_step; [exact Hv1|exact (updates_write _ _ _ t Hu)| |exact Hother].
  intros st d2 t' args' Hb Hsame E Hv2. rewrite Hdone. eapply atomic_commit; [exact Hv2|].
  eapply updates_left; eauto.
Qed.

Lemma aon_hash (d : D) t id h : view_of d = MkView t None ->
  all_or_nothing (reliable d) (UpdateHash id h) t (SqliteUserRepository.updateHash id h d).
Proof.
  intros Hv. apply atomic_begin; [done|]. intros d1 Hv1 Hr1.
  pose proof (hash_updates (text h) (text (uid_value id))) as Hu.
  destruct (first_step_run d1 update_hash_sql [text h; text (uid_value id)]) as (r & d2 & E & Hr2 & Hs).
  { intros args' Hb. destruct (updates_write _ _ _ (now (view_of d1)) Hu args' Hb) as (e & -> & _). by eexists. }
  rewrite (M_bind_run _ _ _ _ _ E).
  assert (~ reliable d -> left_by (reliable d) (UpdateHash id h) t t) as Hlost by (by apply left_lost).
  destruct r as [[c st]|].
  2: { destruct Hs as [Hv2 Hn]. eapply atomic_commit; [by rewrite Hv2|]. apply Hlost. auto. }
  destruct Hs as (Hok & args' & e & Hb & Hsame & He & Hs). rewrite Hv1 in He, Hs. cbn [now before] in He, Hs.
  destruct (updates_write _ _ _ t Hu args' Hb) as (e' & He' & Hrows). cbn [app] in He'. rewrite He in He'.
  injection He' as <-. destruct c; cbn in Hs.
  - destruct Hs as (rs & x & rest & -> & _). by destruct (Hrows rs).
  - destruct Hs as [(t' & -> & Hv2)|[-> _]]; [|by destruct (Hrows [])].
    eapply atomic_commit; [exact Hv2|]. eapply updates_left; [exact Hu|constructor|exact Hb|auto|done|exact He].
  - destruct Hs as [-> Hv2]. eapply atomic_commit; [exact Hv2|]. apply Hlost. intros Hd.
    rewrite (Hsame (Hr1 Hd)) in He. discriminate He.
  - assert (~ reliable d) as Hn by (intros Hd; by destruct (Hok (Hr1 Hd))).
    destruct Hs as [Hv2|(b & [= <-] & Hv2)]; [eapply atomic_commit; [exact Hv2|auto]|].
    destruct (law_commit_idle d2 _ Hv2) as (e' & d3 & E3 & Hv3). unfold exec.
    rewrite (M_bind_run _ _ _ _ _ E3). unfold atomic. cbn. by rewrite Hv3, Hv2.
Qed.

(** NOT NULL leaves only the identifier of a new row unbound. *)
Lemma save_left (well : Prop) u h t t' n args' : bound_as (save_args u h) args' -> (well -> args' = save_args u h) ->
  users_sql insert_sql args' t = Some (Changed t' n) -> left_by well (Save u h) t t'.
Proof.
  intros Hb Hsame E. destruct (decide (args' = save_args u h)) as [->|Hne].
  { eapply left_done; [constructor|exact E]. }
  unfold save_args in Hb. inversion Hb as [|v v' l l' Hid Hrest]; subst.
  assert (users_sql insert_sql (v' :: l') t =
    Some (if violates (v' :: l') t then Refused else Changed (t ++ [v' :: l']) 1)) as Hsql by (clear -Hrest; by bound_cells).
  rewrite Hsql in E. destruct (violates (v' :: l') t) eqn:Ev; [discriminate E|]. injection E as <- <-.
  assert (l' = tl (save_args u h)) as ->.
  { apply bound_as_full; [exact Hrest|]. unfold violates in Ev. apply orb_false_iff in Ev as [Ev _]. cbn [drop] in Ev.
    revert Ev. clear. induction l' as [|v l' IH]; [done|]. cbn. intros [Hv Hl]%orb_false_iff.
    rewrite (IH Hl), orb_false_r. by destruct v. }
  destruct Hid as [->| ->]; [done|]. eapply left_nameless; [done| |exact Ev].
  intros Hw. by apply Hne, Hsame.
Qed.

Lemma aon_save (d : D) t u h : view_of d = MkView t None ->
  all_or_nothing (reliable d) (Save u h) t (SqliteUserRepository.save u h d).
Proof.
  intros Hv. unfold SqliteUserRepository.save. fold (save_args u h). apply atomic_begin; [done|]. intros d1 Hv1 Hr1.
  eapply atomic_step; [exact Hv1| | |other_rolls].
  - intros args' Hb. unfold save_args in Hb. bound_cells; (eexists; split; [reflexivity|]; intros rs; by case_match).
  - intros st d2 t' args' Hb Hsame E Hv2. eapply atomic_commit; [exact Hv2|]. eapply save_left; eauto.
Qed.

Lemma aon_fails (d : D) t id time : view_of d = MkView t None ->
  all_or_nothing (reliable d) (Fails id time) t (SqliteUserRepository.recordLoginFailure id time d).
Proof.
  intros Hv. apply atomic_begin; [done|]. intros d1 Hv1 _.
  destruct (first_step_rows d1 select_counters_sql [text (uid_value id)]) as (r & d2 & E & Hc2 & _ & Hrow).
  { intros args' Hb. bound_cells; by eexists. }
  rewrite Hv1 in Hc2, Hrow. rewrite (M_bind_run _ _ _ _ _ E).
  destruct r as [[[] st]|]; try (by apply atomic_rollback).
  destruct (Hrow st eq_refl) as (Hv2 & args' & rs & x & rest & Hb & Hsql & Hx & Hat).
  assert (exists r, r ∈ t /\ where_ 0 (text (uid_value id)) r = true /\ x = [cell 6 r; cell 7 r]) as (r & Hr & Hw & ->).
  { bound_cells; match goal with H : _ = _ \/ _ = VNull |- _ => destruct H as [->| ->] end;
      injection Hsql as <-; apply list_elem_of_In, in_map_iff in Hx as (r & <- & [Hr Hw]%filter_In).
    - exists r. split_and!; [by apply list_elem_of_In|exact Hw|done].
    - by rewrite where_null in Hw. }
  unfold column_int, column_int64. rewrite !(law_column _ _ _ _ Hat). cbn [lookup list_lookup default from_option Datatypes.id].
  fold (int_of (cell 6 r)) (int_of (cell 7 r)). unfold liftO. rewrite M_bind_eq.
  assert (add_i32 (to_int (int_of (cell 6 r))) 1 = if int32_ok (to_int (int_of (cell 6 r)) + 1)
    then Ok (to_int (int_of (cell 6 r)) + 1) else Undef) as -> by done.
  destruct (int32_ok _); [|exact Hc2]. pose proof (w_fails t id time r Hr Hw) as Hwr.
  rewrite M_bind_eq. destruct (5 <=? _).
  - assert (add_i64 time (15 * 60 * 1000) = if int64_ok (time + 15 * 60 * 1000)
      then Ok (time + 15 * 60 * 1000) else Undef) as -> by done.
    destruct (int64_ok _); [|exact Hc2]. by apply aon_counters.
  - by apply aon_counters.
Qed.

Lemma atomic_weaken {X} (P Q : table -> Prop) t (r : outcome X * D) : (forall t', P t' -> Q t') ->
  atomic P t r -> atomic Q t r.
Proof. intros H. unfold atomic. destruct r.1; [|done..]. intros (t' & Ht & Hv). exists t'. auto. Qed.

(** C17: Every write is all or nothing: over a table with any contents and with no
    transaction open, whatever calls of the engine fail (a bind that leaves its
    parameter NULL, a column that cannot be read, a lost transaction), a write of
    the repository either throws with nothing of it committed, or returns with
    exactly its one statement applied and committed, for a login failure one more
    on the counter it read. A write that returns without that had a failing
    engine, and is one of two things: an [update], [updateHash] or
    [resetLoginFailures] that changed nothing, or a [save] whose row has no
    identifier; the counters of failed logins are never lost that way. *)
Theorem sqlite_all_or_nothing c d t : view_of d = MkView t None -> a_write c = true ->
  all_or_nothing (reliable d) c t (perform of_database c d).
Proof.
  intros Hv Hw. destruct c as [| | |u h|u|id h|id time|id f l|id|]; try done; apply atomic_then;
    cbn [of_database r_save r_update r_updateHash r_fails r_setFails r_reset].
  - by apply aon_save.
  - unfold SqliteUserRepository.update. destruct (findById_view (id_ u) d t Hv) as [Hf Hr].
    rewrite M_bind_eq. destruct (findById (id_ u) d) as [o d0]. cbn in Hf, Hr.
    assert (committed (view_of d0) = t) as Hc by (by rewrite Hf).
    destruct o as [res|e|]; [|exact Hc..]. destruct (result_get res); [|exact Hc]. destruct (negb _ || negb _); [exact Hc|].
    apply (atomic_weaken (left_by (reliable d0) (Update u) t)).
    { intros t' [sql args t2 n Hwr E|Hm Hn|]; [by eapply left_done|apply left_lost; auto|done]. }
    eapply (aon_update _ d0 _ t update_sql [_; _; _; _] (text (uid_value (id_ u))) Hf (update_updates _ _ _ _ _));
      [constructor|done|done|other_rolls].
  - by apply aon_hash.
  - by apply aon_fails.
  - apply atomic_begin; [done|]. intros d1 Hv1 _. apply aon_counters; [constructor|exact Hv1].
  - eapply (aon_update _ d _ t reset_sql [] (text (uid_value id)) Hv (reset_updates _));
      [constructor|done|done|other_rolls].
Qed.
End Atomicity.
