(* ===== verification/Interchange.v ===== *)
(** * The user repositories are interchangeable

    The contract of [Ports] determines what a repository answers: two
    repositories that satisfy it and hold the same accounts answer alike, and so
    does the one over SQLite. *)
From S2P Require Import Prelude Domain Ports Sqlite SqliteUsers.
From Stdlib Require Import ZArith Lia.
From stdpp Require Import base gmap strings list numbers.
Local Open Scope Z_scope.

(** A call the services make, in a table [m], and the table it leaves: accounts
    that are written to exist, and keep their name and address. *)
Inductive step_to (m : UserTable) : call -> UserTable -> Prop :=
| st_name n : step_to m (ByName n) m
| st_email e : step_to m (ByEmail e) m
| st_id id : step_to m (ById id) m
| st_refused u h : user_ok u -> conflict m u -> step_to m (Save u h) m
| st_saved u h : user_ok u -> ~ conflict m u -> step_to m (Save u h) (<[uid_value (id_ u) := (u, h)]> m)
| st_update u u0 h : m !! uid_value (id_ u) = Some (u0, h) -> username_ u = username_ u0 ->
    email_ u = email_ u0 -> step_to m (Update u) (<[uid_value (id_ u) := (u, h)]> m)
| st_fails id now u h u' : m !! uid_value id = Some (u, h) -> fail_login u now = Ok u' ->
    step_to m (Fails id now) (<[uid_value id := (u', h)]> m)
| st_reset id u h : m !! uid_value id = Some (u, h) ->
    step_to m (Reset_ id) (<[uid_value id := (setLockout 0 0 u, h)]> m)
| st_hash id u h : m !! uid_value id = Some (u, h) -> step_to m (GetHash id) m.

Inductive steps_to : UserTable -> list call -> UserTable -> Prop :=
| sts_nil m : steps_to m [] m
| sts_cons m c m1 cs m2 : step_to m c m1 -> steps_to m1 cs m2 -> steps_to m (c :: cs) m2.

(** The same answer; a refusal may be worded differently. *)
Definition alike (a b : outcome answer) : Prop :=
  match a, b with
  | Ok x, Ok y => x = y
  | Throw (ValidationException _), Throw (ValidationException _) => True
  | _, _ => False
  end.

Section Contract.
Context {R1 R2 : Type} `{!IUserRepository R1, !UserRepositoryLaws R1, !IUserRepository R2, !UserRepositoryLaws R2}.

Definition same_accounts (m : UserTable) (r1 : R1) (r2 : R2) : Prop :=
  ur_inv r1 /\ ur_inv r2 /\ ur_model r1 = m /\ ur_model r2 = m.

(** One call: alike, and the same accounts again. *)
Definition alike_runs (m' : UserTable) (p1 : outcome answer * R1) (p2 : outcome answer * R2) : Prop :=
  alike p1.1 p2.1 /\ same_accounts m' p1.2 p2.2.

Lemma alike_name m r1 r2 n : same_accounts m r1 r2 -> findByUsername n r1 = findByUsername n r2.
Proof.
  intros (H1 & H2 & <- & E2).
  destruct (ur_findByUsername r1 n H1) as [(u & h & Hn & ->)|[Hn ->]],
    (ur_findByUsername r2 n H2) as [(u' & h' & Hn' & ->)|[Hn' ->]]; rewrite ?E2 in *; [|by destruct (Hn' u h)
    |by destruct (Hn u' h')|done].
  by destruct (named_unique _ _ _ _ _ _ (ur_table r1 H1) Hn Hn') as [-> _].
Qed.

Lemma addressed_unique m e u h u' h' :
  table_ok m -> addressed m e u h -> addressed m e u' h' -> u = u' /\ h = h'.
Proof.
  intros Hm [H1 E1] [H2 E2]. pose proof (tab_email m Hm _ _ _ _ _ _ H1 H2 ltac:(congruence)) as E.
  rewrite E in H1. rewrite H1 in H2. by injection H2.
Qed.

Lemma alike_email m r1 r2 e : same_accounts m r1 r2 -> findByEmail e r1 = findByEmail e r2.
Proof.
  intros (H1 & H2 & <- & E2).
  destruct (ur_findByEmail r1 e H1) as [(u & h & Hn & ->)|[Hn ->]],
    (ur_findByEmail r2 e H2) as [(u' & h' & Hn' & ->)|[Hn' ->]]; rewrite ?E2 in *; [|by destruct (Hn' u h)
    |by destruct (Hn u' h')|done].
  by destruct (addressed_unique _ _ _ _ _ _ (ur_table r1 H1) Hn Hn') as [-> _].
Qed.

Lemma read_alike {X} m r1 r2 (g1 : R1 -> outcome X) (g2 : R2 -> outcome X) f x :
  same_accounts m r1 r2 -> g1 r1 = Ok x -> g2 r2 = Ok x ->
  alike_runs m ((y ← reads g1; mret (f y : answer)) r1) ((y ← reads g2; mret (f y)) r2).
Proof. intros Hs E1 E2. rewrite !M_bind_eq. unfold reads. rewrite E1, E2. by split. Qed.

Lemma write_alike m' (p1 : M R1 unit) (p2 : M R2 unit) r1 r2 r1' r2' :
  p1 r1 = (Ok tt, r1') -> p2 r2 = (Ok tt, r2') -> same_accounts m' r1' r2' ->
  alike_runs m' ((_ ← p1; mret ADone) r1) ((_ ← p2; mret ADone) r2).
Proof. intros E1 E2 Hs. rewrite !M_bind_eq, E1, E2. by split. Qed.

Lemma perform_alike m c m' r1 r2 : step_to m c m' -> same_accounts m r1 r2 ->
  alike_runs m' (perform of_port c r1) (perform of_port c r2).
Proof.
  intros Hc Hs. pose proof Hs as (H1 & H2 & E1 & E2). destruct Hc; cbn [perform of_port r_byName r_byEmail
    r_byId r_save r_update r_fails r_reset r_getHash].
  - pose proof (alike_name m r1 r2 n Hs) as E.
    destruct (ur_findByUsername r1 n H1) as [(u & h & _ & Ef)|[_ Ef]];
      (eapply read_alike; [exact Hs|exact Ef|congruence]).
  - pose proof (alike_email m r1 r2 e Hs) as E.
    destruct (ur_findByEmail r1 e H1) as [(u & h & _ & Ef)|[_ Ef]];
      (eapply read_alike; [exact Hs|exact Ef|congruence]).
  - eapply read_alike; [exact Hs|by apply ur_findById|]. rewrite ur_findById by done. by rewrite E1, E2.
  - destruct (ur_save r1 u h H1 ltac:(done)) as (o1 & r1' & F1 & I1 & [(_ & (e1 & ->) & M1)|(Hn & _)]); [|by rewrite E1 in Hn].
    destruct (ur_save r2 u h H2 ltac:(done)) as (o2 & r2' & F2 & I2 & [(_ & (e2 & ->) & M2)|(Hn & _)]); [|by rewrite E2 in Hn].
    rewrite !M_bind_eq, F1, F2. split; [done|]. split_and!; [done|done|by cbn; rewrite M1|by cbn; rewrite M2].
  - destruct (ur_save r1 u h H1 ltac:(done)) as (o1 & r1' & F1 & I1 & [(Hn & _)|(_ & -> & M1)]); [by rewrite E1 in Hn|].
    destruct (ur_save r2 u h H2 ltac:(done)) as (o2 & r2' & F2 & I2 & [(Hn & _)|(_ & -> & M2)]); [by rewrite E2 in Hn|].
    eapply write_alike; [exact F1|exact F2|]. split_and!; [done|done|by rewrite M1, E1|by rewrite M2, E2].
  - destruct (ur_update r1 u u0 h H1) as (r1' & F1 & I1 & M1); [by rewrite ?E1..|].
    destruct (ur_update r2 u u0 h H2) as (r2' & F2 & I2 & M2); [by rewrite ?E2..|].
    eapply write_alike; [exact F1|exact F2|]. split_and!; [done|done|by rewrite M1, E1|by rewrite M2, E2].
  - destruct (ur_recordLoginFailure r1 id now u h u' H1) as (r1' & F1 & I1 & M1); [by rewrite ?E1..|].
    destruct (ur_recordLoginFailure r2 id now u h u' H2) as (r2' & F2 & I2 & M2); [by rewrite ?E2..|].
    eapply write_alike; [exact F1|exact F2|]. split_and!; [done|done|by rewrite M1, E1|by rewrite M2, E2].
  - destruct (ur_resetLoginFailures r1 id u h H1) as (r1' & F1 & I1 & M1); [by rewrite ?E1..|].
    destruct (ur_resetLoginFailures r2 id u h H2) as (r2' & F2 & I2 & M2); [by rewrite ?E2..|].
    eapply write_alike; [exact F1|exact F2|]. split_and!; [done|done|by rewrite M1, E1|by rewrite M2, E2].
  - eapply read_alike; [exact Hs|eapply ur_getEncodedHash; [done|by rewrite E1]|].
    eapply ur_getEncodedHash; [done|by rewrite E2].
Qed.
End Contract.

Section Database.
Context {D : Type} `{!Sqlite D} `{!SqliteLaws D SqliteUserRepository.users_sql}.
Context {R : Type} `{!IUserRepository R, !UserRepositoryLaws R}.

(** C20: The SQLite repository can stand for any repository the services are
    proved against (the one in memory among them): from the same accounts, on any
    sequence of the calls the services make with strings that hold no NUL, an
    engine that does not fail gives the same answers, up to the wording of a
    refusal, and both end with the same accounts. *)
Theorem sqlite_interchangeable cs d l (r : R) m' :
  holds l d -> ur_inv r -> ur_model r = AccountTable.model l ->
  steps_to (ur_model r) cs m' -> Forall clean_call cs ->
  Forall2 alike (play of_database cs d).1 (play of_port cs r).1 /\
  exists l', holds l' (play of_database cs d).2 /\ AccountTable.model l' = m' /\
    ur_model (play of_port cs r).2 = m'.
Proof.
  intros Hl Hr Hm Hcs. assert (exists m, m = ur_model r) as [m Em] by eauto. rewrite <-Em in Hcs.
  rewrite <-Em in Hm. symmetry in Em. revert d l r Hl Hr Hm Em.
  induction Hcs as [m|m c m1 cs m2 Hc Hcs IH]; intros d l r Hl Hr Hm Em Hclean.
  { split; [constructor|]. exists l. by split_and!. }
  apply list.Forall_cons in Hclean as [Hcc Hclean]. cbn [play].
  pose proof (perform_agrees c Hcc d l Hl) as Hp.
  assert (same_accounts m r l) as Hs by (split_and!; [done|exact (ho_inv _ _ Hl)|done|done]).
  destruct (perform_alike m c m1 r l Hc Hs) as [Ha (Hr1 & _ & Em1 & El1)].
  destruct (perform of_port c l) as [o l1]. destruct (perform of_port c r) as [o' r1]. cbn in *.
  assert (exists d1, perform of_database c d = (o, d1) /\ holds l1 d1) as (d1 & -> & Hl1).
  { destruct o; [done..|]. by destruct o' as [|[]|]. }
  destruct (IH d1 l1 r1 Hl1 Hr1 ltac:(done) Em1 Hclean) as [Hf Hend].
  destruct (play of_database cs d1) as [os d2]. destruct (play of_port cs r1) as [os' r2]. cbn in *.
  split; [|exact Hend]. constructor; [|exact Hf]. destruct o as [|[]|], o' as [|[]|]; done.
Qed.
End Database.
