(* ===== verification/SqliteFiles.v ===== *)
(** * The SQLite file repository ([sqlite_file_repo.hpp], [sqlite_file_repo.cpp])

    Hexadecimal digests, records to rows and back, the statements, and a list of
    records as what they implement: the list satisfies the contract of [Ports],
    and on records whose strings hold no NUL the repository answers as it does. *)
From S2P Require Import Prelude Domain Ports Tables Sqlite.
From Stdlib Require Import ZArith Lia.
From stdpp Require Import base gmap strings list numbers.
Local Open Scope Z_scope.

(** ** [std::stoi(s, nullptr, 16)]

    Leading spaces, a sign, an optional 0x, hexadecimal digits; what follows is
    ignored. *)
Definition xdigit (c : byte) : option Z :=
  let n := b2z c in
  if (48 <=? n) && (n <=? 57) then Some (n - 48) else
  if (97 <=? n) && (n <=? 102) then Some (n - 87) else
  if (65 <=? n) && (n <=? 70) then Some (n - 55) else None.
Fixpoint read_xdigits (acc : Z) (n : nat) (s : str) : Z * nat :=
  match s with
  | c :: r => match xdigit c with Some d => read_xdigits (16 * acc + d) (S n) r | None => (acc, n) end
  | [] => (acc, n)
  end.
Definition skip_0x (s : str) : str :=
  match s with
  | Byte.x30 :: x :: c :: r =>
      if (bool_decide (x = Byte.x78) || bool_decide (x = Byte.x58)) && bool_decide (is_Some (xdigit c))
      then c :: r else s
  | _ => s
  end.
Definition stoi16 (s : str) : outcome Z :=
  let '(neg, s) := sign (skip_spaces s) in
  let '(v, n) := read_xdigits 0 0 (skip_0x s) in
  if decide (n = O) then Throw (InvalidArgument "stoi") else
  let x := if (neg : bool) then - v else v in
  if int32_ok x then Ok x else Throw (OutOfRange "stoi").

(** ** Digests as text *)
Definition digestToHex (d : Digest) : str := hex_of (d_bytes d).

(** The loop from [i] on, [n] bytes. *)
Fixpoint hex_bytes (n i : nat) (s : str) : outcome str :=
  match n with
  | O => Ok []
  | S n' =>
      byteStr ← substr s (i * 2) (Some 2%nat);
      v ← stoi16 byteStr;
      bs ← hex_bytes n' (S i) s;
      Ok (z2b v :: bs)
  end.
Definition hexToDigest (s : str) : outcome Digest :=
  if negb (zlen s =? 64) then Ok zero_Digest else
  bs ← hex_bytes 32 0 s; Ok (MkDigest bs).

Lemma stoi16_hex2 b : stoi16 (hex2 b) = Ok (b2z b).
Proof. destruct b; reflexivity. Qed.

Lemma hex_of_app u v : hex_of (u ++ v) = hex_of u ++ hex_of v.
Proof. apply bind_app. Qed.

Lemma hex_bytes_hex w : forall u, hex_bytes (length w) (length u) (hex_of (u ++ w)) = Ok w.
Proof.
  induction w as [|b w IH]; intros u; [done|]. cbn [length hex_bytes].
  rewrite substr_ok by (rewrite length_hex_of, length_app; lia).
  assert (take 2 (drop (length u * 2) (hex_of (u ++ b :: w))) = hex2 b) as ->.
  { rewrite hex_of_app, Nat.mul_comm, <-length_hex_of, drop_app_length. reflexivity. }
  cbn [mbind outcome_bind]. rewrite stoi16_hex2. cbn [mbind outcome_bind].
  specialize (IH (u ++ [b])). rewrite <-app_assoc, length_app in IH. cbn [length app] in IH.
  rewrite Nat.add_1_r in IH. rewrite IH. cbn. by rewrite z2b_b2z.
Qed.

(** A digest of 32 bytes is read back as it was written. *)
Lemma hexToDigest_digestToHex d : length (d_bytes d) = 32%nat -> hexToDigest (digestToHex d) = Ok d.
Proof.
  intros Hl. unfold hexToDigest, digestToHex. unfold zlen. rewrite length_hex_of, Hl. cbn [negb Z.eqb].
  pose proof (hex_bytes_hex (d_bytes d) []) as Hh. rewrite Hl in Hh. cbn [app length] in Hh.
  change (Z.of_nat (2 * 32) =? 64) with true. cbn [negb]. rewrite Hh. by destruct d.
Qed.

Lemma hex_bytes_length n : forall i s bs, hex_bytes n i s = Ok bs -> length bs = n.
Proof.
  induction n as [|n IH]; intros i s bs; cbn [hex_bytes]; [by intros [= <-]|].
  destruct (substr _ _ _); cbn; try done. destruct (stoi16 _); cbn; try done.
  destruct (hex_bytes n (S i) s) as [bs'|e|] eqn:E; cbn; try done. intros [= <-]. cbn. f_equal. eauto.
Qed.

Lemma stoi16_defined s : defined (stoi16 s).
Proof.
  unfold stoi16. destruct (sign _) as [neg s']. destruct (read_xdigits _ _ _) as [v k].
  case_decide; [done|]. by destruct (int32_ok _).
Qed.

Lemma hex_bytes_defined n : forall i s, (2 * (i + n) <= length s)%nat -> defined (hex_bytes n i s).
Proof.
  induction n as [|n IH]; intros i s Hl; cbn [hex_bytes]; [done|].
  rewrite substr_ok by lia. cbn. pose proof (stoi16_defined (take 2 (drop (i * 2) s))).
  destruct (stoi16 _); cbn; try done. specialize (IH (S i) s ltac:(lia)). by destruct (hex_bytes n (S i) s).
Qed.

(** Whatever the text, a digest has 32 bytes, or an exception is thrown. *)
Lemma hexToDigest_cases s :
  (exists d, hexToDigest s = Ok d /\ length (d_bytes d) = 32%nat) \/ exists e, hexToDigest s = Throw e.
Proof.
  unfold hexToDigest. destruct (Z.eqb_spec (zlen s) 64) as [E|]; cbn [negb]; [|left; by eexists].
  assert (length s = 64%nat) as El by (unfold zlen in E; lia).
  pose proof (hex_bytes_defined 32 0 s ltac:(lia)) as Hd.
  destruct (hex_bytes 32 0 s) as [bs|e|] eqn:Eb; [left|right; by eexists|done].
  eexists. split; [reflexivity|]. by apply hex_bytes_length in Eb.
Qed.

Module SqliteFileRepository.

(** ** The statements

    The columns of [files], in order: id, owner_id, recipient_id, orig_name,
    storage_id, size, digest, wrapped_dek, nonce, upload_id, created_at. *)
Definition create_sql : str := ("CREATE TABLE IF NOT EXISTS files(id TEXT PRIMARY KEY, owner_id TEXT, recipient_id TEXT, orig_name TEXT, "
  ++ "storage_id TEXT UNIQUE, size INTEGER, digest TEXT, wrapped_dek BLOB, nonce BLOB, upload_id TEXT UNIQUE, created_at TEXT);")%string.
Definition columns : str :=
  "id, owner_id, recipient_id, orig_name, storage_id, size, digest, wrapped_dek, nonce, upload_id, created_at".
Definition insert_sql : str :=
  ("INSERT INTO files(" : str) ++ columns ++ (") VALUES(?,?,?,?,?,?,?,?,?,?,?);" : str).
Definition select_id_sql : str := ("SELECT " : str) ++ columns ++ (" FROM files WHERE id=?;" : str).
Definition select_owner_sql : str := ("SELECT " : str) ++ columns ++ (" FROM files WHERE owner_id=?;" : str).
Definition count_sql : str := "SELECT COUNT(*) FROM files WHERE upload_id=?;".

(** *** What they mean: the identifier is the primary key, the storage and the
    upload identifier are unique. *)
Definition violates (args : row) (t : table) : bool :=
  existsb (fun r => sql_eq (cell 0 r) (cell 0 args) || sql_eq (cell 4 r) (cell 4 args)
                    || sql_eq (cell 9 r) (cell 9 args)) t.
Definition files_sql (sql : str) (args : list value) (t : table) : option effect :=
  match args with
  | [k] =>
      if bool_decide (sql = select_id_sql) then Some (Rows (List.filter (where_ 0 k) t)) else
      if bool_decide (sql = select_owner_sql) then Some (Rows (List.filter (where_ 1 k) t)) else
      if bool_decide (sql = count_sql) then Some (Rows [[VInt (zlen (List.filter (where_ 9 k) t))]]) else None
  | [_; _; _; _; _; _; _; _; _; _; _] =>
      if bool_decide (sql = insert_sql) then
        Some (if violates args t then Refused else Changed (t ++ [args]) 1) else None
  | _ => None
  end.

(** ** The operations *)
Section Operations.
Context {D : Type} `{!Sqlite D}.

(** The constructor, on an open connection. *)
Definition new : M D unit :=
  _ ← exec "PRAGMA journal_mode=WAL;";
  _ ← exec "PRAGMA synchronous=FULL;";
  _ ← exec "PRAGMA foreign_keys=ON;";
  exec create_sql.

Definition construct (connection : option D) : outcome D := opened connection new.

(** The parameters [save] binds. *)
Definition bound (r : FileRecord) : outcome (list value) :=
  w ← blob_or_null (wk_bytes (wrapped r));
  n ← blob_or_null (nonce (wrapped r));
  Ok [text (fid_value (fr_id r)); text (uid_value (owner r)); text (uid_value (recipient r));
      text (origName r); text (storageId r); VInt (to_int64 (fr_size r)); text (digestToHex (digest r));
      w; n; text (uploadId r); text (to_string (fr_createdAt r))].

Definition save (r : FileRecord) : M D unit :=
  insert_row insert_sql (bound r) "duplicate upload_id or storage_id or id".

(** The wrapped key of two columns: through the constructor where it takes them,
    field by field otherwise. *)
Definition reconstruct (recip : UserId) (nbytes wbytes : str) : WrappedKey :=
  let direct := MkWrappedKey recip nbytes wbytes default_alg in
  if bool_decide (nbytes <> []) || bool_decide (wbytes <> []) then
    if (zlen nbytes =? 12) && bool_decide (wbytes <> []) then
      match new_WrappedKey recip nbytes wbytes default_alg with Ok k => k | _ => direct end
    else direct
  else MkWrappedKey recip (nonce default_WrappedKey) (wk_bytes default_WrappedKey) (alg default_WrappedKey).

(** A row as a record; only a null identifier is not expected. *)
Definition read_record (st : Stmt) : outcome FileRecord :=
  id ← string_of (column_text st 0);
  let own := default [] (column_text st 1) in
  let recip := default [] (column_text st 2) in
  let orig := default [] (column_text st 3) in
  let stor := default [] (column_text st 4) in
  let size := u64 (column_int64 st 5) in
  digest ← hexToDigest (default [] (column_text st 6));
  let wbytes := column_blob st 7 in
  let nbytes := column_blob st 8 in
  let up := default [] (column_text st 9) in
  let created := default 0 (stoll (default (lit "0") (column_text st 10))) in
  Ok (MkFileRecord (MkFileId id) (MkUserId own) orig stor size digest
        (reconstruct (MkUserId recip) nbytes wbytes) (MkUserId recip) up created).

Definition findById (id : FileId) : M D (Result FileRecord) :=
  r ← first_step select_id_sql [text (fid_value id)];
  match r with
  | None => mret (failure "prepare failed")
  | Some (ROW, st) => x ← liftO (read_record st); mret (success x)
  | Some _ => mret (failure "not found")
  end.

Definition findByOwner (fuel : nat) (o : UserId) : M D (list FileRecord) :=
  select_list (fun st => x ← read_record st; Ok [x]) fuel select_owner_sql [text (uid_value o)].

Definition existsUploadId (u : str) : M D bool :=
  r ← first_step count_sql [text u];
  match r with
  | Some (ROW, st) => mret (0 <? column_int st 0)
  | _ => mret false
  end.
End Operations.
End SqliteFileRepository.

(** ** The specification: a list of records

    In the order they were saved. The name and the algorithm of a wrapped key are
    not kept: it comes back with the recipient's name and the default algorithm. *)
Module FileTable.
Definition t : Type := list FileRecord.
Definition fid (r : FileRecord) : str := fid_value (fr_id r).
Definition kept (r : FileRecord) : FileRecord := relabel (recipient r) default_alg r.

Definition clashes (r x : FileRecord) : bool :=
  bool_decide (fid x = fid r) || bool_decide (storageId x = storageId r) || bool_decide (uploadId x = uploadId r).
Definition save (r : FileRecord) : M t unit := fun l =>
  if existsb (clashes r) l then (Throw (ValidationException "duplicate upload_id or storage_id or id"), l)
  else (Ok tt, l ++ [kept r]).
Definition findById (id : FileId) (l : t) : outcome (Result FileRecord) :=
  Ok (match List.find (by_key fid (fid_value id)) l with
      | Some x => success x | None => failure "not found" end).
Definition findByOwner (o : UserId) (l : t) : outcome (list FileRecord) :=
  Ok (List.filter (fun x => bool_decide (owner x = o)) l).
Definition existsUploadId (u : str) (l : t) : outcome bool :=
  Ok (existsb (fun x => bool_decide (uploadId x = u)) l).

#[global] Instance ops : IFileRepository t := {
  Ports.saveFile := save;
  Ports.findFile := findById;
  Ports.findByOwner := findByOwner;
  Ports.existsUploadId := existsUploadId
}.

(** *** The contract *)
Record inv (l : t) : Prop := {
  inv_ids : NoDup (map fid l);
  inv_storages : NoDup (map storageId l);
  inv_uploads : NoDup (map uploadId l)
}.
Definition model (l : t) : gmap str FileRecord := keyed fid l.

Lemma file_model_elem l k x : inv l -> model l !! k = Some x <-> x ∈ l /\ fid x = k.
Proof. intros Hl. apply keyed_lookup, Hl. Qed.

Lemma file_clash_conflict l r : inv l -> existsb (clashes r) l = true <-> file_conflict (model l) r.
Proof.
  intros Hl. rewrite existsb_elem. unfold clashes, file_conflict. split.
  - intros (x & Hx & Hc). rewrite !orb_true_iff, !bool_decide_eq_true in Hc. destruct Hc as [[E|E]|E].
    + left. exists x. by apply file_model_elem.
    + right. exists (fid x), x. split; [by apply file_model_elem|auto].
    + right. exists (fid x), x. split; [by apply file_model_elem|auto].
  - intros [[x [Hx E]%file_model_elem]|(k & x & [Hx Ek]%file_model_elem & E)]; [|done| |done]; exists x; (split; [done|]);
      rewrite !orb_true_iff, !bool_decide_eq_true; [auto|]. destruct E; auto.
Qed.

Lemma file_no_clash l r : existsb (clashes r) l = false ->
  Forall (fun x => fid x <> fid r /\ storageId x <> storageId r /\ uploadId x <> uploadId r) l.
Proof.
  intros Hc. eapply List.Forall_impl; [|exact (existsb_none _ _ Hc)]. intros x Hn. unfold clashes in Hn.
  rewrite !orb_true_iff, !bool_decide_eq_true in Hn. tauto.
Qed.

Lemma file_save_inv l r : inv l -> existsb (clashes r) l = false -> inv (l ++ [kept r]).
Proof.
  intros [Hi Hs Hu] Hc. pose proof (file_no_clash l r Hc) as Hf.
  split; (apply NoDup_snoc; [done|]); (eapply List.Forall_impl; [|exact Hf]); cbn; tauto.
Qed.

#[global] Program Instance laws : FileRepositoryLaws t := {
  fr_inv := inv;
  fr_model := model;
  fr_reliable := fun _ => True
}.
Next Obligation.
  intros l Hl. split.
  - by intros k r [_ E]%file_model_elem.
  - intros k1 k2 r1 r2 [H1 <-]%file_model_elem [H2 <-]%file_model_elem E; [|done..].
    by rewrite (NoDup_pick _ _ _ _ (inv_uploads l Hl) H1 H2 E).
  - intros k1 k2 r1 r2 [H1 <-]%file_model_elem [H2 <-]%file_model_elem E; [|done..].
    by rewrite (NoDup_pick _ _ _ _ (inv_storages l Hl) H1 H2 E).
Qed.
Next Obligation.
  intros l id Hl. cbn. unfold findById. rewrite find_keyed by apply Hl. fold (model l). by destruct (model l !! _).
Qed.
Next Obligation.
  intros l u Hl. eexists. split; [reflexivity|]. rewrite existsb_elem. split.
  - intros (x & Hx & E%bool_decide_eq_true). exists (fid x), x. split; [by apply file_model_elem|done].
  - intros (k & x & [Hx _]%file_model_elem & E); [|done]. exists x. split; [done|]. by apply bool_decide_eq_true.
Qed.
Next Obligation.
  intros l r Hl Hr. cbn. unfold save. pose proof (file_clash_conflict l r Hl) as Hc.
  destruct (existsb (clashes r) l) eqn:E; (eexists _, _; split; [reflexivity|]).
  - split; [done|]. right. split; [by eexists|]. split; [by rewrite <-Hc|done].
  - split; [by apply file_save_inv|]. left. split; [done|]. split; [by rewrite <-Hc|].
    exists (recipient r), default_alg. apply (keyed_snoc fid l (kept r)).
    eapply List.Forall_impl; [|exact (file_no_clash l r E)]. cbn. tauto.
Qed.
End FileTable.

(** ** The repository implements the list *)
Section Refinement.
Context {D : Type} `{!Sqlite D} `{!SqliteLaws D SqliteFileRepository.files_sql}.
Import SqliteFileRepository FileTable.

Definition file_row (r : FileRecord) : row :=
  [VText (fid r); VText (uid_value (owner r)); VText (uid_value (recipient r)); VText (origName r);
   VText (storageId r); VInt (to_int64 (fr_size r)); VText (digestToHex (digest r));
   blob_value (wk_bytes (wrapped r)); blob_value (nonce (wrapped r)); VText (uploadId r);
   VText (to_string (fr_createdAt r))].

(** Strings without NUL, numbers of their width, blobs below 2 GiB. *)
Record clean_file (r : FileRecord) : Prop := {
  cf_id : clean (fid r);
  cf_owner : clean (uid_value (owner r));
  cf_recipient : clean (uid_value (recipient r));
  cf_name : clean (origName r);
  cf_storage : clean (storageId r);
  cf_upload : clean (uploadId r);
  cf_size : 0 <= fr_size r < 2 ^ 64;
  cf_digest : length (d_bytes (digest r)) = 32%nat;
  cf_bytes : zlen (wk_bytes (wrapped r)) < 2 ^ 31;
  cf_nonce : zlen (nonce (wrapped r)) < 2 ^ 31;
  cf_created : int64_ok (fr_createdAt r) = true
}.

Lemma clean_hex v : clean (hex_of v).
Proof.
  unfold clean. induction v as [|b v IH]; [by apply not_elem_of_nil|].
  change (hex_of (b :: v)) with (hex2 b ++ hex_of v). rewrite elem_of_app. intros [Hb|Hb]; [|done].
  revert Hb. by destruct b; decided.
Qed.

Lemma clean_to_string n : clean (to_string n).
Proof.
  assert (forall s, Forall (fun c => is_digit c = true) s -> clean s) as Hd.
  { intros s Hs Hin. by pose proof (proj1 (list.Forall_forall _ _) Hs _ Hin). }
  destruct (Z.ltb_spec n 0) as [Hn|Hn].
  - destruct (to_string_negative n Hn) as (s & -> & Hs). apply not_elem_of_cons. split; [done|by apply Hd].
  - by apply Hd, to_string_digits.
Qed.

Lemma bound_clean r : clean_file r -> bound r = Ok (file_row r).
Proof.
  intros Hr. unfold bound. rewrite !blob_bound by apply Hr. cbn.
  rewrite !text_clean; [done|apply clean_to_string|apply Hr|apply clean_hex|apply Hr..].
Qed.

(** The two ways to rebuild a wrapped key agree. *)
Lemma reconstruct_eq recip n w : reconstruct recip n w = MkWrappedKey recip n w default_alg.
Proof.
  unfold reconstruct, new_WrappedKey. destruct (Z.eqb_spec (zlen n) 12), (decide (n = [])), (decide (w = []));
    subst; repeat first [rewrite bool_decide_eq_true_2 by done | rewrite bool_decide_eq_false_2 by tauto]; done.
Qed.

Lemma to_int64_u64 n : 0 <= n < 2 ^ 64 -> u64 (to_int64 n) = n.
Proof.
  intros Hn. unfold u64, to_int64.
  rewrite Zminus_mod_idemp_l. replace (n + 2 ^ 63 - 2 ^ 63) with n by lia. by apply Z.mod_small.
Qed.

(** A row is read as the record it was made of, up to the labels of its key. *)
Lemma read_record_run st r rest : readable st (file_row r) rest -> clean_file r -> read_record st = Ok (kept r).
Proof.
  intros Hrow Hr.
  unfold read_record, column_int64.
  rewrite !(readable_text _ _ _ _ Hrow), !(readable_blob _ _ _ _ Hrow), !(readable_column _ _ _ _ Hrow). cbn.
  rewrite !c_str_id by (apply Hr || apply clean_hex || apply clean_to_string).
  rewrite hexToDigest_digestToHex by apply Hr. cbn.
  rewrite stoll_to_string by apply Hr. rewrite to_int64_u64 by apply Hr. cbn. rewrite reconstruct_eq.
  assert (forall b, match blob_value b with VText s | VBlob s => s | VInt z => to_string z | VNull => [] end = b) as Hb.
  { intros b. unfold blob_value. case_bool_decide; by subst. }
  rewrite !Hb. by destruct r as [[] [] ? ? ? ? [] [] ? ?].
Qed.

(** The database holds the records, no transaction is open, the engine is well. *)
Record holds (l : FileTable.t) (d : D) : Prop := {
  ho_view : view_of d = MkView (map file_row l) None;
  ho_reliable : reliable d;
  ho_clean : Forall (fun r => clean_file r /\ kept r = r) l;
  ho_inv : inv l
}.

Lemma file_holds_view l (d d' : D) : holds l d -> view_of d' = view_of d -> reliable d' -> holds l d'.
Proof. intros [Hv Hr Hc Hi] Hv' Hr'. split; [by rewrite Hv'|done..]. Qed.

Lemma file_clean_in l d x : holds l d -> x ∈ l -> clean_file x /\ kept x = x.
Proof. intros Hl. apply (proj1 (list.Forall_forall _ _) (ho_clean _ _ Hl)). Qed.

Lemma read_held l d x st rest : holds l d -> x ∈ l -> readable st (file_row x) rest -> read_record st = Ok x.
Proof. intros Hl Hx Hrow. destruct (file_clean_in l d x Hl Hx) as [Hc Ek]. by rewrite (read_record_run st x rest Hrow Hc), Ek. Qed.

Lemma violates_clashes r l : violates (file_row r) (map file_row l) = existsb (clashes r) l.
Proof.
  apply existsb_rows. intros x. unfold clashes. by rewrite <-!sql_eq_text.
Qed.

Lemma file_save_holds l d r : holds l d -> clean_file r ->
  exists d', SqliteFileRepository.save r d = ((FileTable.save r l).1, d') /\ holds (FileTable.save r l).2 d'.
Proof.
  intros Hl Hr. unfold SqliteFileRepository.save, FileTable.save. rewrite (bound_clean r Hr).
  assert (forall t, files_sql insert_sql (file_row r) t =
    Some (if violates (file_row r) t then Refused else Changed (t ++ [file_row r]) 1)) as Hsql by done.
  specialize (Hsql (map file_row l)). rewrite violates_clashes in Hsql. destruct (existsb (clashes r) l) eqn:Ec.
  - destruct (insert_refused d _ _ _ "duplicate upload_id or storage_id or id" (ho_reliable _ _ Hl) (ho_view _ _ Hl) Hsql)
      as (d' & E & Hd' & Hv'). exists d'. split; [exact E|]. apply (file_holds_view l d); [done| |done].
    by rewrite Hv', (ho_view _ _ Hl).
  - destruct (insert_done d _ _ _ _ "duplicate upload_id or storage_id or id" (ho_reliable _ _ Hl) (ho_view _ _ Hl) Hsql)
      as (d' & E & Hd' & Hv'). exists d'. split; [exact E|]. cbn [snd]. split; [by rewrite Hv', map_app|done| |].
    + apply List.Forall_app. split; [apply Hl|]. repeat constructor; apply Hr.
    + apply file_save_inv; [apply Hl|done].
Qed.

Lemma file_findById_holds l d id : holds l d -> clean (fid_value id) ->
  exists d', SqliteFileRepository.findById id d = (FileTable.findById id l, d') /\ holds l d'.
Proof.
  intros Hl Hk. unfold SqliteFileRepository.findById, FileTable.findById. rewrite (text_clean _ Hk).
  destruct (select_run file_row d l select_id_sql [VText (fid_value id)] (where_ 0 (VText (fid_value id))) (fun r => r)
    (by_key fid (fid_value id)) (ho_reliable _ _ Hl)) as (st & d' & Hd' & Hv' & Ho).
  - by rewrite (ho_view _ _ Hl).
  - by rewrite map_id.
  - intros x. by apply where_text.
  - exists d'. split; [|by apply (file_holds_view l d)].
    destruct Ho as [(x & rest & E & Hrow & Hx & Hp)|[E Hn]]; rewrite (M_bind_run _ _ _ _ _ E).
    + unfold liftO. rewrite M_bind_eq, (read_held l d x st rest Hl Hx Hrow).
      apply bool_decide_eq_true in Hp. by rewrite (find_key_unique fid l _ x (inv_ids _ (ho_inv _ _ Hl)) Hx Hp).
    + by rewrite find_absent.
Qed.

Lemma findByOwner_holds l d o fuel : holds l d -> clean (uid_value o) -> (length l <= fuel)%nat ->
  exists rs d', SqliteFileRepository.findByOwner fuel o d = (Ok rs, d') /\ holds l d'
    /\ rs ≡ₚ List.filter (fun x => bool_decide (owner x = o)) l.
Proof.
  intros Hl Hk Hf. unfold SqliteFileRepository.findByOwner. rewrite (text_clean _ Hk).
  set (p := fun x => bool_decide (owner x = o)).
  destruct (select_list_run (fun st => x ← read_record st; Ok [x]) file_row (fun x => [x]) fuel select_owner_sql
    [VText (uid_value o)] (List.filter p l) d (ho_reliable _ _ Hl)) as (zs & d' & E & Hz & Hd' & Hv').
  - rewrite (ho_view _ _ Hl). cbn [now]. rewrite <-(filter_rows file_row (where_ 1 (VText (uid_value o)))); [done|].
    intros x. rewrite (where_text _ _ (uid_value (owner x))) by done. apply bool_decide_ext.
    destruct (owner x), o. cbn. split; congruence.
  - etrans; [apply filter_length_le|exact Hf].
  - intros st x rest Hx Hrow. apply list_elem_of_In, filter_In in Hx as [Hx _].
    apply list_elem_of_In in Hx. by rewrite (read_held l d x st rest Hl Hx Hrow).
  - exists (zs ≫= (fun x => [x])), d'. split; [exact E|]. split; [by apply (file_holds_view l d)|].
    by rewrite bind_one, map_id.
Qed.

Lemma upload_count l u : NoDup (map uploadId l) ->
  zlen (List.filter (fun x => bool_decide (uploadId x = u)) l) = Z.b2z (existsb (fun x => bool_decide (uploadId x = u)) l).
Proof.
  induction l as [|x l IH]; [done|]. intros [Hx Hd]%list.NoDup_cons. cbn [List.filter existsb].
  case_bool_decide as E; cbn [orb]; [|by apply IH]. rewrite zlen_cons.
  assert (List.filter (fun x => bool_decide (uploadId x = u)) l = []) as ->; [|done].
  destruct (List.filter _ l) as [|y r] eqn:Ef; [done|]. destruct Hx.
  assert (y ∈ List.filter (fun x => bool_decide (uploadId x = u)) l) as Hy by (rewrite Ef; left).
  apply list_elem_of_In, filter_In in Hy as [Hy Eu%bool_decide_eq_true].
  rewrite E, <-Eu. apply list_elem_of_fmap. exists y. split; [done|by apply list_elem_of_In].
Qed.

Lemma existsUploadId_holds l d u : holds l d -> clean u ->
  exists d', SqliteFileRepository.existsUploadId u d = (FileTable.existsUploadId u l, d') /\ holds l d'.
Proof.
  intros Hl Hk. unfold SqliteFileRepository.existsUploadId, FileTable.existsUploadId. rewrite (text_clean _ Hk).
  set (n := zlen (List.filter (fun x => bool_decide (uploadId x = u)) l)).
  destruct (step_row d count_sql [VText u] [[VInt n]] (ho_reliable _ _ Hl)) as (c & st & d' & E & Hv' & Hd' & Hc).
  - rewrite (ho_view _ _ Hl). cbn [now].
    assert (files_sql count_sql [VText u] (map file_row l) = Some (Rows [[VInt (zlen (List.filter (where_ 9 (VText u)) (map file_row l)))]])) as -> by done.
    rewrite (filter_rows file_row _ (fun x => bool_decide (uploadId x = u))) by (intros x; by apply where_text).
    unfold n, zlen. by rewrite length_map.
  - exists d'. split; [|by apply (file_holds_view l d)]. rewrite (M_bind_run _ _ _ _ _ E).
    destruct Hc as [[_ [=]]|(r & rest & -> & Hp & Hrow)]. apply Permutation_singleton_l in Hp.
    injection Hp as <- <-. unfold column_int, column_int64. rewrite (readable_column st _ _ 0%nat Hrow).
    cbn [lookup list_lookup default from_option]. unfold n. rewrite upload_count by apply Hl.
    by destruct (existsb _ l).
Qed.

(** *** Calls, as data *)
Inductive call := Save (r : FileRecord) | ById (id : FileId) | ByOwner (o : UserId) | Exists (u : str).
Inductive answer := ADone | AFile (r : Result FileRecord) | AFiles (l : list FileRecord) | AFlag (b : bool).

(** A call to a repository of the ports; to the one over a database, which lists
    at most [fuel] rows. *)
Definition of_port {F} `{!IFileRepository F} (c : call) : M F answer :=
  match c with
  | Save r => _ ← saveFile r; mret ADone
  | ById id => x ← reads (findFile id); mret (AFile x)
  | ByOwner o => x ← reads (Ports.findByOwner o); mret (AFiles x)
  | Exists u => x ← reads (Ports.existsUploadId u); mret (AFlag x)
  end.
Definition of_database (fuel : nat) (c : call) : M D answer :=
  match c with
  | Save r => _ ← SqliteFileRepository.save r; mret ADone
  | ById id => x ← SqliteFileRepository.findById id; mret (AFile x)
  | ByOwner o => x ← SqliteFileRepository.findByOwner fuel o; mret (AFiles x)
  | Exists u => x ← SqliteFileRepository.existsUploadId u; mret (AFlag x)
  end.

Definition clean_call (c : call) : Prop :=
  match c with
  | Save r => clean_file r
  | ById id => clean (fid_value id)
  | ByOwner o => clean (uid_value o)
  | Exists u => clean u
  end.

(** The same outcome; lists in any order. *)
Definition same_answer (a b : outcome answer) : Prop :=
  match a, b with
  | Ok (AFiles l), Ok (AFiles k) => l ≡ₚ k
  | _, _ => a = b
  end.

Lemma file_call_agrees fuel c n d l : clean_call c -> holds l d -> (length l + S n <= fuel)%nat ->
  same_answer (of_database fuel c d).1 (of_port c l).1 /\
  holds (of_port c l).2 (of_database fuel c d).2 /\ (length (of_port c l).2 + n <= fuel)%nat.
Proof.
  intros Hc Hl Hf. destruct c as [r|id|o|u]; cbn [of_database of_port clean_call] in *.
  - destruct (file_save_holds l d r Hl Hc) as (d' & E & Hl'). cbn in E. rewrite !M_bind_eq. cbn [saveFile ops].
    assert (length (FileTable.save r l).2 + n <= fuel)%nat as Hf'.
    { unfold FileTable.save. destruct (existsb _ _); cbn; [lia|]. rewrite length_app. cbn. lia. }
    rewrite E. destruct (FileTable.save r l) as [[[]|e|] l']; by split_and!.
  - destruct (file_findById_holds l d id Hl Hc) as (d' & E & Hl').
    rewrite (M_bind_run _ _ _ _ _ E), M_bind_eq. unfold reads. cbn. split_and!; [done|done|lia].
  - destruct (findByOwner_holds l d o fuel Hl Hc ltac:(lia)) as (rs & d' & E & Hl' & Hp).
    rewrite (M_bind_run _ _ _ _ _ E), M_bind_eq. unfold reads. cbn. split_and!; [done|done|lia].
  - destruct (existsUploadId_holds l d u Hl Hc) as (d' & E & Hl').
    rewrite (M_bind_run _ _ _ _ _ E), M_bind_eq. unfold reads. cbn. split_and!; [done|done|lia].
Qed.

(** C18: The SQLite file repository implements its specification: on any sequence
    of calls with clean arguments, as long as the engine does not fail, every call
    answers as the list of records does (lists in some order), which satisfies the
    contract [TransferService] is proved against; every record comes back as it
    was saved, except for the labels of its wrapped key, and a second record with
    one of its three identifiers is refused. *)
Theorem sqlite_implements_files fuel cs d l :
  holds l d -> Forall clean_call cs -> (length l + length cs <= fuel)%nat ->
  Forall2 same_answer (plays (of_database fuel) cs d).1 (plays of_port cs l).1 /\
  holds (plays of_port cs l).2 (plays (of_database fuel) cs d).2.
Proof.
  intros Hl Hcs Hf.
  destruct (plays_simulate (of_database fuel) of_port (fun n d l => holds l d /\ length l + n <= fuel)%nat
    clean_call same_answer) with (cs := cs) (s1 := d) (s2 := l) as [Ha [Hl' _]]; [|by split|done|by split].
  intros c n d1 l1 Hc [Hl1 Hn]. by apply file_call_agrees.
Qed.
End Refinement.

(** ** Whatever the table holds

    Any contents, of any types, and an engine that may fail. *)
Section Typed.
Context {D : Type} `{!Sqlite D} `{!SqliteLaws D SqliteFileRepository.files_sql}.
Import SqliteFileRepository.

Record well_formed (r : FileRecord) : Prop := {
  wf_digest : length (d_bytes (digest r)) = 32%nat;
  wf_size : 0 <= fr_size r < 2 ^ 64;
  wf_created : int64_ok (fr_createdAt r) = true;
  wf_wrapped : recipientId (wrapped r) = recipient r /\ alg (wrapped r) = default_alg
}.

(** Undefined on a null identifier only. *)
Lemma read_record_cases st :
  (column_text st 0 = None /\ read_record st = Undef)
  \/ (exists e, read_record st = Throw e)
  \/ exists r, read_record st = Ok r /\ well_formed r /\ column_text st 0 = Some (fid_value (fr_id r)).
Proof.
  unfold read_record. destruct (column_text st 0) as [id|] eqn:E; [|by left].
  right. cbn. destruct (hexToDigest_cases (default [] (column_text st 6))) as [(dg & -> & Hd)|[e ->]].
  - right. eexists. split; [reflexivity|]. split; [|done]. split; cbn.
    + exact Hd.
    + unfold u64. apply Z.mod_pos_bound. lia.
    + destruct (stoll _) as [n|] eqn:En; [by apply stoll_range in En|done].
    + by rewrite reconstruct_eq.
  - left. by eexists.
Qed.

Lemma c_str_twice s : c_str (c_str s) = c_str s.
Proof. induction s as [|c s IH]; [done|]. cbn. case_bool_decide; [done|]. cbn. by rewrite bool_decide_eq_false_2, IH. Qed.

(** C21: What is read is well formed: over a table with any contents (columns of
    any type, text that is no digest, NULLs) and whatever calls fail, [findById]
    reports a failure, lets the exception of a malformed digest through, or
    returns a record of the identifier asked for (up to its first NUL), with a
    digest of 32 bytes, a 64-bit size and date, and a wrapped key for the record's
    recipient. It is undefined in one case only: a row of that identifier was
    found, and there was no memory for the text of its identifier column. *)
Theorem files_read_typed id (d : D) :
  match (findById id d).1 with
  | Ok res => forall r, result_get res = Some r -> well_formed r /\ fid_value (fr_id r) = c_str (fid_value id)
  | Throw _ => True
  | Undef => exists st x rest, at_row st x rest /\ cell 0 x = text (fid_value id) /\ sqlite3_column_nomem st 0 = true
  end.
Proof.
  unfold findById.
  destruct (first_step_rows d select_id_sql [text (fid_value id)]) as (o & d' & E & _ & _ & Hrow).
  { intros args' Hb. inversion Hb as [|v v' l l' _ Hl]; subst. inversion Hl; subst. by eexists. }
  rewrite (M_bind_run _ _ _ _ _ E). destruct o as [[[] st]|]; cbn; try done.
  destruct (Hrow st eq_refl) as (_ & args' & rs & x & rest & Hb & Hsql & Hx & Hat).
  inversion Hb as [|v v' l l' Hv Hl]; subst. inversion Hl; subst. injection Hsql as <-.
  apply list_elem_of_In, filter_In in Hx as [_ Hw].
  destruct Hv as [->| ->]; [|by rewrite where_null in Hw]. unfold where_, sql_eq in Hw.
  apply andb_true_iff in Hw as [Hc%bool_decide_eq_true _].
  pose proof (law_column st x rest 0%nat Hat) as Hcol. fold (cell 0 x) in Hcol. rewrite Hc in Hcol.
  assert (forall s, column_text st 0 = Some s -> s = c_str (c_str (fid_value id))) as Htext.
  { intros s. unfold column_text. rewrite Hcol. cbn. by destruct (sqlite3_column_nomem st 0); intros [= <-]. }
  unfold liftO. rewrite M_bind_eq. destruct (read_record_cases st) as [[Hn ->]|[[e ->]|(r & -> & Hr & Hi)]]; [|done|].
  - exists st, x, rest. split_and!; [done|done|]. unfold column_text in Hn. rewrite Hcol in Hn. cbn in Hn.
    by destruct (sqlite3_column_nomem st 0).
  - cbn. intros r' [= <-]. split; [done|]. by rewrite (Htext _ Hi), c_str_twice.
Qed.
End Typed.
