(* ===== verification/SqliteTransfers.v ===== *)
(** * The SQLite transfer repository ([sqlite_transfer_repo.hpp], [sqlite_transfer_repo.cpp])

    Statuses to text and back, the statements, and a list of transfers as what they
    implement. *)
From S2P Require Import Prelude Domain Ports Tables Sqlite.
From Stdlib Require Import ZArith Lia.
From stdpp Require Import base gmap strings list numbers.
Local Open Scope Z_scope.

Definition statusToString (s : Status) : str :=
  match s with
  | CREATED => "CREATED"
  | UPLOADED => "UPLOADED"
  | DOWNLOADED => "DOWNLOADED"
  | Domain.FAILED => "FAILED"
  end.
Definition stringToStatus (s : str) : Status :=
  if bool_decide (s = lit "UPLOADED") then UPLOADED else
  if bool_decide (s = lit "DOWNLOADED") then DOWNLOADED else
  if bool_decide (s = lit "FAILED") then Domain.FAILED else CREATED.

Lemma status_round s : stringToStatus (c_str (statusToString s)) = s.
Proof. by destruct s. Qed.

Module SqliteTransferRepository.

(** The columns of [transfers], in order: id, file_id, sender, recipient, status,
    created_at, updated_at. *)
Definition create_sql : str := ("CREATE TABLE IF NOT EXISTS transfers(id TEXT PRIMARY KEY, file_id TEXT, sender TEXT, "
  ++ "recipient TEXT, status TEXT, created_at TEXT, updated_at TEXT);")%string.
Definition insert_sql : str :=
  "INSERT INTO transfers(id, file_id, sender, recipient, status, created_at, updated_at) VALUES(?,?,?,?,?,?,?);".
Definition select_id_sql : str :=
  "SELECT id, file_id, sender, recipient, status, created_at, updated_at FROM transfers WHERE id=?;".
Definition select_user_sql : str :=
  "SELECT id, file_id, sender, recipient, status FROM transfers WHERE sender=? OR recipient=?;".

Definition profile (r : row) : row := [cell 0 r; cell 1 r; cell 2 r; cell 3 r; cell 4 r].
Definition violates (args : row) (t : table) : bool := existsb (fun r => sql_eq (cell 0 r) (cell 0 args)) t.
Definition transfers_sql (sql : str) (args : list value) (t : table) : option effect :=
  match args with
  | [k] => if bool_decide (sql = select_id_sql) then Some (Rows (List.filter (where_ 0 k) t)) else None
  | [a; b] =>
      if bool_decide (sql = select_user_sql) then
        Some (Rows (map profile (List.filter (fun r => where_ 2 a r || where_ 3 b r) t))) else None
  | [_; _; _; _; _; _; _] =>
      if bool_decide (sql = insert_sql) then
        Some (if violates args t then Refused else Changed (t ++ [args]) 1) else None
  | _ => None
  end.

Section Operations.
Context {D : Type} `{!Sqlite D}.

(** The constructor, on an open connection. *)
Definition new : M D unit :=
  _ ← exec "PRAGMA journal_mode=WAL;";
  _ ← exec "PRAGMA synchronous=FULL;";
  _ ← exec "PRAGMA foreign_keys=ON;";
  exec create_sql.

Definition construct (connection : option D) : outcome D := opened connection new.

(** Both timestamps are left empty. *)
Definition save (t : Transfer) : M D unit :=
  insert_row insert_sql
    (Ok [text (tid_value (t_id t)); text (fid_value (t_file t)); text (uid_value (t_sender t));
         text (uid_value (t_recipient t)); text (statusToString (t_status t)); text []; text []])
    "duplicate transfer id".

Definition read_transfer (st : Stmt) : outcome Transfer :=
  id ← string_of (column_text st 0);
  file ← string_of (column_text st 1);
  sender ← string_of (column_text st 2);
  recip ← string_of (column_text st 3);
  let s := default (lit "CREATED") (column_text st 4) in
  Ok (MkTransfer (MkTransferId id) (MkFileId file) (MkUserId sender) (MkUserId recip) (stringToStatus s)).

Definition findById (id : TransferId) : M D (Result Transfer) :=
  r ← first_step select_id_sql [text (tid_value id)];
  match r with
  | None => mret (failure "prepare failed")
  | Some (ROW, st) => x ← liftO (read_transfer st); mret (success x)
  | Some _ => mret (failure "not found")
  end.

Definition listFor (fuel : nat) (u : UserId) : M D (list Transfer) :=
  select_list (fun st => x ← read_transfer st; Ok [x]) fuel select_user_sql
    [text (uid_value u); text (uid_value u)].
End Operations.
End SqliteTransferRepository.

(** ** The specification: a list of transfers, in the order they were saved *)
Module TransferTable.
Definition t : Type := list Transfer.
Definition tid (x : Transfer) : str := tid_value (t_id x).

Definition clashes (x y : Transfer) : bool := bool_decide (tid y = tid x).
Definition save (x : Transfer) : M t unit := fun l =>
  if existsb (clashes x) l then (Throw (ValidationException "duplicate transfer id"), l)
  else (Ok tt, l ++ [x]).
Definition findById (id : TransferId) (l : t) : outcome (Result Transfer) :=
  Ok (match List.find (by_key tid (tid_value id)) l with
      | Some x => success x | None => failure "not found" end).
Definition concerns (u : UserId) (x : Transfer) : bool :=
  bool_decide (t_sender x = u) || bool_decide (t_recipient x = u).
Definition listFor (u : UserId) (l : t) : outcome (list Transfer) := Ok (List.filter (concerns u) l).

#[global] Instance ops : ITransferRepository t := {
  Ports.saveTransfer := save;
  Ports.findTransfer := findById;
  Ports.listFor := listFor
}.

Definition inv (l : t) : Prop := NoDup (map tid l).

Lemma transfer_no_clash l x : existsb (clashes x) l = false -> Forall (fun y => tid y <> tid x) l.
Proof.
  intros Hc. eapply List.Forall_impl; [|exact (existsb_none _ _ Hc)]. intros y Hn E. apply Hn.
  by apply bool_decide_eq_true.
Qed.

Lemma transfer_save_inv l x : inv l -> existsb (clashes x) l = false -> inv (l ++ [x]).
Proof. intros Hl Hc. apply NoDup_snoc; [done|]. by apply transfer_no_clash. Qed.

#[global] Program Instance laws : TransferRepositoryLaws t := { tr_model := keyed tid }.
Next Obligation.
  intros l x. cbn. unfold save. destruct (existsb (clashes x) l) eqn:E; (eexists _, _; split; [reflexivity|]).
  - right. by split; [eexists|].
  - left. split; [done|]. by apply (keyed_snoc tid l x), transfer_no_clash.
Qed.
End TransferTable.

(** ** The repository implements the list *)
Section Refinement.
Context {D : Type} `{!Sqlite D} `{!SqliteLaws D SqliteTransferRepository.transfers_sql}.
Import SqliteTransferRepository TransferTable.

Definition transfer_row (x : Transfer) : row :=
  [VText (tid x); VText (fid_value (t_file x)); VText (uid_value (t_sender x)); VText (uid_value (t_recipient x));
   VText (statusToString (t_status x)); VText []; VText []].

Record clean_transfer (x : Transfer) : Prop := {
  ct_id : clean (tid x);
  ct_file : clean (fid_value (t_file x));
  ct_sender : clean (uid_value (t_sender x));
  ct_recipient : clean (uid_value (t_recipient x))
}.

Lemma read_transfer_run st x rest g : readable st (g (transfer_row x)) rest -> g = profile \/ g = (fun r => r) ->
  clean_transfer x -> read_transfer st = Ok x.
Proof.
  intros Hrow Hg [Hi Hf Hs Hr].
  assert (forall i, (i < 5)%nat -> default VNull (g (transfer_row x) !! i) = default VNull (transfer_row x !! i)) as Hc.
  { intros i Hi5. destruct Hg as [->| ->]; [|done]. destruct i as [|[|[|[|[|]]]]]; try done. lia. }
  unfold read_transfer. rewrite !(readable_text _ _ _ _ Hrow), !Hc by lia. cbn. rewrite !c_str_id by done.
  cbn. rewrite status_round. by destruct x as [[] [] [] [] ?].
Qed.

Record holds (l : TransferTable.t) (d : D) : Prop := {
  ho_view : view_of d = MkView (map transfer_row l) None;
  ho_reliable : reliable d;
  ho_clean : Forall clean_transfer l;
  ho_inv : inv l
}.

Lemma transfer_holds_view l (d d' : D) : holds l d -> view_of d' = view_of d -> reliable d' -> holds l d'.
Proof. intros [Hv Hr Hc Hi] Hv' Hr'. split; [by rewrite Hv'|done..]. Qed.

Lemma transfer_clean_in l d x : holds l d -> x ∈ l -> clean_transfer x.
Proof. intros Hl. apply (proj1 (list.Forall_forall _ _) (ho_clean _ _ Hl)). Qed.

Lemma clean_status s : clean (statusToString s).
Proof. destruct s; decided. Qed.

Lemma transfer_save_holds l d x : holds l d -> clean_transfer x ->
  exists d', SqliteTransferRepository.save x d = ((TransferTable.save x l).1, d')
    /\ holds (TransferTable.save x l).2 d'.
Proof.
  intros Hl Hx. unfold SqliteTransferRepository.save, TransferTable.save.
  rewrite !text_clean by (apply Hx || apply clean_status || apply not_elem_of_nil).
  assert (violates (transfer_row x) (map transfer_row l) = existsb (clashes x) l) as Hv.
  { apply existsb_rows. intros y. unfold clashes. by rewrite <-sql_eq_text. }
  assert (forall t, transfers_sql insert_sql (transfer_row x) t =
    Some (if violates (transfer_row x) t then Refused else Changed (t ++ [transfer_row x]) 1)) as Hsql by done.
  specialize (Hsql (map transfer_row l)). rewrite Hv in Hsql. destruct (existsb (clashes x) l) eqn:Ec.
  - destruct (insert_refused d _ _ _ "duplicate transfer id" (ho_reliable _ _ Hl) (ho_view _ _ Hl) Hsql)
      as (d' & E & Hd' & Hv'). exists d'. split; [exact E|]. apply (transfer_holds_view l d); [done| |done].
    by rewrite Hv', (ho_view _ _ Hl).
  - destruct (insert_done d _ _ _ _ "duplicate transfer id" (ho_reliable _ _ Hl) (ho_view _ _ Hl) Hsql)
      as (d' & E & Hd' & Hv'). exists d'. split; [exact E|]. cbn [snd]. split; [by rewrite Hv', map_app|done| |].
    + apply List.Forall_app. split; [apply Hl|]. by constructor.
    + apply transfer_save_inv; [apply Hl|done].
Qed.

Lemma transfer_findById_holds l d id : holds l d -> clean (tid_value id) ->
  exists d', SqliteTransferRepository.findById id d = (TransferTable.findById id l, d') /\ holds l d'.
Proof.
  intros Hl Hk. unfold SqliteTransferRepository.findById, TransferTable.findById. rewrite (text_clean _ Hk).
  destruct (select_run transfer_row d l select_id_sql [VText (tid_value id)] (where_ 0 (VText (tid_value id))) (fun r => r)
    (by_key tid (tid_value id)) (ho_reliable _ _ Hl)) as (st & d' & Hd' & Hv' & Ho).
  - by rewrite (ho_view _ _ Hl).
  - by rewrite map_id.
  - intros x. by apply where_text.
  - exists d'. split; [|by apply (transfer_holds_view l d)].
    destruct Ho as [(x & rest & E & Hrow & Hx & Hp)|[E Hn]]; rewrite (M_bind_run _ _ _ _ _ E).
    + unfold liftO. rewrite M_bind_eq.
      rewrite (read_transfer_run st x rest (fun r => r) Hrow (or_intror eq_refl) (transfer_clean_in _ _ _ Hl Hx)).
      apply bool_decide_eq_true in Hp. by rewrite (find_key_unique tid l _ x (ho_inv _ _ Hl) Hx Hp).
    + by rewrite find_absent.
Qed.

Lemma listFor_holds l d u fuel : holds l d -> clean (uid_value u) -> (length l <= fuel)%nat ->
  exists xs d', SqliteTransferRepository.listFor fuel u d = (Ok xs, d') /\ holds l d'
    /\ xs ≡ₚ List.filter (concerns u) l.
Proof.
  intros Hl Hk Hf. unfold SqliteTransferRepository.listFor. rewrite !(text_clean _ Hk).
  destruct (select_list_run (fun st => x ← read_transfer st; Ok [x]) (fun x => profile (transfer_row x)) (fun x => [x])
    fuel select_user_sql [VText (uid_value u); VText (uid_value u)] (List.filter (concerns u) l) d (ho_reliable _ _ Hl))
    as (zs & d' & E & Hz & Hd' & Hv').
  - rewrite (ho_view _ _ Hl), <-(map_map transfer_row profile). cbn [now].
    rewrite <-(filter_rows transfer_row (fun r => where_ 2 (VText (uid_value u)) r || where_ 3 (VText (uid_value u)) r));
      [done|].
    intros x. unfold concerns. rewrite (where_text 2 _ (uid_value (t_sender x))), (where_text 3 _ (uid_value (t_recipient x)))
      by done. f_equal; apply bool_decide_ext; destruct u; [destruct (t_sender x)|destruct (t_recipient x)];
      cbn; split; congruence.
  - etrans; [apply filter_length_le|exact Hf].
  - intros st x rest Hx Hrow. apply list_elem_of_In, filter_In in Hx as [Hx _]. apply list_elem_of_In in Hx.
    by rewrite (read_transfer_run st x rest profile Hrow (or_introl eq_refl) (transfer_clean_in _ _ _ Hl Hx)).
  - exists (zs ≫= (fun x => [x])), d'. split; [exact E|]. split; [by apply (transfer_holds_view l d)|].
    by rewrite bind_one, map_id.
Qed.

(** *** Calls, as data *)
Inductive call := Save (x : Transfer) | ById (id : TransferId) | ListFor (u : UserId).
Inductive answer := ADone | ATransfer (r : Result Transfer) | ATransfers (l : list Transfer).

Definition of_port {T} `{!ITransferRepository T} (c : call) : M T answer :=
  match c with
  | Save x => _ ← saveTransfer x; mret ADone
  | ById id => x ← reads (findTransfer id); mret (ATransfer x)
  | ListFor u => x ← reads (Ports.listFor u); mret (ATransfers x)
  end.
Definition of_database (fuel : nat) (c : call) : M D answer :=
  match c with
  | Save x => _ ← SqliteTransferRepository.save x; mret ADone
  | ById id => x ← SqliteTransferRepository.findById id; mret (ATransfer x)
  | ListFor u => x ← SqliteTransferRepository.listFor fuel u; mret (ATransfers x)
  end.

Definition clean_call (c : call) : Prop :=
  match c with
  | Save x => clean_transfer x
  | ById id => clean (tid_value id)
  | ListFor u => clean (uid_value u)
  end.
Definition same_answer (a b : outcome answer) : Prop :=
  match a, b with
  | Ok (ATransfers l), Ok (ATransfers k) => l ≡ₚ k
  | _, _ => a = b
  end.

Lemma transfer_call_agrees fuel c n d l : clean_call c -> holds l d -> (length l + S n <= fuel)%nat ->
  same_answer (of_database fuel c d).1 (of_port c l).1 /\
  holds (of_port c l).2 (of_database fuel c d).2 /\ (length (of_port c l).2 + n <= fuel)%nat.
Proof.
  intros Hc Hl Hf. destruct c as [x|id|u]; cbn [of_database of_port clean_call] in *.
  - destruct (transfer_save_holds l d x Hl Hc) as (d' & E & Hl'). cbn in E. rewrite !M_bind_eq. cbn [saveTransfer ops].
    assert (length (TransferTable.save x l).2 + n <= fuel)%nat as Hf'.
    { unfold TransferTable.save. destruct (existsb _ _); cbn; [lia|]. rewrite length_app. cbn. lia. }
    rewrite E. destruct (TransferTable.save x l) as [[[]|e|] l']; by split_and!.
  - destruct (transfer_findById_holds l d id Hl Hc) as (d' & E & Hl').
    rewrite (M_bind_run _ _ _ _ _ E), M_bind_eq. unfold reads. cbn. split_and!; [done|done|lia].
  - destruct (listFor_holds l d u fuel Hl Hc ltac:(lia)) as (xs & d' & E & Hl' & Hp).
    rewrite (M_bind_run _ _ _ _ _ E), M_bind_eq. unfold reads. cbn. split_and!; [done|done|lia].
Qed.

(** The SQLite transfer repository implements its specification: on any
    sequence of calls with clean arguments, as long as the engine does not fail,
    every call answers as the list of transfers does (lists in some order), which
    satisfies the contract [TransferService] is proved against: what was saved is
    found with its status, and listed for its sender and for its recipient only. *)
Theorem sqlite_implements_transfers fuel cs d l :
  holds l d -> Forall clean_call cs -> (length l + length cs <= fuel)%nat ->
  Forall2 same_answer (plays (of_database fuel) cs d).1 (plays of_port cs l).1 /\
  holds (plays of_port cs l).2 (plays (of_database fuel) cs d).2.
Proof.
  intros Hl Hcs Hf.
  destruct (plays_simulate (of_database fuel) of_port (fun n d l => holds l d /\ length l + n <= fuel)%nat
    clean_call same_answer) with (cs := cs) (s1 := d) (s2 := l) as [Ha [Hl' _]]; [|by split|done|by split].
  intros c n d1 l1 Hc [Hl1 Hn]. by apply transfer_call_agrees.
Qed.
End Refinement.
