(* ===== verification/SqliteKeys.v ===== *)
(** * The SQLite key directory ([recipient_pubkey_directory.hpp], [recipient_pubkey_directory.cpp])

    The statements over the SQLite interface, and a list of users with their keys
    as what they implement. *)
From S2P Require Import Prelude Domain Ports AuditLog Tables Sqlite.
From Stdlib Require Import ZArith Lia.
From stdpp Require Import base gmap strings list numbers.
Local Open Scope Z_scope.

Module SqlitePubkeyDirectory.

(** The columns of [recipient_pubkeys], in order: user_id, pubkey, alg, created_at. *)
Definition create_sql : str :=
  "CREATE TABLE IF NOT EXISTS recipient_pubkeys(user_id TEXT PRIMARY KEY, pubkey BLOB, alg TEXT, created_at TEXT);".
Definition insert_sql : str := "INSERT INTO recipient_pubkeys(user_id, pubkey, alg, created_at) VALUES(?,?,?,?);".
Definition select_key_sql : str := "SELECT pubkey FROM recipient_pubkeys WHERE user_id=?;".
Definition exists_sql : str := "SELECT 1 FROM recipient_pubkeys WHERE user_id=? LIMIT 1;".
Definition select_users_sql : str := "SELECT user_id FROM recipient_pubkeys;".

Definition violates (args : row) (t : table) : bool := existsb (fun r => sql_eq (cell 0 r) (cell 0 args)) t.
Definition keys_sql (sql : str) (args : list value) (t : table) : option effect :=
  match args with
  | [] => if bool_decide (sql = select_users_sql) then Some (Rows (map (fun r => [cell 0 r]) t)) else None
  | [k] =>
      if bool_decide (sql = select_key_sql) then
        Some (Rows (map (fun r => [cell 1 r]) (List.filter (where_ 0 k) t))) else
      if bool_decide (sql = exists_sql) then
        Some (Rows (take 1 (map (fun _ => [VInt 1]) (List.filter (where_ 0 k) t)))) else None
  | [_; _; _; _] =>
      if bool_decide (sql = insert_sql) then
        Some (if violates args t then Refused else Changed (t ++ [args]) 1) else None
  | _ => None
  end.

Section Operations.
Context {D : Type} `{!Sqlite D}.

(** The constructor, on an open connection. *)
Definition new : M D unit :=
  _ ← exec "PRAGMA journal_mode=WAL;";
  _ ← exec "PRAGMA synchronous=FULL;";
  _ ← exec "PRAGMA foreign_keys=ON;";
  exec create_sql.

Definition construct (connection : option D) : outcome D := opened connection new.

(** [now]: what the system clock reads, in seconds. *)
Definition savePubkey (now : Z) (uid : UserId) (pub : str) : M D unit :=
  if bool_decide (uid_value uid = []) then throw (ValidationException "user_id empty") else
  if negb (zlen pub =? 32) then throw (ValidationException "pubkey must be 32 bytes") else
  if bool_decide (pub = []) then throw (ValidationException "pubkey empty") else
  insert_row insert_sql
    (key ← blob_or_null pub;
     Ok [text (uid_value uid); key; text default_alg; text (HashChain.timestamp now)])
    "duplicate user_id".

Definition getPubkey (uid : UserId) : M D str :=
  if bool_decide (uid_value uid = []) then throw (ValidationException "user_id empty") else
  r ← first_step select_key_sql [text (uid_value uid)];
  match r with
  | None => throw (RuntimeError "prepare failed")
  | Some (ROW, st) => mret (column_blob st 0)
  | Some _ => throw (NotFoundException "pubkey not found")
  end.

Definition exists_ (uid : UserId) : M D bool :=
  if bool_decide (uid_value uid = []) then mret false else
  r ← first_step exists_sql [text (uid_value uid)];
  match r with
  | Some (ROW, _) => mret true
  | _ => mret false
  end.

(** A null identifier is skipped. *)
Definition listAll (fuel : nat) : M D (list UserId) :=
  select_list (fun st => Ok (match column_text st 0 with Some s => [MkUserId s] | None => [] end))
    fuel select_users_sql [].
End Operations.
End SqlitePubkeyDirectory.

(** ** The specification: users and keys, in the order they were saved *)
Module KeyTable.
Definition t : Type := list (str * str).

Definition savePubkey (uid : UserId) (pub : str) : M t unit := fun l =>
  if bool_decide (uid_value uid = []) then (Throw (ValidationException "user_id empty"), l) else
  if negb (zlen pub =? 32) then (Throw (ValidationException "pubkey must be 32 bytes"), l) else
  if existsb (by_key fst (uid_value uid)) l then (Throw (ValidationException "duplicate user_id"), l)
  else (Ok tt, l ++ [(uid_value uid, pub)]).
Definition getPubkey (uid : UserId) (l : t) : outcome str :=
  if bool_decide (uid_value uid = []) then Throw (ValidationException "user_id empty") else
  match List.find (by_key fst (uid_value uid)) l with
  | Some x => Ok x.2
  | None => Throw (NotFoundException "pubkey not found")
  end.
Definition exists_ (uid : UserId) (l : t) : outcome bool :=
  Ok (negb (bool_decide (uid_value uid = [])) && existsb (by_key fst (uid_value uid)) l).
Definition listAll (l : t) : outcome (list UserId) := Ok (map (fun x => MkUserId x.1) l).

#[global] Instance ops : IKeyDirectory t := {
  Ports.savePubkey := savePubkey;
  Ports.getPubkey := getPubkey;
  Ports.keyExists := exists_;
  Ports.listKeys := listAll
}.

(** The key of a user: the first saved, the only one. *)
Definition model (l : t) : gmap str str := list_to_map l.

Lemma model_find k l : model l !! k = snd <$> List.find (by_key fst k) l.
Proof.
  unfold model, by_key. induction l as [|[u p] l IH]; [done|]. cbn. case_bool_decide as E.
  - subst. by rewrite lookup_insert_eq.
  - by rewrite lookup_insert_ne.
Qed.

Lemma existsb_find {X} (p : X -> bool) l : existsb p l = bool_decide (is_Some (List.find p l)).
Proof. induction l as [|x l IH]; [done|]. cbn. by destruct (p x). Qed.

#[global] Program Instance laws : KeyDirectoryLaws t := { kd_model := model }.
Next Obligation.
  intros l u Hu. cbn. unfold exists_. rewrite (bool_decide_eq_false_2 (_ = [])), existsb_find, model_find by done.
  cbn. f_equal. apply bool_decide_ext. by rewrite fmap_is_Some.
Qed.
Next Obligation.
  intros l u pub Hp Hu. cbn. unfold getPubkey. rewrite bool_decide_eq_false_2 by done. rewrite model_find in Hp.
  destruct (List.find _ l) as [x|]; [|done]. by injection Hp as ->.
Qed.
Next Obligation.
  intros l u pub. cbn. unfold savePubkey.
  case_bool_decide; [eexists _, l; split; [done|right; eauto]|].
  destruct (Z.eqb_spec (zlen pub) 32); [|eexists _, l; split; [done|right; eauto]]. cbn [negb].
  destruct (existsb _ l) eqn:E; [eexists _, l; split; [done|right; eauto]|].
  assert (model l !! uid_value u = None) as Hn.
  { rewrite model_find. rewrite existsb_find in E. apply bool_decide_eq_false in E.
    apply eq_None_not_Some in E. by rewrite E. }
  eexists _, _. split; [reflexivity|]. left. do 3 (split; [done|]). split; [done|].
  unfold model in *. apply (list_to_map_snoc (M:=gmap str)). by apply not_elem_of_list_to_map.
Qed.
End KeyTable.

(** ** The repository implements the list *)
Section Refinement.
Context {D : Type} `{!Sqlite D} `{!SqliteLaws D SqlitePubkeyDirectory.keys_sql}.
Import SqlitePubkeyDirectory KeyTable.

(** A row: the user, the key, and when it was saved. *)
Definition key_row (x : str * str * str) : row :=
  [VText x.1.1; VBlob x.1.2; VText default_alg; VText x.2].

Definition clean_key (x : str * str * str) : Prop := clean x.1.1 /\ zlen x.1.2 = 32.

(** The database holds the keys, saved at some times. *)
Record holds_rows (xs : list (str * str * str)) (d : D) : Prop := {
  ho_view : view_of d = MkView (map key_row xs) None;
  ho_reliable : reliable d;
  ho_clean : Forall clean_key xs;
  ho_users : NoDup (map (fun x => x.1.1) xs)
}.
Definition holds (l : KeyTable.t) (d : D) : Prop := exists xs, l = map fst xs /\ holds_rows xs d.

Lemma key_holds_view xs (d d' : D) : holds_rows xs d -> view_of d' = view_of d -> reliable d' -> holds_rows xs d'.
Proof. intros [Hv Hr Hc Hu] Hv' Hr'. split; [by rewrite Hv'|done..]. Qed.

Lemma blob_key pub : zlen pub = 32 -> blob_or_null pub = Ok (VBlob pub).
Proof.
  intros Hp. rewrite blob_bound by lia. unfold blob_value. by rewrite bool_decide_eq_false_2 by (by intros ->).
Qed.

Lemma existsb_users u xs :
  existsb (by_key fst u) (map fst xs) = existsb (fun x : str * str * str => bool_decide (x.1.1 = u)) xs.
Proof. induction xs as [|x xs IH]; [done|]. cbn. by rewrite IH. Qed.

Lemma key_save_holds xs d now uid pub : holds_rows xs d -> clean (uid_value uid) ->
  exists d' xs', SqlitePubkeyDirectory.savePubkey now uid pub d = ((KeyTable.savePubkey uid pub (map fst xs)).1, d')
    /\ (KeyTable.savePubkey uid pub (map fst xs)).2 = map fst xs' /\ holds_rows xs' d'.
Proof.
  intros Hl Hk. unfold SqlitePubkeyDirectory.savePubkey, KeyTable.savePubkey.
  case_bool_decide; [by eexists _, xs|]. destruct (Z.eqb_spec (zlen pub) 32) as [Hp|]; cbn [negb]; [|by eexists _, xs].
  rewrite bool_decide_eq_false_2 by (by intros ->). rewrite (blob_key pub Hp), existsb_users.
  cbn [mbind outcome_bind]. rewrite (text_clean _ Hk).
  set (x := (uid_value uid, pub, c_str (HashChain.timestamp now))).
  assert (violates (key_row x) (map key_row xs) = existsb (fun x => bool_decide (x.1.1 = uid_value uid)) xs) as Hv.
  { apply existsb_rows. intros y. by rewrite <-sql_eq_text. }
  assert (forall t, keys_sql insert_sql (key_row x) t =
    Some (if violates (key_row x) t then Refused else Changed (t ++ [key_row x]) 1)) as Hsql by done.
  specialize (Hsql (map key_row xs)). rewrite Hv in Hsql. destruct (existsb _ xs) eqn:Ec.
  - destruct (insert_refused d _ _ _ "duplicate user_id" (ho_reliable _ _ Hl) (ho_view _ _ Hl) Hsql)
      as (d' & E & Hd' & Hv'). exists d', xs. split; [exact E|]. split; [done|].
    apply (key_holds_view xs d); [done| |done]. by rewrite Hv', (ho_view _ _ Hl).
  - destruct (insert_done d _ _ _ _ "duplicate user_id" (ho_reliable _ _ Hl) (ho_view _ _ Hl) Hsql)
      as (d' & E & Hd' & Hv'). exists d', (xs ++ [x]). split; [exact E|]. split; [by rewrite map_app|].
    split; [by rewrite Hv', map_app|done| |].
    + apply List.Forall_app. split; [apply Hl|]. by repeat constructor.
    + apply (NoDup_snoc (fun x => x.1.1)); [apply Hl|].
      eapply List.Forall_impl; [|exact (existsb_none _ _ Ec)]. intros y Hn E'. apply Hn. by apply bool_decide_eq_true.
Qed.

Lemma find_user (u : str) (xs : list (str * str * str)) x : NoDup (map (fun x => x.1.1) xs) -> x ∈ xs -> x.1.1 = u ->
  List.find (by_key fst u) (map fst xs) = Some x.1.
Proof.
  intros Hd Hx Hu. apply find_key_unique; [by rewrite map_map| |done]. apply list_elem_of_fmap. by exists x.
Qed.

Lemma no_user (u : str) (xs : list (str * str * str)) : (forall x, x ∈ xs -> bool_decide (x.1.1 = u) = false) ->
  List.find (by_key fst u) (map fst xs) = None.
Proof. intros Hn. apply find_absent. intros y (x & -> & Hx)%list_elem_of_fmap. by apply Hn. Qed.

Lemma getPubkey_holds xs d uid : holds_rows xs d -> clean (uid_value uid) ->
  exists d', SqlitePubkeyDirectory.getPubkey uid d = (KeyTable.getPubkey uid (map fst xs), d') /\ holds_rows xs d'.
Proof.
  intros Hl Hk. unfold SqlitePubkeyDirectory.getPubkey, KeyTable.getPubkey. rewrite (text_clean _ Hk).
  case_bool_decide; [by exists d|].
  destruct (select_run key_row d xs select_key_sql [VText (uid_value uid)] (where_ 0 (VText (uid_value uid)))
    (fun r => [cell 1 r]) (fun x => bool_decide (x.1.1 = uid_value uid)) (ho_reliable _ _ Hl))
    as (st & d' & Hd' & Hv' & Ho).
  - by rewrite (ho_view _ _ Hl).
  - done.
  - intros x. by apply where_text.
  - exists d'. split; [|by apply (key_holds_view xs d)].
    destruct Ho as [(x & rest & E & Hrow & Hx & Hp%bool_decide_eq_true)|[E Hn]]; rewrite (M_bind_run _ _ _ _ _ E).
    + rewrite (find_user _ xs x (ho_users _ _ Hl) Hx Hp). 
      by rewrite (readable_blob _ _ _ 0%nat Hrow).
    + by rewrite no_user.
Qed.

Lemma exists_holds xs d uid : holds_rows xs d -> clean (uid_value uid) ->
  exists d', SqlitePubkeyDirectory.exists_ uid d = (KeyTable.exists_ uid (map fst xs), d') /\ holds_rows xs d'.
Proof.
  intros Hl Hk. unfold SqlitePubkeyDirectory.exists_, KeyTable.exists_. rewrite (text_clean _ Hk).
  case_bool_decide; [by exists d|]. cbn [negb andb]. rewrite existsb_users.
  set (p := fun x : str * str * str => bool_decide (x.1.1 = uid_value uid)).
  destruct (step_row d exists_sql [VText (uid_value uid)] (take 1 (map (fun _ => [VInt 1]) (List.filter p xs)))
    (ho_reliable _ _ Hl)) as (c & st & d' & E & Hv' & Hd' & Hc).
  - rewrite (ho_view _ _ Hl). cbn [now].
    assert (keys_sql exists_sql [VText (uid_value uid)] (map key_row xs) = Some (Rows (take 1 (map (fun _ => [VInt 1])
      (List.filter (where_ 0 (VText (uid_value uid))) (map key_row xs)))))) as -> by done.
    by rewrite (filter_rows key_row _ p), map_map by (intros x; by apply where_text).
  - exists d'. split; [|by apply (key_holds_view xs d)]. rewrite (M_bind_run _ _ _ _ _ E).
    assert (existsb p xs = negb (bool_decide (List.filter p xs = []))) as ->.
    { clear. induction xs as [|x xs IH]; [done|]. cbn. by destruct (p x). }
    destruct (List.filter p xs) as [|y ys]; cbn in Hc.
    + destruct Hc as [[-> _]|(r & rest & _ & Hp & _)]; [done|]. by apply Permutation_nil_l in Hp.
    + by destruct Hc as [[_ [=]]|(r & rest & -> & _)].
Qed.

Lemma listAll_holds xs d fuel : holds_rows xs d -> (length xs <= fuel)%nat ->
  exists us d', SqlitePubkeyDirectory.listAll fuel d = (Ok us, d') /\ holds_rows xs d'
    /\ us ≡ₚ map (fun x => MkUserId x.1) (map fst xs).
Proof.
  intros Hl Hf. unfold SqlitePubkeyDirectory.listAll.
  destruct (select_list_run (fun st => Ok (match column_text st 0 with Some s => [MkUserId s] | None => [] end))
    (fun x => [VText x.1.1]) (fun x : str * str * str => [MkUserId x.1.1]) fuel select_users_sql [] xs d (ho_reliable _ _ Hl))
    as (zs & d' & E & Hz & Hd' & Hv'); [|done| |].
  - rewrite (ho_view _ _ Hl). cbn [now]. by rewrite <-(map_map key_row (fun r => [cell 0 r])).
  - intros st x rest Hx Hrow. rewrite (readable_text _ _ _ 0%nat Hrow). cbn.
    rewrite c_str_id; [done|]. by apply (proj1 (list.Forall_forall _ _) (ho_clean _ _ Hl)).
  - eexists _, d'. split; [exact E|]. split; [by apply (key_holds_view xs d)|]. by rewrite bind_one, map_map, Hz.
Qed.

(** *** Calls, as data: a key is saved at some time *)
Inductive call := Save (now : Z) (uid : UserId) (pub : str) | Get (uid : UserId) | Exists (uid : UserId) | All.
Inductive answer := ADone | AKey (k : str) | AFlag (b : bool) | AUsers (l : list UserId).

Definition of_port {K} `{!IKeyDirectory K} (c : call) : M K answer :=
  match c with
  | Save _ uid pub => _ ← Ports.savePubkey uid pub; mret ADone
  | Get uid => x ← reads (Ports.getPubkey uid); mret (AKey x)
  | Exists uid => x ← reads (keyExists uid); mret (AFlag x)
  | All => x ← reads listKeys; mret (AUsers x)
  end.
Definition of_database (fuel : nat) (c : call) : M D answer :=
  match c with
  | Save n uid pub => _ ← SqlitePubkeyDirectory.savePubkey n uid pub; mret ADone
  | Get uid => x ← SqlitePubkeyDirectory.getPubkey uid; mret (AKey x)
  | Exists uid => x ← SqlitePubkeyDirectory.exists_ uid; mret (AFlag x)
  | All => x ← SqlitePubkeyDirectory.listAll fuel; mret (AUsers x)
  end.

Definition clean_call (c : call) : Prop :=
  match c with
  | Save _ uid _ | Get uid | Exists uid => clean (uid_value uid)
  | All => True
  end.
Definition same_answer (a b : outcome answer) : Prop :=
  match a, b with
  | Ok (AUsers l), Ok (AUsers k) => l ≡ₚ k
  | _, _ => a = b
  end.

Lemma key_call_agrees fuel c n d l : clean_call c -> holds l d -> (length l + S n <= fuel)%nat ->
  same_answer (of_database fuel c d).1 (of_port c l).1 /\
  holds (of_port c l).2 (of_database fuel c d).2 /\ (length (of_port c l).2 + n <= fuel)%nat.
Proof.
  intros Hc (xs & -> & Hl) Hf. destruct c as [time uid pub|uid|uid|]; cbn [of_database of_port clean_call] in *.
  - destruct (key_save_holds xs d time uid pub Hl Hc) as (d' & xs' & E & Ex & Hl'). rewrite !M_bind_eq.
    cbn [Ports.savePubkey ops].
    assert (length (KeyTable.savePubkey uid pub (map fst xs)).2 + n <= fuel)%nat as Hf'.
    { unfold KeyTable.savePubkey. repeat case_match; cbn; try lia. rewrite length_app. cbn. lia. }
    rewrite E. destruct (KeyTable.savePubkey uid pub (map fst xs)) as [[[]|e|] l']; cbn in *; subst;
      (split; [done|]); (split; [by exists xs'|done]).
  - destruct (getPubkey_holds xs d uid Hl Hc) as (d' & E & Hl'). rewrite !M_bind_eq, E. unfold reads.
    cbn [Ports.getPubkey ops]. destruct (KeyTable.getPubkey uid (map fst xs)); cbn;
      (split; [done|]); (split; [by exists xs|lia]).
  - destruct (exists_holds xs d uid Hl Hc) as (d' & E & Hl').
    rewrite (M_bind_run _ _ _ _ _ E), M_bind_eq. unfold reads. cbn. split; [done|]. split; [by exists xs|lia].
  - destruct (listAll_holds xs d fuel Hl) as (us & d' & E & Hl' & Hp); [rewrite length_map in Hf; lia|].
    rewrite (M_bind_run _ _ _ _ _ E), M_bind_eq. unfold reads. cbn. split; [done|]. split; [by exists xs|lia].
Qed.

(** C40: The SQLite key directory implements its specification: on any sequence of
    calls with clean user names, at any times and as long as the engine does not
    fail, every call answers as the list of keys does (lists in some order), which
    satisfies the contract [TransferService] is proved against: a key of 32 bytes
    is saved once for a user, never replaced, and comes back as it was saved. *)
Theorem sqlite_implements_keys fuel cs d l :
  holds l d -> Forall clean_call cs -> (length l + length cs <= fuel)%nat ->
  Forall2 same_answer (plays (of_database fuel) cs d).1 (plays of_port cs l).1 /\
  holds (plays of_port cs l).2 (plays (of_database fuel) cs d).2.
Proof.
  intros Hl Hcs Hf.
  destruct (plays_simulate (of_database fuel) of_port (fun n d l => holds l d /\ length l + n <= fuel)%nat
    clean_call same_answer) with (cs := cs) (s1 := d) (s2 := l) as [Ha [Hl' _]]; [|by split|done|by split].
  intros c n d1 l1 Hc [Hl1 Hn]. by apply key_call_agrees.
Qed.
End Refinement.
