(* ===== verification/SqliteSaves.v ===== *)
(** * Saving a file, a transfer or a key is all or nothing

    The three repositories insert their rows in the same kind of transaction; here
    over tables with any contents and engines that may fail at every call. *)
From S2P Require Import Prelude Domain Ports AuditLog Tables Sqlite SqliteFiles SqliteTransfers SqliteKeys.
From Stdlib Require Import ZArith Lia.
From stdpp Require Import base gmap strings list numbers.
Local Open Scope Z_scope.

(** How a save that started from [t] may end: one row was added to the committed
    table, the one it made except for the parameters whose bind failed and which
    are NULL, and no other row has an identifier of it; or nothing is committed.
    [well] says that no call of the engine failed. *)
Definition saved {D X : Type} `{!Sqlite D} {run : str -> row -> table -> option effect} `{!SqliteLaws D run} (violates : row -> table -> bool)
    (well : Prop) (args : outcome row) (t : table) (r : outcome X * D) : Prop :=
  match r.1 with
  | Ok _ => exists x x', args = Ok x /\ bound_as x x' /\ (well -> x' = x) /\ violates x' t = false
            /\ view_of r.2 = MkView (t ++ [x']) None
  | _ => committed (view_of r.2) = t
  end.

Lemma insert_saved {D : Type} `{!Sqlite D} {run : str -> row -> table -> option effect} `{!SqliteLaws D run}
    (violates : row -> table -> bool) sql args dup (d : D) t :
  view_of d = MkView t None -> (exists x t' e, run sql x t' = Some e) ->
  (forall x x', args = Ok x -> bound_as x x' ->
     run sql x' t = Some (if violates x' t then Refused else Changed (t ++ [x']) 1)) ->
  saved violates (reliable d) args t (insert_row sql args dup d).
Proof.
  intros Hv Hsql Hrun. destruct args as [x|e|].
  - assert (write_sql (run := run) sql x t) as Hw.
    { intros x' Hb. eexists. split; [exact (Hrun x x' eq_refl Hb)|]. intros rs. by destruct (violates x' t). }
    pose proof (insert_atomic d t sql x dup Hv Hw) as Ha.
    unfold atomic, saved in *. destruct (insert_row sql (Ok x) dup d).1; [|done..].
    destruct Ha as (t' & (x' & Hb & Hsame & Ht) & Hv'). exists x, x'. rewrite (Hrun x x' eq_refl Hb) in Ht.
    destruct (violates x' t); [done|]. injection Ht as <-. by split_and!.
  - destruct (insert_bad d t sql (Throw e) dup Hv eq_refl Hsql) as [Hn Hc]. unfold saved.
    by destruct (insert_row sql (Throw e) dup d).1.
  - destruct (insert_bad d t sql Undef dup Hv eq_refl Hsql) as [Hn Hc]. unfold saved.
    by destruct (insert_row sql Undef dup d).1.
Qed.

Section Saves.
Context {DF : Type} `{!Sqlite DF} `{!SqliteLaws DF SqliteFileRepository.files_sql}.
Context {DT : Type} `{!Sqlite DT} `{!SqliteLaws DT SqliteTransferRepository.transfers_sql}.
Context {DK : Type} `{!Sqlite DK} `{!SqliteLaws DK SqlitePubkeyDirectory.keys_sql}.

Lemma bound_shape r x : SqliteFileRepository.bound r = Ok x ->
  exists a b c d e f g h i j k, x = [a; b; c; d; e; f; g; h; i; j; k].
Proof.
  unfold SqliteFileRepository.bound. destruct (blob_or_null (wk_bytes (wrapped r))), (blob_or_null (nonce (wrapped r))); cbn;
    try discriminate. intros [= <-]. by eexists _, _, _, _, _, _, _, _, _, _, _.
Qed.

Definition transfer_args (x : Transfer) : outcome row :=
  Ok [text (tid_value (t_id x)); text (fid_value (t_file x)); text (uid_value (t_sender x));
      text (uid_value (t_recipient x)); text (statusToString (t_status x)); text []; text []].
Definition key_args (time : Z) (uid : UserId) (pub : str) : outcome row :=
  Ok [text (uid_value uid); VBlob pub; text default_alg; text (HashChain.timestamp time)].

(** C19: Saving a record of a file, a transfer or a public key is all or nothing:
    from a table with any contents and no transaction open, whatever calls of the
    engine fail, binds included, a save that returns has committed the table with
    one row added, and no row of the table had its identifiers; the row holds in
    each column what was to be saved, or NULL where the engine could not bind it,
    and is exactly the one to be saved if no call failed. A save that throws (or
    whose blob is too large to be bound) has committed nothing. *)
Theorem saves_all_or_nothing r x time uid pub (df : DF) (dt : DT) (dk : DK) tf tt tk :
  view_of df = MkView tf None -> view_of dt = MkView tt None -> view_of dk = MkView tk None ->
  saved SqliteFileRepository.violates (reliable df) (SqliteFileRepository.bound r) tf (SqliteFileRepository.save r df) /\
  saved SqliteTransferRepository.violates (reliable dt) (transfer_args x) tt (SqliteTransferRepository.save x dt) /\
  saved SqlitePubkeyDirectory.violates (reliable dk) (key_args time uid pub) tk
    (SqlitePubkeyDirectory.savePubkey time uid pub dk).
Proof.
  intros Hf Ht Hk. split; [|split].
  - apply insert_saved; [done|exists (replicate 11 VNull), []; by eexists|].
    intros v v' Hv Hb. destruct (bound_shape r v Hv) as (? & ? & ? & ? & ? & ? & ? & ? & ? & ? & ? & ->). by bound_cells.
  - apply insert_saved; [done|exists (replicate 7 VNull), []; by eexists|]. intros v v' [= <-] Hb. by bound_cells.
  - unfold SqlitePubkeyDirectory.savePubkey.
    case_bool_decide; [unfold saved; cbn; by rewrite Hk|].
    destruct (Z.eqb_spec (zlen pub) 32) as [Hp|]; cbn [negb]; [|unfold saved; cbn; by rewrite Hk].
    case_bool_decide; [unfold saved; cbn; by rewrite Hk|]. rewrite (blob_key pub Hp).
    apply insert_saved; [done|exists (replicate 4 VNull), []; by eexists|]. intros v v' [= <-] Hb. by bound_cells.
Qed.
End Saves.
