(* ===== verification/SqliteExamples.v ===== *)
(** * A database engine for the witnesses of the SQLite repositories

    A small engine in memory that satisfies what is documented of SQLite, for
    whatever statements a file gives a meaning to; any of its calls can be made
    to fail. *)
From S2P Require Import Prelude Domain Ports AuditLog Users Tables Sqlite SqliteUsers Interchange SqliteFiles SqliteTransfers SqliteKeys SqliteSaves.
From Stdlib Require Import ZArith Lia.
From stdpp Require Import base gmap strings list numbers.
Local Open Scope Z_scope.

(** [broken n] says whether the [n]-th call fails, [starved n] whether the text of
    the columns it steps to cannot be had. *)
Record engine := MkEngine {
  e_view : view; e_changes : Z; broken : nat -> bool; starved : nat -> bool; e_calls : nat
}.
Inductive statement :=
| Ready (sql : str) (args : list value)
| Cursor (cur : row) (rest : table) (nomem : bool)
| Over.

Section Engine.
Variable run : str -> list value -> table -> option effect.

(** A call: [ok] of the view and the changes, or [bad]. *)
Definition attempt {X} (bad : X) (good : view -> Z -> X * view * Z) : M engine X := fun d =>
  let next v n := MkEngine v n (broken d) (starved d) (S (e_calls d)) in
  if broken d (e_calls d) then (Ok bad, next (e_view d) (e_changes d))
  else let '(x, v, n) := good (e_view d) (e_changes d) in (Ok x, next v n).

Definition e_exec (sql : str) : M engine (option (option str)) :=
  attempt (Some None) (fun v n =>
    if bool_decide (sql = lit "BEGIN IMMEDIATE;") then
      match before v with
      | None => (None, MkView (now v) (Some (now v)), n)
      | Some _ => (Some (Some (lit "cannot start a transaction within a transaction")), v, n)
      end
    else if bool_decide (sql = lit "COMMIT;") then
      match before v with
      | Some _ => (None, MkView (now v) None, n)
      | None => (Some (Some (lit "cannot commit - no transaction is active")), v, n)
      end
    else if bool_decide (sql = lit "ROLLBACK;") then
      match before v with
      | Some b => (None, MkView b None, n)
      | None => (Some (Some (lit "cannot rollback - no transaction is active")), v, n)
      end
    else (None, v, n)).

Definition e_prepare (sql : str) : M engine (option statement) :=
  attempt None (fun v n => (Some (Ready sql []), v, n)).
Definition e_bind (st : statement) (i : nat) (x : value) : M engine statement :=
  let with_param y := match st with Ready sql args => Ready sql (args ++ [y]) | _ => st end in
  attempt (with_param VNull) (fun v n => (with_param x, v, n)).

Definition e_step (st : statement) : M engine (rc * statement) := fun d =>
  let nomem := starved d (e_calls d) in
  attempt (FAILED, Over) (fun v n =>
    match st with
    | Ready sql args =>
        match run sql args (now v) with
        | Some (Changed t k) => (DONE, Over, MkView t (before v), k)
        | Some (Rows (r :: rs)) => (ROW, Cursor r rs nomem, v, n)
        | Some (Rows []) => (DONE, Over, v, n)
        | Some Refused => (CONSTRAINT, Over, v, n)
        | None => (FAILED, Over, v, n)
        end
    | Cursor _ (r :: rs) _ => (ROW, Cursor r rs nomem, v, n)
    | Cursor _ [] _ => (DONE, Over, v, n)
    | Over => (FAILED, Over, v, n)
    end) d.
Definition e_column (st : statement) (i : nat) : value :=
  match st with Cursor r _ _ => default VNull (r !! i) | _ => VNull end.
Definition e_nomem (st : statement) (i : nat) : bool :=
  match st with Cursor _ _ nomem => nomem | _ => false end.

#[export] Instance engine_ops : Sqlite engine := {
  Stmt := statement;
  sqlite3_exec := e_exec;
  sqlite3_prepare := e_prepare;
  sqlite3_bind := e_bind;
  sqlite3_step := e_step;
  sqlite3_column := e_column;
  sqlite3_column_nomem := e_nomem;
  sqlite3_changes := fun d => (Ok (e_changes d), d)
}.

#[export] Program Instance engine_laws : SqliteLaws engine run := {
  view_of := e_view;
  changes_of := e_changes;
  reliable d := forall n, broken d n = false /\ starved d n = false;
  is_stmt st sql args := st = Ready sql args;
  at_row st r rest := exists nomem, st = Cursor r rest nomem
}.
Ltac called Hb d := cbn; unfold e_exec, e_prepare, e_bind, e_step, attempt; destruct (broken d (e_calls d)) eqn:Hb.
Ltac unreliable Hb := intros Hr; by rewrite (proj1 (Hr _)) in Hb.
Next Obligation.
  intros d t Hv. cbn in Hv. called Hb d; rewrite ?Hv; cbn; eexists _, _; (split; [reflexivity|]).
  - split; [unreliable Hb|done].
  - by split.
Qed.
Next Obligation.
  intros d t b Hv. cbn in Hv. called Hb d; rewrite ?Hv; cbn; eexists _, _; (split; [reflexivity|]).
  - split; [unreliable Hb|by left].
  - by split.
Qed.
Next Obligation.
  intros d t Hv. cbn in Hv. called Hb d; rewrite ?Hv; cbn; by eexists _, _.
Qed.
Next Obligation.
  intros d. called Hb d; cbn.
  - eexists _, _. split; [reflexivity|]. split; [unreliable Hb|by left].
  - destruct (e_view d) as [t [b|]] eqn:Ev; cbn; eexists _, _; (split; [reflexivity|]); cbn.
    + by split.
    + split; [done|]. by left.
Qed.
Next Obligation.
  intros d sql _. called Hb d; eexists _, _; (split; [reflexivity|]); (split; [done|]).
  - split; [unreliable Hb|done].
  - split; [done|]. by intros st [= <-].
Qed.
Next Obligation.
  intros d st sql args v ->. called Hb d; eexists _, _, _; (split; [reflexivity|]); (split; [done|]).
  - split; [unreliable Hb|]. split; [by right|done].
  - split; [done|]. split; [by left|done].
Qed.
Next Obligation.
  intros d st sql args e -> Hrun. cbn in Hrun. called Hb d.
  - eexists _, _, _. split; [reflexivity|]. split; [unreliable Hb|by left].
  - rewrite Hrun. destruct e as [t n|[|r rs]|]; eexists _, _, _; (split; [reflexivity|]);
      (split; [intros Hr; split_and!; [exact Hr|done|intros i; cbn; try done; apply Hr]|]); cbn.
    + left. by exists t.
    + by right.
    + exists (r :: rs), r, rs. split_and!; [done|done|by eexists|done].
    + done.
Qed.
Next Obligation.
  intros d st r rest [b ->]. called Hb d.
  - eexists _, _, _. split; [reflexivity|]. split; [unreliable Hb|by left].
  - destruct rest as [|r' rest]; eexists _, _, _; (split; [reflexivity|]);
      (split; [intros Hr; split_and!; [exact Hr|done|intros i; cbn; try done; apply Hr]|]); cbn; [done|].
    split; [by eexists|done].
Qed.
Next Obligation. intros st r rest i [b ->]. done. Qed.
Next Obligation. intros d. by exists d. Qed.
End Engine.

Definition fresh_database : engine := MkEngine (MkView [] None) 0 (fun _ => false) (fun _ => false) 0.

(** ** The user repository at work *)
Module UsersAtWork.
Import SqliteUsers.
#[local] Instance users_engine : Sqlite engine := engine_ops SqliteUserRepository.users_sql.
#[local] Instance users_laws : SqliteLaws engine SqliteUserRepository.users_sql :=
  engine_laws SqliteUserRepository.users_sql.

Definition carol : User := MkUser (MkUserId "id-1") "carol" "carol@example.org" "user" "active" 0 0.
Definition carols_day : list call :=
  [Save carol "hash"; Save carol "other"; ByName "carol"; Fails (MkUserId "id-1") 1000; ById (MkUserId "id-1");
   UpdateHash (MkUserId "id-1") "hash2"; GetHash (MkUserId "id-1"); Reset_ (MkUserId "id-1"); ByEmail "nobody"].

Lemma carol_clean h : Byte.x00 ∉ h -> clean_account (carol, h).
Proof. intros Hh. split; try done; decided. Qed.

Lemma fresh_holds : holds [] fresh_database.
Proof. split; [done|done|constructor|]. split; constructor. Qed.

Lemma carols_day_clean : Forall clean_call carols_day.
Proof.
  repeat constructor; try (by apply carol_clean; decided); decided.
Qed.

Definition carols_answers : list (outcome answer) := Eval vm_compute in
  (play (of_port (R := AccountTable.t)) carols_day []).1.

Lemma sqlite_implements_accounts_witness :
  (play of_database carols_day fresh_database).1 = carols_answers
  /\ holds (play (of_port (R := AccountTable.t)) carols_day []).2 (play of_database carols_day fresh_database).2.
Proof.
  destruct (sqlite_implements_accounts carols_day fresh_database [] fresh_holds carols_day_clean)
    as [E H].
  - change (Undef ∉ carols_answers). unfold carols_answers. intros Hin.
    apply list_elem_of_In in Hin. cbn in Hin. repeat (destruct Hin as [Hin|Hin]; [discriminate|]). done.
  - split; [|exact H]. rewrite E. vm_compute. reflexivity.
Defined.

(** The same table, with one call failing: the commit of the first save. *)
Definition failing_database : engine :=
  MkEngine (MkView [] None) 0 (fun n => bool_decide (n = 11%nat)) (fun _ => false) 0.

Lemma sqlite_all_or_nothing_witness :
  (play of_database [Save carol "hash"] failing_database).1 = [Throw (RuntimeError "exec failed")]
  /\ committed (view_of (perform of_database (Save carol "hash") failing_database).2) = [].
Proof.
  split; [vm_compute; reflexivity|].
  pose proof (sqlite_all_or_nothing (Save carol "hash") failing_database [] eq_refl eq_refl) as H.
  unfold all_or_nothing, atomic in H.
  assert ((perform of_database (Save carol "hash") failing_database).1 = Throw (RuntimeError "exec failed")) as E
    by (vm_compute; reflexivity).
  rewrite E in H. exact H.
Defined.

(** What the all-or-nothing theorem leaves open does happen: the bind of the
    identifier fails (of the INSERT; of the UPDATE of an account that is there),
    and the call returns all the same. *)
Definition one_bind_fails (t : table) (n : nat) : engine :=
  MkEngine (MkView t None) 0 (fun k => bool_decide (k = n)) (fun _ => false) 0.
Example save_without_identifier :
  let '(o, d) := SqliteUserRepository.save carol "hash" (one_bind_fails [] 2) in
  (o, map (cell 0) (now (e_view d)), before (e_view d)) = (Ok tt, [VNull], None).
Proof. vm_compute. reflexivity. Qed.
Example deactivation_lost :
  let t := [save_args carol "hash"] in
  let '(o, d) := SqliteUserRepository.update (setStatus "inactive" carol) (one_bind_fails t 9) in
  (o, now (e_view d), before (e_view d)) = (Ok tt, t, None).
Proof. vm_compute. reflexivity. Qed.
(** No memory for the identifier that was just found: a string is made of a null
    pointer. *)
Example found_without_memory :
  (SqliteUserRepository.findById (MkUserId "id-1")
    (MkEngine (MkView [save_args carol "hash"] None) 0 (fun _ => false) (fun _ => true) 0)).1 = Undef.
Proof. vm_compute. reflexivity. Qed.

(** Against the repository in memory, from no accounts. *)
Definition carols_start : list call :=
  [Save carol "hash"; Save carol "other"; ByName "carol"; Fails (MkUserId "id-1") 1000; GetHash (MkUserId "id-1")].

Definition carol_failed : User := setLockout 0 1 carol.

Definition carols_table : UserTable :=
  <[uid_value (MkUserId "id-1") := (carol_failed, "hash" : str)]> (<[uid_value (id_ carol) := (carol, "hash" : str)]> ∅).

Lemma carols_steps : steps_to ∅ carols_start carols_table.
Proof.
  assert (user_ok carol) as Hok by (split; [done|]; split; done).
  eapply sts_cons.
  { apply st_saved; [done|]. intros [[x Hx]|[(v & h & Hx & _)|(v & h & Hx & _)]]; by apply (lookup_empty_Some (M:=gmap str)) in Hx. }
  eapply sts_cons. { apply st_refused; [done|]. left. eexists. apply lookup_insert_eq. }
  eapply sts_cons; [apply st_name|].
  eapply sts_cons. { apply (st_fails _ _ _ carol "hash" carol_failed); [apply lookup_insert_eq|reflexivity]. }
  eapply sts_cons. { eapply st_hash. apply lookup_insert_eq. }
  constructor.
Qed.

Lemma sqlite_interchangeable_witness :
  Forall2 alike (play of_database carols_start fresh_database).1
    (play (of_port (R := MemoryUserRepository.t)) carols_start MemoryUserRepository.empty).1.
Proof.
  destruct (sqlite_interchangeable carols_start fresh_database [] MemoryUserRepository.empty carols_table) as [H _].
  - exact fresh_holds.
  - exact MemoryUserRepository.inv_empty.
  - reflexivity.
  - exact carols_steps.
  - repeat constructor; try (by apply carol_clean; decided); decided.
  - exact H.
Defined.
End UsersAtWork.

(** ** The file repository at work *)
Module FilesAtWork.
Import SqliteFiles.
#[local] Instance files_engine : Sqlite engine := engine_ops SqliteFileRepository.files_sql.
#[local] Instance files_laws : SqliteLaws engine SqliteFileRepository.files_sql :=
  engine_laws SqliteFileRepository.files_sql.

(** A report of carol for dave; its key's labels are dave's user name and another
    algorithm. *)
Definition report : FileRecord :=
  MkFileRecord (MkFileId "file-1") (MkUserId "id-1") "report.pdf" "blob-1.bin" (2 ^ 64 - 1)
    (MkDigest (map (fun i => z2b (Z.of_nat i * 9)) (seq 0 32)))
    (MkWrappedKey (MkUserId "dave") (replicate 12 Byte.x00) (replicate 48 Byte.xff) "other")
    (MkUserId "id-2") "upload-1" (-5).
Definition resent : FileRecord :=
  MkFileRecord (MkFileId "file-2") (MkUserId "id-1") "report.pdf" "blob-2.bin" 10 zero_Digest
    default_WrappedKey (MkUserId "id-2") "upload-1" 0.

Lemma report_clean : clean_file report /\ clean_file resent.
Proof. split; (split; [decided..|cbn; lia|done|done|done|done]). Qed.

Lemma no_files : holds [] fresh_database.
Proof. split; [done|done|constructor|]. split; constructor. Qed.

Definition files_day : list call :=
  [Save report; Save resent; ById (MkFileId "file-1"); ByOwner (MkUserId "id-1"); Exists "upload-1"; Exists "none"].
Definition files_answers : list (outcome answer) :=
  [Ok ADone; Throw (ValidationException "duplicate upload_id or storage_id or id");
   Ok (AFile (success (relabel (MkUserId "id-2") default_alg report)));
   Ok (AFiles [relabel (MkUserId "id-2") default_alg report]); Ok (AFlag true); Ok (AFlag false)].

Lemma sqlite_implements_files_witness :
  (plays (of_database 6) files_day fresh_database).1 = files_answers
  /\ Forall2 same_answer (plays (of_database 6) files_day fresh_database).1
       (plays (of_port (F := FileTable.t)) files_day []).1.
Proof.
  split; [vm_compute; reflexivity|].
  destruct (sqlite_implements_files 6 files_day fresh_database [] no_files) as [H _]; [|cbn; lia|exact H].
  destruct report_clean. repeat constructor; first [assumption|decided].
Defined.
End FilesAtWork.

(** ** The transfer repository at work *)
Module TransfersAtWork.
Import SqliteTransfers.
#[local] Instance transfers_engine : Sqlite engine := engine_ops SqliteTransferRepository.transfers_sql.
#[local] Instance transfers_laws : SqliteLaws engine SqliteTransferRepository.transfers_sql :=
  engine_laws SqliteTransferRepository.transfers_sql.

Definition sent : Transfer :=
  MkTransfer (MkTransferId "t-1") (MkFileId "file-1") (MkUserId "id-1") (MkUserId "id-2") UPLOADED.
Definition transfers_day : list call :=
  [Save sent; Save sent; ById (MkTransferId "t-1"); ListFor (MkUserId "id-2"); ListFor (MkUserId "id-3")].

Lemma sqlite_implements_transfers_witness :
  (plays (of_database 5) transfers_day fresh_database).1 =
    [Ok ADone; Throw (ValidationException "duplicate transfer id"); Ok (ATransfer (success sent));
     Ok (ATransfers [sent]); Ok (ATransfers [])]
  /\ Forall2 same_answer (plays (of_database 5) transfers_day fresh_database).1
       (plays (of_port (T := TransferTable.t)) transfers_day []).1.
Proof.
  split; [vm_compute; reflexivity|].
  destruct (sqlite_implements_transfers 5 transfers_day fresh_database []) as [H _]; [| |cbn; lia|exact H].
  - split; [done|done|constructor|constructor].
  - repeat constructor; decided.
Defined.
End TransfersAtWork.

(** ** The key directory at work *)
Module KeysAtWork.
Import SqliteKeys.
#[local] Instance keys_engine : Sqlite engine := engine_ops SqlitePubkeyDirectory.keys_sql.
#[local] Instance keys_laws : SqliteLaws engine SqlitePubkeyDirectory.keys_sql :=
  engine_laws SqlitePubkeyDirectory.keys_sql.

Definition daves : UserId := MkUserId "id-2".
Definition keys_day : list call :=
  [Save 0 daves (replicate 32 Byte.x09); Save 1 daves (replicate 32 Byte.x0a); Save 2 daves "short"; Get daves;
   Exists daves; Exists (MkUserId "id-1"); Get (MkUserId "id-1"); All].

Lemma sqlite_implements_keys_witness :
  (plays (of_database 8) keys_day fresh_database).1 =
    [Ok ADone; Throw (ValidationException "duplicate user_id");
     Throw (ValidationException "pubkey must be 32 bytes"); Ok (AKey (replicate 32 Byte.x09)); Ok (AFlag true);
     Ok (AFlag false); Throw (NotFoundException "pubkey not found"); Ok (AUsers [daves])]
  /\ Forall2 same_answer (plays (of_database 8) keys_day fresh_database).1
       (plays (of_port (K := KeyTable.t)) keys_day []).1.
Proof.
  split; [vm_compute; reflexivity|].
  destruct (sqlite_implements_keys 8 keys_day fresh_database []) as [H _]; [| |cbn; lia|exact H].
  - exists []. split; [done|]. split; [done|done|constructor|constructor].
  - repeat constructor; decided.
Defined.
End KeysAtWork.

(** ** Three saves, two of which fail: the file's at its commit, the key's at its
    step *)
Definition fails_at (n : nat) : engine :=
  MkEngine (MkView [] None) 0 (fun k => bool_decide (k = n)) (fun _ => false) 0.

Lemma saves_all_or_nothing_witness :
  committed (e_view (@SqliteFileRepository.save _ FilesAtWork.files_engine FilesAtWork.report (fails_at 14)).2) = []
  /\ now (e_view (@SqliteTransferRepository.save _ TransfersAtWork.transfers_engine TransfersAtWork.sent fresh_database).2)
     = [transfer_row TransfersAtWork.sent]
  /\ committed (e_view (@SqlitePubkeyDirectory.savePubkey _ KeysAtWork.keys_engine 0 KeysAtWork.daves
       (replicate 32 Byte.x09) (fails_at 6)).2) = [].
Proof.
  pose proof (saves_all_or_nothing (SqliteLaws0 := FilesAtWork.files_laws)
    (SqliteLaws1 := TransfersAtWork.transfers_laws) (SqliteLaws2 := KeysAtWork.keys_laws)
    FilesAtWork.report TransfersAtWork.sent 0 KeysAtWork.daves (replicate 32 Byte.x09)
    (fails_at 14) fresh_database (fails_at 6) [] [] [] eq_refl eq_refl eq_refl) as (Hf & Ht & Hk).
  assert ((@SqliteFileRepository.save _ FilesAtWork.files_engine FilesAtWork.report (fails_at 14)).1
    = Throw (RuntimeError "exec failed")) as Ef by (vm_compute; reflexivity).
  assert ((@SqliteTransferRepository.save _ TransfersAtWork.transfers_engine TransfersAtWork.sent fresh_database).1
    = Ok tt) as Et by (vm_compute; reflexivity).
  assert ((@SqlitePubkeyDirectory.savePubkey _ KeysAtWork.keys_engine 0 KeysAtWork.daves (replicate 32 Byte.x09)
    (fails_at 6)).1 = Throw (RuntimeError "insert failed")) as Ek by (vm_compute; reflexivity).
  unfold saved in Hf, Ht, Hk. rewrite Ef in Hf. rewrite Et in Ht. rewrite Ek in Hk.
  split; [exact Hf|]. split; [|exact Hk]. destruct Ht as (x & x' & Ex & _ & Hsame & _ & Hv). injection Ex as <-.
  rewrite (Hsame (fun _ => conj eq_refl eq_refl)) in Hv. exact (f_equal now Hv).
Defined.
