(* ===== verification/Cli.v ===== *)
(** * The console ([include/presentation/cli.hpp], [include/presentation/ansi.hpp])

    The console is the lines still to be typed and the text written so far. *)
From S2P Require Import Prelude Domain.
From Stdlib Require Import ZArith Lia.
From stdpp Require Import base gmap strings list numbers.
Local Open Scope Z_scope.

(** ** [namespace ansi] *)
Module ansi.
Definition escape : str := [Byte.x1b].
Definition green : str := escape ++ ("[32m" : str).
Definition red : str := escape ++ ("[31m" : str).
Definition yellow : str := escape ++ ("[33m" : str).
Definition reset : str := escape ++ ("[0m" : str).

(** [pct / 10] truncates towards zero. *)
Definition progressBar (pct : Z) : str :=
  let bars := Z.quot pct 10 in
  let s := fold_left (fun s i => s ++ (if i <? bars then "#" : str else "-" : str))
             [0; 1; 2; 3; 4; 5; 6; 7; 8; 9] ("[" : str) in
  s ++ ("] " : str) ++ to_string pct ++ ("%" : str).
End ansi.

(** ** Input and output *)
Record Console := MkConsole { cin : list str; cout : str }.

Definition newline : str := [Byte.x0a].

Definition print (s : str) : M Console unit := modify (fun c => MkConsole (cin c) (cout c ++ s)).

(** [std::getline] into a fresh string: empty when the input has ended. *)
Definition getline : M Console str := fun c =>
  match cin c with
  | [] => (Ok [], c)
  | l :: ls => (Ok l, MkConsole ls (cout c))
  end.

Definition askYesNo (prompt : str) : M Console bool :=
  _ ← print (prompt ++ (" [y/N] " : str));
  a ← getline;
  mret (match a with
        | [] => false
        | c :: _ => bool_decide (c = Byte.x79) || bool_decide (c = Byte.x59)
        end).

Definition printSuccess (m : str) : M Console unit :=
  print (ansi.green ++ m ++ ansi.reset ++ newline).
Definition printError (m : str) : M Console unit :=
  print (ansi.red ++ m ++ ansi.reset ++ newline).
Definition printSafe (msg : str) : M Console unit :=
  print (ansi.green ++ msg ++ ansi.reset ++ newline).

Definition formatSafeAuthMessage (action actor : str) : str :=
  if bool_decide (action = AuditAction.REGISTER_OK) then ("Registration succeeded for " : str) ++ actor else
  if bool_decide (action = AuditAction.REGISTER_FAIL) then "Registration failed" else
  if bool_decide (action = AuditAction.LOGIN_OK) then "Login succeeded" else
  if bool_decide (action = AuditAction.LOGIN_FAIL) then "Login failed" else
  if bool_decide (action = AuditAction.LOGOUT) then "Logged out" else
  if bool_decide (action = AuditAction.ACTIVATE) then ("Account activated: " : str) ++ actor else
  if bool_decide (action = AuditAction.DEACTIVATE) then ("Account deactivated: " : str) ++ actor else
  if bool_decide (action = AuditAction.ADMIN_DENIED) then "Admin action denied" else
  if bool_decide (action = AuditAction.TLS_FAIL) then "TLS authentication failed" else
  ("Auth event: " : str) ++ action.

Example progress_40 : ansi.progressBar 40 = lit "[####------] 40%".
Proof. reflexivity. Qed.
Example progress_over : ansi.progressBar 1000 = lit "[##########] 1000%".
Proof. reflexivity. Qed.

(** A login's message, good or bad, does not depend on the user: it tells
    nobody whether the account exists. *)
Lemma login_message_uniform actor actor' :
  formatSafeAuthMessage AuditAction.LOGIN_FAIL actor = formatSafeAuthMessage AuditAction.LOGIN_FAIL actor'
  /\ formatSafeAuthMessage AuditAction.LOGIN_OK actor = formatSafeAuthMessage AuditAction.LOGIN_OK actor'.
Proof. split; reflexivity. Qed.
