(* ===== verification/Tls.v ===== *)
(** * Trust in the server's certificate
    ([src/infrastructure/asio_tls_transport.cpp], [ports/transport_listener.hpp])

    The client pins the certificate it holds on file: the callback of the
    handshake compares SHA-256 fingerprints. Certificates, their encoding and the
    hash are OpenSSL's. *)
From S2P Require Import Prelude Domain Sha256.
From Stdlib Require Import ZArith Lia.
From stdpp Require Import base gmap strings list numbers.
Local Open Scope Z_scope.

Record TrustConfig := MkTrustConfig { fingerprint : str; certPath : str; keyPath : str; caPath : str }.

(** The certificates of OpenSSL. [i2d_X509] gives [None] when it has no result. *)
Class X509Library := {
  X509 : Type;
  PEM_read_X509 : str -> option X509;
  d2i_X509 : str -> option X509;
  i2d_X509 : X509 -> option str;
  EVP_sha256 : str -> str
}.

(** [std::toupper] on a [char]: undefined for a negative one. *)
Definition upper (c : byte) : byte :=
  if (97 <=? b2z c) && (b2z c <=? 122) then z2b (b2z c - 32) else c.
Definition toupper (c : byte) : outcome byte := if b2z c <? 128 then Ok (upper c) else Undef.
Fixpoint toupper_all (s : str) : outcome str :=
  match s with
  | [] => Ok []
  | c :: s' => c' ← toupper c; r ← toupper_all s'; Ok (c' :: r)
  end.

(** The differences are accumulated; no early exit. *)
Fixpoint differences (diff : Z) (a b : str) : Z :=
  match a, b with
  | x :: a', y :: b' => differences (Z.lor diff (Z.lxor (b2z x) (b2z y))) a' b'
  | _, _ => diff
  end.
Definition constantTimeEqual (a b : str) : bool :=
  if negb (zlen a =? zlen b) then false else differences 0 a b =? 0.

Section Trust.
Context `{!X509Library}.

Definition hash_hex (der : str) : outcome str := toupper_all (hex_of (EVP_sha256 der)).

(** [first] and [second] are what the two [fopen] find at the path. *)
Definition computeSha256Fingerprint (first second : option str) : outcome str :=
  match first with
  | None => Ok []
  | Some pem =>
      let cert := match PEM_read_X509 pem with
                  | Some c => Some c
                  | None => match second with Some d => d2i_X509 d | None => None end
                  end in
      match cert with
      | None => Ok []
      | Some c => match i2d_X509 c with Some der => hash_hex der | None => Ok [] end
      end
  end.

Definition computeDerFingerprint (cert : X509) : outcome str :=
  match i2d_X509 cert with Some der => hash_hex der | None => Ok [] end.

Definition normal (s : str) : outcome str :=
  toupper_all (List.filter (fun c => negb (bool_decide (c = Byte.x3a))) s).

Definition verifyFingerprint (cfg : TrustConfig) (cert : X509) : outcome bool :=
  if bool_decide (fingerprint cfg = []) then Ok true else
  actual ← computeDerFingerprint cert;
  if bool_decide (actual = []) then Ok false else
  normExp ← normal (fingerprint cfg);
  normActual ← normal actual;
  Ok (constantTimeEqual normExp normActual).

(** The callback of the handshake. [cmp_before] and [cmp_after] are the
    comparisons of the validity's ends with the current time. *)
Definition on_verify (cfg : TrustConfig) (preverified : bool) (cert : option X509)
    (cmp_before cmp_after : X509 -> Z) : outcome bool :=
  if negb preverified then Ok false else
  match cert with
  | None => Ok false
  | Some c =>
      if 0 <? cmp_before c then Ok false else
      if cmp_after c <? 0 then Ok false else
      ok ← verifyFingerprint cfg c;
      if negb ok then Ok false else Ok true
  end.
End Trust.

(** ** Comparison *)
Lemma differences_zero a : forall b diff, length a = length b ->
  differences diff a b = 0 <-> diff = 0 /\ a = b.
Proof.
  induction a as [|x a IH]; intros [|y b] diff Hl; try discriminate; cbn [differences].
  - split; [done|by intros [? _]].
  - rewrite IH, Z.lor_eq_0_iff, Z.lxor_eq_0_iff by (simpl in Hl; lia). split.
    + intros [[? E%b2z_inj] ->]. by subst.
    + intros [? [= -> ->]]. done.
Qed.

(** The comparison without early exit is equality. *)
Lemma constantTimeEqual_eq a b : constantTimeEqual a b = bool_decide (a = b).
Proof.
  unfold constantTimeEqual. destruct (Z.eqb_spec (zlen a) (zlen b)) as [E|E]; simpl.
  - apply eq_true_iff_eq. rewrite Z.eqb_eq, bool_decide_eq_true, differences_zero;
      [tauto|unfold zlen in E; lia].
  - symmetry. apply bool_decide_eq_false. congruence.
Qed.

(** ** Upper case *)
Definition plain_ascii (s : str) : Prop := Forall (fun c => b2z c < 128) s.

Lemma toupper_all_ascii s : plain_ascii s -> toupper_all s = Ok (map upper s).
Proof.
  induction 1 as [|c s Hc _ IH]; [done|]. cbn [toupper_all map]. unfold toupper.
  rewrite (proj2 (Z.ltb_lt _ _)), IH by done. done.
Qed.

(** What the fingerprints are made of: 0-9 and A-F. *)
Lemma on_hexdigs (P : byte -> Prop) : Forall P hex_digits -> forall c, is_hexdig c -> P c.
Proof. intros H c Hc. eapply List.Forall_forall; [exact H|]. by apply list_elem_of_In. Qed.

Lemma hexdig_upper c : is_hexdig c ->
  b2z c < 128 /\ upper (upper c) = upper c /\ b2z (upper c) < 128 /\ upper c <> Byte.x3a.
Proof.
  revert c. apply (on_hexdigs (fun c => b2z c < 128 /\ upper (upper c) = upper c /\
    b2z (upper c) < 128 /\ upper c <> Byte.x3a)). decided.
Qed.

Lemma hexdig_upper_inj c : is_hexdig c -> forall d, is_hexdig d -> upper c = upper d -> c = d.
Proof.
  intros Hc. apply (on_hexdigs (fun d => upper c = upper d -> c = d)). revert c Hc.
  apply (on_hexdigs (fun c => Forall (fun d => upper c = upper d -> c = d) hex_digits)). decided.
Qed.

Lemma upper_hex_inj a b : Forall is_hexdig a -> Forall is_hexdig b ->
  map upper a = map upper b -> a = b.
Proof.
  intros Ha. revert b. induction Ha as [|c a Hc _ IH]; intros [|d b] Hb E; try discriminate; [done|].
  injection E as E1 E2. apply Forall_cons_1 in Hb as [Hd Hb].
  by rewrite (hexdig_upper_inj c Hc d Hd E1), (IH b Hb E2).
Qed.

Lemma hexdig_ascii a : Forall is_hexdig a -> plain_ascii a.
Proof. intros H. eapply List.Forall_impl; [|exact H]. intros c Hc. by apply hexdig_upper. Qed.

Lemma normal_hex a : Forall is_hexdig a -> normal (map upper a) = Ok (map upper a).
Proof.
  intros Ha. unfold normal. assert (List.filter (fun c => negb (bool_decide (c = Byte.x3a)))
    (map upper a) = map upper a) as ->.
  - induction Ha as [|c a Hc _ IH]; [done|]. simpl.
    rewrite bool_decide_false by (by apply hexdig_upper). simpl. by rewrite IH.
  - rewrite toupper_all_ascii.
    + f_equal. rewrite map_map. induction Ha as [|c a Hc _ IH]; [done|]. simpl.
      rewrite IH. f_equal. by apply hexdig_upper.
    + unfold plain_ascii. apply List.Forall_map. eapply List.Forall_impl; [|exact Ha].
      intros c Hc. by apply hexdig_upper.
Qed.

Section Pinning.
Context `{!X509Library} (sha_length : forall x, length (EVP_sha256 x) = 32%nat).

Lemma hash_hex_eq der : hash_hex der = Ok (map upper (hex_of (EVP_sha256 der))).
Proof. apply toupper_all_ascii, hexdig_ascii, hex_of_hexdig. Qed.

Lemma hash_hex_some der : map upper (hex_of (EVP_sha256 der)) <> [].
Proof using sha_length.
  intros E%(f_equal length). rewrite length_map, length_hex_of, sha_length in E. done.
Qed.

(** Pinning is exact: with the fingerprint of the certificate on file, the
    handshake goes on with a certificate exactly when the chain was verified, the
    certificate is within its validity and its SHA-256 is that of the one on
    file; the code's own comparison never runs into undefined behaviour. *)
Theorem pinned_iff pem path ca key c0 d0 cert before after (pre : bool) :
  PEM_read_X509 pem = Some c0 -> i2d_X509 c0 = Some d0 ->
  exists fp, computeSha256Fingerprint (Some pem) (Some pem) = Ok fp /\
    exists b, on_verify (MkTrustConfig fp path key ca) pre cert before after = Ok b /\
    (b = true <-> pre = true /\ exists c d, cert = Some c /\ i2d_X509 c = Some d /\
       before c <= 0 <= after c /\ EVP_sha256 d = EVP_sha256 d0).
Proof using sha_length.
  intros Hp Hd. unfold computeSha256Fingerprint. rewrite Hp, Hd, hash_hex_eq.
  eexists. split; [reflexivity|]. unfold on_verify, verifyFingerprint, computeDerFingerprint.
  destruct pre; simpl; [|exists false; split; [done|]; by split; [|intros []]].
  destruct cert as [c|]; [|exists false; split; [done|]; split; [done|by intros (_ & ? & ? & ? & _)]].
  destruct (Z.ltb_spec 0 (before c)).
  { exists false. split; [done|]. split; [done|]. intros (_ & ? & ? & [= <-] & _ & ? & _). lia. }
  destruct (Z.ltb_spec (after c) 0).
  { exists false. split; [done|]. split; [done|]. intros (_ & ? & ? & [= <-] & _ & ? & _). lia. }
  rewrite bool_decide_false by apply hash_hex_some.
  destruct (i2d_X509 c) as [d|] eqn:Ec; cycle 1.
  { exists false. split; [done|]. split; [done|]. intros (_ & ? & ? & [= <-] & ? & _). congruence. }
  rewrite hash_hex_eq. cbn [mbind outcome_bind]. rewrite bool_decide_false by apply hash_hex_some.
  rewrite !normal_hex by apply hex_of_hexdig. cbn [mbind outcome_bind]. rewrite constantTimeEqual_eq.
  case_bool_decide as E; simpl; eexists; (split; [reflexivity|]).
  - split; [intros _|done]. split; [done|]. exists c, d. split; [done|]. split; [done|].
    split; [lia|]. symmetry. apply (inj hex_of). apply upper_hex_inj; [apply hex_of_hexdig..|done].
  - split; [done|]. intros (_ & c' & d' & [= <-] & E' & _ & Es). congruence.
Qed.
End Pinning.
