(* ===== verification/Transports.v ===== *)
(** * The transports over Asio
    ([src/infrastructure/asio_tls_transport.cpp], [asio_transport.cpp],
    [asio_tls_listener.cpp], [include/infrastructure/fake_listener.hpp])

    Sessions, sockets and acceptors are Asio's, behind classes of the calls the
    code makes. Both receive loops are shown to be those of [Framing], on whose
    lists of chunks the theorems about reassembly are stated. *)
From S2P Require Import Prelude Domain Framing Tls.
From Stdlib Require Import ZArith Lia.
From stdpp Require Import base gmap strings list numbers.
Local Open Scope Z_scope.

(** ** The receive loop of both transports

    [buf] is the buffer in the state; a read gives [None] for an error. At most
    [patience] rounds. *)
Section Receive.
Context {S : Type} (buf : S -> str) (set_buf : str -> S -> S) (look_at : str -> outcome look) (stop_on_empty : bool)
        (read : M S (option str)).

Fixpoint receive (patience : nat) : M S (option Frame) :=
  match patience with
  | O => undef
  | Datatypes.S n =>
      s ← get;
      l ← liftO (look_at (buf s));
      match l with
      | Got f rest => _ ← modify (set_buf rest); mret (Some f)
      | Reject => _ ← modify (set_buf []); mret None
      | NeedMore =>
          r ← read;
          match r with
          | None => mret None
          | Some b =>
              if stop_on_empty && bool_decide (b = []) then mret None else
              _ ← modify (fun s => set_buf (buf s ++ b) s);
              receive n
          end
      end
  end.

Lemma receive_steps (R : relation S) `{!PreOrder R} n :
  (forall b, steps R (modify (set_buf b))) -> (forall b, steps R (modify (fun s => set_buf (buf s ++ b) s))) ->
  steps R read -> steps R (receive n).
Proof.
  intros Hset Hadd Hread. induction n as [|n IH]; cbn [receive]; [by apply steps_undef|]. unfold get. steps_auto.
Qed.

(** A socket that delivers: [pending] are the chunks still to be read, an error
    follows the last. *)
Context (pending : S -> list str) (put_pending : list str -> S -> S).
Hypothesis buf_set : forall b s, buf (set_buf b s) = b.
Hypothesis pending_set : forall b s, pending (set_buf b s) = pending s.
Hypothesis buf_put : forall l s, buf (put_pending l s) = buf s.
Hypothesis pending_put : forall l s, pending (put_pending l s) = l.
Context (ready : S -> Prop).
Hypothesis ready_set : forall b s, ready s -> ready (set_buf b s).
Hypothesis ready_put : forall l s, ready s -> ready (put_pending l s).
Hypothesis reads : forall s, ready s -> read s =
  match pending s with [] => (Ok None, s) | b :: l => (Ok (Some b), put_pending l s) end.

(** With more rounds than chunks the loop comes to an end, with the answer of the
    loop over the list and the same bytes left. *)
Lemma receive_delivered patience : forall s, ready s -> (length (pending s) < patience)%nat ->
  let r := recv_loop look_at stop_on_empty (buf s) (pending s) in
  exists s', receive patience s = (r.1, s') /\ buf s' = rxBuf r.2 /\ pending s' = incoming r.2 /\ ready s'.
Proof using buf_set pending_set buf_put pending_put ready_set ready_put reads.
  induction patience as [|patience IH]; intros s Hs Hl; [lia|]. cbn [receive]. mred.
  destruct (pending s) as [|b l] eqn:Ep; cbn [recv_loop].
  all: destruct (look_at (buf s)) as [[f r| |]|e|]; mred; cbn [fst snd rxBuf incoming].
  all: try (eexists; split; [reflexivity|]; rewrite ?buf_set, ?pending_set; by auto).
  all: rewrite reads, Ep by done; mred.
  - eexists. split; [reflexivity|]. by auto.
  - destruct (stop_on_empty && bool_decide (b = [])); mred; cbn [fst snd rxBuf incoming].
    + eexists. split; [reflexivity|]. rewrite buf_put, pending_put. by auto.
    + rewrite buf_put. specialize (IH (set_buf (buf s ++ b) (put_pending l s))).
      rewrite buf_set, pending_set, pending_put in IH. apply IH; [by auto|cbn in Hl; lia].
Qed.
End Receive.

(** ** TLS *)

(** The verification callback: with the comparisons of a certificate's validity
    with the time of the handshake. *)
Abbreviation verifier := (bool -> option X509 -> (X509 -> Z) -> (X509 -> Z) -> outcome bool).

(** [tls_connect] resolves, connects and shakes hands, in a context with the
    callback; a failure is a [std::system_error] ([true]) or another exception,
    with its text. [read_some] gives [None] for an error, else the bytes read. *)
Class Asio (N : Type) `{!X509Library} := {
  load_verify_file : str -> M N unit;
  tls_connect : str -> Z -> verifier -> M N (option (bool * str));
  write_all : str -> M N unit;
  read_some : M N (option str);
  close_socket : M N unit
}.

Module AsioTlsTransport.
Section Transport.
Context {N : Type} `{!X509Library, !Asio N}.

(** [stream] tells whether [pimpl_->stream] is set. *)
Record t := Mk { socket : N; cfg : TrustConfig; stream : bool; rxBuf : str }.
Definition set_socket (x : N) (s : t) : t := Mk x (cfg s) (stream s) (rxBuf s).
Definition set_cfg (x : TrustConfig) (s : t) : t := Mk (socket s) x (stream s) (rxBuf s).
Definition set_stream (x : bool) (s : t) : t := Mk (socket s) (cfg s) x (rxBuf s).
Definition set_rxBuf (x : str) (s : t) : t := Mk (socket s) (cfg s) (stream s) x.
Definition on_socket {X} (m : M N X) : M t X := zoom socket set_socket m.

(** The constructor. *)
Definition make (c : TrustConfig) : M t unit :=
  _ ← modify (set_cfg c);
  if negb (bool_decide (caPath c = [])) then on_socket (load_verify_file (caPath c))
  else if negb (bool_decide (certPath c = [])) then on_socket (load_verify_file (certPath c))
  else mret tt.

Definition connect (host : str) (port : Z) : M t unit :=
  _ ← modify (set_stream true);
  s ← get;
  r ← on_socket (tls_connect host port (on_verify (cfg s)));
  match r with
  | None => mret tt
  | Some (true, e) => throw (TransportException (("TLS handshake failed: " : str) ++ e))
  | Some (false, e) => throw (TransportException (("TLS connect failed: " : str) ++ e))
  end.

(** Without a stream a null pointer is dereferenced. *)
Definition sendFrame (f : Frame) : M t unit :=
  s ← get;
  if stream s then on_socket (write_all (encodeFrame f)) else undef.

(** At most [patience] rounds of the loop. *)
Definition recvFrame (patience : nat) : M t (option Frame) :=
  receive rxBuf set_rxBuf tls_look true
    (s ← get; if stream s then on_socket read_some else undef) patience.

Definition close : M t unit :=
  s ← get;
  _ ← when (stream s) (on_socket close_socket);
  modify (set_rxBuf []).
(** The loop is [tls_recvFrame]. *)
Context (pending : N -> list str) (rest : list str -> N -> N).
Hypothesis pending_rest : forall l n, pending (rest l n) = l.
Hypothesis reads : forall n, read_some n =
  match pending n with [] => (Ok None, n) | b :: l => (Ok (Some b), rest l n) end.

Lemma tls_recvFrame_delivered patience (t : t) :
  stream t = true -> (length (pending (socket t)) < patience)%nat ->
  let r := tls_recvFrame (MkConn (rxBuf t) (pending (socket t))) in
  exists t', recvFrame patience t = (r.1, t')
    /\ rxBuf t' = Framing.rxBuf r.2 /\ pending (socket t') = incoming r.2 /\ stream t' = true.
Proof using pending_rest reads.
  intros Ht Hl. apply (receive_delivered rxBuf set_rxBuf _ _ _ (fun t => pending (socket t))
    (fun l t => set_socket (rest l (socket t)) t)) with (ready := fun t => stream t = true); try done.
  - intros l s. apply pending_rest.
  - intros s Hs. mred. rewrite Hs. unfold on_socket, zoom. rewrite reads. by destruct (pending (socket s)), s.
Qed.
End Transport.
Arguments t : clear implicits.
End AsioTlsTransport.

(** ** Plain TCP *)
Class Tcp (N : Type) := {
  Endpoints : Type;
  tcp_resolve : str -> Z -> M N Endpoints;
  tcp_connect : Endpoints -> M N unit;
  tcp_write : str -> M N unit;
  tcp_read : M N (option str);
  tcp_is_open : N -> bool;
  tcp_close : M N unit
}.

Module AsioTcpTransport.
Section Transport.
Context {N : Type} `{!Tcp N}.

(** [has_socket]: [pimpl_->socket] is set. *)
Record t := Mk { net : N; has_socket : bool; rxBuf : str }.
Definition set_net (x : N) (s : t) : t := Mk x (has_socket s) (rxBuf s).
Definition set_has_socket (x : bool) (s : t) : t := Mk (net s) x (rxBuf s).
Definition set_rxBuf (x : str) (s : t) : t := Mk (net s) (has_socket s) x.
Definition on_net {X} (m : M N X) : M t X := zoom net set_net m.

Definition close : M t unit :=
  s ← get;
  _ ← when (has_socket s && tcp_is_open (net s)) (on_net tcp_close);
  modify (set_rxBuf []).

(** A fresh [Impl] has neither a socket nor bytes. *)
Definition connect (host : str) (port : Z) : M t unit :=
  _ ← close;
  _ ← modify (fun s => set_rxBuf [] (set_has_socket false s));
  endpoints ← on_net (tcp_resolve host port);
  _ ← modify (set_has_socket true);
  on_net (tcp_connect endpoints).

Definition sendFrame (f : Frame) : M t unit :=
  s ← get;
  if has_socket s then on_net (tcp_write (encodeFrame f)) else undef.

Definition recvFrame (patience : nat) : M t (option Frame) :=
  receive rxBuf set_rxBuf tcp_look false
    (s ← get; if has_socket s then on_net tcp_read else undef) patience.

(** The loop is [tcp_recvFrame]. *)
Context (pending : N -> list str) (rest : list str -> N -> N).
Hypothesis pending_rest : forall l n, pending (rest l n) = l.
Hypothesis reads : forall n, tcp_read n =
  match pending n with [] => (Ok None, n) | b :: l => (Ok (Some b), rest l n) end.

Lemma tcp_recvFrame_delivered patience (t : t) :
  has_socket t = true -> (length (pending (net t)) < patience)%nat ->
  let r := tcp_recvFrame (MkConn (rxBuf t) (pending (net t))) in
  exists t', recvFrame patience t = (r.1, t')
    /\ rxBuf t' = Framing.rxBuf r.2 /\ pending (net t') = incoming r.2 /\ has_socket t' = true.
Proof using pending_rest reads.
  intros Ht Hl. apply (receive_delivered rxBuf set_rxBuf _ _ _ (fun t => pending (net t))
    (fun l t => set_net (rest l (net t)) t)) with (ready := fun t => has_socket t = true); try done.
  - intros l s. apply pending_rest.
  - intros s Hs. mred. rewrite Hs. unfold on_net, zoom. rewrite reads. by destruct (pending (net s)), s.
Qed.
End Transport.
Arguments t : clear implicits.
End AsioTcpTransport.

(** ** The listener *)
Class Acceptor (K N : Type) `{!X509Library} := {
  use_certificate_chain_file : str -> M K unit;
  use_private_key_file : str -> M K unit;
  open_acceptor : Z -> M K Z;
  accept_socket : M K N;
  server_handshake : (bool -> option X509 -> bool) -> M N unit;
  acceptor_is_open : K -> bool;
  acceptor_close : M K unit
}.

Module AsioTlsListener.
Section Listener.
Context {K N : Type} `{!X509Library, !Asio N, !Acceptor K N}.

(** [has_acceptor]: [pimpl_->acceptor] is set. *)
Record t := Mk { ctx : K; has_acceptor : bool; cfg : TrustConfig }.
Definition set_ctx (x : K) (s : t) : t := Mk x (has_acceptor s) (cfg s).
Definition set_has_acceptor (x : bool) (s : t) : t := Mk (ctx s) x (cfg s).
Definition set_cfg (x : TrustConfig) (s : t) : t := Mk (ctx s) (has_acceptor s) x.
Definition on_ctx {X} (m : M K X) : M t X := zoom ctx set_ctx m.

(** A client without a certificate is let in. *)
Definition on_verify (preverified : bool) (cert : option X509) : bool :=
  match cert with None => true | Some _ => preverified end.

(** The constructor. *)
Definition make (c : TrustConfig) : M t unit :=
  _ ← modify (set_cfg c);
  _ ← on_ctx (use_certificate_chain_file (certPath c));
  on_ctx (use_private_key_file (keyPath c)).

Definition listen (port : Z) : M t Z :=
  actual ← on_ctx (open_acceptor port);
  _ ← modify (set_has_acceptor true);
  mret actual.

(** A transport is made once the handshake is done. *)
Definition accept : M t (AsioTlsTransport.t N) :=
  s ← get;
  if negb (has_acceptor s) then undef else
  sock ← on_ctx accept_socket;
  let (o, session) := server_handshake on_verify sock in
  _ ← liftO o;
  mret (AsioTlsTransport.Mk session (cfg s) true []).

Definition close : M t unit :=
  s ← get;
  when (has_acceptor s && acceptor_is_open (ctx s)) (on_ctx acceptor_close).

Lemma accepted_session (s s' : t) tr : accept s = (Ok tr, s') ->
  exists sock, server_handshake on_verify sock = (Ok tt, AsioTlsTransport.socket tr)
    /\ AsioTlsTransport.stream tr = true /\ AsioTlsTransport.rxBuf tr = [].
Proof.
  unfold accept. mred. destruct (has_acceptor s); [|done]. cbn [negb]. mred. unfold on_ctx, zoom.
  destruct (accept_socket (ctx s)) as [[sock|e|] k]; [|done..].
  destruct (server_handshake on_verify sock) as [[[]|e|] n] eqn:E; mred; intros [= <- _]. by exists sock.
Qed.
End Listener.
Arguments t : clear implicits.
End AsioTlsListener.

(** The listener of the tests. *)
Module FakeListener.
Definition listen (port : Z) : Z := 0.
Definition accept : FakeTransport.t := [].
End FakeListener.
