(* ===== verification/Transfer.v ===== *)
(** * [TransferService] ([include/application/transfer_service.hpp],
    [src/application/transfer_service.cpp])

    Uploads and downloads over the interfaces of [Ports]. The constructor takes
    nine pointers, each of which may be null and is tested where the code tests
    it. The fallback of the rollback, [fs::remove] of a file of the blob's name
    in the working directory, touches none of the components and is left out. *)
From S2P Require Import Prelude Domain Ports.
From Stdlib Require Import ZArith Lia.
From stdpp Require Import base gmap strings list numbers.
Local Open Scope Z_scope.

Module TransferService.

(** Which of the constructor's pointers are not null. *)
Record Wiring := MkWiring {
  st_ : bool; keys_ : bool; files_ : bool; transfers_ : bool; au_ : bool;
  validator_ : bool; clock_ : bool; sessions_ : bool; users_ : bool
}.
Definition full_wiring : Wiring := MkWiring true true true true true true true true true.

Section Operations.
Context {R H S A St K F T : Type}.
Context `{!IUserRepository R, !ISessionStore S, !IAuditLogger A, !IStorage St,
          !IKeyDirectory K, !IFileRepository F, !ITransferRepository T, !IFileValidator}.
Local Abbreviation world := (World R H S A St K F T).
Context (p : Wiring).

(** [if (au_) au_->record(...)]. *)
Definition log_event (e : AuditEvent) : M world unit :=
  when (au_ p) (on_core (audit_event e)).

(** [sessions_ && clock_ && sessions_->isValid(sess, clock_->nowMs())]. *)
Definition valid_session (sess : SessionId) : M world bool :=
  if sessions_ p && clock_ p then
    now ← on_core (on_clock nowMs);
    on_core (from_sessions (isValid sess now))
  else mret false.

(** The validator sees the first eight bytes, or a PDF header in their place
    when the name ends in ".pdf" and they are not one. *)
Definition judge (origName opaque : str) (size : Z) : outcome unit :=
  let hdr := take 8 opaque in
  let endsPdf := (4 <=? zlen origName)
                 && bool_decide (drop (length origName - 4) origName = lit ".pdf") in
  if endsPdf && ((zlen hdr <? 4) || negb (bool_decide (take 4 hdr = lit "%PDF")))
  then validate origName size "%PDF-1.4"
  else validate origName size hdr.

(** The record's row, with the rollback of the blob. *)
Definition save_record (fr : FileRecord) : M world unit :=
  try_catch
    (if negb (files_ p) then throw (StorageException "file repo missing")
     else on_files (saveFile fr))
    (fun e =>
       _ ← try_catch (on_storage (removeStaged (storageId fr))) (fun _ => mret tt);
       throw e).

(** The admitted upload: the record, the blob, the record's row, the transfer,
    the log. *)
Definition store_upload (senderId recipientId : UserId) (origName opaque uploadId : str)
    (size : Z) (digest : Digest) (wrapped : WrappedKey) : M world (Result Transfer) :=
  fid ← on_core (on_rng generateUserId);
  sid ← on_core (on_rng generateUserId);
  let sid := uid_value sid ++ (".bin" : str) in
  now ← (if clock_ p then on_core (on_clock nowMs) else mret 0);
  let fr := MkFileRecord (MkFileId (uid_value fid)) senderId origName sid size digest wrapped
              recipientId uploadId now in
  if negb (st_ p) then throw (StorageException "storage missing") else
  _ ← on_storage (stagedWrite sid opaque);
  _ ← save_record fr;
  tid ← on_core (on_rng generateUserId);
  let t := MkTransfer (MkTransferId (uid_value tid)) (fr_id fr) senderId recipientId UPLOADED in
  _ ← when (transfers_ p) (try_catch (on_transfers (saveTransfer t)) (fun _ => mret tt));
  _ ← log_event (event (uid_value senderId) "UPLOAD" (fid_value (fr_id fr)));
  mret (success t).

(** The tests between the session's and the store. *)
Definition admit_upload (senderId : UserId) (recipientUsername origName opaque uploadId : str)
    (size : Z) (digest : Digest) (wrapped : WrappedKey) : M world (Result Transfer) :=
  if negb (users_ p) then throw (ValidationException "user repo missing") else
  recipRes ← on_core (from_users (findByUsername recipientUsername));
  match result_get recipRes with
  | None => throw (NotFoundException "recipient not found")
  | Some recip =>
      let recipientId := id_ recip in
      has_key ← (if keys_ p then from_keys (keyExists recipientId) else mret false);
      if negb has_key then throw (ValidationException "recipient pubkey missing") else
      _ ← (if validator_ p then liftO (judge origName opaque size) else mret tt);
      if bool_decide (uploadId = []) then throw (ValidationException "uploadId empty") else
      dup ← (if files_ p then from_files (existsUploadId uploadId) else mret false);
      if (dup : bool) then mret (failure "duplicate upload_id") else
      store_upload senderId recipientId origName opaque uploadId size digest wrapped
  end.

Definition upload (senderSess : SessionId) (recipientUsername origName opaque uploadId : str)
    (size : Z) (digest : Digest) (wrapped : WrappedKey) : M world (Result Transfer) :=
  valid ← valid_session senderSess;
  if negb valid then
    _ ← log_event (event (sid_value senderSess) "DENIED" []);
    throw (AuthException "Login failed")
  else
  senderId ← on_core (from_sessions (userFor senderSess));
  admit_upload senderId recipientUsername origName opaque uploadId size digest wrapped.

Definition download (requestSess : SessionId) (fid : FileId) : M world (Result str) :=
  valid ← valid_session requestSess;
  if negb valid then
    _ ← log_event (event (sid_value requestSess) "DENIED" (fid_value fid));
    throw (AuthException "Login failed")
  else
  requestor ← on_core (from_sessions (userFor requestSess));
  if negb (files_ p) then mret (failure "no repo") else
  frRes ← from_files (findFile fid);
  match result_get frRes with
  | None => mret (failure "not found")
  | Some fr =>
      let authorized := bool_decide (owner fr = requestor) || bool_decide (recipient fr = requestor) in
      if negb authorized then
        _ ← log_event (event (uid_value requestor) "DENIED" (fid_value fid));
        mret (failure "denied")
      else
      opaque ← try_catch
        (x ← (if negb (st_ p) then throw (StorageException "storage missing")
              else from_storage (read (storageId fr)));
         mret (inr x))
        (fun e => mret (inl (c_str (what e))));
      match opaque with
      | inl message => mret (failure message)
      | inr x =>
          _ ← log_event (event (uid_value requestor) "DOWNLOAD" (fid_value fid));
          mret (success x)
      end
  end.

Definition listFor (u : UserId) : M world (list Transfer) :=
  if transfers_ p then from_transfers (Ports.listFor u) else mret [].

End Operations.

(** ** Authority

    Nothing is assumed of the components here. *)
Section Authority.
Context {R H S A St K F T : Type}.
Context `{!IUserRepository R, !ISessionStore S, !IAuditLogger A, !IStorage St,
          !IKeyDirectory K, !IFileRepository F, !ITransferRepository T, !IFileValidator}.
Local Abbreviation world := (World R H S A St K F T).

(** The world with one more reading of the clock. *)
Definition ticked (w : world) : world := set_core (tick (core w)) w.

Lemma valid_session_Ok p sess (w w' : world) :
  valid_session p sess w = (Ok true, w') ->
  isValid sess (time (core w)) (sessions (core w)) = Ok true /\ w' = ticked w.
Proof.
  unfold valid_session. destruct (sessions_ p && clock_ p); [|discriminate].
  unfold on_core, on_clock, from_sessions, zoom, nowMs. mred.
  intros E. injection E as E1 E2. split; [exact E1|]. symmetry. exact E2.
Qed.

(** A token entitles to the bytes of a file: it is valid at the clock's reading,
    its user is the owner or the recipient in the file's record, and the bytes
    are what the storage holds for that record. *)
Definition entitled (w : world) (sess : SessionId) (fid : FileId) (d : str) : Prop :=
  isValid sess (time (core w)) (sessions (core w)) = Ok true
  /\ exists requestor found fr,
       userFor sess (sessions (core w)) = Ok requestor
       /\ findFile fid (files w) = Ok found /\ result_get found = Some fr
       /\ (owner fr = requestor \/ recipient fr = requestor)
       /\ read (storageId fr) (storage w) = Ok d.

Lemma download_entitled p sess fid (w w' : world) r :
  download p sess fid w = (Ok r, w') -> ok r = true -> exists d, r = success d /\ entitled w sess fid d.
Proof.
  unfold download. intros (valid & w1 & Ev & E)%M_bind_Ok Hok.
  destruct valid; cbn [negb] in E; [|by apply M_bind_Ok in E as (? & ? & _ & E)].
  apply valid_session_Ok in Ev as [Hv ->].
  apply M_bind_Ok in E as (requestor & w2 & Eu & E).
  assert (userFor sess (sessions (core w)) = Ok requestor /\ w2 = ticked w) as [Hu ->].
  { unfold on_core, from_sessions, zoom, reads in Eu. injection Eu as E1 E2. by split. }
  destruct (negb (files_ p)); [by injection E as <- _|].
  apply M_bind_Ok in E as (found & w3 & Ef & E).
  apply reads_Ok in Ef as [Ef ->]. change (files (ticked w)) with (files w) in Ef.
  destruct (result_get found) as [fr|] eqn:Eg; [|by injection E as <- _].
  destruct (negb _) eqn:Ea.
  { apply M_bind_Ok in E as (? & ? & _ & E). by injection E as <- _. }
  apply negb_false_iff, orb_true_iff in Ea as Ha. rewrite !bool_decide_eq_true in Ha.
  apply M_bind_Ok in E as (opaque & w4 & Eo & E).
  destruct opaque as [m|d]; [by injection E as <- _|].
  apply M_bind_Ok in E as (? & w5 & _ & E). injection E as <- <-.
  exists d. split; [done|]. split; [exact Hv|]. exists requestor, found, fr.
  do 4 (split; [done|]). unfold try_catch in Eo. rewrite M_bind_eq in Eo.
  destruct (negb (st_ p)); [by cbn in Eo|].
  unfold from_storage, reads in Eo. change (storage (ticked w)) with (storage w) in Eo.
  destruct (read (storageId fr) (storage w)); cbn in Eo; cbv [mret M_ret] in Eo; congruence.
Qed.

(** C6: Nobody reads a blob without authority: for any storage, repositories,
    sessions and logger whatsoever (no contract assumed, failing ones included)
    and any wiring, when [download] returns a success, the token was valid at the
    clock's reading, the file's record has the session's user as its owner or
    its recipient, and the bytes are what the storage holds for that record. *)
Theorem download_needs_authority p sess fid (w w' : world) r :
  download p sess fid w = (Ok r, w') -> ok r = true -> exists d, r = success d /\ entitled w sess fid d.
Proof. apply download_entitled. Qed.

End Authority.

(** ** Uploads, against the contracts *)
Section Correctness.
Context {R H S A St K F T : Type}.
Context `{!IUserRepository R, !ISessionStore S, !IAuditLogger A, !IStorage St,
          !IKeyDirectory K, !IFileRepository F, !ITransferRepository T, !IFileValidator}.
Context `{!UserRepositoryLaws R, !SessionStoreLaws S, !AuditLoggerLaws A, !StorageLaws St,
          !KeyDirectoryLaws K, !FileRepositoryLaws F, !TransferRepositoryLaws T,
          !FileValidatorLaws}.
Local Abbreviation world := (World R H S A St K F T).

Definition world_ok (w : world) : Prop :=
  core_ok (core w) /\ st_inv (storage w) /\ fr_inv (files w).

(** The abstract state: the file table and the blobs. *)
Definition records (w : world) : gmap str FileRecord := fr_model (files w).
Definition blob (w : world) (k : str) : option str := st_blob (storage w) k.

(** What a refused request leaves alone: everything but the clock and the log. *)
Definition beside_log (w : world) :=
  (users (core w), sessions (core w), hasher (core w), rng (core w),
   storage w, keys w, files w, transfers w).

(** The three identifiers an admitted upload draws. *)
Definition draws (r : Rng) (fid sid tid : str) : Prop :=
  exists s r1 r2 r3, generateUserId r = (Ok (MkUserId fid), r1)
    /\ generateUserId r1 = (Ok (MkUserId s), r2) /\ sid = s ++ lit ".bin"
    /\ generateUserId r2 = (Ok (MkUserId tid), r3).

(** A request to upload. *)
Record Request := MkRequest {
  q_sess : SessionId; q_recipient : str; q_name : str; q_opaque : str; q_uploadId : str;
  q_size : Z; q_digest : Digest; q_wrapped : WrappedKey
}.
Definition run_upload (q : Request) : M world (Result Transfer) :=
  upload full_wiring (q_sess q) (q_recipient q) (q_name q) (q_opaque q) (q_uploadId q)
    (q_size q) (q_digest q) (q_wrapped q).

(** The record an admitted upload makes. *)
Definition new_record (q : Request) (sender rcp : UserId) (fid sid : str) (now : Z) : FileRecord :=
  MkFileRecord (MkFileId fid) sender (q_name q) sid (q_size q) (q_digest q) (q_wrapped q)
    rcp (q_uploadId q) now.

(** The account the request is for, when it has a public key. *)
Definition reachable_recipient (q : Request) (w : world) (rcp : UserId) : Prop :=
  exists u h, named (table (core w)) (q_recipient q) u h /\ rcp = id_ u
              /\ is_Some (kd_model (keys w) !! uid_value rcp).

(** Why a request with a valid session may be refused, in the order of the tests. *)
Inductive refusal (q : Request) (w : world) : outcome (Result Transfer) -> Prop :=
| no_recipient : (forall u h, ~ named (table (core w)) (q_recipient q) u h) ->
    refusal q w (Throw (NotFoundException "recipient not found"))
| no_key u h : named (table (core w)) (q_recipient q) u h ->
    kd_model (keys w) !! uid_value (id_ u) = None ->
    refusal q w (Throw (ValidationException "recipient pubkey missing"))
| bad_file rcp e : reachable_recipient q w rcp ->
    judge (q_name q) (q_opaque q) (q_size q) = Throw e -> refusal q w (Throw e)
| no_upload_id rcp : reachable_recipient q w rcp ->
    judge (q_name q) (q_opaque q) (q_size q) = Ok tt -> q_uploadId q = [] ->
    refusal q w (Throw (ValidationException "uploadId empty"))
| duplicate rcp k r : reachable_recipient q w rcp ->
    judge (q_name q) (q_opaque q) (q_size q) = Ok tt -> q_uploadId q <> [] ->
    records w !! k = Some r -> uploadId r = q_uploadId q ->
    refusal q w (Ok (failure "duplicate upload_id")).

Definition admitted (q : Request) (w : world) (rcp : UserId) : Prop :=
  reachable_recipient q w rcp /\ judge (q_name q) (q_opaque q) (q_size q) = Ok tt
  /\ q_uploadId q <> [] /\ forall k r, records w !! k = Some r -> uploadId r <> q_uploadId q.

(** What [upload] may do: the abstract specification. A refusal touches nothing;
    an admitted upload that fails leaves the file table as it was, and one that
    succeeds leaves the record and its whole blob. No other blob is touched. *)
Inductive upload_spec (q : Request) (w : world) : outcome (Result Transfer) -> world -> Prop :=
| up_denied w' :
    isValid (q_sess q) (time (core w)) (sessions (core w)) = Ok false ->
    beside_log w' = beside_log w ->
    logged (core w) (core w') [(sid_value (q_sess q), lit "DENIED", [])] ->
    upload_spec q w (Throw (AuthException "Login failed")) w'
| up_refused o w' :
    isValid (q_sess q) (time (core w)) (sessions (core w)) = Ok true ->
    refusal q w o -> beside_log w' = beside_log w ->
    logged (core w) (core w') [] -> upload_spec q w o w'
| up_failed rcp fid sid tid e w' :
    isValid (q_sess q) (time (core w)) (sessions (core w)) = Ok true ->
    admitted q w rcp -> draws (rng (core w)) fid sid tid ->
    records w' = records w -> transfers w' = transfers w ->
    (forall k, k <> sid -> k <> staging sid -> blob w' k = blob w k) ->
    (blob w' sid = blob w sid \/ blob w' sid = None \/ blob w' sid = Some (q_opaque q)) ->
    (st_reliable (storage w) -> blob w' sid = None
       /\ (fr_reliable (files w) -> exists sender now,
             file_conflict (records w) (new_record q sender rcp fid sid now))) ->
    logged (core w) (core w') [] ->
    upload_spec q w (Throw e) w'
| up_stored rcp fid sid tid sender rid a w' :
    isValid (q_sess q) (time (core w)) (sessions (core w)) = Ok true ->
    admitted q w rcp -> draws (rng (core w)) fid sid tid ->
    userFor (q_sess q) (sessions (core w)) = Ok sender ->
    let r := new_record q sender rcp fid sid (time (tick (core w))) in
    ~ file_conflict (records w) r -> records w' = <[fid := relabel rid a r]> (records w) ->
    blob w' sid = Some (q_opaque q) ->
    (forall k, k <> sid -> k <> staging sid -> blob w' k = blob w k) ->
    logged (core w) (core w') [(uid_value sender, lit "UPLOAD", fid)] ->
    upload_spec q w
      (Ok (success (MkTransfer (MkTransferId tid) (MkFileId fid) sender rcp UPLOADED))) w'.

(** *** The steps *)

Lemma valid_session_eq sess (w : world) :
  exists b, isValid sess (time (core w)) (sessions (core w)) = Ok b
    /\ valid_session full_wiring sess w = (Ok b, ticked w)
    /\ (b = true -> exists u, userFor sess (sessions (core w)) = Ok u).
Proof.
  unfold valid_session, on_core, on_clock, from_sessions, zoom, nowMs.
  cbn [sessions_ clock_ full_wiring andb]. mred.
  cbn [core set_core sessions set_clock clk_reading clock]. fold (time (core w)).
  rewrite ss_isValid, ss_userFor. destruct (ss_model (sessions (core w)) sess) as [x|].
  - exists (Session_isValid x (time (core w))). split; [done|]. split; [done|].
    intros _. by eexists.
  - exists false. split; [done|]. split; [done|]. intros E. discriminate E.
Qed.

Lemma log_event_ok e (w : world) :
  world_ok w -> au_good e ->
  exists w', log_event full_wiring e w = (Ok tt, w') /\ world_ok w'
    /\ beside_log w' = beside_log w /\ clock (core w') = clock (core w)
    /\ logged (core w) (core w') [(actor e, action e, fileId e)].
Proof.
  intros [[Hu Ha] [Hs Hf]] Hg. destruct (audit_event_ok e (core w) Ha Hg) as (c' & E & Hb & Ha' & Hl).
  exists (set_core c' w). unfold beside_audit in Hb. injection Hb as E1 E2 E3 E4 E5.
  split; [by apply (zoom_run core set_core)|]. unfold world_ok, core_ok, beside_log.
  cbn [core set_core storage files keys transfers]. rewrite E1, E2, E3, E4, E5. by split_and!.
Qed.

Lemma save_record_cases fr (w : world) :
  world_ok w -> file_ok fr -> st_usable (storageId fr) ->
  exists o w', save_record full_wiring fr w = (o, w') /\ world_ok w'
    /\ core w' = core w /\ keys w' = keys w /\ transfers w' = transfers w
    /\ (forall k, k <> storageId fr -> k <> staging (storageId fr) -> blob w' k = blob w k)
    /\ ((o = Ok tt /\ ~ file_conflict (records w) fr
           /\ (exists rid a, records w' = <[fid_value (fr_id fr) := relabel rid a fr]> (records w))
           /\ storage w' = storage w)
        \/ ((exists e, o = Throw e) /\ records w' = records w
            /\ (fr_reliable (files w) -> file_conflict (records w) fr)
            /\ (blob w' (storageId fr) = blob w (storageId fr) \/ blob w' (storageId fr) = None)
            /\ (st_reliable (storage w) -> blob w' (storageId fr) = None))).
Proof.
  intros (Hc & Hs & Hf) Hok Hu.
  destruct (fr_save (files w) fr Hf Hok) as (o & f' & Ef & Hf' & Hcases).
  unfold save_record, try_catch, on_files. cbn [files_ full_wiring negb].
  rewrite (zoom_run files set_files _ w o f' Ef).
  destruct Hcases as [(-> & Hn & Hm)|([e ->] & Hr & Hm)].
  - exists (Ok tt), (set_files f' w). split; [done|]. split; [done|]. do 4 (split; [done|]). left. done.
  - destruct (st_remove (storage w) (storageId fr) Hs Hu) as (s' & Es & Hs' & Ho & Hb & Hrel).
    exists (Throw e), (set_storage s' (set_files f' w)). split.
    { rewrite M_bind_eq. unfold on_storage.
      rewrite (zoom_run storage set_storage _ (set_files f' w) (Ok tt) s' Es). done. }
    split; [done|]. do 3 (split; [done|]). split; [exact Ho|]. right.
    split; [by eexists|]. split; [exact Hm|]. split; [exact Hr|]. split; [exact Hb|].
    intros Hrl. by apply Hrel.
Qed.

Lemma on_rng_run {X} (m : M Rng X) (w : world) o r :
  m (rng (core w)) = (o, r) -> on_core (on_rng m) w = (o, set_core (set_rng r (core w)) w).
Proof.
  intros E. unfold on_core, on_rng. apply (zoom_run core set_core).
  by apply (zoom_run rng set_rng).
Qed.

Lemma drawn_nonempty r id r1 : generateUserId r = (Ok (MkUserId id), r1) -> id <> [].
Proof.
  destruct (generateUserId_some r) as (id' & r' & E & Hne). intros E'. rewrite E in E'.
  injection E' as -> _. exact Hne.
Qed.

(** The transfer and the log entry never fail an upload. *)
Lemma finish_upload t sender fid (w : world) :
  world_ok w -> au_good (event (uid_value sender) "UPLOAD" fid) ->
  exists w', (_ ← when true (try_catch (on_transfers (saveTransfer t)) (fun _ => mret tt));
              _ ← log_event full_wiring (event (uid_value sender) "UPLOAD" fid);
              mret (success t)) w = (Ok (success t), w')
    /\ world_ok w' /\ storage w' = storage w /\ files w' = files w
    /\ logged (core w) (core w') [(uid_value sender, lit "UPLOAD", fid)].
Proof.
  intros Hok Hg. destruct (tr_save (transfers w) t) as (o & t' & E & Hcases).
  set (w1 := set_transfers t' w).
  assert (try_catch (on_transfers (saveTransfer t)) (fun _ => mret tt) w = (Ok tt, w1)) as Hr.
  { unfold try_catch, on_transfers. rewrite (zoom_run transfers set_transfers _ w o t' E).
    by destruct Hcases as [[-> _]|[[e ->] _]]. }
  destruct (log_event_ok (event (uid_value sender) "UPLOAD" fid) w1 Hok Hg)
    as (w' & El & Hok' & Hb & _ & Hl).
  exists w'. unfold when. rewrite (M_bind_run _ _ w tt w1 Hr), (M_bind_run _ _ w1 tt w' El).
  unfold beside_log in Hb. injection Hb as _ _ _ _ E5 _ E7 _. by split_and!.
Qed.

Lemma store_cases q sender rcp fid sid tid (w : world) :
  world_ok w -> draws (rng (core w)) fid sid tid -> st_usable sid -> q_uploadId q <> [] ->
  au_good (event (uid_value sender) "UPLOAD" fid) ->
  let r := new_record q sender rcp fid sid (time (core w)) in
  exists o w', store_upload full_wiring sender rcp (q_name q) (q_opaque q) (q_uploadId q)
                 (q_size q) (q_digest q) (q_wrapped q) w = (o, w') /\ world_ok w'
    /\ (forall k, k <> sid -> k <> staging sid -> blob w' k = blob w k)
    /\ (((exists e, o = Throw e) /\ records w' = records w /\ transfers w' = transfers w
          /\ logged (core w) (core w') []
          /\ (blob w' sid = blob w sid \/ blob w' sid = None \/ blob w' sid = Some (q_opaque q))
          /\ (st_reliable (storage w) -> blob w' sid = None
                /\ (fr_reliable (files w) -> file_conflict (records w) r)))
        \/ (o = Ok (success (MkTransfer (MkTransferId tid) (MkFileId fid) sender rcp UPLOADED))
            /\ ~ file_conflict (records w) r /\ (exists rid a, records w' = <[fid := relabel rid a r]> (records w))
            /\ blob w' sid = Some (q_opaque q)
            /\ logged (core w) (core w') [(uid_value sender, lit "UPLOAD", fid)])).
Proof.
  intros Hok (s & r1 & r2 & r3 & E1 & E2 & -> & E3) Hus Hup Hg r. unfold store_upload.
  rewrite (M_bind_run _ _ w _ _ (on_rng_run _ w _ r1 E1)).
  set (w1 := set_core (set_rng r1 (core w)) w).
  rewrite (M_bind_run _ _ w1 _ _ (on_rng_run _ w1 _ r2 E2)).
  set (w2 := set_core (set_rng r2 (core w1)) w1). cbn [clock_ full_wiring uid_value st_ negb].
  rewrite (M_bind_run _ _ w2 (time (core w)) (ticked w2) eq_refl).
  change (MkFileRecord _ _ _ _ _ _ _ _ _ _) with r.
  destruct Hok as (Hc & Hs & Hf).
  destruct (st_staged (storage w) (s ++ lit ".bin") (q_opaque q) Hs Hus)
    as (o & s' & Es & Hs' & Ho & Hcases & Hrel).
  assert (on_storage (stagedWrite (s ++ lit ".bin") (q_opaque q)) (ticked w2)
          = (o, set_storage s' (ticked w2))) as Ew.
  { by apply (zoom_run storage set_storage). }
  set (w3 := set_storage s' (ticked w2)) in *.
  assert (world_ok w3) as Hok3 by (split; [exact Hc|by split]).
  destruct Hcases as [[-> Hb]|([e ->] & Hb)].
  2: { rewrite M_bind_eq, Ew. exists (Throw e), w3. split; [done|]. split; [exact Hok3|].
       split; [exact Ho|]. left. split; [by eexists|]. do 2 (split; [done|]).
       split; [by unfold logged; rewrite app_nil_r|]. split; [destruct Hb; auto|].
       intros Hr. by destruct (Hrel Hr) as [[=] _]. }
  rewrite (M_bind_run _ _ _ tt w3 Ew).
  assert (file_ok r) as Hfo.
  { split; [by apply (drawn_nonempty _ _ _ E1)|]. split; [exact Hup|].
    cbn. intros [_ Hn]%app_eq_nil. discriminate Hn. }
  destruct (save_record_cases r w3 Hok3 Hfo Hus)
    as (o4 & w4 & E4 & Hok4 & Hc4 & _ & Ht4 & Ho4 & Hcases4).
  assert (forall k, k <> s ++ lit ".bin" -> k <> staging (s ++ lit ".bin") -> blob w4 k = blob w k)
    as Hother by (intros k Hk1 Hk2; rewrite (Ho4 k Hk1 Hk2); by apply Ho).
  destruct Hcases4 as [(-> & Hn & Hm & Hst)|([e ->] & Hm & Hr & Hb4 & Hrm)].
  - rewrite (M_bind_run _ _ w3 tt w4 E4).
    assert (generateUserId (rng (core w4)) = (Ok (MkUserId tid), r3)) as E3' by (by rewrite Hc4).
    rewrite (M_bind_run _ _ w4 _ _ (on_rng_run _ w4 _ r3 E3')).
    set (w5 := set_core (set_rng r3 (core w4)) w4).
    destruct (finish_upload (MkTransfer (MkTransferId tid) (MkFileId fid) sender rcp UPLOADED)
      sender fid w5 Hok4 Hg) as (w' & E5 & Hok' & Hst' & Hf' & Hl).
    cbn [transfers_ full_wiring uid_value]. eexists _, w'. split; [exact E5|].
    split; [exact Hok'|]. unfold blob, records in *. rewrite Hst', Hf'.
    split; [exact Hother|]. right. split; [done|]. split; [exact Hn|]. split; [exact Hm|].
    split; [by change (storage w5) with (storage w4); rewrite Hst|].
    unfold logged in *. rewrite Hl. change (core w5) with (set_rng r3 (core w4)). by rewrite Hc4.
  - rewrite M_bind_eq, E4. exists (Throw e), w4. split; [done|]. split; [exact Hok4|].
    split; [exact Hother|]. left. split; [by eexists|]. split; [exact Hm|]. split; [exact Ht4|].
    split; [by unfold logged; rewrite Hc4, app_nil_r|].
    split; [destruct Hb4 as [Hb4|Hb4]; [right; right; exact (eq_trans Hb4 Hb)|auto]|].
    intros Hr0. destruct (Hrel Hr0) as [_ Hr3]. split; [by apply Hrm|exact Hr].
Qed.

(** *** The whole request *)

(** What the storage and the logger must take of a request in this state: the
    identifiers it may draw, and the events it may log. *)
Definition acceptable (q : Request) (w : world) : Prop :=
  au_good (event (sid_value (q_sess q)) "DENIED" [])
  /\ forall sender fid sid tid, userFor (q_sess q) (sessions (core w)) = Ok sender ->
       draws (rng (core w)) fid sid tid ->
       st_usable sid /\ au_good (event (uid_value sender) "UPLOAD" fid).

Lemma draws_some r : exists fid sid tid, draws r fid sid tid.
Proof.
  destruct (generateUserId_some r) as ([f] & r1 & E1 & _).
  destruct (generateUserId_some r1) as ([i] & r2 & E2 & _).
  destruct (generateUserId_some r2) as ([t] & r3 & E3 & _).
  exists f, (i ++ lit ".bin"), t, i, r1, r2, r3.
  exact (conj E1 (conj E2 (conj eq_refl E3))).
Qed.

(** A run of the tests refuses with the state untouched, or goes on to store. *)
Definition admits (q : Request) (sender : UserId) (w : world)
    (run : outcome (Result Transfer) * world) : Prop :=
  (exists o, run = (o, w) /\ refusal q w o)
  \/ (exists rcp, admitted q w rcp
       /\ run = store_upload full_wiring sender rcp (q_name q) (q_opaque q) (q_uploadId q)
                   (q_size q) (q_digest q) (q_wrapped q) w).

Lemma admit_cases q sender (w : world) :
  world_ok w ->
  admits q sender w
    (admit_upload full_wiring sender (q_recipient q) (q_name q) (q_opaque q) (q_uploadId q)
       (q_size q) (q_digest q) (q_wrapped q) w).
Proof.
  intros ([Hu _] & _ & Hf). unfold admit_upload, on_core, from_users.
  cbn [users_ keys_ validator_ files_ full_wiring negb].
  destruct (ur_findByUsername (users (core w)) (q_recipient q) Hu) as [(u & h & Hn & E)|[Hn E]].
  2: { left. eexists. split; [|by apply no_recipient]. unfold zoom, reads. mred.
       rewrite E. by destruct w. }
  assert (zoom core set_core (reads (fun c => findByUsername (q_recipient q) (users c))) w
          = (Ok (success u), w)) as Er by (unfold zoom, reads; rewrite E; by destruct w).
  rewrite (M_bind_run _ _ w _ _ Er). change (result_get (success u)) with (Some u). cbv iota beta zeta.
  assert (uid_value (id_ u) <> []) as Hid by apply (tab_user _ (ur_table _ Hu) _ _ _ (proj1 Hn)).
  unfold from_keys. rewrite M_bind_eq. unfold reads at 1. rewrite (kd_exists (keys w) (id_ u) Hid).
  destruct (kd_model (keys w) !! uid_value (id_ u)) as [pub|] eqn:Ek; cbn [negb].
  2: { left. eexists. split; [done|]. by eapply no_key. }
  rewrite bool_decide_eq_true_2 by by eexists. cbn [negb].
  assert (reachable_recipient q w (id_ u)) as Hr by (exists u, h; rewrite Ek; split_and!; by eauto).
  rewrite M_bind_eq. unfold liftO at 1.
  destruct (judge (q_name q) (q_opaque q) (q_size q)) as [[]|e|] eqn:Ej.
  2: { left. eexists. split; [done|]. by eapply bad_file. }
  2: { exfalso. revert Ej. unfold judge. case_match; apply fv_defined. }
  case_bool_decide as Ei; [left; eexists; split; [done|]; by eapply no_upload_id|].
  rewrite M_bind_eq. unfold from_files. unfold reads at 1.
  destruct (fr_exists (files w) (q_uploadId q) Hf) as (b & -> & Hb).
  destruct b.
  - left. destruct (proj1 Hb eq_refl) as (k & r & Hk & Hup). eexists. split; [done|].
    by eapply duplicate.
  - right. exists (id_ u). split; [|done]. split; [exact Hr|]. split; [exact Ej|]. split; [exact Ei|].
    intros k r Hk Hup. discriminate (proj2 Hb (ex_intro _ k (ex_intro _ r (conj Hk Hup)))).
Qed.

Lemma user_of_run sess (w : world) u :
  userFor sess (sessions (core w)) = Ok u ->
  on_core (from_sessions (userFor sess)) (ticked w) = (Ok u, ticked w).
Proof.
  intros E. apply (zoom_run core set_core _ (ticked w) (Ok u) (core (ticked w))).
  unfold reads. by rewrite <- E.
Qed.

Lemma run_upload_eq q (w : world) b :
  isValid (q_sess q) (time (core w)) (sessions (core w)) = Ok b ->
  valid_session full_wiring (q_sess q) w = (Ok b, ticked w) ->
  (b = false -> run_upload q w =
     (_ ← log_event full_wiring (event (sid_value (q_sess q)) "DENIED" []);
      throw (AuthException "Login failed")) (ticked w))
  /\ (forall sender, b = true -> userFor (q_sess q) (sessions (core w)) = Ok sender ->
     run_upload q w =
     admit_upload full_wiring sender (q_recipient q) (q_name q) (q_opaque q) (q_uploadId q)
       (q_size q) (q_digest q) (q_wrapped q) (ticked w)).
Proof.
  intros Hv Er. unfold run_upload, upload. rewrite (M_bind_run _ _ w b _ Er). split.
  - by intros ->.
  - intros sender -> Eu. cbn [negb]. by rewrite (M_bind_run _ _ _ _ _ (user_of_run _ _ _ Eu)).
Qed.

Lemma upload_cases q (w : world) :
  world_ok w -> acceptable q w ->
  exists o w', run_upload q w = (o, w') /\ world_ok w' /\ upload_spec q w o w'.
Proof.
  intros Hok [Hgd Hgu]. destruct (valid_session_eq (q_sess q) w) as (b & Hv & Er & Hs).
  destruct (run_upload_eq q w b Hv Er) as [Hf Ht]. destruct b.
  2: { rewrite (Hf eq_refl).
       destruct (log_event_ok (event (sid_value (q_sess q)) "DENIED" []) (ticked w) Hok Hgd)
         as (w' & E & Hok' & Hb & _ & Hl).
       rewrite (M_bind_run _ _ _ tt w' E). eexists _, w'. split; [done|]. split; [exact Hok'|].
       exact (up_denied q w w' Hv Hb Hl). }
  destruct (Hs eq_refl) as [sender Eu]. rewrite (Ht sender eq_refl Eu).
  destruct (admit_cases q sender (ticked w) Hok) as [(o & -> & Href)|(rcp & Hadm & ->)].
  { exists o, (ticked w). split; [done|]. split; [exact Hok|]. 
    refine (up_refused q w o (ticked w) Hv _ _ _); [|reflexivity|].
    - destruct Href; by econstructor.
    - unfold logged. by rewrite app_nil_r. }
  destruct (draws_some (rng (core w))) as (fid & sid & tid & Hd).
  destruct (Hgu sender fid sid tid Eu Hd) as [Hus Hg].
  destruct (store_cases q sender rcp fid sid tid (ticked w) Hok Hd Hus (proj1 (proj2 (proj2 Hadm))) Hg)
    as (o & w' & E & Hok' & Ho & Hcases).
  exists o, w'. split; [exact E|]. split; [exact Hok'|].
  destruct Hcases as [([e ->] & Hr & Htr & Hl & Hb & Hrel)|(-> & Hn & (rid & a & Hr) & Hb & Hl)].
  - refine (up_failed q w rcp fid sid tid e w' Hv Hadm Hd Hr Htr Ho Hb _ Hl).
    intros Hst. destruct (Hrel Hst) as [Hnone Hconf]. split; [exact Hnone|]. intros Hfr.
    exists sender, (time (core (ticked w))). by apply Hconf.
  - exact (up_stored q w rcp fid sid tid sender rid a w' Hv Hadm Hd Eu Hn Hr Hb Ho Hl).
Qed.

(** C5: [upload] implements its specification on every branch: an invalid
    session, an unknown recipient, a recipient without a public key, a file the
    validator rejects, an empty or a known upload identifier are refused, in this
    order, with nothing changed; when the blob or the record cannot be written
    the file table is as before and no other blob is touched, and on a storage
    that does not fail the blob is rolled back; a success leaves the whole blob
    under a record of the sender and the recipient, and one log entry. *)
Theorem upload_refines q (w : world) :
  world_ok w -> acceptable q w ->
  exists o w', run_upload q w = (o, w') /\ world_ok w' /\ upload_spec q w o w'.
Proof. apply upload_cases. Qed.

(** Every record has its blob. *)
Definition stored (w : world) : Prop :=
  forall k r, records w !! k = Some r -> is_Some (blob w (storageId r)).

(** The generator draws no storage identifier that is in use. *)
Definition fresh (w : world) : Prop :=
  forall fid sid tid k r, draws (rng (core w)) fid sid tid -> records w !! k = Some r ->
    storageId r <> sid /\ storageId r <> staging sid.

(** C7: Stored files stay: whatever an upload does (denied, refused, failing in
    the storage or in the repository, rolled back or stored), every file that was
    there keeps its record and its blob, and every record has a blob afterwards
    if this was so before. *)
Theorem upload_keeps_files q (w : world) :
  world_ok w -> acceptable q w -> fresh w -> stored w ->
  exists o w', run_upload q w = (o, w') /\ stored w'
    /\ forall k r, records w !! k = Some r ->
         records w' !! k = Some r /\ blob w' (storageId r) = blob w (storageId r).
Proof.
  intros Hok Hacc Hfresh Hst. destruct (upload_cases q w Hok Hacc) as (o & w' & E & Hok' & Hspec).
  exists o, w'. split; [exact E|].
  assert (Hsame : records w' = records w -> (forall k r, records w !! k = Some r ->
            blob w' (storageId r) = blob w (storageId r)) ->
          stored w' /\ forall k r, records w !! k = Some r ->
            records w' !! k = Some r /\ blob w' (storageId r) = blob w (storageId r)).
  { intros Hr Hb. unfold stored. rewrite Hr. split; [|by intros k r Hk; split; [|by eapply Hb]].
    intros k r Hk. rewrite (Hb k r Hk). by eapply Hst. }
  destruct Hspec as [w' _ Hb _|o w' _ _ Hb _|rcp fid sid tid e w' _ _ Hd Hr _ Ho _ _ _
                    |rcp fid sid tid sender rid a w' _ _ Hd _ r Hn Hr Hbl Ho _].
  - unfold beside_log in Hb. injection Hb as _ _ _ _ E5 _ E7 _. apply Hsame; unfold records, blob;
      [by rewrite E7|by rewrite E5].
  - unfold beside_log in Hb. injection Hb as _ _ _ _ E5 _ E7 _. apply Hsame; unfold records, blob;
      [by rewrite E7|by rewrite E5].
  - apply Hsame; [exact Hr|]. intros k r Hk. destruct (Hfresh fid sid tid k r Hd Hk). by apply Ho.
  - assert (Hold : forall k x, records w !! k = Some x -> k <> fid
        /\ blob w' (storageId x) = blob w (storageId x)).
    { intros k x Hk. destruct (Hfresh fid sid tid k x Hd Hk). split; [|by apply Ho].
      intros ->. apply Hn. left. by eexists. }
    split.
    + intros k x. rewrite Hr, lookup_insert_Some. intros [[<- <-]|[_ Hk]]; [by eexists|].
      destruct (Hold k x Hk) as [_ ->]. by eapply Hst.
    + intros k x Hk. destruct (Hold k x Hk) as [Hne Hb]. split; [|exact Hb].
      by rewrite Hr, lookup_insert_ne.
Qed.

(** C8: What goes in comes out: after a successful upload, a download of the new
    file under a valid session of its sender or of its recipient returns exactly
    the bytes that were uploaded. *)
Theorem upload_then_download q (w w1 : world) t sess u :
  world_ok w -> acceptable q w -> run_upload q w = (Ok (success t), w1) ->
  isValid sess (time (core w1)) (sessions (core w1)) = Ok true ->
  userFor sess (sessions (core w1)) = Ok u -> u = t_sender t \/ u = t_recipient t ->
  au_good (event (uid_value u) "DOWNLOAD" (fid_value (t_file t))) ->
  exists w2, download full_wiring sess (t_file t) w1 = (Ok (success (q_opaque q)), w2).
Proof.
  intros Hok Hacc E Hv Hu Hwho Hg. destruct (upload_cases q w Hok Hacc) as (o & w' & E' & Hok' & Hspec).
  rewrite E in E'. injection E' as <- <-.
  inversion Hspec as [|? ? _ Href _ _|
    |rcp fid sid tid sender rid a ? _ _ Hd Es r Hn Hr Hb _ _]; subst; [by inversion Href|].
  destruct (valid_session_eq sess w1) as (b & Hv' & Er & _).
  rewrite Hv in Hv'. injection Hv' as <-. unfold download.
  rewrite (M_bind_run _ _ w1 true _ Er). cbn [negb].
  rewrite (M_bind_run _ _ _ _ _ (user_of_run _ _ _ Hu)). cbn [files_ st_ full_wiring negb t_file].
  rewrite M_bind_eq. unfold from_files. unfold reads at 1. change (files (ticked w1)) with (files w1).
  destruct Hok' as (Hc & Hs & Hf). rewrite (fr_find (files w1) (MkFileId fid) Hf).
  cbn [fid_value]. unfold records in Hr. rewrite Hr, lookup_insert_eq.
  change (result_get (success (relabel rid a r))) with (Some (relabel rid a r)). cbv iota beta zeta.
  assert (bool_decide (owner (relabel rid a r) = u) || bool_decide (recipient (relabel rid a r) = u) = true) as ->.
  { apply orb_true_iff. rewrite !bool_decide_eq_true. destruct Hwho as [->| ->]; [by left|by right]. }
  cbn [negb]. destruct (proj2 Hacc sender fid sid tid Es Hd) as [Hus _].
  pose proof (st_read (storage w1) sid Hs Hus) as Hread. unfold blob in Hb. rewrite Hb in Hread.
  assert (try_catch (x ← from_storage (read (storageId (relabel rid a r))); mret (inr x))
            (fun e => mret (inl (c_str (what e)))) (ticked w1) = (Ok (inr (q_opaque q)), ticked w1)) as Eo.
  { unfold try_catch, from_storage. mred. change (storage (ticked w1)) with (storage w1).
    change (storageId (relabel rid a r)) with sid. by rewrite Hread. }
  rewrite (M_bind_run _ _ _ _ _ Eo).
  destruct (log_event_ok _ (ticked w1) (conj Hc (conj Hs Hf)) Hg) as (w2 & El & _).
  exists w2. by rewrite (M_bind_run _ _ _ _ _ El).
Qed.

End Correctness.

End TransferService.
