(* ===== verification/Server.v ===== *)
(** * The server ([src/presentation/server_app.cpp])

    The per-connection request loop, the accept loop around it and the start-up.
    The components the requests work on are the fields of a [World]; the console
    and the link to the client are part of the state. A request is one frame;
    [conn->sendFrame] may fail at any call, as the source's socket may. *)
From S2P Require Import Prelude Domain Framing Protocol Ports Cli Auth Admin Transfer.
From Stdlib Require Import ZArith Lia.
From stdpp Require Import base gmap strings list numbers.
Local Open Scope Z_scope.

Module ServerApp.

(** The sending side of a connection: the frames that went out, and which of
    the calls still to come fail. *)
Record Link := MkLink { sent : list Frame; drops : nat -> bool; sends : nat }.

Definition sendFrame (f : Frame) : M Link unit := fun l =>
  let n := S (sends l) in
  if drops l (sends l) then (Throw (RuntimeError "write failed"), MkLink (sent l) (drops l) n)
  else (Ok tt, MkLink (sent l ++ [f]) (drops l) n).

(** The state of a connection, in the server: [pendingInit], [pendingData] and
    [connToken] are the locals of the accept loop's body. *)
Record Serving (W : Type) := MkServing {
  world : W; console : Console; link : Link;
  pendingInit : gmap str UploadInit; pendingData : gmap str str; connToken : str
}.
Arguments MkServing {W}. Arguments world {W}. Arguments console {W}. Arguments link {W}.
Arguments pendingInit {W}. Arguments pendingData {W}. Arguments connToken {W}.

Section Locals.
Context {W : Type}.
Definition set_world (x : W) (s : Serving W) : Serving W :=
  MkServing x (console s) (link s) (pendingInit s) (pendingData s) (connToken s).
Definition set_console (x : Console) (s : Serving W) : Serving W :=
  MkServing (world s) x (link s) (pendingInit s) (pendingData s) (connToken s).
Definition set_link (x : Link) (s : Serving W) : Serving W :=
  MkServing (world s) (console s) x (pendingInit s) (pendingData s) (connToken s).
Definition set_pendingInit (x : gmap str UploadInit) (s : Serving W) : Serving W :=
  MkServing (world s) (console s) (link s) x (pendingData s) (connToken s).
Definition set_pendingData (x : gmap str str) (s : Serving W) : Serving W :=
  MkServing (world s) (console s) (link s) (pendingInit s) x (connToken s).
Definition set_connToken (x : str) (s : Serving W) : Serving W :=
  MkServing (world s) (console s) (link s) (pendingInit s) (pendingData s) x.

Definition on_world {X} (m : M W X) : M (Serving W) X := zoom world set_world m.
Definition on_console {X} (m : M Console X) : M (Serving W) X := zoom console set_console m.
Definition reply (ty : byte) (rid : Z) (body : str) : M (Serving W) unit :=
  zoom link set_link (sendFrame (MkFrame ty rid body)).
Definition say (msg : str) : M (Serving W) unit := on_console (printSafe msg).
End Locals.

Section Requests.
Context {R H S A St K F T : Type}.
Context `{!IUserRepository R, !IPasswordHasher H, !ISessionStore S, !IAuditLogger A, !IStorage St,
          !IKeyDirectory K, !IFileRepository F, !ITransferRepository T, !IFileValidator}.
Local Abbreviation W := (World R H S A St K F T).
Local Abbreviation serving := (Serving (World R H S A St K F T)).

(** [catch(...){ Frame reply{MsgType::ERR, f.requestId, {}}; conn->sendFrame(reply); }] *)
Definition or_err (f : Frame) (m : M serving unit) : M serving unit :=
  try_catch m (fun _ => reply MsgType.ERR (requestId f) []).

Definition on_register (f : Frame) : M serving unit := or_err f (
  pl ← liftO (decodeRegister (f_body f));
  res ← on_world (on_core (AuthService.registerUser (rp_username pl) (rp_email pl) (rp_password pl) "user"));
  let msg := formatSafeAuthMessage
    (if ok res then AuditAction.REGISTER_OK else AuditAction.REGISTER_FAIL) (rp_username pl) in
  _ ← reply MsgType.REGISTER (requestId f) msg;
  say msg).

Definition on_auth (f : Frame) : M serving unit := or_err f (
  pl ← liftO (decodeLogin (f_body f));
  res ← on_world (on_core (AuthService.login (lp_username pl) (lp_password pl)));
  let msg := formatSafeAuthMessage
    (if ok res then AuditAction.LOGIN_OK else AuditAction.LOGIN_FAIL) (lp_username pl) in
  body ← match result_get res with
         | Some tok => _ ← modify (set_connToken (sid_value tok)); mret (sid_value tok)
         | None => mret msg
         end;
  _ ← reply (if ok res then MsgType.AUTH else MsgType.ERR) (requestId f) body;
  say msg).

(** The one request that is not in a [try]. *)
Definition on_logout (f : Frame) : M serving unit :=
  let tokStr := f_body f in
  ok ← on_world (on_core (AuthService.logout (MkSessionId tokStr)));
  let msg := if (ok : bool) then formatSafeAuthMessage AuditAction.LOGOUT [] else "Logout failed" in
  _ ← reply (if ok then MsgType.LOGOUT else MsgType.ERR) (requestId f) msg;
  _ ← say msg;
  s ← get;
  when (ok && bool_decide (connToken s = tokStr)) (modify (set_connToken [])).

Definition on_admin (f : Frame) : M serving unit := or_err f (
  pl ← liftO (decodeAdmin (f_body f));
  let token := MkSessionId (ap_token pl) in
  let target := MkUserId (ap_targetId pl) in
  let activating := bool_decide (f_type f = MsgType.ADMIN_ACTIVATE) in
  res ← on_world (on_core (if activating then AdminService.activate token target
                           else AdminService.deactivate token target));
  let msg := if ok res
             then formatSafeAuthMessage
                    (if activating then AuditAction.ACTIVATE else AuditAction.DEACTIVATE) (ap_targetId pl)
             else "Admin denied" in
  _ ← reply (if ok res then f_type f else MsgType.ERR) (requestId f) msg;
  say msg).

Definition on_upload_init (f : Frame) : M serving unit := or_err f (
  init ← liftO (decodeUploadInit (f_body f));
  s ← get;
  if bool_decide (connToken s = []) then reply MsgType.ERR (requestId f) "no token" else
  let sess := MkSessionId (connToken s) in
  now ← on_world (on_core (on_clock nowMs));
  valid ← on_world (on_core (from_sessions (isValid sess now)));
  if negb valid then
    _ ← reply MsgType.ERR (requestId f) []; say "UPLOAD DENIED invalid session"
  else
  verdict ← try_catch (_ ← liftO (validate (ui_origName init) (ui_size init) "%PDF-1.4"); mret None)
              (fun e => mret (Some (c_str (what e))));
  match verdict with
  | Some message => reply MsgType.ERR (requestId f) message
  | None =>
      _ ← modify (fun s => set_pendingInit (<[ui_uploadId init := init]> (pendingInit s)) s);
      _ ← modify (fun s => set_pendingData (<[ui_uploadId init := []]> (pendingData s)) s);
      sender ← try_catch
        (r ← on_world (on_core (from_sessions (findByToken sess)));
         mret (match result_get r with Some x => uid_value (s_userId x) | None => "unknown" end))
        (fun _ => mret (lit "unknown"));
      _ ← say (("UPLOAD " : str) ++ sender ++ ("->" : str) ++ ui_recipient init ++ (" " : str)
               ++ ui_origName init);
      reply MsgType.UPLOAD_INIT (requestId f) "ok"
  end).

Definition on_upload_data (f : Frame) : M serving unit := or_err f (
  data ← liftO (decodeUploadData (f_body f));
  s ← get;
  match pendingData s !! ud_uploadId data with
  | None => reply MsgType.ERR (requestId f) []
  | Some got =>
      if negb (ud_offset data =? zlen got) then reply MsgType.ERR (requestId f) [] else
      _ ← modify (fun s => set_pendingData (<[ud_uploadId data := got ++ ud_chunk data]> (pendingData s)) s);
      reply MsgType.UPLOAD_DATA (requestId f) "ok"
  end).

(** The upload identifier a commit names: a length-prefixed string, an upload
    data body, or the body itself. [len+4] is 32-bit arithmetic. *)
Definition commit_id (body : str) : outcome str :=
  if bool_decide (body = []) then Ok [] else
  if 4 <=? zlen body then
    len ← get32be body;
    if u32 (len + 4) =? zlen body then Ok (drop 4 body)
    else match decodeUploadData body with
         | Ok d => Ok (ud_uploadId d)
         | Throw _ => Ok body
         | Undef => Undef
         end
  else Ok body.

Definition on_upload_commit (f : Frame) : M serving unit := or_err f (
  named ← liftO (commit_id (f_body f));
  s ← get;
  let uploadId := match named, map_to_list (pendingInit s) with
                  | [], [(k, _)] => k
                  | _, _ => named
                  end in
  match pendingInit s !! uploadId, pendingData s !! uploadId with
  | Some init, Some data =>
      valid ← (if bool_decide (connToken s = []) then mret false else
               now ← on_world (on_core (on_clock nowMs));
               on_world (on_core (from_sessions (isValid (MkSessionId (connToken s)) now))));
      if negb valid then reply MsgType.ERR (requestId f) [] else
      res ← on_world (TransferService.upload TransferService.full_wiring (MkSessionId (connToken s))
              (ui_recipient init) (ui_origName init) data (ui_uploadId init) (ui_size init)
              (ui_digest init) (ui_wrapped init));
      if negb (ok res) then reply MsgType.ERR (requestId f) (error res) else
      match value res with
      | Some t =>
          let tid := tid_value (t_id t) in
          _ ← reply MsgType.UPLOAD_COMMIT (requestId f) tid;
          _ ← say (("UPLOAD COMMIT " : str) ++ uploadId ++ (" -> " : str) ++ tid);
          _ ← modify (fun s => set_pendingInit (delete uploadId (pendingInit s)) s);
          modify (fun s => set_pendingData (delete uploadId (pendingData s)) s)
      | None => undef
      end
  | _, _ => reply MsgType.ERR (requestId f) []
  end).

Definition on_download_req (f : Frame) : M serving unit := or_err f (
  req ← liftO (decodeDownloadReq (f_body f));
  s ← get;
  let tok := if bool_decide (dr_token req = []) then connToken s else dr_token req in
  res ← on_world (TransferService.download TransferService.full_wiring (MkSessionId tok)
          (MkFileId (dr_fileId req)));
  if ok res then
    match value res with
    | Some opaque =>
        _ ← reply MsgType.DOWNLOAD_DATA (requestId f) opaque;
        say (("DOWNLOAD " : str) ++ dr_fileId req)
    | None => throw (RuntimeError "bad optional access")
    end
  else
    _ ← reply MsgType.ERR (requestId f) (error res);
    say (("DOWNLOAD DENIED " : str) ++ dr_fileId req)).

(** The dispatch on the frame's type. *)
Definition handle (f : Frame) : M serving unit :=
  let ty t := bool_decide (f_type f = t) in
  if ty MsgType.REGISTER then on_register f
  else if ty MsgType.AUTH then on_auth f
  else if ty MsgType.LOGOUT then on_logout f
  else if ty MsgType.ADMIN_ACTIVATE || ty MsgType.ADMIN_DEACTIVATE then on_admin f
  else if ty MsgType.UPLOAD_INIT then on_upload_init f
  else if ty MsgType.UPLOAD_DATA then on_upload_data f
  else if ty MsgType.UPLOAD_COMMIT then on_upload_commit f
  else if ty MsgType.DOWNLOAD_REQ then on_download_req f
  else if ty MsgType.LIST || ty MsgType.DOWNLOAD_DATA then reply MsgType.LIST (requestId f) []
  else reply MsgType.ERR (requestId f) [].

(** ** Connections

    One turn of the loop of a connection: a frame is received and handled.
    [None]: [recvFrame] returned [false], which ends the loop. *)
Definition serve_frame (c : Conn) : M serving (option Conn) :=
  match tls_recvFrame c with
  | (Ok (Some f), c') => _ ← handle f; mret (Some c')
  | (Ok None, _) => mret None
  | (Throw e, _) => throw e
  | (Undef, _) => undef
  end.

(** The loop. Every frame takes at least nine bytes, so the number of bytes to
    come is fuel enough ([serve_fuel]). *)
Fixpoint serve (fuel : nat) (c : Conn) : M serving unit :=
  match fuel with
  | O => undef
  | Datatypes.S n => r ← serve_frame c; match r with Some c' => serve n c' | None => mret tt end
  end.

(** A client that connects: what it sends, and which replies fail to go out. *)
Record Client := MkClient { bytes_in : list str; broken : nat -> bool }.

(** [listener.accept()] and the locals of the loop's body, which are fresh. *)
Definition accepted (cl : Client) (h : W * Console) : Conn * serving :=
  (MkConn [] (bytes_in cl), MkServing h.1 h.2 (MkLink [] (broken cl) 0) ∅ ∅ []).

(** One turn of the accept loop, [catch(...){}] around it. A connection that
    fails in [accept] is [None]. *)
Definition accept_one (cl : option Client) : M (W * Console) unit := fun h =>
  match cl with
  | None => (Ok tt, h)
  | Some cl =>
      let (c, s) := accepted cl h in
      match serve (Datatypes.S (bytes_left c)) c s with
      | (Undef, s') => (Undef, (world s', console s'))
      | (_, s') => (Ok tt, (world s', console s'))
      end
  end.

Fixpoint accept_loop (cls : list (option Client)) : M (W * Console) unit :=
  match cls with
  | [] => mret tt
  | cl :: cls' => _ ← accept_one cl; accept_loop cls'
  end.

(** ** Start-up: the first administrator *)
Definition host_world {X} (m : M W X) : M (W * Console) X := zoom fst (fun w h => (w, h.2)) m.
Definition host_console {X} (m : M Console X) : M (W * Console) X := zoom snd (fun c h => (h.1, c)) m.

Definition bootstrap : M (W * Console) unit :=
  l ← host_world (on_core (from_users listAll));
  if negb (bool_decide (l = [])) then mret tt else
  _ ← host_console (print (("No users — initial admin setup required." : str) ++ newline));
  _ ← host_console (print "Enter admin username: "); u ← host_console getline;
  _ ← host_console (print "Enter admin email: "); e ← host_console getline;
  _ ← host_console (print "Enter admin password (min 8 chars): "); p ← host_console getline;
  if bool_decide (u = []) || bool_decide (e = []) || (zlen p <? 8) then mret tt else
  res ← host_world (on_core (AuthService.registerUser u e p "admin"));
  host_console (if ok res then printSafe (formatSafeAuthMessage AuditAction.REGISTER_OK u)
                else printError (("Admin bootstrap failed: " : str) ++ error res)).

(** What the operator sees. Without a certificate on file the fingerprint is empty. *)
Definition shown (fp : str) : str := if bool_decide (fp = []) then lit "NO-CERT-FOUND" else fp.
Definition banner (fp : str) (port : Z) : M Console unit :=
  print (ansi.green ++ ("SERVER IPv4=127.0.0.1 PORT=" : str) ++ to_string port ++ (" FINGERPRINT=" : str)
         ++ shown fp ++ ansi.reset ++ newline).
Definition announce (actual : Z) : M Console unit :=
  _ ← print (("Listening on port " : str) ++ to_string actual ++ (" with TLS 1.3 verify_peer" : str) ++ newline);
  print (("Server running — press Enter to stop (or Ctrl+C)" : str) ++ newline).

(** The components [run] makes between the banner and the sweep, in that order:
    the two directories, and what the constructors give. *)
Definition open_components (directories : outcome unit) (users : outcome R) (hasher : H) (audit : A) (sessions : S)
    (clock : Clock) (rng : Rng) (storage : St) (keys : outcome K) (files : outcome F) (transfers : outcome T)
    : outcome W :=
  _ ← directories;
  u ← users;
  k ← keys;
  f ← files;
  t ← transfers;
  Ok (MkWorld (MkCore u hasher sessions audit clock rng) storage k f t).

(** [run] on the components it opened, up to the accept thread: [fp] is the
    fingerprint of the file, [listening] the port that was bound, or the exception.
    The sweep is the storage's, its failures are ignored. *)
Definition start (fp : str) (port : Z) (listening : outcome Z) (sweep : M St Z) : M (W * Console) unit :=
  _ ← host_console (banner fp port);
  _ ← try_catch (_ ← host_world (on_storage sweep); mret tt) (fun _ => mret tt);
  _ ← bootstrap;
  actual ← liftO listening;
  host_console (announce actual).

(** [run] when the operator's line comes after the connections [cls], none of
    which is open at that moment. Every other order is in [Process]. *)
Definition run (fp : str) (port : Z) (listening : outcome Z) (sweep : M St Z) (cls : list (option Client))
    : M (W * Console) Z :=
  _ ← start fp port listening sweep;
  _ ← accept_loop cls;
  _ ← host_console getline;
  mret 0.

End Requests.

(** ** Fuel *)
Section Fuel.
Context {R H S A St K F T : Type}.
Context `{!IUserRepository R, !IPasswordHasher H, !ISessionStore S, !IAuditLogger A, !IStorage St,
          !IKeyDirectory K, !IFileRepository F, !ITransferRepository T, !IFileValidator}.
Local Abbreviation serving := (Serving (World R H S A St K F T)).

(** What a turn does that is followed by another. *)
Lemma serve_frame_next c c' (s s' : serving) : serve_frame c s = (Ok (Some c'), s') ->
  exists f, tls_recvFrame c = (Ok (Some f), c') /\ handle f s = (Ok tt, s').
Proof.
  unfold serve_frame. destruct (tls_recvFrame c) as [[[f|]|e|] c1]; try discriminate.
  rewrite M_bind_eq. destruct (handle f s) as [[[]|e|] s1] eqn:E; try discriminate.
  intros [= <- <-]. by exists f.
Qed.

Lemma serve_fuel n : forall m c (s : serving),
  (bytes_left c < n)%nat -> (bytes_left c < m)%nat -> serve n c s = serve m c s.
Proof.
  induction n as [|n IH]; intros [|m] c s Hn Hm; try lia. cbn [serve]. rewrite !M_bind_eq.
  destruct (serve_frame c s) as [[[c'|]|e|] s'] eqn:E; try done.
  apply serve_frame_next in E as (f & E%tls_recv_consumes & _). apply IH; lia.
Qed.
End Fuel.

(** ** One reply per request *)
Section Replies.
Context {R H S A St K F T : Type}.
Context `{!IUserRepository R, !IPasswordHasher H, !ISessionStore S, !IAuditLogger A, !IStorage St,
          !IKeyDirectory K, !IFileRepository F, !ITransferRepository T, !IFileValidator}.
Local Abbreviation serving := (Serving (World R H S A St K F T)).

(** The link carries everything that is still to be sent. *)
Definition up (l : Link) : Prop := forall n, drops l n = false.

(** Exactly one frame went out, for the request [rid]. *)
Definition replied (rid : Z) (l l' : Link) : Prop :=
  up l' /\ exists ty body, sent l' = sent l ++ [MkFrame ty rid body].

(** [m] throws before it has sent anything, or returns after one reply. *)
Definition answers {X} (rid : Z) (m : M serving X) : Prop := forall s, up (link s) ->
  match m s with
  | (Ok _, s') => replied rid (link s) (link s')
  | (Throw _, s') => link s' = link s
  | (Undef, _) => True
  end.

(** [m] returns, and sends nothing. *)
Definition silent {X} (m : M serving X) : Prop := forall s, exists x s',
  m s = (Ok x, s') /\ link s' = link s.

Lemma answers_bind {X Y} rid (m : M serving X) (g : X -> M serving Y) :
  steps (same link) m -> (forall x, answers rid (g x)) -> answers rid (m ≫= g).
Proof.
  intros Hm Hg s Hs. rewrite M_bind_eq. specialize (Hm s). unfold same in Hm.
  destruct (m s) as [[x|e|] s1]; cbn [snd] in Hm; [|done..].
  rewrite <- Hm. apply Hg. by rewrite Hm.
Qed.

Lemma answers_throw {X} rid e : answers (X:=X) rid (throw e).
Proof. done. Qed.
Lemma answers_undef {X} rid : answers (X:=X) rid undef.
Proof. done. Qed.

Lemma answers_reply rid ty body : answers rid (reply ty rid body).
Proof.
  intros s Hs. unfold reply, zoom, sendFrame. rewrite (Hs (sends (link s))).
  split; [exact Hs|]. by exists ty, body.
Qed.

Lemma answers_reply_then {X} rid ty body (g : unit -> M serving X) :
  silent (g tt) -> answers rid (reply ty rid body ≫= g).
Proof.
  intros Hg s Hs. pose proof (answers_reply rid ty body s Hs) as Hr. rewrite M_bind_eq.
  destruct (reply ty rid body s) as [[[]|e|] s1]; [|done..].
  destruct (Hg s1) as (x & s' & -> & E). by rewrite E.
Qed.

Lemma or_err_once f (m : M serving unit) s :
  answers (requestId f) m -> up (link s) ->
  match or_err f m s with
  | (Ok _, s') => replied (requestId f) (link s) (link s')
  | (Throw _, _) => False
  | (Undef, _) => True
  end.
Proof.
  intros Hm Hs. specialize (Hm s Hs). unfold or_err, try_catch.
  destruct (m s) as [[x|e|] s1]; [done| |done].
  unfold reply, zoom, sendFrame. rewrite Hm, (Hs (sends (link s))).
  split; [exact Hs|]. by exists MsgType.ERR, [].
Qed.

Lemma say_silent msg : silent (say msg).
Proof. intros s. eexists _, _. split; [reflexivity|done]. Qed.
Lemma modify_silent (g : serving -> serving) : (forall s, link (g s) = link s) -> silent (modify g).
Proof. intros Hg s. exists tt, (g s). split; [done|apply Hg]. Qed.
Lemma silent_bind {X Y} (m : M serving X) (g : X -> M serving Y) :
  silent m -> (forall x, silent (g x)) -> silent (m ≫= g).
Proof.
  intros Hm Hg s. destruct (Hm s) as (x & s1 & E & E1). destruct (Hg x s1) as (y & s2 & E' & E2).
  exists y, s2. rewrite (M_bind_run _ _ _ _ _ E). split; [exact E'|congruence].
Qed.

Lemma on_world_link {X} (m : M (World R H S A St K F T) X) : steps (same link) (on_world m).
Proof. intros s. unfold on_world, zoom, same. by destruct (m (world s)). Qed.
Lemma say_link msg : steps (same (link (W:=World R H S A St K F T))) (say msg).
Proof. done. Qed.
Lemma modify_link (g : serving -> serving) :
  (forall s, link (g s) = link s) -> steps (same link) (modify g).
Proof. intros Hg s. apply Hg. Qed.

Create HintDb link.
#[local] Hint Resolve steps_ret steps_throw steps_undef steps_reads steps_liftO
  on_world_link say_link : link.

(** Walking over a handler: what comes before the reply sends nothing, what
    comes after it only speaks and updates the locals. *)
Ltac quiet := repeat first
  [ progress intros | solve [auto with link typeclass_instances]
  | apply modify_link; done
  | apply steps_bind; [typeclasses eauto| |] | apply steps_try; [typeclasses eauto| |]
  | case_match | done ].
Ltac hush := repeat first
  [ progress intros | apply say_silent | apply modify_silent; done | apply silent_bind ].
Ltac answer := repeat first
  [ progress intros | progress cbv zeta | apply answers_reply | apply answers_throw | apply answers_undef
  | apply answers_reply_then; hush
  | apply answers_bind; [quiet|]
  | case_match ].

Definition once (f : Frame) (s : serving) (run : outcome unit * serving) : Prop :=
  match run with
  | (Ok _, s') => replied (requestId f) (link s) (link s')
  | (Throw _, s') => f_type f = MsgType.LOGOUT /\ link s' = link s
  | (Undef, _) => True
  end.

Lemma once_tried f m s : answers (requestId f) m -> up (link s) -> once f s (or_err f m s).
Proof.
  intros Hm Hs. pose proof (or_err_once f m s Hm Hs) as Ho. unfold once.
  destruct (or_err f m s) as [[x|e|] s']; [exact Ho|destruct Ho|exact I].
Qed.

Lemma once_logout f s : f_type f = MsgType.LOGOUT -> up (link s) -> once f s (on_logout f s).
Proof.
  intros E Hs. assert (answers (requestId f) (on_logout f)) as Ha.
  { unfold on_logout. apply answers_bind; [quiet|]. intros b.
    apply answers_reply_then. apply silent_bind; [apply say_silent|]. intros _ s1.
    mred. destruct (b && _); [by apply modify_silent|by eexists _, _]. }
  specialize (Ha s Hs). unfold once. by destruct (on_logout f s) as [[x|e|] s'].
Qed.

Lemma once_replied f s ty body : up (link s) -> once f s (reply ty (requestId f) body s).
Proof.
  intros Hs. pose proof (answers_reply (requestId f) ty body s Hs) as Ha. unfold once.
  destruct (reply ty (requestId f) body s) as [[x|e|] s'] eqn:E; [exact Ha| |done].
  unfold reply, zoom, sendFrame in E. by rewrite (Hs (sends (link s))) in E.
Qed.

Lemma handle_once f s : up (link s) -> once f s (handle f s).
Proof.
  intros Hs. unfold handle. cbv zeta.
  repeat (match goal with |- context [if ?b then _ else _] => destruct b eqn:? end).
  all: try (apply once_tried; [|exact Hs]; answer).
  all: try (by apply once_replied).
  apply once_logout; [|exact Hs]. by eapply bool_decide_eq_true.
Qed.

(** C12: Every request gets exactly one reply, under its own request id: whatever
    frame arrives and whatever the components behind the server do (accept,
    refuse or throw), as long as the connection carries the replies, the handler
    returns after sending exactly one frame with the id of the request; the only
    exception is a LOGOUT during which the session store or the audit log throws:
    it is outside every [try], so no reply goes out and the connection ends. *)
Theorem one_reply_per_request f s o s' :
  (forall n, drops (link s) n = false) -> handle f s = (o, s') -> o <> Undef ->
  (o = Ok tt /\ exists ty body, sent (link s') = sent (link s) ++ [MkFrame ty (requestId f) body])
  \/ (f_type f = MsgType.LOGOUT /\ (exists e, o = Throw e) /\ sent (link s') = sent (link s)).
Proof.
  intros Hs E Hu. pose proof (handle_once f s Hs) as Ho. rewrite E in Ho.
  destruct o as [[]|e|]; cbn in Ho; [|right|done].
  - left. split; [done|]. apply Ho.
  - destruct Ho as [Ht El]. split; [exact Ht|]. split; [by eexists|by rewrite El].
Qed.

End Replies.

(** ** What may be sent *)
Section Secrecy.
Context {R H S A St K F T : Type}.
Context `{!IUserRepository R, !IPasswordHasher H, !ISessionStore S, !IAuditLogger A, !IStorage St,
          !IKeyDirectory K, !IFileRepository F, !ITransferRepository T, !IFileValidator}.
Local Abbreviation serving := (Serving (World R H S A St K F T)).

(** Between two states only frames in [P] go out. *)
Definition emits (P : Frame -> Prop) : relation serving := fun s s' =>
  exists l, sent (link s') = sent (link s) ++ l /\ Forall P l.

#[export] Instance emits_preorder P : PreOrder (emits P).
Proof.
  split.
  - intros s. exists []. by rewrite app_nil_r.
  - intros s t u (l & E & Hl) (l' & E' & Hl'). exists (l ++ l').
    rewrite E', E, app_assoc. split; [done|]. by apply List.Forall_app.
Qed.

Lemma reply_emits P ty rid body : P (MkFrame ty rid body) -> steps (emits P) (reply ty rid body).
Proof.
  intros HP s. unfold reply, zoom, sendFrame, emits. destruct (drops (link s) _); cbn.
  - exists []. by rewrite app_nil_r.
  - exists [MkFrame ty rid body]. split; [done|]. by repeat constructor.
Qed.

Lemma link_emits {X} P (m : M serving X) : steps (same link) m -> steps (emits P) m.
Proof. intros Hm s. exists []. rewrite (Hm s : link (m s).2 = link s), app_nil_r. by split. Qed.
Lemma on_world_emits {X} P (m : M (World R H S A St K F T) X) : steps (emits P) (on_world m).
Proof. apply link_emits, on_world_link. Qed.
Lemma say_emits P msg : steps (emits P) (say msg).
Proof. by apply link_emits. Qed.
Lemma modify_emits P (g : serving -> serving) :
  (forall s, link (g s) = link s) -> steps (emits P) (modify g).
Proof. intros Hg. apply link_emits. intros s. apply Hg. Qed.

Create HintDb emits.
#[local] Hint Resolve on_world_emits say_emits steps_ret steps_throw steps_undef steps_reads
  steps_liftO : emits.

(** Walking over a handler that sends only frames in [P]; [side] shows it of
    each frame. *)
Ltac emission side := repeat first
  [ progress intros | progress cbv zeta
  | solve [auto with emits typeclass_instances]
  | apply modify_emits; done
  | apply reply_emits; side
  | apply steps_bind; [typeclasses eauto| |] | apply steps_try; [typeclasses eauto| |]
  | progress unfold or_err, when
  | case_match ].

Definition no_blob (fr : Frame) : Prop := f_type fr <> MsgType.DOWNLOAD_DATA.

(** The requests other than a download never send a blob. *)
Lemma other_emits f s :
  f_type f <> MsgType.DOWNLOAD_REQ -> emits no_blob s (handle f s).2.
Proof.
  intros Hne. revert s. change (steps (emits no_blob) (handle f)).
  unfold handle. cbv zeta.
  case_bool_decide; [solve [unfold on_register; emission ltac:(discriminate)]|].
  case_bool_decide; [solve [unfold on_auth; emission ltac:(first [discriminate|case_match; discriminate])]|].
  case_bool_decide; [solve [unfold on_logout; emission ltac:(first [discriminate|case_match; discriminate])]|].
  destruct (_ || _) eqn:Ea.
  { assert (f_type f <> MsgType.DOWNLOAD_DATA) as Hb.
    { apply orb_true_iff in Ea. rewrite !bool_decide_eq_true in Ea. destruct Ea as [->| ->]; done. }
    unfold on_admin; emission ltac:(first [exact Hb|discriminate|case_match; first [exact Hb|discriminate]]). }
  clear Ea.
  case_bool_decide; [solve [unfold on_upload_init; emission ltac:(discriminate)]|].
  case_bool_decide; [solve [unfold on_upload_data; emission ltac:(discriminate)]|].
  case_bool_decide; [solve [unfold on_upload_commit; emission ltac:(discriminate)]|].
  case_bool_decide; [done|]. emission ltac:(discriminate).
Qed.

(** The bytes of a blob only leave for who is entitled to them. *)
Definition released (f : Frame) (s : serving) (fr : Frame) : Prop :=
  f_type fr = MsgType.DOWNLOAD_DATA ->
  f_type f = MsgType.DOWNLOAD_REQ /\ exists req, decodeDownloadReq (f_body f) = Ok req
    /\ TransferService.entitled (world s)
         (MkSessionId (if bool_decide (dr_token req = []) then connToken s else dr_token req))
         (MkFileId (dr_fileId req)) (f_body fr).

Lemma download_emits f s :
  f_type f = MsgType.DOWNLOAD_REQ -> emits (released f s) s (on_download_req f s).2.
Proof.
  intros Et. assert (steps (emits (released f s)) (reply MsgType.ERR (requestId f) [])) as Herr.
  { apply reply_emits. discriminate. }
  unfold on_download_req, or_err, try_catch.
  match goal with |- emits _ _ (let (_, _) := ?m s in _).2 =>
    assert (emits (released f s) s (m s).2) as Hm;
    [|destruct (m s) as [[x|e|] s1]; [done| |done]; etrans; [exact Hm|apply Herr]] end.
  rewrite M_bind_eq. unfold liftO at 1.
  destruct (decodeDownloadReq (f_body f)) as [req|e|] eqn:Ed; [|reflexivity..].
  rewrite M_bind_eq. unfold get at 1. cbv zeta.
  rewrite M_bind_eq. unfold on_world at 1, zoom at 1.
  destruct (TransferService.download _ _ _ (world s)) as [[res|e|] w1] eqn:Edl.
  2-3: exists []; by rewrite app_nil_r.
  transitivity (set_world w1 s); [exists []; by rewrite app_nil_r|].
  generalize (set_world w1 s) as s1. destruct (ok res) eqn:Eok.
  - destruct (TransferService.download_entitled _ _ _ _ _ _ Edl Eok) as (d & -> & Hd).
    cbn [value success]. intros s1. revert s1.
    match goal with |- forall s1, emits ?P s1 (?m s1).2 => change (steps (emits P) m) end.
    emission ltac:(intros _; split; [exact Et|exists req; split; [exact Ed|exact Hd]]).
  - intros s1. revert s1.
    match goal with |- forall s1, emits ?P s1 (?m s1).2 => change (steps (emits P) m) end.
    emission ltac:(discriminate).
Qed.

(** C11: No blob leaves the server without authority, on the wire: whatever
    frame arrives in whatever state (other connections' sessions included) and
    however components and connection fail, every DOWNLOAD_DATA frame that goes
    out answers a DOWNLOAD_REQ whose token (the request's own, or else the one
    this connection logged in with) is valid and belongs to the owner or the
    recipient of the requested file, and carries exactly that file's bytes. *)
Theorem blobs_need_authority f s :
  exists l, sent (link (handle f s).2) = sent (link s) ++ l /\ Forall (released f s) l.
Proof.
  destruct (decide (f_type f = MsgType.DOWNLOAD_REQ)) as [E|Hne].
  - assert (handle f s = on_download_req f s) as ->; [|by apply download_emits].
    unfold handle. by rewrite E.
  - destruct (other_emits f s Hne) as (l & El & Hl). exists l. split; [exact El|].
    apply (List.Forall_impl _ (P:=no_blob)); [|exact Hl]. intros fr Hn Hb. by apply Hn in Hb.
Qed.

End Secrecy.

(** ** An upload over the wire *)
Section WireUpload.
Context {R H S A St K F T : Type}.
Context `{!IUserRepository R, !IPasswordHasher H, !ISessionStore S, !IAuditLogger A, !IStorage St,
          !IKeyDirectory K, !IFileRepository F, !ITransferRepository T, !IFileValidator}.
Local Abbreviation serving := (Serving (World R H S A St K F T)).

(** The frames of a client that sends a file in chunks. *)
Definition data_frame (rid : Z) (id : str) (off : Z) (c : str) : Frame :=
  MkFrame MsgType.UPLOAD_DATA rid (encodeUploadData (MkUploadData id off c)).
Definition commit_frame (rid : Z) (id : str) : Frame :=
  MkFrame MsgType.UPLOAD_COMMIT rid (putStringWithLen [] id).
Fixpoint data_frames (rid : Z) (id : str) (off : Z) (cs : list str) : list Frame :=
  match cs with
  | [] => []
  | c :: cs' => data_frame rid id off c :: data_frames rid id (off + zlen c) cs'
  end.

Fixpoint handle_all (fs : list Frame) : M serving unit :=
  match fs with
  | [] => mret tt
  | f :: fs' => _ ← handle f; handle_all fs'
  end.

Lemma handle_all_app fs fs' s :
  handle_all (fs ++ fs') s = (_ ← handle_all fs; handle_all fs') s.
Proof.
  revert s. induction fs as [|f fs IH]; intros s; [done|]. cbn [app handle_all].
  rewrite !M_bind_eq. destruct (handle f s) as [[x|e|] s1]; [|done..]. rewrite IH. apply M_bind_eq.
Qed.

(** A frame that went out. *)
Definition add_sent (f : Frame) (l : Link) : Link :=
  MkLink (sent l ++ [f]) (drops l) (Datatypes.S (sends l)).
Lemma reply_up (s : serving) ty rid body :
  up (link s) -> reply ty rid body s = (Ok tt, set_link (add_sent (MkFrame ty rid body) (link s)) s).
Proof. intros Hs. unfold reply, zoom, sendFrame. by rewrite (Hs (sends (link s))). Qed.

Lemma zlen_field x : zlen (field x) = 4 + zlen x.
Proof. unfold field. rewrite zlen_app, zlen_be_bytes. lia. Qed.

Lemma decode_data id off c :
  fits id -> 0 <= off < 2 ^ 64 -> fits c ->
  decodeUploadData (encodeUploadData (MkUploadData id off c)) = Ok (MkUploadData id off c).
Proof.
  intros Hi Ho Hc. apply decodeUploadData_iff.
  - unfold encodeUploadData. rewrite put_bytes_field, put64be_bytes, put_field.
    rewrite !zlen_app, zlen_be_bytes, !zlen_field. cbn [ud_uploadId ud_chunk app].
    unfold fits, max_object in *. change (zlen []) with 0. lia.
  - split; [exact Hi|]. split; [exact Ho|]. split; [exact Hc|]. exists []. by rewrite app_nil_r.
Qed.

Lemma commit_names id : id <> [] -> zlen id + 4 < 2 ^ 32 -> commit_id (putStringWithLen [] id) = Ok id.
Proof.
  intros Hid Hl. unfold commit_id. rewrite put_field. cbn [app]. unfold field.
  pose proof (zlen_nonneg id). rewrite bool_decide_eq_false_2 by discriminate.
  rewrite (proj2 (Z.leb_le _ _)) by (rewrite zlen_app, zlen_be_bytes; lia).
  rewrite get32be_put. mred. assert (u32 (zlen id) = zlen id) as -> by (apply Z.mod_small; lia).
  rewrite zlen_app, zlen_be_bytes. assert (u32 (zlen id + 4) = zlen id + 4) as -> by (apply Z.mod_small; lia).
  rewrite (proj2 (Z.eqb_eq _ _)) by lia. done.
Qed.

(** One chunk at the expected offset. *)
Lemma handle_chunk rid id c (s : serving) got :
  up (link s) -> pendingData s !! id = Some got -> fits id -> fits c -> zlen got < 2 ^ 64 ->
  handle (data_frame rid id (zlen got) c) s =
    (Ok tt, set_link (add_sent (MkFrame MsgType.UPLOAD_DATA rid "ok") (link s))
              (set_pendingData (<[id := got ++ c]> (pendingData s)) s)).
Proof.
  intros Hs Hg Hi Hc Hgot. pose proof (zlen_nonneg got). unfold handle. cbn [f_type data_frame].
  change (on_upload_data (data_frame rid id (zlen got) c) s = (Ok tt,
    set_link (add_sent (MkFrame MsgType.UPLOAD_DATA rid "ok") (link s))
      (set_pendingData (<[id := got ++ c]> (pendingData s)) s))).
  unfold on_upload_data, or_err, try_catch. cbn [f_body data_frame].
  rewrite decode_data by (done || lia). rewrite M_bind_eq. unfold liftO at 1.
  rewrite M_bind_eq. unfold get at 1. cbn [ud_uploadId ud_offset ud_chunk]. rewrite Hg, Z.eqb_refl.
  cbn [negb]. rewrite M_bind_eq. unfold modify at 1. by rewrite reply_up.
Qed.

Lemma handle_chunks rid id cs : forall (s : serving) got,
  up (link s) -> pendingData s !! id = Some got -> fits id -> Forall fits cs ->
  zlen got + zlen (concat cs) <= max_object ->
  exists s', handle_all (data_frames rid id (zlen got) cs) s = (Ok tt, s')
    /\ pendingData s' = <[id := got ++ concat cs]> (pendingData s)
    /\ world s' = world s /\ pendingInit s' = pendingInit s /\ connToken s' = connToken s
    /\ up (link s')
    /\ sent (link s') = sent (link s) ++ replicate (length cs) (MkFrame MsgType.UPLOAD_DATA rid "ok").
Proof.
  induction cs as [|c cs IH]; intros s got Hs Hg Hi Hcs Hmax.
  { exists s. rewrite !app_nil_r. split; [done|]. rewrite insert_id by done. by split_and!. }
  cbn [concat length replicate data_frames handle_all] in *. rewrite zlen_app in Hmax.
  pose proof (zlen_nonneg (concat cs)). pose proof (zlen_nonneg c). pose proof (zlen_nonneg got).
  apply list.Forall_cons in Hcs as [Hc Hcs].
  rewrite (M_bind_run _ _ s _ _ (handle_chunk rid id c s got Hs Hg Hi Hc ltac:(unfold max_object in *; lia))).
  match goal with |- exists _, handle_all _ ?x = _ /\ _ => set (s1 := x) end.
  destruct (IH s1 (got ++ c)) as (s' & E & Ed & Ew & Ei & Et & Hu & El).
  - exact Hs.
  - apply lookup_insert_eq.
  - exact Hi.
  - exact Hcs.
  - rewrite zlen_app. lia.
  - exists s'. rewrite <- zlen_app. split; [exact E|]. rewrite Ed. unfold s1.
    cbn [pendingData set_link set_pendingData]. rewrite insert_insert_eq, <- app_assoc.
    split; [done|]. split; [exact Ew|]. split; [exact Ei|]. split; [exact Et|]. split; [exact Hu|].
    rewrite El. unfold s1, add_sent. cbn [link set_link sent]. by rewrite <- app_assoc.
Qed.

(** The commit hands the assembled file to the service. *)
Lemma handle_commit rid id init data (s : serving) t w' :
  up (link s) -> id <> [] -> zlen id + 4 < 2 ^ 32 ->
  pendingInit s !! id = Some init -> pendingData s !! id = Some data -> connToken s <> [] ->
  isValid (MkSessionId (connToken s)) (time (core (world s))) (sessions (core (world s))) = Ok true ->
  TransferService.upload TransferService.full_wiring (MkSessionId (connToken s))
    (ui_recipient init) (ui_origName init) data (ui_uploadId init) (ui_size init)
    (ui_digest init) (ui_wrapped init) (TransferService.ticked (world s)) = (Ok (success t), w') ->
  exists s', handle (commit_frame rid id) s = (Ok tt, s') /\ world s' = w'
    /\ pendingInit s' = delete id (pendingInit s) /\ pendingData s' = delete id (pendingData s)
    /\ sent (link s') = sent (link s) ++ [MkFrame MsgType.UPLOAD_COMMIT rid (tid_value (t_id t))].
Proof.
  intros Hs Hid Hl Hin Hda Htok Hv Hup. unfold handle. cbn [f_type commit_frame].
  match goal with |- exists s', ?m s = _ /\ _ =>
    change m with (on_upload_commit (commit_frame rid id) : M serving unit) end.
  unfold on_upload_commit, or_err, try_catch. cbn [f_body commit_frame requestId].
  rewrite (commit_names id Hid Hl). rewrite M_bind_eq. unfold liftO at 1.
  rewrite M_bind_eq. unfold get at 1. cbv zeta.
  assert ((match id, map_to_list (pendingInit s) with [], [(k, _)] => k | _, _ => id end) = id)
    as -> by (by destruct id).
  rewrite Hin, Hda, bool_decide_eq_false_2 by done.
  rewrite M_bind_eq. rewrite M_bind_eq. unfold on_world at 1, zoom at 1, on_core at 1, zoom at 1,
    on_clock at 1, zoom at 1, nowMs at 1. unfold on_world at 1, zoom at 1, on_core at 1, zoom at 1.
  unfold from_sessions at 1, reads at 1. cbn [world set_world core set_core sessions set_clock].
  change (clk_reading _ _) with (time (core (world s))). rewrite Hv. cbn [negb].
  rewrite M_bind_eq. unfold on_world at 1, zoom at 1. cbn [world set_world].
  match goal with |- context [TransferService.upload _ _ _ _ _ _ _ _ _ ?x] =>
    change x with (TransferService.ticked (world s)) end.
  rewrite Hup. cbn [ok success negb value]. rewrite M_bind_eq.
  rewrite (reply_up (set_world w' _)) by exact Hs.
  eexists. split; [reflexivity|]. by split_and!.
Qed.

(** C13: Chunked uploads are exact: when a client has announced an upload and the
    server accepted it, the data frames with the running offsets followed by the
    commit make the service upload exactly the concatenation of the chunks, under
    the announced name, recipient, digest and key; every chunk is acknowledged,
    the commit is answered with the transfer's identifier, and nothing of the
    upload stays pending. *)
Theorem wire_upload_exact rid id cs init (s : serving) t w' :
  up (link s) -> id <> [] -> zlen id + 4 < 2 ^ 32 -> Forall fits cs -> zlen (concat cs) <= max_object ->
  pendingInit s !! id = Some init -> pendingData s !! id = Some [] -> connToken s <> [] ->
  isValid (MkSessionId (connToken s)) (time (core (world s))) (sessions (core (world s))) = Ok true ->
  TransferService.upload TransferService.full_wiring (MkSessionId (connToken s))
    (ui_recipient init) (ui_origName init) (concat cs) (ui_uploadId init) (ui_size init)
    (ui_digest init) (ui_wrapped init) (TransferService.ticked (world s)) = (Ok (success t), w') ->
  exists s', handle_all (data_frames rid id 0 cs ++ [commit_frame rid id]) s = (Ok tt, s')
    /\ world s' = w' /\ pendingInit s' = delete id (pendingInit s)
    /\ pendingData s' = delete id (pendingData s)
    /\ sent (link s') = sent (link s) ++ replicate (length cs) (MkFrame MsgType.UPLOAD_DATA rid "ok")
                        ++ [MkFrame MsgType.UPLOAD_COMMIT rid (tid_value (t_id t))].
Proof.
  intros Hs Hid Hl Hcs Hmax Hin Hda Htok Hv Hup.
  assert (fits id) as Hfi by (unfold fits; lia).
  destruct (handle_chunks rid id cs s [] Hs Hda Hfi Hcs Hmax)
    as (s1 & E1 & Ed & Ew & Ei & Et & Hu & El).
  destruct (handle_commit rid id init (concat cs) s1 t w' Hu Hid Hl) as (s' & E & Hw & Hi' & Hd' & Hsent).
  - by rewrite Ei.
  - rewrite Ed. apply lookup_insert_eq.
  - by rewrite Et.
  - by rewrite Et, Ew.
  - by rewrite Et, Ew.
  - exists s'. rewrite handle_all_app. change (zlen []) with 0 in E1.
    rewrite (M_bind_run _ _ s _ _ E1). cbn [handle_all]. rewrite (M_bind_run _ _ s1 _ _ E).
    split; [done|]. split; [exact Hw|]. rewrite Hi', Hd', Ei, Ed, Hsent, El, <- app_assoc.
    by rewrite delete_insert_eq.
Qed.

End WireUpload.

End ServerApp.
