(* ===== verification/Isolation.v ===== *)
(** * A connection has only what it was given

    The locals of the accept loop's body are fresh for every connection, and the
    handlers change them only for an upload that is announced, a login that is
    accepted and a logout. So whatever was served before, a connection writes to
    the stores only as the user it logged in itself. Nothing is assumed of the
    components. *)
From S2P Require Import Prelude Domain Framing Protocol Ports Cli Auth Admin Transfer Server.
From Stdlib Require Import ZArith Lia.
From stdpp Require Import base gmap strings list numbers relations.
Local Open Scope Z_scope.

Import ServerApp.

Section Isolation.
Context {R H S A St K F T : Type}.
Context `{!IUserRepository R, !IPasswordHasher H, !ISessionStore S, !IAuditLogger A, !IStorage St,
          !IKeyDirectory K, !IFileRepository F, !ITransferRepository T, !IFileValidator}.
Local Abbreviation W := (World R H S A St K F T).
Local Abbreviation serving := (Serving (World R H S A St K F T)).

(** The blobs, keys, records and transfers. *)
Definition stores (w : W) : St * K * F * T := (storage w, keys w, files w, transfers w).
Definition kept (s : serving) : St * K * F * T := stores (world s).

(** The token [AuthService::login] gives for the frame, if it accepts it. *)
Definition granted (f : Frame) (s : serving) : option str :=
  if bool_decide (f_type f = MsgType.AUTH) then
    match decodeLogin (f_body f) with
    | Ok pl =>
        match (AuthService.login (lp_username pl) (lp_password pl) (core (world s))).1 with
        | Ok res => sid_value <$> result_get res
        | _ => None
        end
    | _ => None
    end
  else None.

(** The token that [AuthService::logout] ends for the frame. *)
Definition revoked (f : Frame) (s : serving) : option str :=
  if bool_decide (f_type f = MsgType.LOGOUT) then
    match (AuthService.logout (MkSessionId (f_body f)) (core (world s))).1 with
    | Ok true => Some (f_body f)
    | _ => None
    end
  else None.

(** The frame announces the upload [i]. *)
Definition announces (f : Frame) (i : UploadInit) : Prop :=
  f_type f = MsgType.UPLOAD_INIT /\ decodeUploadInit (f_body f) = Ok i.

(** ** The stores *)
Lemma on_core_kept {X} (m : M (Core R H S A) X) : steps (same kept) (on_world (on_core m)).
Proof. intros s. unfold on_world, on_core, zoom, same. by destruct (m (core (world s))). Qed.

Lemma download_stores p tok fid : steps (same stores) (TransferService.download p tok fid).
Proof.
  assert (forall X (m : M (Core R H S A) X), steps (same stores) (on_core m)) as Hcore.
  { intros X m w. unfold on_core, zoom, same. by destruct (m (core w)). }
  unfold TransferService.download, TransferService.valid_session, TransferService.log_event,
    from_files, from_storage. steps_auto.
Qed.
Lemma download_kept p tok fid : steps (same kept) (on_world (TransferService.download p tok fid)).
Proof. apply (steps_zoom _ (same stores)); [apply download_stores|]. done. Qed.

Lemma reply_kept ty rid body : steps (same kept) (reply ty rid body).
Proof. by apply (steps_zoom _ _ _ _ _ (steps_any _)). Qed.
Lemma say_kept msg : steps (same kept) (say msg).
Proof. by apply (steps_zoom _ _ _ _ _ (steps_any _)). Qed.
Lemma get_same {X} (g : serving -> X) : steps (same g) get.
Proof. done. Qed.
Lemma modify_same {X} (g : serving -> X) (h : serving -> serving) :
  (forall s, g (h s) = g s) -> steps (same g) (modify h).
Proof. intros Hh s. apply Hh. Qed.

#[local] Hint Resolve on_core_kept download_kept reply_kept say_kept get_same : steps.
#[local] Hint Extern 1 (steps _ (modify _)) => (apply modify_same; done) : steps.

Lemma handle_kept f : f_type f <> MsgType.UPLOAD_COMMIT -> steps (same kept) (handle f).
Proof.
  intros Hne. unfold handle, on_register, on_auth, on_logout, on_admin, on_upload_init, on_upload_data,
    on_download_req, or_err. cbv zeta. rewrite (bool_decide_eq_false_2 _ Hne).
  steps_auto.
Qed.

(** ** The token *)
Lemma on_world_token {X} (m : M W X) : steps (same connToken) (on_world m).
Proof. intros s. unfold on_world, zoom, same. by destruct (m (world s)). Qed.
Lemma reply_token ty rid body : steps (same (connToken (W:=W))) (reply ty rid body).
Proof. by apply (steps_zoom _ _ _ _ _ (steps_any _)). Qed.
Lemma say_token msg : steps (same (connToken (W:=W))) (say msg).
Proof. by apply (steps_zoom _ _ _ _ _ (steps_any _)). Qed.
#[local] Hint Resolve on_world_token reply_token say_token : steps.

Lemma handle_token f : f_type f <> MsgType.AUTH -> f_type f <> MsgType.LOGOUT ->
  steps (same connToken) (handle f).
Proof.
  intros H1 H2. unfold handle, on_register, on_admin, on_upload_init, on_upload_data, on_upload_commit,
    on_download_req, or_err. cbv zeta. rewrite (bool_decide_eq_false_2 _ H1), (bool_decide_eq_false_2 _ H2).
  steps_auto.
Qed.

(** The reply to a failure leaves the token. *)
Lemma or_err_token f (m : M serving unit) s : connToken (or_err f m s).2 = connToken (m s).2.
Proof. unfold or_err, try_catch. destruct (m s) as [[x|e|] s1]; [done|apply reply_token|done]. Qed.

Lemma on_auth_token f s : f_type f = MsgType.AUTH ->
  connToken (on_auth f s).2 = default (connToken s) (granted f s).
Proof.
  intros Ht. unfold granted, on_auth. rewrite bool_decide_eq_true_2, or_err_token by done.
  rewrite M_bind_eq. unfold liftO. destruct (decodeLogin (f_body f)) as [pl|e|]; [|done..].
  rewrite M_bind_eq. unfold on_world at 1, on_core at 1. unfold zoom at 1 2.
  destruct (AuthService.login _ _ (core (world s))) as [[res|e|] c]; [|done..].
  cbv zeta. cbn [fst]. set (body := fun b => _ ← reply _ (requestId f) b; say _ : M serving unit).
  assert (forall b, steps (same connToken) (body b)) as Hb by (intros; unfold body; steps_auto).
  rewrite M_bind_eq. by destruct (result_get res) as [tok|]; apply Hb.
Qed.

Lemma say_run msg (s : serving) : exists s', say msg s = (Ok tt, s') /\ connToken s' = connToken s.
Proof. by eexists. Qed.

Lemma on_logout_token f s s' : f_type f = MsgType.LOGOUT -> on_logout f s = (Ok tt, s') ->
  connToken s' = if bool_decide (revoked f s = Some (connToken s)) then [] else connToken s.
Proof.
  intros Ht. unfold revoked, on_logout. rewrite (bool_decide_eq_true_2 _ Ht), M_bind_eq.
  unfold on_world at 1, on_core at 1. unfold zoom at 1 2.
  destruct (AuthService.logout _ (core (world s))) as [[b|e|] c]; [|done..].
  set (s1 := set_world _ s). cbv zeta. cbn [fst]. rewrite M_bind_eq.
  pose proof (reply_token (if b then MsgType.LOGOUT else MsgType.ERR) (requestId f)
    (if b then formatSafeAuthMessage AuditAction.LOGOUT [] else "Logout failed") s1) as Hr.
  destruct (reply _ _ _ s1) as [[[]|e|] s2]; [|done..]. rewrite M_bind_eq.
  unfold same in Hr. cbn in Hr. destruct (say_run (if b then formatSafeAuthMessage AuditAction.LOGOUT [] else "Logout failed") s2) as (s3 & Es & Hs3).
  rewrite Es. clear Es.
  rewrite M_bind_eq. unfold get, when, modify. rewrite Hs3, Hr. destruct b; cbn [andb]; cycle 1.
  { intros [= <-]. rewrite bool_decide_eq_false_2 by done. congruence. }
  case_bool_decide as E; intros [= <-].
  - by rewrite bool_decide_eq_true_2 by congruence.
  - rewrite bool_decide_eq_false_2 by congruence. congruence.
Qed.

(** ** The announced uploads *)

(** Between two states no upload is pending that was not, but for one that [f]
    announces. *)
Definition opened (f : Frame) : relation serving := fun s s' => forall k,
  (forall i, pendingInit s' !! k = Some i ->
     pendingInit s !! k = Some i \/ announces f i /\ ui_uploadId i = k)
  /\ (is_Some (pendingData s' !! k) ->
     is_Some (pendingData s !! k) \/ exists i, announces f i /\ ui_uploadId i = k).
#[export] Instance opened_preorder f : PreOrder (opened f).
Proof.
  split; [intros s k; auto|]. intros s t u E G k. destruct (E k) as [E1 E2], (G k) as [G1 G2].
  split; [intros i Hi; destruct (G1 i Hi); auto|intros Hi; destruct (G2 Hi); auto].
Qed.

Definition pending (s : serving) : gmap str UploadInit * gmap str str := (pendingInit s, pendingData s).
Lemma opened_same {X} f (m : M serving X) : steps (same pending) m -> steps (opened f) m.
Proof. intros Hm s k. specialize (Hm s). injection Hm as -> ->. auto. Qed.

Lemma on_world_opened f {X} (m : M W X) : steps (opened f) (on_world m).
Proof. apply opened_same. intros s. unfold on_world, zoom, same. by destruct (m (world s)). Qed.
Lemma reply_opened f ty rid body : steps (opened f) (reply ty rid body).
Proof. apply opened_same. by apply (steps_zoom _ _ _ _ _ (steps_any _)). Qed.
Lemma say_opened f msg : steps (opened f) (say msg).
Proof. apply opened_same. by apply (steps_zoom _ _ _ _ _ (steps_any _)). Qed.
Lemma get_opened f : steps (opened f) get.
Proof. by apply opened_same. Qed.
Lemma token_opened f t : steps (opened f) (modify (set_connToken t)).
Proof. by apply opened_same. Qed.

Lemma init_opened f i : announces f i ->
  steps (opened f) (modify (fun s => set_pendingInit (<[ui_uploadId i := i]> (pendingInit s)) s)).
Proof.
  intros Hf s k. split; [|auto]. intros j. cbn. rewrite lookup_insert_Some.
  intros [[<- ->]|[_ Hj]]; [by right|by left].
Qed.
Lemma data_opened f i : announces f i ->
  steps (opened f) (modify (fun s => set_pendingData (<[ui_uploadId i := []]> (pendingData s)) s)).
Proof.
  intros Hf s k. split; [auto|]. cbn. rewrite lookup_insert_is_Some.
  intros [<-|[_ Hj]]; [right; by exists i|by left].
Qed.
Lemma delete_init_opened f k :
  steps (opened f) (modify (fun s => set_pendingInit (delete k (pendingInit s)) s)).
Proof. intros s j. split; [|auto]. intros i. cbn. rewrite lookup_delete_Some. intros [_ ?]. by left. Qed.
Lemma delete_data_opened f k :
  steps (opened f) (modify (fun s => set_pendingData (delete k (pendingData s)) s)).
Proof. intros s j. split; [auto|]. cbn. rewrite lookup_delete_is_Some. intros [_ ?]. by left. Qed.
#[local] Hint Resolve on_world_opened reply_opened say_opened get_opened token_opened init_opened data_opened
  delete_init_opened delete_data_opened : steps.

Lemma or_err_opened f (m : M serving unit) s : opened f s (m s).2 -> opened f s (or_err f m s).2.
Proof.
  unfold or_err, try_catch. destruct (m s) as [[x|e|] s1]; [done| |done]. cbn [snd].
  intros Hm. etrans; [exact Hm|apply reply_opened].
Qed.

Lemma on_upload_init_opened f : f_type f = MsgType.UPLOAD_INIT -> steps (opened f) (on_upload_init f).
Proof.
  intros Ht s. apply or_err_opened. rewrite M_bind_eq. unfold liftO at 1.
  destruct (decodeUploadInit (f_body f)) as [i|e|] eqn:Ei; [|reflexivity..].
  assert (announces f i) as Ha by done.
  match goal with |- opened f s (?m s).2 => enough (steps (opened f) m) as Hm by apply Hm end.
  steps_auto.
Qed.

Lemma on_upload_data_opened f : steps (opened f) (on_upload_data f).
Proof.
  intros s. apply or_err_opened. rewrite M_bind_eq. unfold liftO at 1.
  destruct (decodeUploadData (f_body f)) as [d|e|]; [|reflexivity..].
  rewrite M_bind_eq. unfold get. destruct (pendingData s !! ud_uploadId d) as [got|] eqn:Eg; [|apply reply_opened].
  destruct (negb _); [apply reply_opened|]. rewrite M_bind_eq. unfold modify.
  etrans; [|apply reply_opened]. intros k. split; [auto|]. cbn. rewrite lookup_insert_is_Some.
  intros [<-|[_ Hk]]; left; [by rewrite Eg|done].
Qed.

Lemma handle_opened f : steps (opened f) (handle f).
Proof.
  unfold handle. cbv zeta.
  do 3 (case_bool_decide; [unfold on_register, on_auth, on_logout, or_err; steps_auto|]).
  destruct (bool_decide (f_type f = MsgType.ADMIN_ACTIVATE) || _); [unfold on_admin, or_err; steps_auto|].
  case_bool_decide; [by apply on_upload_init_opened|].
  case_bool_decide; [apply on_upload_data_opened|].
  case_bool_decide; [unfold on_upload_commit, or_err; steps_auto|].
  case_bool_decide; [unfold on_download_req, or_err; steps_auto|]. steps_auto.
Qed.

(** ** The write *)

(** The stores [TransferService::upload] leaves for the pending upload [i] with the
    bytes [d], called with the connection's token. *)
Definition uploaded (s : serving) (i : UploadInit) (d : str) : St * K * F * T :=
  stores (TransferService.upload TransferService.full_wiring (MkSessionId (connToken s)) (ui_recipient i)
    (ui_origName i) d (ui_uploadId i) (ui_size i) (ui_digest i) (ui_wrapped i)
    (TransferService.ticked (world s))).2.

(** An upload of the connection is stored, under its token, which is valid. *)
Definition commits (s : serving) (x : St * K * F * T) : Prop :=
  connToken s <> []
  /\ isValid (MkSessionId (connToken s)) (time (core (world s))) (sessions (core (world s))) = Ok true
  /\ exists k i d, pendingInit s !! k = Some i /\ pendingData s !! k = Some d /\ x = uploaded s i d.

Lemma or_err_kept f (m : M serving unit) s : kept (or_err f m s).2 = kept (m s).2.
Proof. unfold or_err, try_catch. destruct (m s) as [[x|e|] s1]; [done|apply reply_kept|done]. Qed.

(** The test of the session reads the clock, and nothing else happens. *)
Lemma session_test tok (s : serving) :
  (now ← on_world (on_core (on_clock nowMs)); on_world (on_core (from_sessions (isValid tok now)))) s
  = (isValid tok (time (core (world s))) (sessions (core (world s))),
     set_world (TransferService.ticked (world s)) s).
Proof. by destruct s as [[[] ????] ?????]. Qed.

Definition written (s : serving) (x : St * K * F * T) : Prop := x = kept s \/ commits s x.

Lemma on_upload_commit_written f s : written s (kept (on_upload_commit f s).2).
Proof.
  unfold on_upload_commit. rewrite or_err_kept, M_bind_eq. unfold liftO.
  destruct (commit_id (f_body f)) as [named|e|]; [|by left..].
  rewrite M_bind_eq. unfold get. cbv zeta. set (id := match named with [] => _ | _ => _ end).
  destruct (pendingInit s !! id) as [i|] eqn:Ei; [|left; apply reply_kept].
  destruct (pendingData s !! id) as [d|] eqn:Ed; [|left; apply reply_kept].
  case_bool_decide as Ht; [left; apply reply_kept|]. rewrite M_bind_eq, session_test.
  destruct (isValid _ _ _) as [[]|e|] eqn:Ev; cbn [negb]; [right|left..]; [|etrans; [apply reply_kept|done]|done..].
  split; [exact Ht|]. split; [exact Ev|]. exists id, i, d. split; [exact Ei|]. split; [exact Ed|].
  rewrite M_bind_eq. unfold uploaded, on_world at 1, zoom at 1. cbn [world set_world].
  destruct (TransferService.upload _ _ _ _ _ _ _ _ _ _) as [[res|e|] w']; [|done..].
  match goal with |- kept (?m ?s1).2 = _ => change (same kept s1 (m s1).2); generalize s1 end.
  match goal with |- forall s1, _ _ (?m s1).2 => change (steps (same kept) m) end. steps_auto.
Qed.

Lemma handle_written f s :
  kept (handle f s).2 = kept s
  \/ f_type f = MsgType.UPLOAD_COMMIT /\ commits s (kept (handle f s).2).
Proof.
  destruct (decide (f_type f = MsgType.UPLOAD_COMMIT)) as [Ht|Ht]; [|left; by apply handle_kept].
  assert (handle f = on_upload_commit f) as -> by (unfold handle; by rewrite Ht).
  destruct (on_upload_commit_written f s); auto.
Qed.

(** What a frame does to the token, when another follows it. *)
Definition next_token (f : Frame) (s : serving) : str :=
  match granted f s with
  | Some t => t
  | None => if bool_decide (revoked f s = Some (connToken s)) then [] else connToken s
  end.
Lemma handle_next_token f s s' : handle f s = (Ok tt, s') -> connToken s' = next_token f s.
Proof.
  intros E. unfold next_token. destruct (decide (f_type f = MsgType.AUTH)) as [Ht|Ha].
  - assert (handle f = on_auth f) as Eh by (unfold handle; by rewrite Ht).
    rewrite Eh in E. pose proof (on_auth_token f s Ht) as Et. rewrite E in Et. cbn in Et. rewrite Et.
    destruct (granted f s); [done|]. unfold revoked. by rewrite Ht.
  - unfold granted. rewrite (bool_decide_eq_false_2 _ Ha).
    destruct (decide (f_type f = MsgType.LOGOUT)) as [Ht|Hl].
    + assert (handle f = on_logout f) as Eh by (unfold handle; by rewrite Ht).
      rewrite Eh in E. by apply on_logout_token.
    + pose proof (handle_token f Ha Hl s) as Et. rewrite E in Et. unfold revoked.
      by rewrite (bool_decide_eq_false_2 _ Hl).
Qed.

(** ** A connection *)

(** The client [cl] is accepted when the host is [h]; the frames [fs] have been
    served, each in the state beside it, and the loop goes on from [c] and [s]. *)
Inductive served (cl : Client) (h : W * Console) : list (Frame * serving) -> Conn -> serving -> Prop :=
  | served_none : served cl h [] (accepted cl h).1 (accepted cl h).2
  | served_frame fs c s f c' s' : served cl h fs c s -> (tls_recvFrame c).1 = Ok (Some f) ->
      serve_frame c s = (Ok (Some c'), s') -> served cl h (fs ++ [(f, s)]) c' s'.

(** The token [tok] was given for a frame of [fs], and no frame after that was
    given another or ended it. *)
Definition logged_in_as (fs : list (Frame * serving)) (tok : str) : Prop :=
  exists fs1 f0 s0 fs2, fs = fs1 ++ (f0, s0) :: fs2 /\ granted f0 s0 = Some tok
  /\ Forall (fun x => granted x.1 x.2 = None /\ revoked x.1 x.2 <> Some tok) fs2.

Lemma served_token cl h fs c s : served cl h fs c s -> connToken s = [] \/ logged_in_as fs (connToken s).
Proof.
  induction 1 as [|fs c s f c' s' _ IH Er E]; [by left|].
  apply serve_frame_next in E as (f1 & Er1 & E). rewrite Er1 in Er. injection Er as ->.
  apply handle_next_token in E as ->. unfold next_token. destruct (granted f s) as [t|] eqn:Eg.
  { right. by exists fs, f, s, []. }
  case_bool_decide as Ev; [by left|]. destruct IH as [IH|(fs1 & f0 & s0 & fs2 & -> & Eg0 & Hf)]; [by left|].
  right. exists fs1, f0, s0, (fs2 ++ [(f, s)]). rewrite <- app_assoc. split; [done|]. split; [exact Eg0|].
  apply Forall_app. split; [exact Hf|]. by constructor.
Qed.

Lemma served_opened cl h fs c s k : served cl h fs c s ->
  (forall i, pendingInit s !! k = Some i ->
     exists f0 s0, (f0, s0) ∈ fs /\ announces f0 i /\ ui_uploadId i = k)
  /\ (is_Some (pendingData s !! k) ->
     exists f0 s0 i, (f0, s0) ∈ fs /\ announces f0 i /\ ui_uploadId i = k).
Proof.
  induction 1 as [|fs c s f c' s' _ [IH1 IH2] Er E].
  { cbn. rewrite !lookup_empty. split; [done|by intros [? ?]]. }
  apply serve_frame_next in E as (f1 & Er1 & E). rewrite Er1 in Er. injection Er as ->.
  pose proof (handle_opened f s k) as [H1 H2]. rewrite E in H1, H2. cbn [snd] in H1, H2.
  assert ((f, s) ∈ fs ++ [(f, s)]) as Hlast by (apply elem_of_app; right; by apply list_elem_of_singleton).
  split.
  - intros i [Hi|Hi]%H1; [|by exists f, s]. destruct (IH1 i Hi) as (f0 & s0 & Hin & G).
    exists f0, s0. split; [apply elem_of_app; by left|exact G].
  - intros [Hi|(i & Hi)]%H2; [|by exists f, s, i]. destruct (IH2 Hi) as (f0 & s0 & i & Hin & G).
    exists f0, s0, i. split; [apply elem_of_app; by left|exact G].
Qed.

(** C10: A connection has only what it was given: whoever connected before and
    whatever bytes the client sends, every upload that is pending and every buffer
    of bytes is of an upload announced on this connection; and a turn of the loop leaves the blobs, keys, records
    and transfers alone, unless it takes a commit and stores a pending upload
    under the token that the last login accepted on this connection was given,
    which is valid and which no request of the connection has ended. *)
Theorem writes_need_own_login cl h fs c s : served cl h fs c s ->
  (forall k,
     (forall i, pendingInit s !! k = Some i ->
        exists f0 s0, (f0, s0) ∈ fs /\ announces f0 i /\ ui_uploadId i = k)
     /\ (is_Some (pendingData s !! k) ->
        exists f0 s0 i, (f0, s0) ∈ fs /\ announces f0 i /\ ui_uploadId i = k))
  /\ (stores (world (serve_frame c s).2) = stores (world s)
      \/ (exists f, (tls_recvFrame c).1 = Ok (Some f) /\ f_type f = MsgType.UPLOAD_COMMIT)
         /\ commits s (stores (world (serve_frame c s).2)) /\ logged_in_as fs (connToken s)).
Proof.
  intros Hs. split; [intros k; by eapply served_opened|].
  unfold serve_frame. destruct (tls_recvFrame c) as [[[f|]|e|] c']; [|by left..].
  assert (((_ ← handle f; mret (Some c')) s).2 = (handle f s).2) as -> by (rewrite M_bind_eq; by destruct (handle f s) as [[]]).
  destruct (handle_written f s) as [Hk|[Ht Hc]]; [by left|right].
  split; [by exists f|]. split; [exact Hc|]. destruct (served_token _ _ _ _ _ Hs); [|done].
  by destruct Hc.
Qed.

End Isolation.
