(* ===== verification/Privilege.v ===== *)
(** * No request makes an administrator

    A property of the whole server: whatever frames arrive on whatever
    connections, the accounts with the administrator's role are among those
    there were. It composes through every handler and every service down to the
    repository's contract; nothing is assumed of the other components. *)
From S2P Require Import Prelude Domain Framing Protocol Ports Cli Auth Admin Transfer Server.
From Stdlib Require Import ZArith Lia.
From stdpp Require Import base gmap strings list numbers.
Local Open Scope Z_scope.

(** The accounts of [m'] with the administrator's role are accounts of [m] with
    that role. *)
Definition no_new_admin (m m' : gmap str (User * str)) : Prop :=
  forall k u h, m' !! k = Some (u, h) -> Domain.isAdmin u = true ->
    exists u0 h0, m !! k = Some (u0, h0) /\ Domain.isAdmin u0 = true.

#[export] Instance no_new_admin_preorder : PreOrder no_new_admin.
Proof.
  split; [intros m k u h Hk Ha; by exists u, h|].
  intros m m' m'' H1 H2 k u h Hk Ha. destruct (H2 k u h Hk Ha) as (u1 & h1 & Hk1 & Ha1).
  by apply (H1 k u1 h1).
Qed.

Lemma no_new_admin_insert m k u h :
  (Domain.isAdmin u = true -> exists u0 h0, m !! k = Some (u0, h0) /\ Domain.isAdmin u0 = true) ->
  no_new_admin m (<[k := (u, h)]> m).
Proof.
  intros Hu k' u' h'. rewrite lookup_insert_Some. intros [[<- [= <- <-]]|[_ Hk]] Ha; [by apply Hu|].
  by exists u', h'.
Qed.

Lemma no_new_admin_counters m m' : but_counters m m' -> no_new_admin m m'.
Proof.
  intros Hm k u h Hk Ha. destruct (Hm k u h Hk) as (u0 & Hk0 & E). exists u0, h.
  split; [exact Hk0|]. assert (role_ u = role_ u0) as Er by (injection E; congruence).
  unfold Domain.isAdmin in *. by rewrite <- Er.
Qed.

(** ** The services *)
Section Services.
Context {R H S A : Type} `{!IUserRepository R, !IPasswordHasher H, !ISessionStore S, !IAuditLogger A}.
Context `{!UserRepositoryLaws R}.
Local Abbreviation core := (Core R H S A).

(** The repository stays sound and gains no administrator. *)
Definition guarded (r r' : R) : Prop := ur_inv r -> ur_inv r' /\ no_new_admin (ur_model r) (ur_model r').

#[export] Instance guarded_preorder : PreOrder guarded.
Proof.
  split; [by intros r|]. intros r s t E F Hi. destruct (E Hi) as [Hs Hrs].
  destruct (F Hs) as [Ht Hst]. split; [exact Ht|]. by etrans.
Qed.

Definition core_guarded (c c' : core) : Prop := guarded (users c) (users c').
#[export] Instance core_guarded_preorder : PreOrder core_guarded.
Proof.
  split; [intros c; unfold core_guarded; reflexivity|].
  intros c d e E F. unfold core_guarded in *. by etrans.
Qed.

Lemma same_guarded {X} (m : M core X) : steps (same users) m -> steps core_guarded m.
Proof. intros Hm c. specialize (Hm c). unfold same, core_guarded in *. by rewrite Hm. Qed.

Lemma on_users_guarded {X} (m : M R X) : steps guarded m -> steps core_guarded (on_users m).
Proof. intros Hm. by apply (steps_zoom _ guarded). Qed.

Lemma counters_guarded id now :
  steps guarded (recordLoginFailure id now) /\ steps guarded (resetLoginFailures id).
Proof.
  split; intros r Hi; [destruct (ur_counters r id now _ (or_introl eq_refl) Hi) as [Hi' Hc]
                      |destruct (ur_counters r id now _ (or_intror eq_refl) Hi) as [Hi' Hc]];
    (split; [exact Hi'|by apply no_new_admin_counters]).
Qed.

Lemma save_guarded u h : user_ok u -> Domain.isAdmin u = false -> steps guarded (saveUser u h).
Proof.
  intros Hu Hr r Hi. destruct (ur_save r u h Hi Hu) as (o & r' & -> & Hi' & [(_ & _ & Em)|(_ & _ & Em)]);
    (split; [exact Hi'|]; cbn [snd]; rewrite Em); [reflexivity|].
  apply no_new_admin_insert. congruence.
Qed.

(** A computation that goes on with what it has read, or with what another one
    gave, knows where the value comes from. *)
Lemma steps_bind_at {B X Y} (Q : relation B) `{!PreOrder Q} (m : M B X) (g : X -> M B Y) :
  (forall s, match m s with
             | (Ok x, s1) => Q s s1 /\ Q s1 (g x s1).2
             | (_, s1) => Q s s1
             end) -> steps Q (m ≫= g).
Proof.
  intros Hm s. rewrite M_bind_eq. specialize (Hm s). destruct (m s) as [[x|e|] s1]; [|exact Hm..].
  destruct Hm as [H1 H2]. etrans; [exact H1|exact H2].
Qed.

Lemma audit_guarded e : steps core_guarded (audit_event e).
Proof. apply same_guarded. unfold audit_event. by apply on_audit_frame. Qed.
Lemma clock_guarded {X} (m : M Clock X) : steps core_guarded (on_clock m).
Proof. apply same_guarded. by apply on_clock_frame. Qed.
Lemma sessions_guarded {X} (m : M S X) : steps core_guarded (on_sessions m).
Proof. apply same_guarded. by apply on_sessions_frame. Qed.
Lemma sessions_rng_guarded {X} (m : M (S * Rng) X) : steps core_guarded (on_sessions_rng m).
Proof. apply same_guarded. by apply (steps_zoom _ _ _ _ _ (steps_any m)). Qed.
Lemma hasher_guarded {X} (m : M H X) : steps core_guarded (on_hasher m).
Proof. apply same_guarded. by apply (steps_zoom _ _ _ _ _ (steps_any m)). Qed.
Lemma rng_guarded {X} (m : M Rng X) : steps core_guarded (on_rng m).
Proof. apply same_guarded. by apply (steps_zoom _ _ _ _ _ (steps_any m)). Qed.
Lemma failure_guarded id now : steps core_guarded (on_users (recordLoginFailure id now)).
Proof. apply on_users_guarded, counters_guarded. Qed.
Lemma reset_guarded id : steps core_guarded (on_users (resetLoginFailures id)).
Proof. apply on_users_guarded, (counters_guarded id 0). Qed.

#[local] Hint Resolve audit_guarded clock_guarded sessions_guarded sessions_rng_guarded
  hasher_guarded rng_guarded failure_guarded reset_guarded : steps.

Lemma login_guarded u pw : steps core_guarded (AuthService.login u pw).
Proof.
  unfold AuthService.login, from_users, from_hasher.
  steps_auto.
Qed.

Lemma logout_guarded tok : steps core_guarded (AuthService.logout tok).
Proof. unfold AuthService.logout. steps_auto. Qed.

Lemma new_User_fields id u e r st f l nu :
  new_User id u e r st f l = Ok nu -> user_ok nu /\ role_ nu = r /\ username_ nu = u.
Proof.
  unfold new_User. repeat case_bool_decide; try discriminate. by intros [= <-].
Qed.

(** Registration changes the accounts by one [save], of an account with the name
    and the role it was given. *)
Lemma register_steps (Q : relation core) `{!PreOrder Q} u email pw role :
  (forall X (m : M core X), steps (same users) m -> steps Q m) ->
  (forall nu encoded, user_ok nu -> role_ nu = role -> username_ nu = u -> steps Q (on_users (saveUser nu encoded))) ->
  steps Q (AuthService.registerUser u email pw role).
Proof.
  intros Hsame Hsave. unfold AuthService.registerUser, from_users.
  assert (forall e, steps Q (audit_event e)) as Haudit.
  { intros e. apply Hsame. unfold audit_event. by apply on_audit_frame. }
  case_match; [apply steps_ret; apply _|].
  apply steps_bind; [apply _|steps_auto|intros byName].
  apply steps_bind; [apply _|steps_auto|intros [|]]; [steps_auto|].
  apply steps_bind; [apply _|apply Hsame; by apply (steps_zoom _ _ _ _ _ (steps_any _))|intros encoded].
  apply steps_bind; [apply _|apply Hsame; by apply (steps_zoom _ _ _ _ _ (steps_any _))|intros newId].
  apply steps_bind_at; [apply _|]. intros c. unfold liftO.
  destruct (new_User _ _ _ _ _ _ _) as [nu|e|] eqn:E; [|reflexivity..]. split; [reflexivity|].
  apply new_User_fields in E as (Hok & Hrole & Hname). specialize (Hsave nu encoded Hok Hrole Hname).
  match goal with |- Q c (?m c).2 => assert (steps Q m) as Hm; [|apply Hm] end.
  steps_auto.
Qed.

(** Registration with any role but the administrator's. *)
Lemma register_guarded u email pw role :
  role <> lit "admin" -> steps core_guarded (AuthService.registerUser u email pw role).
Proof.
  intros Hr. apply register_steps; [apply _|apply @same_guarded|]. intros nu encoded Hok Hrole _.
  apply on_users_guarded, save_guarded; [exact Hok|]. unfold Domain.isAdmin. rewrite Hrole.
  by apply bool_decide_eq_false_2.
Qed.

(** Between two states the accounts that came have the name [name]. *)
Definition core_adds (name : str) (c c' : core) : Prop := ur_inv (users c) -> ur_inv (users c')
  /\ forall k u h, table c' !! k = Some (u, h) -> table c !! k = Some (u, h) \/ username_ u = name.
#[export] Instance core_adds_preorder name : PreOrder (core_adds name).
Proof.
  split; [intros c Hi; split; [exact Hi|auto]|]. intros a b c E G Hi.
  destruct (E Hi) as [Hb Eb], (G (proj1 (E Hi))) as [Hc Gc]. split; [exact Hc|].
  intros k u h [Hk|Hu]%Gc; [by apply Eb|by right].
Qed.

Lemma same_adds name {X} (m : M core X) : steps (same users) m -> steps (core_adds name) m.
Proof.
  intros Hm c Hi. specialize (Hm c). unfold same, table in *. rewrite Hm. split; [exact Hi|auto].
Qed.

Lemma register_adds u email pw role : steps (core_adds u) (AuthService.registerUser u email pw role).
Proof.
  apply register_steps; [apply _|apply @same_adds|]. intros nu encoded Hok _ Hname c Hi. unfold on_users, zoom.
  destruct (ur_save (users c) nu encoded Hi Hok) as (o & r' & -> & Hi' & [(_ & _ & Em)|(_ & _ & Em)]);
    (split; [exact Hi'|]); unfold table; cbn [snd users set_users]; rewrite Em; [auto|].
  intros k u' h'. rewrite lookup_insert_Some. intros [[_ [= <- _]]|[_ Hk]]; auto.
Qed.

(** A change of status keeps the role. *)
Lemma status_guarded (st : str) tgt (c : core) u h :
  ur_inv (users c) -> ur_model (users c) !! uid_value tgt = Some (u, h) ->
  core_guarded c (on_users (update (setStatus st u)) c).2.
Proof.
  intros Hi Hk _. pose proof (tab_key _ (ur_table _ Hi) _ _ _ Hk) as Hid. rewrite <- Hid in Hk.
  destruct (ur_update (users c) (setStatus st u) u h Hi Hk eq_refl eq_refl) as (r' & E & Hi' & Hm).
  unfold on_users, zoom. rewrite E. split; [exact Hi'|]. cbn [snd users set_users]. rewrite Hm.
  apply no_new_admin_insert. intros Ha. exists u, h. by split.
Qed.

(** What is found under an identifier is the account of the table. *)
Lemma found_account (c : core) tgt :
  ur_inv (users c) -> exists r, findById tgt (users c) = Ok r
    /\ forall u, result_get r = Some u -> exists h, ur_model (users c) !! uid_value tgt = Some (u, h).
Proof.
  intros Hi. rewrite (ur_findById _ tgt Hi). eexists. split; [done|]. intros u.
  destruct (ur_model (users c) !! uid_value tgt) as [[v h]|]; [|discriminate].
  intros [= <-]. by exists h.
Qed.

Lemma guarded_if (c c' : core) : (ur_inv (users c) -> core_guarded c c') -> core_guarded c c'.
Proof. intros Hc Hi. by apply Hc. Qed.

Lemma bind_point {B X Y} (Q : relation B) `{!PreOrder Q} (m : M B X) (g : X -> M B Y) s :
  Q s (m s).2 -> (forall x, steps Q (g x)) -> Q s ((m ≫= g) s).2.
Proof.
  intros Hm Hg. rewrite M_bind_eq. destruct (m s) as [[x|e|] s1]; [|exact Hm..].
  etrans; [exact Hm|apply Hg].
Qed.

Lemma activate_user_guarded adminId tgt : steps core_guarded (AdminService.activate_user adminId tgt).
Proof.
  intros c. apply guarded_if. intros Hi. destruct (found_account c tgt Hi) as (r & Er & Hr).
  unfold AdminService.activate_user, from_users. rewrite M_bind_eq. unfold reads. rewrite Er.
  destruct (result_get r) as [u|]; [|reflexivity]. destruct (Hr u eq_refl) as [h Hk].
  apply bind_point; [apply _|by eapply status_guarded|]. intros _. steps_auto.
Qed.

Lemma deactivate_user_guarded adminId tgt : steps core_guarded (AdminService.deactivate_user adminId tgt).
Proof.
  intros c. apply guarded_if. intros Hi. destruct (found_account c tgt Hi) as (r & Er & Hr).
  unfold AdminService.deactivate_user, from_users. rewrite M_bind_eq. unfold reads at 1. rewrite Er.
  destruct (result_get r) as [u|]; [|reflexivity]. destruct (Hr u eq_refl) as [h Hk].
  rewrite M_bind_eq.
  match goal with |- context [match ?m c with _ => _ end] =>
    assert (exists o, m c = (o, c)) as [o ->] end.
  { destruct (_ && _); [|by eexists]. unfold AdminService.countActiveAdmins, from_users, reads.
    rewrite !M_bind_eq. destruct (listAll (users c)); by eexists. }
  destruct o as [[|]|e|]; [reflexivity| |reflexivity..].
  apply bind_point; [apply _|by eapply status_guarded|]. intros _. steps_auto.
Qed.

Lemma admin_check_guarded tok : steps core_guarded (AdminService.isAdminSession tok).
Proof. apply same_guarded. by apply AdminService.isAdminSession_frame. Qed.

Lemma activate_guarded tok tgt : steps core_guarded (AdminService.activate tok tgt).
Proof.
  unfold AdminService.activate. apply steps_bind; [apply _|apply admin_check_guarded|intros [a|]].
  - apply activate_user_guarded.
  - steps_auto.
Qed.

Lemma deactivate_guarded tok tgt : steps core_guarded (AdminService.deactivate tok tgt).
Proof.
  unfold AdminService.deactivate. apply steps_bind; [apply _|apply admin_check_guarded|intros [a|]].
  - apply deactivate_user_guarded.
  - steps_auto.
Qed.

End Services.

(** ** The server *)
Section Server.
Import ServerApp.
Context {R H S A St K F T : Type}.
Context `{!IUserRepository R, !IPasswordHasher H, !ISessionStore S, !IAuditLogger A, !IStorage St,
          !IKeyDirectory K, !IFileRepository F, !ITransferRepository T, !IFileValidator}.
Context `{!UserRepositoryLaws R}.
Local Abbreviation world := (World R H S A St K F T).
Local Abbreviation serving := (ServerApp.Serving (World R H S A St K F T)).
Definition world_guarded (w w' : world) : Prop := core_guarded (core w) (core w').
#[export] Instance world_guarded_preorder : PreOrder world_guarded.
Proof.
  split; [intros w; unfold world_guarded; reflexivity|].
  intros w v u E G. unfold world_guarded in *. by etrans.
Qed.

Definition serving_guarded (s s' : serving) : Prop := world_guarded (ServerApp.world s) (ServerApp.world s').
#[export] Instance serving_guarded_preorder : PreOrder serving_guarded.
Proof.
  split; [intros w; unfold serving_guarded; reflexivity|].
  intros w v u E G. unfold serving_guarded in *. by etrans.
Qed.

Lemma on_core_guarded {X} (m : M (Core R H S A) X) :
  steps core_guarded m -> steps world_guarded (on_core m).
Proof. intros Hm. by apply (steps_zoom _ core_guarded). Qed.
Lemma on_world_guarded {X} (m : M world X) :
  steps world_guarded m -> steps serving_guarded (on_world m).
Proof. intros Hm. by apply (steps_zoom _ world_guarded). Qed.

Lemma from_sessions_guarded {X} (f : S -> outcome X) :
  steps world_guarded (on_core (from_sessions (R:=R) (H:=H) (A:=A) f)).
Proof. apply on_core_guarded. unfold from_sessions. steps_auto. Qed.
Lemma from_users_guarded {X} (f : R -> outcome X) :
  steps world_guarded (on_core (from_users (H:=H) (S:=S) (A:=A) f)).
Proof. apply on_core_guarded. unfold from_users. steps_auto. Qed.
Lemma world_clock_guarded {X} (m : M Clock X) : steps world_guarded (on_core (on_clock m)).
Proof. apply on_core_guarded, clock_guarded. Qed.
Lemma world_rng_guarded {X} (m : M Rng X) : steps world_guarded (on_core (on_rng m)).
Proof. apply on_core_guarded, rng_guarded. Qed.
Lemma world_audit_guarded e : steps world_guarded (on_core (audit_event e)).
Proof. apply on_core_guarded, audit_guarded. Qed.

(** What works on a part of the world beside the core. *)
Lemma beside_core {X} (m : M world X) : steps (same core) m -> steps world_guarded m.
Proof.
  intros Hm w. specialize (Hm w). unfold same, world_guarded in *. by rewrite Hm.
Qed.
Lemma on_storage_guarded {X} (m : M St X) : steps world_guarded (on_storage m).
Proof. apply beside_core. by apply (steps_zoom _ _ _ _ _ (steps_any m)). Qed.
Lemma on_files_guarded {X} (m : M F X) : steps world_guarded (on_files m).
Proof. apply beside_core. by apply (steps_zoom _ _ _ _ _ (steps_any m)). Qed.
Lemma on_transfers_guarded {X} (m : M T X) : steps world_guarded (on_transfers m).
Proof. apply beside_core. by apply (steps_zoom _ _ _ _ _ (steps_any m)). Qed.

#[local] Hint Resolve from_sessions_guarded from_users_guarded world_clock_guarded world_rng_guarded
  world_audit_guarded on_storage_guarded on_files_guarded on_transfers_guarded : steps.

Lemma upload_guarded p tok rn name op up sz dg wk :
  steps world_guarded (TransferService.upload p tok rn name op up sz dg wk).
Proof.
  unfold TransferService.upload, TransferService.admit_upload, TransferService.store_upload,
    TransferService.save_record, TransferService.valid_session, TransferService.log_event,
    from_keys, from_files.
  steps_auto.
Qed.

Lemma download_guarded p tok fid : steps world_guarded (TransferService.download p tok fid).
Proof.
  unfold TransferService.download, TransferService.valid_session, TransferService.log_event,
    from_files, from_storage.
  steps_auto.
Qed.

Lemma local_guarded {X} (m : M serving X) :
  steps (same ServerApp.world) m -> steps serving_guarded m.
Proof. intros Hm s. specialize (Hm s). unfold same, serving_guarded in *. by rewrite Hm. Qed.
Lemma reply_guarded ty rid body : steps serving_guarded (reply ty rid body).
Proof. apply local_guarded. by apply (steps_zoom _ _ _ _ _ (steps_any _)). Qed.
Lemma say_guarded msg : steps serving_guarded (say msg).
Proof. by apply local_guarded. Qed.
Lemma get_guarded : steps serving_guarded get.
Proof. intros s. reflexivity. Qed.
Lemma modify_guarded (g : serving -> serving) :
  (forall s, ServerApp.world (g s) = ServerApp.world s) -> steps serving_guarded (modify g).
Proof. intros Hg. apply local_guarded. intros s. apply Hg. Qed.

#[local] Hint Resolve reply_guarded say_guarded get_guarded on_world_guarded on_core_guarded login_guarded
  logout_guarded activate_guarded deactivate_guarded upload_guarded download_guarded : steps.
#[local] Hint Extern 1 (steps _ (modify _)) => (apply modify_guarded; done) : steps.

Lemma handle_guarded f : steps serving_guarded (handle f).
Proof.
  unfold handle, on_register, on_auth, on_logout, on_admin, on_upload_init, on_upload_data,
    on_upload_commit, on_download_req, or_err. cbv zeta.
  assert (forall u e pw, steps serving_guarded
    (on_world (on_core (AuthService.registerUser u e pw (lit "user"))))) as Hreg.
  { intros. by apply on_world_guarded, on_core_guarded, register_guarded. }
  steps_auto.
Qed.

Lemma serve_frame_guarded c : steps serving_guarded (serve_frame c).
Proof.
  pose proof handle_guarded. unfold serve_frame.
  destruct (tls_recvFrame c) as [[[f|]|e|] c']; steps_auto.
Qed.

Lemma serve_guarded fuel : forall c, steps serving_guarded (serve fuel c).
Proof. pose proof serve_frame_guarded. induction fuel as [|n IH]; intros c; cbn [serve]; steps_auto. Qed.

Definition host_guarded (a b : world * Console) : Prop := world_guarded a.1 b.1.
#[export] Instance host_guarded_preorder : PreOrder host_guarded.
Proof. split; [intros a; unfold host_guarded; reflexivity|intros a b c E G; unfold host_guarded in *; by etrans]. Qed.

Lemma host_console_guarded {X} (m : M Console X) : steps host_guarded (host_console m).
Proof.
  apply (steps_zoom _ (fun _ _ => True)); [by intros ?|]. intros [w c] c' _. unfold host_guarded. reflexivity.
Qed.
Lemma host_world_guarded {X} (m : M world X) : steps world_guarded m -> steps host_guarded (host_world m).
Proof. intros Hm. by apply (steps_zoom _ world_guarded). Qed.
#[local] Hint Resolve host_console_guarded host_world_guarded : steps.

Lemma accept_guarded cls : steps host_guarded (accept_loop cls).
Proof.
  induction cls as [|cl cls IH]; cbn [accept_loop]; [apply steps_ret; exact _|].
  apply steps_bind; [exact _| |intros _; exact IH]. intros a. unfold accept_one, host_guarded.
  destruct cl as [cl|]; [|reflexivity]. unfold accepted.
  match goal with |- context [serve ?n ?c ?s] => pose proof (serve_guarded n c s) as Hs;
    destruct (serve n c s) as [[x|e|] s'] end; exact Hs.
Qed.

(** With an account there is no first administrator to ask for. *)
Lemma bootstrap_idle (h : world * Console) : ur_inv (users (core h.1)) -> table (core h.1) <> ∅ ->
  bootstrap h = (Ok tt, h).
Proof.
  intros Hi Ht. destruct h as [w c]. destruct (ur_listAll _ Hi) as (l & El & Hl).
  assert (l <> []) as Hne.
  { intros ->. apply Permutation_nil_l in Hl. symmetry in Hl. apply map_eq_nil, map_to_list_empty_iff in Hl. done. }
  unfold bootstrap, host_world, on_core, from_users, zoom. mred. cbn in El |- *. rewrite El. cbn.
  rewrite bool_decide_false by done. cbn. by destruct w as [[]].
Qed.

(** What the server does before it looks at its accounts. *)
Lemma sweep_core (sweep : M St Z) :
  steps (same (fun h : world * Console => core h.1))
    (try_catch (_ ← host_world (on_storage sweep); mret tt) (fun _ => mret tt)).
Proof.
  apply steps_try; [exact _| |intros e; apply steps_ret; exact _].
  apply steps_bind; [exact _| |intros _; apply steps_ret; exact _].
  apply (steps_zoom _ (same core)); [|done]. by apply (steps_zoom _ _ _ _ _ (steps_any sweep)).
Qed.

Lemma sweep_cin (sweep : M St Z) :
  steps (same (fun h : world * Console => cin h.2))
    (try_catch (_ ← host_world (on_storage sweep); mret tt) (fun _ => mret tt)).
Proof.
  apply steps_try; [exact _| |intros e; apply steps_ret; exact _].
  apply steps_bind; [exact _| |intros _; apply steps_ret; exact _].
  by apply (steps_zoom _ _ _ _ _ (steps_any _)).
Qed.

Definition host_adds (name : str) (a b : world * Console) : Prop := core_adds name (core a.1) (core b.1).
#[export] Instance host_adds_preorder name : PreOrder (host_adds name).
Proof. split; [intros a; unfold host_adds; reflexivity|intros a b c E G; unfold host_adds in *; by etrans]. Qed.

Lemma console_adds name {X} (m : M Console X) : steps (host_adds name) (host_console m).
Proof.
  apply (steps_zoom _ (fun _ _ => True)); [by intros ?|]. intros [w c] c' _. unfold host_adds. reflexivity.
Qed.
Lemma host_core_adds name {X} (m : M (Core R H S A) X) :
  steps (core_adds name) m -> steps (host_adds name) (host_world (on_core m)).
Proof.
  intros Hm. apply (steps_zoom _ (fun w w' : world => core_adds name (core w) (core w'))); [|done].
  by apply (steps_zoom _ (core_adds name)).
Qed.

(** The name the operator types first. *)
Definition typed_name (c : Console) : str := hd [] (cin c).

Lemma host_print x (h : world * Console) :
  host_console (print x) h = (Ok tt, (h.1, MkConsole (cin h.2) (cout h.2 ++ x))).
Proof. done. Qed.
Lemma host_getline (h : world * Console) :
  host_console getline h = (Ok (typed_name h.2), (h.1, MkConsole (tl (cin h.2)) (cout h.2))).
Proof. by destruct h as [w [[|l ls] o]]. Qed.

Lemma bootstrap_adds (h : world * Console) : host_adds (typed_name h.2) h (bootstrap h).2.
Proof.
  destruct h as [[[us ha se au cl rn] st ke fi tr] c]. unfold bootstrap. rewrite M_bind_eq.
  unfold host_world at 1, on_core at 1, from_users at 1. unfold zoom at 1 2. unfold reads. cbn [fst snd users core].
  destruct (listAll us) as [l|e|]; cbn [fst snd set_core storage keys files transfers]; try reflexivity.
  destruct (bool_decide (l = [])); cbn [negb]; [|reflexivity].
  set (w := MkWorld _ _ _ _ _). unfold typed_name. cbn [snd].
  set (rest := fun u => _ ← host_console (print "Enter admin email: "); e ← host_console getline;
    _ ← host_console (print "Enter admin password (min 8 chars): "); p ← host_console getline;
    if bool_decide (u = []) || bool_decide (e = []) || (zlen p <? 8) then mret tt else
    res ← host_world (on_core (AuthService.registerUser u e p "admin"));
    host_console (if ok res then printSafe (formatSafeAuthMessage AuditAction.REGISTER_OK u)
                  else printError (("Admin bootstrap failed: " : str) ++ error res))).
  assert (forall u, steps (host_adds u) (rest u)) as Hrest.
  { intros u. pose proof (@console_adds u). pose proof (fun e p => host_core_adds u _ (register_adds u e p "admin")).
    unfold rest. steps_auto. }
  match goal with |- context [(_ ≫= _) ?x] => change x with (w, c) end.
  rewrite !(M_bind_run _ _ _ _ _ (host_print _ _)), (M_bind_run _ _ _ _ _ (host_getline _)). cbn [fst snd cin cout].
  match goal with |- context [rest ?u ?x] => exact (Hrest u x) end.
Qed.

(** After the start-up: no administrator that was none, or, from no account at
    all, accounts of the name the operator typed. *)
Lemma start_cases fp port l sweep (h h1 : world * Console) o :
  ur_inv (users (core h.1)) -> start fp port l sweep h = (o, h1) ->
  ur_inv (users (core h1.1))
  /\ (no_new_admin (table (core h.1)) (table (core h1.1))
      \/ table (core h.1) = ∅
         /\ forall k u x, table (core h1.1) !! k = Some (u, x) -> username_ u = typed_name h.2).
Proof.
  intros Hi E. unfold start, banner in E. rewrite (M_bind_run _ _ _ _ _ (host_print _ _)) in E.
  set (h0 := (h.1, _)) in E. rewrite M_bind_eq in E.
  pose proof (sweep_core sweep h0) as Hs. pose proof (sweep_cin sweep h0) as Hc.
  destruct (try_catch _ _ h0) as [o2 h2]. unfold same in Hs, Hc. cbn in Hs, Hc.
  assert (core h1.1 = core h2.1 \/ core h1.1 = core (bootstrap h2).2.1) as Hcore.
  { destruct o2 as [[]|e|]; [right|injection E as <- <-; by left..]. rewrite M_bind_eq in E.
    destruct (bootstrap h2) as [[[]|e|] h3]; [|by injection E as <- <-..].
    assert (steps (same (fun h : world * Console => core h.1))
      (actual ← liftO l; host_console (announce actual))) as Ht; [|specialize (Ht h3); by rewrite E in Ht].
    apply steps_bind; [exact _|steps_auto|intros actual]. by apply (steps_zoom _ _ _ _ _ (steps_any _)). }
  rewrite <- Hs in *. destruct Hcore as [->| ->]; [split; [exact Hi|left; reflexivity]|].
  destruct (decide (table (core h2.1) = ∅)) as [He|Hne].
  - destruct (bootstrap_adds h2 Hi) as [Hi' Ha]. split; [exact Hi'|right]. split; [exact He|].
    intros k u x [Hk|Hu]%Ha; [by rewrite He, lookup_empty in Hk|]. unfold typed_name in *. by rewrite <- Hc.
  - rewrite bootstrap_idle by done. split; [exact Hi|left; reflexivity].
Qed.

Lemma run_guarded fp port l sweep cls (h : world * Console) :
  ur_inv (users (core h.1)) -> table (core h.1) <> ∅ -> host_guarded h (run fp port l sweep cls h).2.
Proof.
  intros Hi Ht. unfold run. rewrite M_bind_eq. destruct (start fp port l sweep h) as [o h1] eqn:E.
  assert (host_guarded h h1) as G.
  { intros _. by destruct (start_cases _ _ _ _ _ _ _ Hi E) as [Hi' [Hn|[He _]]]. }
  destruct o as [[]|e|]; [|exact G..]. etrans; [exact G|]. pose proof accept_guarded.
  match goal with |- context [?m h1] => enough (steps host_guarded m) as Hm by apply Hm end. steps_auto.
Qed.

(** No request makes an administrator: whatever clients connect, whatever
    bytes they send in whatever pieces, and however the connections and the
    components behind the server fail, after any number of connections every
    account with the administrator's role already had it before the first; and
    when there is an account, so it is after a whole run, start-up included. *)
Theorem no_wire_admin cls (h h' : world * Console) o :
  ur_inv (users (core h.1)) ->
  accept_loop cls h = (o, h')
  \/ table (core h.1) <> ∅ /\ (exists fp port l sweep o', run fp port l sweep cls h = (o', h')) ->
  no_new_admin (table (core h.1)) (table (core h'.1)) /\ ur_inv (users (core h'.1)).
Proof.
  intros Hi E. assert (host_guarded h h') as Hall; [|by destruct (Hall Hi)].
  destruct E as [E|[Ht (fp & port & l & sweep & o' & E)]].
  - pose proof (accept_guarded cls h) as Hg. by rewrite E in Hg.
  - pose proof (run_guarded fp port l sweep cls h Hi Ht) as Hg. by rewrite E in Hg.
Qed.

End Server.
