(* ===== verification/Process.v ===== *)
(** * The server's two threads ([src/presentation/server_app.cpp], the end of [run])

    [run] starts a thread that accepts connections and serves them, detaches it
    and waits for a line. The threads are interleaved frame by frame: a turn of
    the accept thread is one [accept], or one [serve_frame] of its connection; a
    turn of the main thread is one statement, and waits for the operator. The
    clients, the operator and the scheduler decide whose turn it is. A turn is
    atomic: a [close] in the middle of an [accept] is not modelled. *)
From S2P Require Import Prelude Domain Framing Protocol Ports Cli Auth Admin Transfer Server Privilege.
From Stdlib Require Import ZArith Lia.
From stdpp Require Import base gmap strings list numbers relations.
Local Open Scope Z_scope.

Import ServerApp.

(** Before [getline], before [listener.close()], before [return 0]; [Returned]:
    the locals of [run] are gone, the process is not; [Exited]: the process is. *)
Inductive MainThread := Waiting | Closing | Returning | Returned | Exited.
#[export] Instance MainThread_eq_dec : EqDecision MainThread.
Proof. solve_decision. Defined.

(** [listener], a local of [run], as the threads find it. The connections live on
    its [io_context], so they end with it. *)
Inductive Listener := Open | Closed | Destroyed.
#[export] Instance Listener_eq_dec : EqDecision Listener.
Proof. solve_decision. Defined.

(** The locals of the accept loop's body. *)
Record Connection := MkConnection {
  conn : Conn; c_link : Link;
  c_pendingInit : gmap str UploadInit; c_pendingData : gmap str str; c_connToken : str
}.
(** [Broken]: behaviour was undefined. *)
Inductive AcceptThread := Accepting | Serves (x : Connection) | Broken.

Record Process (W : Type) := MkProcess {
  main : MainThread; acceptor : AcceptThread; listener : Listener;
  typed : list str;     (** the lines of [std::cin] that nobody has read *)
  ended : bool;         (** no line will follow *)
  host : W * Console    (** the components, and [std::cout] *)
}.
Arguments MkProcess {W}. Arguments main {W}. Arguments acceptor {W}. Arguments listener {W}.
Arguments typed {W}. Arguments ended {W}. Arguments host {W}.

(** [listener.accept()]; [cl] is the client that connects, [None] a connection
    that fails. *)
Definition listener_accept (l : Listener) (cl : option Client) : outcome Client :=
  match l, cl with
  | Open, Some cl => Ok cl
  | Destroyed, _ => Undef
  | _, _ => Throw (RuntimeError "accept failed")
  end.
Definition listener_close (l : Listener) : Listener := match l with Open => Closed | l => l end.

Section Threads.
Context {R H S A St K F T : Type}.
Context `{!IUserRepository R, !IPasswordHasher H, !ISessionStore S, !IAuditLogger A, !IStorage St,
          !IKeyDirectory K, !IFileRepository F, !ITransferRepository T, !IFileValidator}.
Local Abbreviation W := (World R H S A St K F T).
Local Abbreviation serving := (Serving (World R H S A St K F T)).
Local Abbreviation process := (Process (World R H S A St K F T)).

Definition set_acceptor (a : AcceptThread) (h : W * Console) (p : process) : process :=
  MkProcess (main p) a (listener p) (typed p) (ended p) h.

Definition resume (x : Connection) (h : W * Console) : serving :=
  MkServing h.1 h.2 (c_link x) (c_pendingInit x) (c_pendingData x) (c_connToken x).
Definition suspend (c : Conn) (s : serving) : Connection :=
  MkConnection c (link s) (pendingInit s) (pendingData s) (connToken s).

(** A turn of the loop of a connection: [serve_frame], if the stream's context is
    still there. Every exception ends the connection and is dropped. *)
Definition serve_turn (x : Connection) (p : process) : process :=
  if decide (listener p = Destroyed) then set_acceptor Broken (host p) p else
  let (o, s) := serve_frame (conn x) (resume x (host p)) in
  set_acceptor
    (match o with Ok (Some c) => Serves (suspend c s) | Ok None | Throw _ => Accepting | Undef => Broken end)
    (world s, console s) p.

(** A turn of the accept thread. *)
Definition accept_turn (cl : option Client) (p : process) : option process :=
  if decide (main p = Exited) then None else
  match acceptor p with
  | Broken => None
  | Serves x => Some (serve_turn x p)
  | Accepting =>
      match listener_accept (listener p) cl with
      | Ok cl => let (c, s) := accepted cl (host p) in Some (set_acceptor (Serves (suspend c s)) (host p) p)
      | Throw _ => Some p
      | Undef => Some (set_acceptor Broken (host p) p)
      end
  end.

(** A turn of the main thread. [getline] waits for a line or the end of the input,
    and the line is dropped; at the end of [run] its locals are destroyed. *)
Definition main_turn (p : process) : option process :=
  match main p with
  | Waiting =>
      if bool_decide (typed p = []) && negb (ended p) then None else
      Some (MkProcess Closing (acceptor p) (listener p) (tl (typed p)) (ended p) (host p))
  | Closing =>
      Some (MkProcess Returning (acceptor p) (listener_close (listener p)) (typed p) (ended p) (host p))
  | Returning => Some (MkProcess Returned (acceptor p) Destroyed (typed p) (ended p) (host p))
  | Returned => Some (MkProcess Exited (acceptor p) (listener p) (typed p) (ended p) (host p))
  | Exited => None
  end.

(** The operator types a line, or ends the input. *)
Definition operator_turn (line : option str) (p : process) : option process :=
  if ended p then None else Some (
  match line with
  | Some l => MkProcess (main p) (acceptor p) (listener p) (typed p ++ [l]) false (host p)
  | None => MkProcess (main p) (acceptor p) (listener p) (typed p) true (host p)
  end).

Inductive step (p p' : process) : Prop :=
  | by_accept cl : accept_turn cl p = Some p' -> step p p'
  | by_main : main_turn p = Some p' -> step p p'
  | by_operator line : operator_turn line p = Some p' -> step p p'.

(** The process when the thread has just been started. *)
Definition spawned (h : W * Console) : process :=
  MkProcess Waiting Accepting Open (cin h.2) false (h.1, MkConsole [] (cout h.2)).

(** What the accept thread leaves when it finishes its connection undisturbed. *)
Definition close_connection (r : outcome unit * serving) : outcome unit * (W * Console) :=
  match r with
  | (Undef, s) => (Undef, (world s, console s))
  | (_, s) => (Ok tt, (world s, console s))
  end.
Definition completed (a : AcceptThread) (h : W * Console) : outcome unit * (W * Console) :=
  match a with
  | Accepting => (Ok tt, h)
  | Serves x => close_connection (serve (Datatypes.S (bytes_left (conn x))) (conn x) (resume x h))
  | Broken => (Undef, h)
  end.

Lemma resume_suspend c (s : serving) : resume (suspend c s) (world s, console s) = s.
Proof. by destruct s. Qed.

(** A turn of a connection leaves the rest of it. *)
Lemma serve_turn_completed x (p : process) : listener p <> Destroyed ->
  completed (acceptor (serve_turn x p)) (host (serve_turn x p)) = completed (Serves x) (host p).
Proof.
  intros Hl. unfold serve_turn. rewrite decide_False by done. cbn [completed serve]. rewrite M_bind_eq.
  destruct (serve_frame (conn x) (resume x (host p))) as [[[c|]|e|] s] eqn:E; try done.
  cbn [acceptor host set_acceptor completed]. rewrite resume_suspend. cbn [suspend conn].
  apply serve_frame_next in E as (f & E%tls_recv_consumes & _). f_equal. apply serve_fuel; lia.
Qed.

Lemma accept_loop_snoc cls cl h h' : accept_loop cls h = (Ok tt, h') ->
  accept_loop (cls ++ [cl]) h = accept_one cl h'.
Proof.
  revert h. induction cls as [|c cls IH]; intros h; cbn [app accept_loop].
  - intros [= ->]. rewrite M_bind_eq. by destruct (accept_one cl h') as [[[]|e|] h2].
  - rewrite !M_bind_eq. destruct (accept_one c h) as [[[]|e|] h2]; [|discriminate..]. apply IH.
Qed.

(** ** The order of the threads *)

(** While [run] has not returned, the accept thread is where [accept_loop] would be. *)
Definition follows (h0 : W * Console) (p : process) : Prop :=
  (exists cls, accept_loop cls h0 = completed (acceptor p) (host p))
  \/ (acceptor p = Broken /\ listener p = Destroyed).

Lemma accept_turn_follows h0 cl p p' : accept_turn cl p = Some p' -> follows h0 p -> follows h0 p'.
Proof.
  unfold accept_turn. intros E Hf. destruct (decide _); [done|].
  destruct (decide (listener p = Destroyed)) as [Hl|Hl].
  { destruct (acceptor p) as [|x|] eqn:Ea; [| |done].
    - unfold listener_accept in E. rewrite Hl in E. injection E as <-. by right.
    - unfold serve_turn in E. rewrite decide_True in E by done. injection E as <-. by right. }
  destruct Hf as [[cls Hp]|[_ ?]]; [left|done]. destruct (acceptor p) as [|x|] eqn:Ea; [| |done].
  - destruct (listener_accept (listener p) cl) as [c|e|] eqn:El; cycle 1.
    { injection E as <-. exists cls. by rewrite Ea. }
    { unfold listener_accept in El. destruct (listener p), cl; done. }
    unfold accepted in E. injection E as <-. exists (cls ++ [Some c]).
    by rewrite (accept_loop_snoc _ _ _ _ Hp).
  - injection E as <-. exists cls. by rewrite serve_turn_completed.
Qed.

(** The other turns leave the accept thread and the components alone. *)
Lemma main_turn_idle p p' : main_turn p = Some p' ->
  acceptor p' = acceptor p /\ host p' = host p /\ (listener p = Destroyed -> listener p' = Destroyed).
Proof.
  unfold main_turn, listener_close. destruct p as [m a li ty en h]; cbn.
  destruct m; [destruct (_ && _)| | | |]; intros [= <-]; cbn; repeat split; by destruct li.
Qed.
Lemma operator_turn_idle line p p' : operator_turn line p = Some p' ->
  acceptor p' = acceptor p /\ host p' = host p /\ (listener p = Destroyed -> listener p' = Destroyed).
Proof. unfold operator_turn. destruct (ended p), line; by intros [= <-]. Qed.

(** The threads are invisible to the components: however the clients, the
    scheduler and the operator interleave the two threads, at every moment until
    the locals of [run] are destroyed the components and the output are those of
    the accept loop run alone on some sequence of connections, up to the rest of
    the connection that is open; so what is shown of the accept loop holds of the
    process. *)
Theorem threads_follow_loop h p : rtc step (spawned h) p ->
  (exists cls, accept_loop cls (h.1, MkConsole [] (cout h.2)) = completed (acceptor p) (host p))
  \/ (acceptor p = Broken /\ listener p = Destroyed).
Proof.
  intros Hp. fold (follows (h.1, MkConsole [] (cout h.2)) p). revert p Hp. apply rtc_ind_r.
  - left. by exists [].
  - intros p p' _ [cl E|E|line E] IH; [by eapply accept_turn_follows| |].
    + apply main_turn_idle in E as (Ea & Eh & El). unfold follows in *. rewrite Ea, Eh.
      destruct IH as [?|[??]]; [by left|right; auto].
    + apply operator_turn_idle in E as (Ea & Eh & El). unfold follows in *. rewrite Ea, Eh.
      destruct IH as [?|[??]]; [by left|right; auto].
Qed.

(** ** Administrators *)
Section Administrators.
Context `{!UserRepositoryLaws R}.

Lemma step_guarded (p p' : process) : step p p' -> host_guarded (host p) (host p').
Proof.
  intros [cl E|E|line E]; [|by apply main_turn_idle in E as (_ & -> & _)
                           |by apply operator_turn_idle in E as (_ & -> & _)].
  unfold accept_turn, serve_turn in E. destruct (decide _); [done|].
  destruct (acceptor p) as [|x|]; [| |done].
  - destruct (listener_accept _ _); injection E as <-; reflexivity.
  - injection E as <-. destruct (decide _); [reflexivity|].
    pose proof (serve_frame_guarded (conn x) (resume x (host p))) as Hg.
    destruct (serve_frame (conn x) (resume x (host p))) as [o s]. exact Hg.
Qed.

Lemma steps_guarded (p p' : process) : rtc step p p' -> host_guarded (host p) (host p').
Proof. induction 1 as [p|p p1 p2 Hs _ IH]; [reflexivity|]. etrans; [by apply step_guarded|exact IH]. Qed.

(** C9: Nobody but the operator makes an administrator: after the start-up, at
    every moment of every interleaving of the threads, whatever clients connect
    and whatever they send, an account with the administrator's role had it
    before the server was started, or the server was started without an account
    and it is the one the operator then made, under the first name typed. *)
Theorem only_the_first_admin fp port l sweep (h h1 : W * Console) (p : process) k u x :
  ur_inv (users (core h.1)) -> start fp port l sweep h = (Ok tt, h1) -> rtc step (spawned h1) p ->
  table (core (host p).1) !! k = Some (u, x) -> Domain.isAdmin u = true ->
  (exists u0 x0, table (core h.1) !! k = Some (u0, x0) /\ Domain.isAdmin u0 = true)
  \/ (table (core h.1) = ∅
      /\ exists u0 x0, table (core h1.1) = {[k := (u0, x0)]} /\ username_ u0 = typed_name h.2).
Proof.
  intros Hi Hst Hp Hk Ha. destruct (start_cases _ _ _ _ _ _ _ Hi Hst) as [Hi1 Hc].
  destruct (steps_guarded _ _ Hp Hi1) as [_ Hn]. destruct (Hn _ _ _ Hk Ha) as (u1 & x1 & Hk1 & Ha1).
  change (table (core h1.1) !! k = Some (u1, x1)) in Hk1.
  destruct Hc as [Hc|[He Hc]]; [left; by eapply Hc|right]. split; [exact He|]. exists u1, x1.
  split; [|by eapply Hc]. apply map_eq. intros k'. destruct (decide (k' = k)) as [->|Hne].
  - by rewrite lookup_singleton_eq.
  - rewrite lookup_singleton_ne by done. destruct (table (core h1.1) !! k') as [[v y]|] eqn:Hk'; [|done].
    exfalso. apply Hne. eapply (tab_username _ (ur_table _ Hi1)); [exact Hk'|exact Hk1|].
    by rewrite (Hc _ _ _ Hk'), (Hc _ _ _ Hk1).
Qed.
End Administrators.

(** ** The end of the process *)

(** Whatever the accept thread is doing, the operator can make [run] return. *)
Lemma run_returns (p : process) : listener p <> Destroyed -> main p <> Exited -> main p <> Returned ->
  exists p', rtc step p p' /\ main p' = Returned /\ listener p' = Destroyed
  /\ acceptor p' = acceptor p /\ host p' = host p.
Proof.
  destruct p as [m a li ty en h]; cbn. intros Hl He Hr.
  assert (forall li ty en, exists p', rtc step (MkProcess Returning a li ty en h) p' /\ main p' = Returned
    /\ listener p' = Destroyed /\ acceptor p' = a /\ host p' = h) as H1.
  { intros. eexists. split; [by apply rtc_once, by_main|]. done. }
  assert (forall li ty en, exists p', rtc step (MkProcess Closing a li ty en h) p' /\ main p' = Returned
    /\ listener p' = Destroyed /\ acceptor p' = a /\ host p' = h) as H2.
  { intros li' ty' en'. destruct (H1 (listener_close li') ty' en') as (p' & Hp' & G).
    exists p'. split; [|done]. eapply rtc_l; [by apply by_main|exact Hp']. }
  assert (exists p', rtc step (MkProcess Waiting a li ty true h) p' /\ main p' = Returned
    /\ listener p' = Destroyed /\ acceptor p' = a /\ host p' = h) as H3.
  { destruct (H2 li (tl ty) true) as (p' & Hp' & G). exists p'. split; [|done].
    eapply rtc_l; [apply by_main; cbn; by rewrite andb_false_r|exact Hp']. }
  destruct m; [|apply H2|apply H1|done..]. destruct en; [exact H3|].
  destruct H3 as (p' & Hp' & G). exists p'. split; [|done].
  eapply rtc_l; [by apply (by_operator _ _ None)|exact Hp'].
Qed.

(** Stopping the server is unsafe: in every state of the process in which [run]
    has not returned and nothing undefined has happened, whatever the accept
    thread is doing, the operator and the scheduler can make [run] return and the
    detached thread go on, to use the destroyed listener. *)
Theorem stop_is_undefined (p : process) :
  listener p <> Destroyed -> main p <> Exited -> main p <> Returned -> acceptor p <> Broken ->
  exists p', rtc step p p' /\ acceptor p' = Broken /\ host p' = host p.
Proof.
  intros Hl He Hm Ha. destruct (run_returns p Hl He Hm) as (p1 & Hr & Hm1 & Hl1 & Ha1 & Hh1).
  exists (set_acceptor Broken (host p1) p1). split; [|by rewrite <- Hh1].
  eapply rtc_r; [exact Hr|]. apply (by_accept _ _ None). unfold accept_turn, serve_turn, listener_accept.
  rewrite Hm1, Hl1, Ha1. rewrite decide_False by done. destruct (acceptor p); [done| |done].
  by rewrite decide_True by done.
Qed.
End Threads.
