(* ===== verification/Crypto.v ===== *)
(** * Client-side cryptography ([src/infrastructure/client_crypto.cpp],
    [include/infrastructure/client_crypto.hpp], [src/domain/key_pair.cpp])

    The sealed-box scheme of the client: AES-256-GCM under a fresh key, the key
    sealed to the recipient by X25519 and SHA-256. OpenSSL is not part of the
    repository: it is a class of operations over a state, each of which may fail
    as the code checks for, and a class of the laws it documents. Releasing and
    wiping memory has no effect here. *)
From S2P Require Import Prelude Domain.
From Stdlib Require Import ZArith Lia.
From stdpp Require Import base gmap strings list numbers.
Local Open Scope Z_scope.

(** ** OpenSSL

    A call that returns a pointer or a status gives [None] for the null pointer
    or the failure status the code tests. A context is passed on by value. *)
Class OpenSSL (E : Type) := {
  Pkey : Type;
  Dctx : Type;
  Cctx : Type;
  SHA256 : str -> str;
  RAND_bytes : nat -> M E (option str);
  new_raw_private_key : str -> M E (option Pkey);
  new_raw_public_key : str -> M E (option Pkey);
  get_raw_public_key : Pkey -> M E (option str);
  PKEY_CTX_new : Pkey -> M E (option Dctx);
  derive_init : Dctx -> M E (option Dctx);
  derive_set_peer : Dctx -> Pkey -> M E (option Dctx);
  derive : Dctx -> M E (option str);
  CIPHER_CTX_new : M E (option Cctx);
  EncryptInit : Cctx -> M E (option Cctx);
  DecryptInit : Cctx -> M E (option Cctx);
  SET_IVLEN : Cctx -> Z -> M E (option Cctx);
  EncryptInit_key : Cctx -> str -> str -> M E (option Cctx);
  DecryptInit_key : Cctx -> str -> str -> M E (option Cctx);
  EncryptUpdate : Cctx -> str -> Z -> M E (option (Cctx * str));
  DecryptUpdate : Cctx -> str -> Z -> M E (option (Cctx * str));
  EncryptFinal : Cctx -> M E (option (Cctx * str));
  GET_TAG : Cctx -> Z -> M E (option str);
  SET_TAG : Cctx -> str -> M E (option Cctx);
  DecryptFinal : Cctx -> M E (option (Cctx * str))
}.

(** [dek[i] ^ k[i]] for every [i]. *)
Definition xor_byte (x y : byte) : byte := z2b (Z.lxor (b2z x) (b2z y)).
Definition xor (a b : str) : str := zip_with xor_byte a b.

Record EncryptOut := MkEncryptOut { cipher : str; eo_wrapped : WrappedKey; eo_digest : Digest }.

Record KeyPair := MkKeyPair { pub : str; priv : str }.

Section Operations.
Context {E : Type} `{!OpenSSL E}.

(** [if (!call) throw e;] *)
Definition need {X} (m : M E (option X)) (e : exn) : M E X :=
  r ← m; match r with Some x => mret x | None => throw e end.

Definition KeyPair_generate : M E KeyPair :=
  priv ← need (RAND_bytes 32) (RuntimeError "RAND_bytes failed for priv");
  pkey ← need (new_raw_private_key priv) (RuntimeError "EVP_PKEY_new_raw_private_key failed");
  pub ← need (get_raw_public_key pkey) (RuntimeError "EVP_PKEY_get_raw_public_key failed");
  if negb (zlen pub =? 32) then throw (RuntimeError "EVP_PKEY_get_raw_public_key failed") else
  mret (MkKeyPair pub priv).

Definition digestFromPlain (plain : str) : Digest := MkDigest (SHA256 plain).

Definition x25519Shared (priv pub : str) : M E str :=
  pkeyPriv ← need (new_raw_private_key priv) (IntegrityException "X25519 priv init failed");
  pkeyPub ← need (new_raw_public_key pub) (IntegrityException "X25519 pub init failed");
  ctx ← need (PKEY_CTX_new pkeyPriv) (IntegrityException "X25519 ctx failed");
  ctx ← need (derive_init ctx) (IntegrityException "derive_init failed");
  ctx ← need (derive_set_peer ctx pkeyPub) (IntegrityException "derive_set_peer failed");
  secret ← need (derive ctx) (IntegrityException "X25519 derive failed");
  if negb (zlen secret =? 32) then throw (IntegrityException "X25519 derive failed") else
  mret secret.

Definition x25519PubFromPriv (priv : str) : M E str :=
  pkey ← need (new_raw_private_key priv) (IntegrityException "X25519 priv->pub init failed");
  pub ← need (get_raw_public_key pkey) (IntegrityException "X25519 get pub failed");
  if negb (zlen pub =? 32) then throw (IntegrityException "X25519 get pub failed") else
  mret pub.

(** The ephemeral public key, then the key encrypted with the hash of the
    shared secret. *)
Definition sealDEK (dek recipientPub : str) : M E str :=
  ephPriv ← need (RAND_bytes 32) (RuntimeError "RAND_bytes ephPriv failed");
  ephPub ← x25519PubFromPriv ephPriv;
  shared ← x25519Shared ephPriv recipientPub;
  let k := SHA256 shared in
  mret (ephPub ++ xor dek k).

Definition sealDEK_vec (dek pubVec : str) : M E str :=
  if negb (zlen pubVec =? 32) then throw (ValidationException "recipient pubkey must be 32") else
  sealDEK dek pubVec.

Definition unsealDEK (sealed priv : str) : M E str :=
  if negb (zlen sealed =? 64) then throw (IntegrityException "sealed DEK size invalid") else
  let ephPub := take 32 sealed in
  let encDEK := drop 32 sealed in
  shared ← x25519Shared priv ephPub;
  let k := SHA256 shared in
  mret (xor encDEK k).

(** The output buffer has the size of the input: writing past it is undefined. *)
Definition aesGcmEncrypt (plain dek nonce : str) : M E str :=
  ctx ← need CIPHER_CTX_new (RuntimeError "EVP_CIPHER_CTX_new failed");
  ctx ← need (EncryptInit ctx) (RuntimeError "EncryptInit failed");
  ctx ← need (SET_IVLEN ctx 12) (RuntimeError "SET_IVLEN failed");
  ctx ← need (EncryptInit_key ctx dek nonce) (RuntimeError "EncryptInit key/nonce failed");
  r ← (if bool_decide (plain = []) then mret (ctx, [])
       else need (EncryptUpdate ctx plain (to_int (zlen plain))) (RuntimeError "EncryptUpdate failed"));
  let '(ctx, out) := r in
  r ← need (EncryptFinal ctx) (RuntimeError "EncryptFinal failed");
  let '(ctx, fin) := r in
  if zlen plain <? zlen (out ++ fin) then undef else
  tag ← need (GET_TAG ctx 16) (RuntimeError "GET_TAG failed");
  mret ((out ++ fin) ++ tag).

Definition aesGcmDecrypt (cipher dek nonce : str) : M E str :=
  if zlen cipher <? 16 then throw (IntegrityException "cipher too short (tag missing)") else
  let ctLen := zlen cipher - 16 in
  let ct := take (Z.to_nat ctLen) cipher in
  let tag := drop (Z.to_nat ctLen) cipher in
  ctx ← need CIPHER_CTX_new (RuntimeError "EVP_CIPHER_CTX_new failed");
  ctx ← need (DecryptInit ctx) (RuntimeError "DecryptInit failed");
  ctx ← need (SET_IVLEN ctx 12) (RuntimeError "SET_IVLEN failed");
  ctx ← need (DecryptInit_key ctx dek nonce) (RuntimeError "DecryptInit key failed");
  r ← (if 0 <? ctLen
       then need (DecryptUpdate ctx ct (to_int ctLen)) (IntegrityException "GCM decrypt failed")
       else mret (ctx, []));
  let '(ctx, out) := r in
  ctx ← need (SET_TAG ctx tag) (RuntimeError "SET_TAG failed");
  r ← need (DecryptFinal ctx) (IntegrityException "GCM tag mismatch");
  let '(_, fin) := r in
  if ctLen <? zlen (out ++ fin) then undef else
  mret (out ++ fin).

Definition doEncrypt (plain : str) (recipientId : UserId) (recipientPubVec : str) : M E EncryptOut :=
  if negb (zlen recipientPubVec =? 32) then
    throw (ValidationException "recipient pubkey must be 32 bytes") else
  dek ← need (RAND_bytes 32) (RuntimeError "RAND_bytes dek failed");
  nonce ← need (RAND_bytes 12) (RuntimeError "RAND_bytes nonce failed");
  cipher ← aesGcmEncrypt plain dek nonce;
  let digest := digestFromPlain plain in
  sealed ← sealDEK_vec dek recipientPubVec;
  w ← liftO (new_WrappedKey recipientId nonce sealed "X25519-AES-GCM-Seal");
  mret (MkEncryptOut cipher w digest).

(** ** [ClientCryptoProvider] *)
Record ClientCryptoProvider := MkProvider { storedPub_ : str; hasStoredPub_ : bool }.
Definition default_provider : ClientCryptoProvider := MkProvider [] false.
Definition new_provider (recipientPub : str) : outcome ClientCryptoProvider :=
  if negb (zlen recipientPub =? 32) then Throw (ValidationException "recipient pubkey must be 32")
  else Ok (MkProvider recipientPub true).

(** The interface's members. *)
Definition encrypt_stored (p : ClientCryptoProvider) (plain : str) : M E EncryptOut :=
  if negb (hasStoredPub_ p) then
    throw (ValidationException "recipient pub required: use encrypt(plain, recipientPub)")
  else doEncrypt plain (MkUserId "recipient") (storedPub_ p).
Definition decrypt_stored (cipher : str) (w : WrappedKey) (d : Digest) : M E str :=
  throw (IntegrityException "privkey required: use decryptAndVerify(cipher, wrapped, digest, priv)").

(** The overloads with keys. *)
Definition encrypt_to (plain recipientPub : str) : M E EncryptOut :=
  doEncrypt plain (MkUserId "recipient") recipientPub.
Definition encrypt (plain : str) (recipientId : UserId) (recipientPub : str) : M E EncryptOut :=
  doEncrypt plain recipientId recipientPub.

Definition decryptAndVerify (cipher : str) (w : WrappedKey) (d : Digest) (priv : str) : M E str :=
  if negb (zlen (nonce w) =? 12) then throw (IntegrityException "nonce must be 12") else
  if bool_decide (wk_bytes w = []) then throw (IntegrityException "wrapped bytes empty") else
  dek ← unsealDEK (wk_bytes w) priv;
  plain ← aesGcmDecrypt cipher dek (nonce w);
  if negb (bool_decide (digestFromPlain plain = d)) then throw (IntegrityException "digest mismatch") else
  mret plain.

Definition decryptAndVerify_vec (cipher : str) (w : WrappedKey) (d : Digest) (priv : str) : M E str :=
  if negb (zlen priv =? 32) then throw (ValidationException "privkey must be 32") else
  decryptAndVerify cipher w d priv.

End Operations.

(** ** [FakeCrypto] ([include/infrastructure/fake_crypto.hpp]) *)
Module FakeCrypto.
Definition mask (p : str) : str := map (fun b => xor_byte b Byte.x5a) p.
Definition encrypt (p : str) : outcome EncryptOut :=
  w ← new_WrappedKey (MkUserId "fake-recipient") (replicate 12 Byte.x5a) (replicate 32 Byte.x42)
        "X25519-AES-GCM-Seal";
  Ok (MkEncryptOut (mask p) w (sha256stub p)).
Definition decryptAndVerify (c : str) (w : WrappedKey) (d : Digest) : outcome str :=
  let p := mask c in
  if negb (bool_decide (sha256stub p = d)) then Throw (IntegrityException "tag mismatch") else Ok p.
End FakeCrypto.

(** ** What OpenSSL documents

    X25519 (RFC 7748) as a function of a private key and a public key, with the
    public key of a private key, on strings of 32 bytes; AES-256-GCM (NIST SP
    800-38D) as a key stream, the same in both directions, and a tag over the
    ciphertext. A derivation whose result is all zeros fails, which a public key
    made from a private one never gives. *)
Inductive cipher_state :=
| Blank
| Chosen (enc : bool)
| Sized (enc : bool)
| Keyed (enc : bool) (key nonce ct : str)
| Tagged (key nonce ct tag : str)
| Done (key nonce ct : str).

Definition zeros32 : str := replicate 32 Byte.x00.

(** [call R m P good]: [m] answers; what it answers satisfies [P]; a state in [R]
    stays in [R], and there the call only fails when [good] does not hold. *)
Definition call {E X} (R : E -> Prop) (m : M E (option X)) (P : X -> Prop) (good : Prop) : Prop :=
  forall s, exists r s', m s = (Ok r, s') /\ (forall x, r = Some x -> P x) /\
    (R s -> R s' /\ (good -> r <> None)).

(** [reliable]: no call fails for want of memory or entropy. *)
Class OpenSSLLaws (E : Type) `{!OpenSSL E} := {
  x_pub : str -> str;
  x_dh : str -> str -> str;
  gcm_stream : str -> str -> nat -> str;
  gcm_tag : str -> str -> str -> str;
  reliable : E -> Prop;
  is_priv : Pkey -> str -> Prop;
  is_pub : Pkey -> str -> Prop;
  is_dctx : Dctx -> str -> option str -> Prop;
  is_cctx : Cctx -> cipher_state -> Prop;
  SHA256_length x : length (SHA256 x) = 32%nat;
  x_pub_length a : length a = 32%nat -> length (x_pub a) = 32%nat;
  x_dh_length a p : length a = 32%nat -> length p = 32%nat -> length (x_dh a p) = 32%nat;
  x_dh_agree a b : length a = 32%nat -> length b = 32%nat -> x_dh a (x_pub b) = x_dh b (x_pub a);
  x_dh_proper a b : length a = 32%nat -> length b = 32%nat -> x_dh a (x_pub b) <> zeros32;
  gcm_stream_length k n l : length (gcm_stream k n l) = l;
  gcm_tag_length k n c : length (gcm_tag k n c) = 16%nat;
  law_RAND n : call reliable (RAND_bytes n) (fun x => length x = n) True;
  law_priv a : length a = 32%nat -> call reliable (new_raw_private_key a) (fun k => is_priv k a) True;
  law_pub p : length p = 32%nat -> call reliable (new_raw_public_key p) (fun k => is_pub k p) True;
  law_get_pub k a : is_priv k a -> call reliable (get_raw_public_key k) (fun p => p = x_pub a) True;
  law_dctx k a : is_priv k a -> call reliable (PKEY_CTX_new k) (fun c => is_dctx c a None) True;
  law_derive_init c a : is_dctx c a None ->
    call reliable (derive_init c) (fun c => is_dctx c a None) True;
  law_set_peer c a k p : is_dctx c a None -> is_pub k p ->
    call reliable (derive_set_peer c k) (fun c => is_dctx c a (Some p)) True;
  law_derive c a p : is_dctx c a (Some p) ->
    call reliable (derive c) (fun x => x = x_dh a p) (x_dh a p <> zeros32);
  law_cctx : call reliable CIPHER_CTX_new (fun c => is_cctx c Blank) True;
  law_enc_init c : is_cctx c Blank ->
    call reliable (EncryptInit c) (fun c => is_cctx c (Chosen true)) True;
  law_dec_init c : is_cctx c Blank ->
    call reliable (DecryptInit c) (fun c => is_cctx c (Chosen false)) True;
  law_ivlen c e : is_cctx c (Chosen e) ->
    call reliable (SET_IVLEN c 12) (fun c => is_cctx c (Sized e)) True;
  law_enc_key c k n : is_cctx c (Sized true) -> length k = 32%nat -> length n = 12%nat ->
    call reliable (EncryptInit_key c k n) (fun c => is_cctx c (Keyed true k n [])) True;
  law_dec_key c k n : is_cctx c (Sized false) -> length k = 32%nat -> length n = 12%nat ->
    call reliable (DecryptInit_key c k n) (fun c => is_cctx c (Keyed false k n [])) True;
  law_enc_update c k n p : is_cctx c (Keyed true k n []) -> p <> [] -> zlen p < 2 ^ 31 ->
    call reliable (EncryptUpdate c p (zlen p))
      (fun r => r.2 = xor p (gcm_stream k n (length p)) /\ is_cctx r.1 (Keyed true k n r.2)) True;
  law_dec_update c k n t : is_cctx c (Keyed false k n []) -> t <> [] -> zlen t < 2 ^ 31 ->
    call reliable (DecryptUpdate c t (zlen t))
      (fun r => r.2 = xor t (gcm_stream k n (length t)) /\ is_cctx r.1 (Keyed false k n t)) True;
  law_enc_final c k n t : is_cctx c (Keyed true k n t) ->
    call reliable (EncryptFinal c) (fun r => r.2 = [] /\ is_cctx r.1 (Done k n t)) True;
  law_get_tag c k n t : is_cctx c (Done k n t) ->
    call reliable (GET_TAG c 16) (fun x => x = gcm_tag k n t) True;
  law_set_tag c k n t x : is_cctx c (Keyed false k n t) -> length x = 16%nat ->
    call reliable (SET_TAG c x) (fun c => is_cctx c (Tagged k n t x)) True;
  law_dec_final c k n t x : is_cctx c (Tagged k n t x) ->
    call reliable (DecryptFinal c) (fun r => r.2 = [] /\ x = gcm_tag k n t) (x = gcm_tag k n t)
}.

(** ** Exclusive or *)
Lemma xor_byte_cancel x y : xor_byte (xor_byte x y) y = x.
Proof.
  apply b2z_inj. unfold xor_byte. rewrite !b2z_z2b. unfold u8.
  transitivity (b2z x mod 2 ^ 8); [|apply Z.mod_small, b2z_range].
  rewrite <-!Z.land_ones by lia. apply Z.bits_inj'. intros n _.
  rewrite !Z.land_spec, !Z.lxor_spec, !Z.land_spec, !Z.lxor_spec.
  by destruct (Z.testbit (b2z x) n), (Z.testbit (b2z y) n), (Z.testbit (Z.ones 8) n).
Qed.

Lemma xor_cancel a b : (length a <= length b)%nat -> xor (xor a b) b = a.
Proof.
  unfold xor. revert b. induction a as [|x a IH]; intros [|y b] Hl; simpl in *; try done; [lia|].
  rewrite xor_byte_cancel, IH by lia. done.
Qed.

Lemma xor_length a b : (length a <= length b)%nat -> length (xor a b) = length a.
Proof. intros. unfold xor. rewrite length_zip_with. lia. Qed.

Lemma mask_mask p : FakeCrypto.mask (FakeCrypto.mask p) = p.
Proof.
  unfold FakeCrypto.mask. rewrite map_map. etrans; [|apply map_id]. apply map_ext.
  intros b. apply xor_byte_cancel.
Qed.

(** ** Reasoning about a fallible engine *)

(** [does R m P good]: [m] has no undefined behaviour; what it returns satisfies
    [P]; a state in [R] stays in [R], and there [m] returns when [good] holds. *)
Definition does {E A} (R : E -> Prop) (m : M E A) (P : A -> Prop) (good : Prop) : Prop :=
  forall s, (m s).1 <> Undef /\ (forall a, (m s).1 = Ok a -> P a) /\
    (R s -> R (m s).2 /\ (good -> exists a, (m s).1 = Ok a)).

Section Does.
Context {E : Type} (R : E -> Prop).

Lemma does_ret {A} (a : A) (P : A -> Prop) g : P a -> does R (mret a) P g.
Proof. intros HP s. simpl. split; [done|]. split; [by intros ? [= <-]|eauto]. Qed.

Lemma does_throw {A} e (P : A -> Prop) (g : Prop) : ~ g -> does R (throw e) P g.
Proof. intros Hg s. simpl. repeat split; [done..|]. by intros ?%Hg. Qed.

Lemma does_bind {A B} (m : M E A) (f : A -> M E B) (P : A -> Prop) (Q : B -> Prop) (g h : Prop) :
  does R m P g -> (h -> g) -> (forall a, P a -> does R (f a) Q h) -> does R (m ≫= f) Q h.
Proof.
  intros Hm Hg Hf s. rewrite M_bind_eq. destruct (Hm s) as (Hu & HP & HR).
  destruct (m s) as [[a|e|] s1]; simpl in *; [|split; [done|]; split; [done|]|done].
  - destruct (Hf a (HP a eq_refl) s1) as (Hu' & HQ & HR'). split; [done|]. split; [done|].
    intros Hs. apply HR'. by apply HR.
  - intros Hs. destruct (HR Hs) as [? He]. split; [done|]. intros Hh.
    destruct (He (Hg Hh)). done.
Qed.

Lemma does_weaken {A} (m : M E A) (P Q : A -> Prop) (g h : Prop) :
  does R m P g -> (h -> g) -> (forall a, P a -> Q a) -> does R m Q h.
Proof.
  intros Hm Hg HQ s. destruct (Hm s) as (Hu & HP & HR). split; [done|]. split; [eauto|].
  intros Hs. destruct (HR Hs) as [? He]. eauto.
Qed.

Lemma does_guard {A} (b : bool) e (m : M E A) (P : A -> Prop) (g : Prop) :
  (b = true -> ~ g) -> (b = false -> does R m P g) -> does R (if b then throw e else m) P g.
Proof. destruct b; [intros; by apply does_throw, H|auto]. Qed.

Lemma does_liftO {A} (o : outcome A) a (P : A -> Prop) g :
  o = Ok a -> P a -> does R (liftO o) P g.
Proof. intros -> HP s. simpl. split; [done|]. split; [by intros ? [= <-]|eauto]. Qed.

Lemma does_need {X} (m : M E (option X)) e (P : X -> Prop) good :
  call R m P good -> does R (need m e) P good.
Proof.
  intros Hm s. unfold need. rewrite M_bind_eq. destruct (Hm s) as (r & s' & -> & HP & HR).
  destruct r as [x|]; simpl.
  - split; [done|]. split; [intros ? [= <-]; by apply HP|]. intros Hs. split; [by apply HR|eauto].
  - split; [done|]. split; [done|]. intros Hs. destruct (HR Hs) as [? Hg]. split; [done|].
    intros G. by apply Hg in G.
Qed.
End Does.

(** [next law]: one call of the engine, by its law. *)
Ltac next L := eapply does_bind; [apply does_need, L; eauto|tauto|simpl; intros].

(** ** What each operation computes, on any engine *)
Section Correctness.
Context {E : Type} `{!OpenSSL E, !OpenSSLLaws E}.

(** The key in a sealed box, as the holder of [priv] computes it. *)
Definition open_box (priv sealed : str) : str :=
  xor (drop 32 sealed) (SHA256 (x_dh priv (take 32 sealed))).

(** The deciphered body, and whether the tag at its end is right. *)
Definition body (c : str) : str := take (length c - 16) c.
Definition deciphered (dek n c : str) : str := xor (body c) (gcm_stream dek n (length (body c))).
Definition tag_right (dek n c : str) : Prop := drop (length c - 16) c = gcm_tag dek n (body c).

Lemma KeyPair_generate_does :
  does reliable KeyPair_generate (fun kp => length (priv kp) = 32%nat /\ pub kp = x_pub (priv kp)) True.
Proof.
  unfold KeyPair_generate. next law_RAND. next law_priv. next law_get_pub. subst.
  apply does_guard.
  - intros E0. unfold zlen in E0. rewrite x_pub_length in E0 by done. done.
  - intros _. by apply does_ret.
Qed.

Lemma x25519PubFromPriv_does a : length a = 32%nat ->
  does reliable (x25519PubFromPriv a) (fun p => p = x_pub a) True.
Proof.
  intros Ha. unfold x25519PubFromPriv. next law_priv. next law_get_pub. subst.
  apply does_guard; [|by intros; apply does_ret].
  intros E0. unfold zlen in E0. rewrite x_pub_length in E0 by done. done.
Qed.

Lemma x25519Shared_does a p : length a = 32%nat -> length p = 32%nat ->
  does reliable (x25519Shared a p) (fun x => x = x_dh a p) (x_dh a p <> zeros32).
Proof.
  intros Ha Hp. unfold x25519Shared. next law_priv. next law_pub. next law_dctx.
  next law_derive_init. next law_set_peer. next law_derive. subst.
  apply does_guard; [|by intros; apply does_ret].
  intros E0. unfold zlen in E0. rewrite x_dh_length in E0 by done. done.
Qed.

(** A sealed key opens with the private key it was sealed for. *)
Lemma sealDEK_does dek b : length dek = 32%nat -> length b = 32%nat ->
  does reliable (sealDEK_vec dek (x_pub b)) (fun w => length w = 64%nat /\ open_box b w = dek /\
    x_dh b (take 32 w) <> zeros32) True.
Proof.
  intros Hd Hb. unfold sealDEK_vec, sealDEK. apply does_guard.
  { unfold zlen. rewrite x_pub_length by done. done. }
  intros _. next law_RAND. rename a into e.
  eapply does_bind; [by apply x25519PubFromPriv_does|done|]. intros ? ->.
  eapply does_bind; [apply x25519Shared_does; [done|by apply x_pub_length]|
    by intros; apply x_dh_proper|].
  intros ? ->. apply does_ret.
  pose proof (x_pub_length e ltac:(done)) as He.
  pose proof (SHA256_length (x_dh e (x_pub b))) as Hk. unfold open_box.
  rewrite take_app_length', drop_app_length', (x_dh_agree b e), xor_cancel by (done || lia).
  rewrite length_app, xor_length by lia. split; [lia|]. split; [done|].
  apply x_dh_proper; done.
Qed.

Lemma unsealDEK_does w b : length b = 32%nat ->
  does reliable (unsealDEK w b)
    (fun k => length w = 64%nat /\ k = open_box b w /\ length k = 32%nat)
    (length w = 64%nat /\ x_dh b (take 32 w) <> zeros32).
Proof.
  intros Hb. unfold unsealDEK. apply does_guard; unfold zlen.
  { intros E0 [Hw _]. by rewrite Hw in E0. }
  intros Hw%negb_false_iff%Z.eqb_eq. assert (length w = 64%nat) by lia.
  eapply does_bind; [apply x25519Shared_does; rewrite ?length_take; lia|tauto|].
  intros ? ->. apply does_ret. repeat split; [done|].
  unfold xor. rewrite length_zip_with, length_drop, SHA256_length. lia.
Qed.

Lemma aesGcmEncrypt_does p k n : zlen p < 2 ^ 31 -> length k = 32%nat -> length n = 12%nat ->
  does reliable (aesGcmEncrypt p k n) (fun c => (length c >= 16)%nat /\
    length (body c) = length p /\ deciphered k n c = p /\ tag_right k n c) True.
Proof.
  intros Hp Hk Hn. unfold aesGcmEncrypt. next law_cctx. next law_enc_init. next law_ivlen.
  next law_enc_key. rename a2 into c.
  eapply (does_bind _ _ _ (fun r => r.2 = xor p (gcm_stream k n (length p)) /\
    is_cctx r.1 (Keyed true k n r.2)) _ True); [|done|].
  { case_bool_decide as Hnil; [subst; by apply does_ret|].
    rewrite to_int_id by (pose proof (zlen_nonneg p); lia).
    apply does_need, law_enc_update; done. }
  intros [c1 out] [E0 Hc]. simpl in E0, Hc. next law_enc_final.
  destruct a2 as [c2 fin]. simpl in *. destruct H3 as [-> Hc2]. rewrite !app_nil_r.
  assert (length out = length p) as Hl.
  { rewrite E0, xor_length; [done|]. by rewrite gcm_stream_length. }
  rewrite (proj2 (Z.ltb_ge _ _)) by (unfold zlen; lia).
  next law_get_tag. subst a2. apply does_ret. unfold deciphered, tag_right, body.
  rewrite length_app, gcm_tag_length, Nat.add_sub, take_app_length, drop_app_length, Hl.
  repeat split; [lia|]. rewrite E0. apply xor_cancel. by rewrite gcm_stream_length.
Qed.

Lemma aesGcmDecrypt_does c k n : zlen c < 2 ^ 31 -> length k = 32%nat -> length n = 12%nat ->
  does reliable (aesGcmDecrypt c k n)
    (fun p => (length c >= 16)%nat /\ p = deciphered k n c /\ tag_right k n c)
    ((length c >= 16)%nat /\ tag_right k n c).
Proof.
  intros Hc Hk Hn. unfold aesGcmDecrypt. apply does_guard.
  { intros ?%Z.ltb_lt [? _]. unfold zlen in *. lia. }
  intros Hl%Z.ltb_ge. cbv zeta.
  replace (Z.to_nat (zlen c - 16)) with (length c - 16)%nat by (unfold zlen; lia).
  fold (body c). assert (length (body c) = length c - 16)%nat as Hb.
  { unfold body. rewrite length_take. lia. }
  next law_cctx. next law_dec_init. next law_ivlen. next law_dec_key.
  eapply (does_bind _ _ _ (fun r => r.2 = deciphered k n c /\ is_cctx r.1 (Keyed false k n (body c)))
    _ True); [|done|].
  { destruct (Z.ltb_spec 0 (zlen c - 16)) as [Hpos|Hz].
    - rewrite to_int_id by (unfold zlen in *; lia).
      replace (zlen c - 16) with (zlen (body c)) by (unfold zlen in *; lia).
      apply does_need, law_dec_update; [done| |unfold zlen in *; lia].
      intros E0. rewrite E0 in Hb. unfold zlen in *. simpl in Hb. lia.
    - assert (body c = []) as E0 by (apply length_zero_iff_nil; unfold zlen in *; lia).
      unfold deciphered. rewrite E0. by apply does_ret. }
  intros [c1 out] [E0 Hk1]. simpl in E0, Hk1.
  next law_set_tag; [rewrite length_drop; unfold zlen in *; lia|].
  next law_dec_final. destruct a4 as [c2 fin]. simpl in *. destruct H4 as [-> Ht].
  rewrite app_nil_r. rewrite (proj2 (Z.ltb_ge _ _)).
  - apply does_ret. unfold zlen in *. repeat split; [lia|done..].
  - rewrite E0. unfold deciphered. unfold zlen in *. rewrite xor_length; [lia|].
    by rewrite gcm_stream_length.
Qed.

(** What the holder of [b] accepts, and what it then reads. *)
Definition authentic (b c : str) (w : WrappedKey) (d : Digest) : Prop :=
  length (nonce w) = 12%nat /\ length (wk_bytes w) = 64%nat /\ (length c >= 16)%nat /\
  tag_right (open_box b (wk_bytes w)) (nonce w) c /\
  MkDigest (SHA256 (deciphered (open_box b (wk_bytes w)) (nonce w) c)) = d.
Definition opens (b : str) (w : WrappedKey) : Prop := x_dh b (take 32 (wk_bytes w)) <> zeros32.

Lemma doEncrypt_does plain rid b : zlen plain < 2 ^ 31 -> length b = 32%nat ->
  does reliable (doEncrypt plain rid (x_pub b)) (fun o =>
    authentic b (cipher o) (eo_wrapped o) (eo_digest o) /\ opens b (eo_wrapped o) /\
    length (cipher o) = (length plain + 16)%nat /\ recipientId (eo_wrapped o) = rid /\
    alg (eo_wrapped o) = lit "X25519-AES-GCM-Seal" /\
    deciphered (open_box b (wk_bytes (eo_wrapped o))) (nonce (eo_wrapped o)) (cipher o) = plain) True.
Proof.
  intros Hp Hb. unfold doEncrypt. apply does_guard.
  { unfold zlen. rewrite x_pub_length by done. done. }
  intros _. next law_RAND. next law_RAND. rename a into dek, a0 into n.
  eapply does_bind; [by apply aesGcmEncrypt_does|done|]. intros c (Hc & Hl & Hd & Ht).
  eapply does_bind; [by apply sealDEK_does|done|]. intros w (Hw & Hopen & Hz).
  eapply does_bind; [eapply (does_liftO _ _ _ (fun x => x = _)); [|done]|done|].
  { unfold new_WrappedKey, zlen. rewrite H0, bool_decide_false; [done|by intros ->]. }
  intros ? ->. apply does_ret. unfold authentic, opens. simpl. rewrite Hopen, Hd.
  unfold body in Hl. rewrite length_take in Hl. repeat split; try done. lia.
Qed.

Lemma decryptAndVerify_does c w d b : zlen c < 2 ^ 31 -> length b = 32%nat ->
  does reliable (decryptAndVerify c w d b)
    (fun p => authentic b c w d /\ p = deciphered (open_box b (wk_bytes w)) (nonce w) c)
    (authentic b c w d /\ opens b w).
Proof.
  intros Hc Hb. unfold decryptAndVerify, authentic, opens. apply does_guard; unfold zlen.
  { intros E0 [[Hn _] _]. by rewrite Hn in E0. }
  intros Hn%negb_false_iff%Z.eqb_eq. apply does_guard.
  { intros E0%bool_decide_eq_true [(_ & Hw & _) _]. by rewrite E0 in Hw. }
  intros _. eapply does_bind; [by apply unsealDEK_does|tauto|]. intros dek (Hw & -> & Hk).
  eapply does_bind; [apply aesGcmDecrypt_does; [done..|lia]|tauto|]. intros p (Hl & -> & Ht).
  unfold digestFromPlain. apply does_guard.
  { intros E0%negb_true_iff%bool_decide_eq_false. tauto. }
  intros E0%negb_false_iff%bool_decide_eq_true. apply does_ret. repeat split; (done || lia).
Qed.

(** A [does] at work in a reliable state. *)
Lemma does_run {A} (m : M E A) (P : A -> Prop) (g : Prop) s : does reliable m P g ->
  reliable s -> g -> exists a s', m s = (Ok a, s') /\ P a /\ reliable s'.
Proof.
  intros Hm Hs Hg. destruct (Hm s) as (_ & HP & HR). destruct (HR Hs) as [Hs' He].
  destruct (He Hg) as [a Ha]. exists a, (m s).2. split; [|auto].
  rewrite <-Ha. by destruct (m s).
Qed.

Lemma does_returned {A} (m : M E A) (P : A -> Prop) (g : Prop) s a s' : does reliable m P g ->
  m s = (Ok a, s') -> P a.
Proof. intros Hm E0. destruct (Hm s) as (_ & HP & _). apply HP. by rewrite E0. Qed.

(** C22: from the generation of the recipient's keys to the recipient's reading,
    any content of less than 2 GiB comes back exactly, as long as the engine
    does not run out of memory or entropy; the box is 16 bytes longer. *)
Theorem decrypt_encrypt (s : E) : reliable s ->
  exists kp s1, KeyPair_generate s = (Ok kp, s1) /\
  forall plain rid, zlen plain < 2 ^ 31 - 16 ->
  exists out s2, encrypt plain rid (pub kp) s1 = (Ok out, s2) /\
    zlen (cipher out) = zlen plain + 16 /\ recipientId (eo_wrapped out) = rid /\
    forall s3, reliable s3 -> exists s4,
      decryptAndVerify_vec (cipher out) (eo_wrapped out) (eo_digest out) (priv kp) s3 = (Ok plain, s4).
Proof.
  intros Hs. destruct (does_run _ _ _ s KeyPair_generate_does Hs I) as (kp & s1 & E1 & [Hk Hpub] & Hs1).
  exists kp, s1. split; [exact E1|]. intros plain rid Hp. rewrite Hpub.
  destruct (does_run _ _ _ s1 (doEncrypt_does plain rid (priv kp) ltac:(lia) Hk) Hs1 I)
    as (out & s2 & E2 & (Ha & Ho & Hl & Hr & _ & Hd) & Hs2).
  exists out, s2. split; [exact E2|]. split; [unfold zlen; lia|]. split; [exact Hr|].
  intros s3 Hs3.
  destruct (does_run _ _ _ s3 (decryptAndVerify_does (cipher out) (eo_wrapped out) (eo_digest out)
    (priv kp) ltac:(unfold zlen in *; lia) Hk) Hs3 (conj Ha Ho)) as (p & s4 & E4 & [_ Hp4] & _).
  exists s4. unfold decryptAndVerify_vec, zlen. rewrite Hk. simpl. rewrite E4, Hp4, Hd. done.
Qed.

(** C23: Whatever the engine's failures, two different ciphertexts of less than
    2 GiB (above, the casts of lengths to int are wrong) that are both accepted
    under the same wrapped key and the same digest are a collision of SHA-256
    (and one that is accepted carries the right GCM tag). *)
Theorem tamper_evident (c1 c2 p1 p2 b : str) (w : WrappedKey) (d : Digest) (s1 s1' s2 s2' : E) :
  zlen c1 < 2 ^ 31 -> zlen c2 < 2 ^ 31 -> length b = 32%nat -> c1 <> c2 ->
  decryptAndVerify c1 w d b s1 = (Ok p1, s1') -> decryptAndVerify c2 w d b s2 = (Ok p2, s2') ->
  p1 <> p2 /\ SHA256 p1 = SHA256 p2 /\
  tag_right (open_box b (wk_bytes w)) (nonce w) c1 /\ tag_right (open_box b (wk_bytes w)) (nonce w) c2.
Proof.
  intros Hc1 Hc2 Hb Hne E1 E2.
  apply (does_returned _ _ _ _ _ _ (decryptAndVerify_does c1 w d b Hc1 Hb)) in E1
    as [(_ & _ & Hl1 & Ht1 & Hd1) ->].
  apply (does_returned _ _ _ _ _ _ (decryptAndVerify_does c2 w d b Hc2 Hb)) in E2
    as [(_ & _ & Hl2 & Ht2 & Hd2) ->].
  split; [|split; [congruence|done]]. intros Hp. apply Hne.
  set (k := open_box b (wk_bytes w)) in *.
  assert (Hinv : forall c, body c = xor (deciphered k (nonce w) c)
    (gcm_stream k (nonce w) (length (deciphered k (nonce w) c)))).
  { intros c. unfold deciphered. rewrite xor_length, xor_cancel; [done|..];
      by rewrite gcm_stream_length. }
  assert (body c1 = body c2) as Hbody by (by rewrite (Hinv c1), (Hinv c2), Hp).
  rewrite <-(take_drop (length c1 - 16) c1), <-(take_drop (length c2 - 16) c2).
  unfold tag_right in Ht1, Ht2. unfold body in *. rewrite Ht1, Ht2, Hbody. done.
Qed.
End Correctness.
