(* ===== verification/Client.v ===== *)
(** * The client ([src/presentation/client_app.cpp], [client/main.cpp])

    The menu loop and its five requests over a console, a file system, OpenSSL,
    the random generator and a transport. A step of the menu that ends in
    [continue] or falls through is a return; an exception it does not catch ends
    the program. *)
From S2P Require Import Prelude Domain Framing Protocol Ports Storage Cli Tls Crypto.
From Stdlib Require Import ZArith Lia.
From stdpp Require Import base gmap strings list numbers.
Local Open Scope Z_scope.

(** ** [ITransport] ([ports/transport.hpp])

    [recvFrame] gives the frame it filled in, or [None] for [false]. *)
Class ITransport (N : Type) := {
  connect : str -> Z -> M N unit;
  sendFrame : Frame -> M N unit;
  recvFrame : Z -> M N (option Frame);
  close : M N unit
}.

Module ClientApp.

(** ** Files, on the file system of [Storage] *)
Abbreviation Files := BinaryFileStorage.t.

Definition keyPathFor (user : str) : str := ("./storage/client_" : str) ++ user ++ (".key" : str).

Definition create_directories : M Files unit :=
  r ← BinaryFileStorage.syscall;
  if BinaryFileStorage.fails r then throw (RuntimeError (BinaryFileStorage.message r)) else mret tt.

(** An output stream that did not open swallows what is written. *)
Definition savePrivKey (user priv : str) : M Files unit :=
  _ ← create_directories;
  let p := keyPathFor user in
  opened ← BinaryFileStorage.open_trunc p;
  _ ← (if (opened : bool) then
         _ ← BinaryFileStorage.ofs_write p priv; _ ← BinaryFileStorage.ofs_sync; mret tt
       else mret tt);
  _ ← BinaryFileStorage.syscall;
  mret tt.

(** [std::ifstream f(p, binary)]: the file's bytes, or [None] when it does not open. *)
Definition open_read (p : str) : M Files (option str) :=
  r ← BinaryFileStorage.syscall; s ← get;
  mret (if BinaryFileStorage.fails r then None else BinaryFileStorage.disk s !! p).

(** A read that fails leaves fewer than 32 characters counted. *)
Definition loadPrivKey (user : str) : M Files (option str) :=
  f ← open_read (keyPathFor user);
  match f with
  | None => mret None
  | Some d =>
      r ← BinaryFileStorage.syscall;
      let got := if BinaryFileStorage.fails r then take (BinaryFileStorage.partial r) (take 32 d)
                 else take 32 d in
      mret (if zlen got =? 32 then Some got else None)
  end.

Definition readFileBytes (path : str) : M Files str :=
  f ← open_read path;
  match f with
  | None => throw (RuntimeError (("cannot open file " : str) ++ path))
  | Some d =>
      r ← BinaryFileStorage.syscall;
      if BinaryFileStorage.fails r then throw (RuntimeError (BinaryFileStorage.message r)) else mret d
  end.

Definition writeFileBytes (path data : str) : M Files unit :=
  opened ← BinaryFileStorage.open_trunc path;
  if negb opened then throw (RuntimeError (("cannot write file " : str) ++ path)) else
  _ ← BinaryFileStorage.ofs_write path data;
  mret tt.

(** [std::filesystem::path(p).filename()]: what follows the last slash. *)
Fixpoint filename (p : str) : str :=
  match p with
  | [] => []
  | c :: p' => if bool_decide (Byte.x2f ∈ p) then filename p' else p
  end.

(** ** The state of a run *)
Record t (E N : Type) := Mk {
  console : Console; files : Files; engine : E; rng : Rng; net : N;
  sessionToken : str; loggedUser : str;
  localKeys : gmap str KeyPair; pubCache : gmap str str
}.
Arguments Mk {E N}. Arguments console {E N}. Arguments files {E N}. Arguments engine {E N}.
Arguments rng {E N}. Arguments net {E N}. Arguments sessionToken {E N}. Arguments loggedUser {E N}.
Arguments localKeys {E N}. Arguments pubCache {E N}.

Section Parts.
Context {E N : Type}.
Definition set_console (x : Console) (s : t E N) : t E N :=
  Mk x (files s) (engine s) (rng s) (net s) (sessionToken s) (loggedUser s) (localKeys s) (pubCache s).
Definition set_files (x : Files) (s : t E N) : t E N :=
  Mk (console s) x (engine s) (rng s) (net s) (sessionToken s) (loggedUser s) (localKeys s) (pubCache s).
Definition set_engine (x : E) (s : t E N) : t E N :=
  Mk (console s) (files s) x (rng s) (net s) (sessionToken s) (loggedUser s) (localKeys s) (pubCache s).
Definition set_rng (x : Rng) (s : t E N) : t E N :=
  Mk (console s) (files s) (engine s) x (net s) (sessionToken s) (loggedUser s) (localKeys s) (pubCache s).
Definition set_net (x : N) (s : t E N) : t E N :=
  Mk (console s) (files s) (engine s) (rng s) x (sessionToken s) (loggedUser s) (localKeys s) (pubCache s).
Definition set_session (tok user : str) (s : t E N) : t E N :=
  Mk (console s) (files s) (engine s) (rng s) (net s) tok user (localKeys s) (pubCache s).
Definition set_keys (ks : gmap str KeyPair) (s : t E N) : t E N :=
  Mk (console s) (files s) (engine s) (rng s) (net s) (sessionToken s) (loggedUser s) ks (pubCache s).
Definition set_pubs (ps : gmap str str) (s : t E N) : t E N :=
  Mk (console s) (files s) (engine s) (rng s) (net s) (sessionToken s) (loggedUser s) (localKeys s) ps.

Definition on_console {X} (m : M Console X) : M (t E N) X := zoom console set_console m.
Definition on_files {X} (m : M Files X) : M (t E N) X := zoom files set_files m.
Definition on_engine {X} (m : M E X) : M (t E N) X := zoom engine set_engine m.
Definition on_rng {X} (m : M Rng X) : M (t E N) X := zoom rng set_rng m.
Definition on_net {X} (m : M N X) : M (t E N) X := zoom net set_net m.
Definition say (s : str) : M (t E N) unit := on_console (print s).

(** [std::cout << prompt; std::getline(std::cin, x);] *)
Definition ask (prompt : str) : M (t E N) str := on_console (_ ← print prompt; getline).
End Parts.

Section Menu.
Context {E N : Type} `{!OpenSSL E, !ITransport N}.
Local Abbreviation client := (M (t E N)).

(** [transport.sendFrame(f); if(transport.recvFrame(resp, ms)) ...]: the reply. *)
Definition exchange (f : Frame) (ms : Z) : client (option Frame) :=
  _ ← on_net (sendFrame f); on_net (recvFrame ms).

(** The new keys of a user: saved on file and cached. *)
Definition adopt_keys (user : str) : client unit :=
  kp ← on_engine KeyPair_generate;
  _ ← on_files (savePrivKey user (priv kp));
  _ ← modify (fun s => set_keys (<[user := kp]> (localKeys s)) s);
  modify (fun s => set_pubs (<[user := pub kp]> (pubCache s)) s).

Definition on_register : client unit :=
  user ← ask "Username: ";
  email ← ask "Email: ";
  pw ← ask "Password: ";
  yes ← on_console (askYesNo (("Register " : str) ++ user ++ ("?" : str)));
  if negb yes then mret tt else
  _ ← adopt_keys user;
  _ ← say (("Generated X25519 keypair for " : str) ++ user ++ (" (priv saved to " : str)
           ++ keyPathFor user ++ (" 0600)" : str) ++ newline);
  resp ← exchange (MkFrame MsgType.REGISTER 1 (encodeRegister user email pw)) 5000;
  match resp with
  | None => mret tt
  | Some r => on_console (if bool_decide (f_type r = MsgType.REGISTER) then printSafe (f_body r)
                          else printError (f_body r))
  end.

Definition on_login : client unit :=
  user ← ask "Username: ";
  pw ← ask "Password: ";
  resp ← exchange (MkFrame MsgType.AUTH 2 (encodeLogin user pw)) 5000;
  match resp with
  | None => mret tt
  | Some r =>
      if bool_decide (f_type r = MsgType.AUTH) then
        _ ← modify (set_session (f_body r) user);
        found ← on_files (loadPrivKey user);
        _ ← match found with
            | Some priv =>
                modify (fun s => match localKeys s !! user with
                                 | None => set_keys (<[user := MkKeyPair zeros32 priv]> (localKeys s)) s
                                 | Some _ => s
                                 end)
            | None =>
                _ ← adopt_keys user;
                say (("Generated new keypair for " : str) ++ user ++ (" (no prior key found)" : str)
                     ++ newline)
            end;
        _ ← on_console (printSafe (formatSafeAuthMessage AuditAction.LOGIN_OK user));
        say (("Session established (token not displayed)" : str) ++ newline)
      else
        on_console (printError (if bool_decide (f_body r = []) then "Login failed" else f_body r))
  end.

Definition on_logout : client unit :=
  s ← get;
  if bool_decide (sessionToken s = []) then on_console (printError "Not logged in") else
  resp ← exchange (MkFrame MsgType.LOGOUT 3 (sessionToken s)) 5000;
  match resp with
  | None => mret tt
  | Some r => _ ← on_console (printSafe (f_body r)); modify (set_session [] [])
  end.

(** [catch(const std::exception& e)]: every exception of the program is one. *)
Definition or_print (prefix : str) (m : client unit) : client unit :=
  try_catch m (fun e => on_console (printError (prefix ++ c_str (what e)))).

Definition CHUNK : Z := 1 * 1024 * 1024.

Definition is_ERR (f : Frame) : bool := bool_decide (f_type f = MsgType.ERR).

(** The loop over the chunks, from [offset]; each turn advances, so the number
    of bytes left bounds the turns. *)
Fixpoint send_chunks (fuel : nat) (uploadId cipher : str) (offset : Z) : client unit :=
  match fuel with
  | O => undef
  | S fuel' =>
      if offset <? zlen cipher then
        let n := Z.min CHUNK (zlen cipher - offset) in
        chunk ← liftO (slice cipher offset (offset + n));
        r ← exchange (MkFrame MsgType.UPLOAD_DATA 4
              (encodeUploadData (MkUploadData uploadId offset chunk))) 5000;
        if match r with None => true | Some f => is_ERR f end
        then on_console (printError "UPLOAD_DATA failed")
        else send_chunks fuel' uploadId cipher (offset + n)
      else mret tt
  end.

Definition commit_upload (uploadId : str) : client unit :=
  r ← exchange (MkFrame MsgType.UPLOAD_COMMIT 4 (put32be [] (u32 (zlen uploadId)) ++ uploadId)) 5000;
  match r with
  | None => mret tt
  | Some f => on_console (
      if bool_decide (f_type f = MsgType.UPLOAD_COMMIT)
      then printSafe (("UPLOAD ok transfer " : str) ++ f_body f)
      else printError (("UPLOAD COMMIT failed: " : str) ++ f_body f))
  end.

(** The file is encrypted before anything is sent. *)
Definition upload_file (filePath recipient : str) : client unit :=
  plain ← on_files (readFileBytes filePath);
  s ← get;
  match pubCache s !! recipient with
  | None => on_console (printError ("Recipient pubkey not cached — upload requires recipient pubkey. " ++
      "Do LIST or ensure recipient registered on this client."))
  | Some recipPub =>
      enc ← on_engine (encrypt plain (MkUserId recipient) recipPub);
      id ← on_rng generateUserId;
      let uploadId := uid_value id in
      let init := MkUploadInit recipient (filename filePath) uploadId (u64 (zlen plain))
                    (eo_digest enc) (eo_wrapped enc) in
      r ← exchange (MkFrame MsgType.UPLOAD_INIT 4 (encodeUploadInit init)) 5000;
      if match r with None => true | Some f => is_ERR f end
      then on_console (printError "UPLOAD_INIT failed") else
      _ ← send_chunks (S (length (cipher enc))) uploadId (cipher enc) 0;
      commit_upload uploadId
  end.

Definition on_upload : client unit :=
  s ← get;
  if bool_decide (sessionToken s = []) then on_console (printError "Not logged in") else
  filePath ← ask "PDF path: ";
  recipient ← ask "Recipient username: ";
  yes ← on_console (askYesNo (("Upload " : str) ++ filePath ++ (" for " : str) ++ recipient ++ ("?" : str)));
  if negb yes then mret tt else
  or_print "Upload error: " (upload_file filePath recipient).

(** A body that parses as an upload chunk is replaced by the chunk. *)
Definition unwrap (body : str) : outcome str :=
  if 4 <=? zlen body then
    match decodeUploadData body with
    | Ok d => Ok (ud_chunk d)
    | Throw _ => Ok body
    | Undef => Undef
    end
  else Ok body.

Definition save_download (outPath body : str) : client unit :=
  opaque ← liftO (unwrap body);
  s ← get;
  if bool_decide (loggedUser s = []) then on_console (printError "No logged user for privkey") else
  found ← on_files (loadPrivKey (loggedUser s));
  match found, localKeys s !! loggedUser s with
  | None, None => on_console (printError (("No privkey for " : str) ++ loggedUser s))
  | _, _ =>
      _ ← on_files (writeFileBytes outPath opaque);
      on_console (printSafe (("DOWNLOAD saved to " : str) ++ outPath ++
        (" (opaque, decrypt locally if you have wrapped/digest)" : str)))
  end.

(** The [try] of the download. *)
Definition download_file (fileId outPath : str) : client unit :=
  s ← get;
  r ← exchange (MkFrame MsgType.DOWNLOAD_REQ 5
        (encodeDownloadReq (MkDownloadReq fileId (sessionToken s)))) 10000;
  match r with
  | None => mret tt
  | Some f =>
      if bool_decide (f_type f = MsgType.DOWNLOAD_DATA) then save_download outPath (f_body f)
      else if is_ERR f then
        on_console (printError (("DOWNLOAD failed: " : str) ++
          (if bool_decide (f_body f = []) then ("denied" : str) else f_body f)))
      else on_console (printError "Unexpected reply")
  end.

Definition on_download : client unit :=
  s ← get;
  if bool_decide (sessionToken s = []) then on_console (printError "Not logged in") else
  fileId ← ask "FileId to download: ";
  out ← ask "Save as (path): ";
  let outPath := if bool_decide (out = []) then fileId ++ (".pdf" : str) else out in
  or_print "Download error: " (download_file fileId outPath).

Definition prompt : str :=
  ("1) Register  2) Login  3) Logout  4) Upload PDF  5) Download  6) Quit" : str) ++ newline ++ ("> " : str).

(** One turn of the menu: [true] when the user quits. *)
Definition turn : client bool :=
  c ← ask prompt;
  if bool_decide (c = lit "1") then _ ← on_register; mret false else
  if bool_decide (c = lit "2") then _ ← on_login; mret false else
  if bool_decide (c = lit "3") then _ ← on_logout; mret false else
  if bool_decide (c = lit "4") then _ ← on_upload; mret false else
  if bool_decide (c = lit "5") then _ ← on_download; mret false else
  mret (bool_decide (c = lit "6")).

(** At most [n] turns: [true] when the loop was left. *)
Fixpoint menu (n : nat) : client bool :=
  match n with
  | O => mret false
  | S n' => quit ← turn; if (quit : bool) then mret true else menu n'
  end.

(** The start of [run]: the connection, or the message that it failed. *)
Definition enter (ip : str) (port : Z) : client bool :=
  try_catch
    (_ ← on_net (connect ip port);
     _ ← say (ansi.green ++ ("Connected to " : str) ++ ip ++ (":" : str) ++ to_string port
              ++ (" with TLS verify_peer" : str) ++ ansi.reset ++ newline);
     mret true)
    (fun e =>
       _ ← on_console (printError (("TLS authentication failed: " : str) ++ c_str (what e)));
       _ ← say (formatSafeAuthMessage AuditAction.TLS_FAIL [] ++ newline);
       mret false).

(** [run] with its transport: [None] while the menu is still open after [n]
    turns. The transport is made in [Connect]. *)
Definition run (n : nat) (ip : str) (port : Z) : client (option Z) :=
  connected ← enter ip port;
  if negb connected then mret (Some 1) else
  left ← menu n;
  if (left : bool) then _ ← on_net close; mret (Some 0) else mret None.

(** ** The end of the input *)
Lemma turn_at_end (s : t E N) : cin (console s) = [] ->
  turn s = (Ok false, set_console (MkConsole [] (cout (console s) ++ prompt)) s).
Proof.
  intros Ec. assert (ask prompt s = (Ok [], set_console (MkConsole [] (cout (console s) ++ prompt)) s)) as Ea.
  { unfold ask, on_console, zoom. mred. cbn. by rewrite Ec. }
  unfold turn. by rewrite (M_bind_run _ _ _ _ _ Ea).
Qed.

(** C39: The menu does not notice the end of its input: from then on it never
    ends, sends nothing, and writes its prompt again at every turn, as many times
    as one cares to wait. *)
Theorem menu_never_ends n (s : t E N) : cin (console s) = [] ->
  menu n s = (Ok false, set_console (MkConsole [] (cout (console s) ++ concat (replicate n prompt))) s).
Proof.
  revert s. induction n as [|n IH]; intros s Ec.
  - destruct s as [[i o] ? ? ? ? ? ? ? ?]. cbn in *. rewrite Ec, app_nil_r. done.
  - cbn [menu]. rewrite (M_bind_run _ _ _ _ _ (turn_at_end s Ec)), IH by done. cbn.
    by rewrite <-app_assoc.
Qed.
End Menu.
End ClientApp.
