(* ===== verification/EndToEnd.v ===== *)
(** * The client against the server

    The client's transport connected to the server's request loop: a frame that
    is sent is handled, and the replies are read in order. The theorem follows an
    upload from the file on the client's disk to the call of the transfer service
    on the server. *)
From S2P Require Import Prelude Domain Framing Protocol Ports Storage Cli Transfer Server Crypto Client.
From Stdlib Require Import ZArith Lia.
From stdpp Require Import base gmap strings list numbers.
Local Open Scope Z_scope.

(** ** A connection between the two

    [taken] counts the replies already read. The receive loops drop what is
    longer than a frame may be ([Framing.tls_recvFrame_oversize]), and a handler
    that throws ends the connection: then nothing is handled any more. *)
Record Line (W : Type) := MkLine { far : ServerApp.Serving W; taken : nat; alive : bool }.
Arguments MkLine {W}. Arguments far {W}. Arguments taken {W}. Arguments alive {W}.

Definition passes (f : Frame) : bool := zlen (f_body f) + 5 <=? max_frame.

Section Wire.
Context {R H S A St K F T : Type}.
Context `{!IUserRepository R, !IPasswordHasher H, !ISessionStore S, !IAuditLogger A, !IStorage St,
          !IKeyDirectory K, !IFileRepository F, !ITransferRepository T, !IFileValidator}.
Local Abbreviation W := (World R H S A St K F T).
Local Abbreviation serving := (ServerApp.Serving (World R H S A St K F T)).

Definition line_send (f : Frame) : M (Line W) unit := fun l =>
  if negb (alive l) then (Throw (RuntimeError "write failed"), l)
  else if negb (passes f) then (Ok tt, MkLine (far l) (taken l) false)
  else match ServerApp.handle f (far l) with
       | (Ok _, s') => (Ok tt, MkLine s' (taken l) true)
       | (Throw _, s') => (Ok tt, MkLine s' (taken l) false)
       | (Undef, s') => (Undef, MkLine s' (taken l) false)
       end.

Definition line_recv (ms : Z) : M (Line W) (option Frame) := fun l =>
  match ServerApp.sent (ServerApp.link (far l)) !! taken l with
  | Some f => (Ok (if passes f then Some f else None), MkLine (far l) (Datatypes.S (taken l)) (alive l))
  | None => (Ok None, l)
  end.

#[export] Instance line_transport : ITransport (Line W) := {
  connect := fun _ _ => mret tt;
  sendFrame := line_send;
  recvFrame := line_recv;
  close := modify (fun l => MkLine (far l) (taken l) false)
}.

(** Both ends are up and the client has read every reply. *)
Definition synced (l : Line W) : Prop :=
  alive l = true /\ taken l = length (ServerApp.sent (ServerApp.link (far l))) /\
  ServerApp.up (ServerApp.link (far l)).

(** ** The announcement, on the server *)
Lemma serve_clock (s : serving) : ServerApp.on_world (on_core (on_clock nowMs)) s =
  (Ok (time (core (ServerApp.world s))), ServerApp.set_world (TransferService.ticked (ServerApp.world s)) s).
Proof. done. Qed.

Lemma serve_sessions {X} (f : S -> outcome X) (s : serving) :
  ServerApp.on_world (on_core (from_sessions f)) s = (f (sessions (core (ServerApp.world s))), s).
Proof. by destruct s as [[[] ? ? ? ?] ? ? ? ? ?]. Qed.

Lemma decode_init p : UploadInit_ok p -> alg (ui_wrapped p) <> [] -> zlen (encodeUploadInit p) <= max_object ->
  decodeUploadInit (encodeUploadInit p) = Ok p.
Proof.
  intros Hp Ha Hl. apply decodeUploadInit_iff; [exact Hl|]. exists p, [].
  split; [exact Hp|]. rewrite app_nil_r. split; [done|].
  unfold UploadInit_norm. rewrite bool_decide_eq_false_2 by done. by destruct p as [? ? ? ? ? []].
Qed.

(** The session the connection logged in with is accepted by the server. *)
Definition welcome (tok : SessionId) (w : W) : Prop :=
  isValid tok (time (core w)) (sessions (core w)) = Ok true /\
  findByToken tok (sessions (core w)) <> Undef.

Lemma handle_init rid p (s : serving) :
  ServerApp.up (ServerApp.link s) -> decodeUploadInit (encodeUploadInit p) = Ok p ->
  ServerApp.connToken s <> [] -> welcome (MkSessionId (ServerApp.connToken s)) (ServerApp.world s) ->
  validate (ui_origName p) (ui_size p) "%PDF-1.4" = Ok tt ->
  exists s', ServerApp.handle (MkFrame MsgType.UPLOAD_INIT rid (encodeUploadInit p)) s = (Ok tt, s')
    /\ ServerApp.world s' = TransferService.ticked (ServerApp.world s)
    /\ ServerApp.pendingInit s' = <[ui_uploadId p := p]> (ServerApp.pendingInit s)
    /\ ServerApp.pendingData s' = <[ui_uploadId p := []]> (ServerApp.pendingData s)
    /\ ServerApp.connToken s' = ServerApp.connToken s
    /\ ServerApp.up (ServerApp.link s')
    /\ ServerApp.sent (ServerApp.link s') =
       ServerApp.sent (ServerApp.link s) ++ [MkFrame MsgType.UPLOAD_INIT rid "ok"].
Proof.
  intros Hs Hd Htok [Hv Hf] Hval. unfold ServerApp.handle. cbn [f_type].
  match goal with |- exists s', ?m s = _ /\ _ =>
    change m with (ServerApp.on_upload_init (MkFrame MsgType.UPLOAD_INIT rid (encodeUploadInit p))
                   : M serving unit) end.
  unfold ServerApp.on_upload_init, ServerApp.or_err, try_catch at 1. cbn [f_body requestId].
  rewrite Hd, M_bind_eq. unfold liftO at 1. rewrite M_bind_eq. unfold get at 1.
  rewrite bool_decide_eq_false_2 by done.
  rewrite (M_bind_run _ _ _ _ _ (serve_clock s)).
  set (s1 := ServerApp.set_world (TransferService.ticked (ServerApp.world s)) s).
  assert (ServerApp.on_world (on_core (from_sessions (isValid (MkSessionId (ServerApp.connToken s))
    (time (core (ServerApp.world s)))))) s1 = (Ok true, s1)) as E1.
  { rewrite serve_sessions. f_equal. exact Hv. }
  rewrite (M_bind_run _ _ _ _ _ E1). cbn [negb]. rewrite Hval.
  rewrite (M_bind_run _ _ _ None s1) by done.
  rewrite M_bind_eq. unfold modify at 1. rewrite M_bind_eq. unfold modify at 1.
  match goal with |- context [ServerApp.set_pendingData ?a ?b] => set (s2 := ServerApp.set_pendingData a b) end.
  match goal with |- context [try_catch ?m ?h ≫= ?k] =>
    assert (exists who, try_catch m h s2 = (Ok who, s2)) as [who E2] end.
  { unfold try_catch. rewrite M_bind_eq, serve_sessions.
    change (sessions (core (ServerApp.world s2))) with (sessions (core (ServerApp.world s))).
    destruct (findByToken _ _) as [r|e|]; [|by eexists|done].
    destruct (result_get r); by eexists. }
  rewrite (M_bind_run _ _ _ _ _ E2). rewrite M_bind_eq.
  unfold ServerApp.say at 1, ServerApp.on_console at 1, zoom at 1, printSafe at 1, print at 1, modify at 1.
  rewrite ServerApp.reply_up by exact Hs. eexists. split; [reflexivity|]. by split_and!.
Qed.

(** ** One exchange, and the loop over the chunks *)
Section Client.
Context {E : Type} `{!OpenSSL E, !OpenSSLLaws E}.
Local Abbreviation user := (ClientApp.t E (Line (World R H S A St K F T))).
Import ClientApp (net, set_net, exchange, send_chunks, CHUNK).

Lemma set_net_same (s : user) : set_net (net s) s = s.
Proof. by destruct s. Qed.

Lemma exchange_reply (s : user) f ms s' r :
  synced (net s) -> passes f = true -> passes r = true ->
  ServerApp.handle f (far (net s)) = (Ok tt, s') -> ServerApp.up (ServerApp.link s') ->
  ServerApp.sent (ServerApp.link s') = ServerApp.sent (ServerApp.link (far (net s))) ++ [r] ->
  let l := MkLine s' (Datatypes.S (taken (net s))) true in
  exchange f ms s = (Ok (Some r), set_net l s) /\ synced l.
Proof.
  intros (Ha & Ht & Hu) Hf Hr Eh Hu' Hsent l. split.
  - unfold exchange. rewrite M_bind_eq. unfold ClientApp.on_net at 1, zoom at 1.
    cbn [sendFrame line_transport]. unfold line_send at 1. rewrite Ha, Hf, Eh. cbn [negb].
    unfold ClientApp.on_net at 1, zoom at 1. cbn [recvFrame line_transport net set_net].
    unfold line_recv at 1. cbn [far taken alive].
    rewrite Hsent, Ht, list_lookup_middle by done. by rewrite Hr, <-Ht.
  - split_and!; [done| |exact Hu']. cbn. rewrite Hsent, Ht, length_app. cbn. lia.
Qed.

(** What the steps of an upload leave alone on the server. *)
Definition untouched (l l' : Line W) : Prop :=
  ServerApp.world (far l') = ServerApp.world (far l) /\
  ServerApp.pendingInit (far l') = ServerApp.pendingInit (far l) /\
  ServerApp.connToken (far l') = ServerApp.connToken (far l).

Lemma zlen_data_frame rid id off c : zlen (f_body (ServerApp.data_frame rid id off c)) = zlen id + zlen c + 16.
Proof.
  unfold ServerApp.data_frame, encodeUploadData. cbn [f_body ud_uploadId ud_offset ud_chunk].
  rewrite put_bytes_field, put64be_bytes, put_field, !zlen_app, zlen_be_bytes, !ServerApp.zlen_field.
  change (zlen []) with 0. lia.
Qed.

Lemma chunks_arrive id fuel : zlen id <= 1000 -> forall rest got (s : user),
  (length rest < fuel)%nat -> synced (net s) -> zlen (got ++ rest) < 2 ^ 62 ->
  ServerApp.pendingData (far (net s)) !! id = Some got ->
  exists l, send_chunks fuel id (got ++ rest) (zlen got) s = (Ok tt, set_net l s)
    /\ synced l /\ untouched (net s) l
    /\ ServerApp.pendingData (far l) = <[id := got ++ rest]> (ServerApp.pendingData (far (net s))).
Proof.
  intros Hid. induction fuel as [|fuel IH]; intros rest got s Hfuel Hsync Hmax Hgot; [lia|].
  cbn [send_chunks]. pose proof (zlen_nonneg got). pose proof (zlen_nonneg id).
  destruct (decide (rest = [])) as [->|Hrest].
  { rewrite app_nil_r, Z.ltb_irrefl. exists (net s). rewrite set_net_same.
    split; [done|]. split; [done|]. split; [done|]. by rewrite insert_id. }
  assert (0 < zlen rest) as Hpos by (destruct rest; [done|unfold zlen; simpl; lia]).
  rewrite (proj2 (Z.ltb_lt _ _)) by (rewrite zlen_app; lia).
  set (n := Z.min CHUNK _). assert (0 < n <= zlen rest /\ n <= CHUNK) as [Hn Hc].
  { unfold n. rewrite zlen_app. unfold CHUNK. lia. }
  destruct (zsplit_at n rest ltac:(lia)) as (c & rest' & -> & Hl).
  assert (slice (got ++ c ++ rest') (zlen got) (zlen got + n) = Ok c) as -> by (rewrite <-Hl; apply slice_app).
  rewrite M_bind_eq. cbn [liftO].
  assert (zlen c < 2 ^ 32) by (unfold CHUNK in Hc; lia). rewrite !zlen_app in Hmax.
  pose proof (zlen_nonneg rest').
  pose proof (ServerApp.handle_chunk 4 id c (far (net s)) got (proj2 (proj2 Hsync)) Hgot
    ltac:(unfold fits; lia) ltac:(done) ltac:(lia)) as Eh.
  match type of Eh with _ = (_, ?x) => set (s1 := x) in * end.
  destruct (exchange_reply s (ServerApp.data_frame 4 id (zlen got) c) 5000 s1
    (MkFrame MsgType.UPLOAD_DATA 4 "ok") Hsync) as [Ex Hsync1];
    [|done|exact Eh|exact (proj2 (proj2 Hsync))|done|].
  { unfold passes. rewrite zlen_data_frame. apply Z.leb_le. unfold CHUNK, max_frame in *. lia. }
  unfold ServerApp.data_frame in Ex. rewrite (M_bind_run _ _ _ _ _ Ex). change (ClientApp.is_ERR _) with false.
  cbn iota.
  set (l1 := MkLine s1 _ true) in *.
  destruct (IH rest' (got ++ c) (set_net l1 s)) as (l & El & Hsl & Hul & Hdl).
  - rewrite length_app in Hfuel. unfold zlen in Hl. lia.
  - exact Hsync1.
  - rewrite !zlen_app. lia.
  - apply lookup_insert_eq.
  - exists l. rewrite <-!app_assoc, zlen_app, Hl in *. split; [exact El|].
    split; [exact Hsl|]. split; [exact Hul|]. rewrite Hdl. apply insert_insert_eq.
Qed.

(** ** The upload of the menu *)
Import ClientApp (console, files, engine, rng, sessionToken, pubCache, set_console, set_files,
  set_engine, set_rng, filename).

Lemma ask_run p x r (s : user) : cin (console s) = x :: r ->
  ClientApp.ask p s = (Ok x, set_console (MkConsole r (cout (console s) ++ p)) s).
Proof. intros Ec. unfold ClientApp.ask, ClientApp.on_console, zoom. mred. cbn. by rewrite Ec. Qed.

Lemma yes_run p r (s : user) : cin (console s) = lit "y" :: r ->
  ClientApp.on_console (askYesNo p) s =
    (Ok true, set_console (MkConsole r (cout (console s) ++ p ++ (" [y/N] " : str))) s).
Proof.
  intros Ec. unfold ClientApp.on_console, zoom, askYesNo. mred. cbn. by rewrite Ec.
Qed.

Lemma generateUserId_short r : exists id r', generateUserId r = (Ok (MkUserId id), r')
  /\ id <> [] /\ zlen id <= 36.
Proof.
  destruct (generateUserId_ok r) as (b & r' & Hb & Eg). eexists _, r'. split; [exact Eg|].
  split; [destruct b; [discriminate Hb|discriminate]|].
  unfold zlen. rewrite !length_app, !length_take. change (length (lit "-")) with 1%nat. lia.
Qed.

Lemma zlen_encodeUploadInit p : zlen (encodeUploadInit p) =
  zlen (ui_recipient p) + zlen (ui_origName p) + zlen (ui_uploadId p) + zlen (d_bytes (ui_digest p))
  + zlen (uid_value (recipientId (ui_wrapped p))) + zlen (nonce (ui_wrapped p))
  + zlen (wk_bytes (ui_wrapped p)) + zlen (alg (ui_wrapped p)) + 36.
Proof. rewrite encodeUploadInit_layout, !zlen_app, zlen_be_bytes, !ServerApp.zlen_field. lia. Qed.

(** The announcement of an encrypted file is well formed and fits a frame. *)
Lemma announcement (plain recipient name id b : str) out :
  authentic b (cipher out) (eo_wrapped out) (eo_digest out) ->
  recipientId (eo_wrapped out) = MkUserId recipient ->
  alg (eo_wrapped out) = lit "X25519-AES-GCM-Seal" ->
  zlen recipient <= 2 ^ 20 -> zlen name <= 2 ^ 20 -> zlen id <= 36 -> zlen plain < 2 ^ 31 ->
  let p := MkUploadInit recipient name id (u64 (zlen plain)) (eo_digest out) (eo_wrapped out) in
  passes (MkFrame MsgType.UPLOAD_INIT 4 (encodeUploadInit p)) = true /\
  decodeUploadInit (encodeUploadInit p) = Ok p /\ ui_size p = zlen plain.
Proof.
  intros (Hn & Hw & _ & _ & Hd) Hr Ha Hlr Hln Hid Hp p.
  assert (zlen (d_bytes (eo_digest out)) = 32) as Hdl.
  { rewrite <-Hd. unfold zlen. cbn. by rewrite SHA256_length. }
  assert (u64 (zlen plain) = zlen plain) as Hu.
  { unfold u64. pose proof (zlen_nonneg plain). apply Z.mod_small. lia. }
  pose proof (zlen_encodeUploadInit p) as Hlen. cbn [ui_recipient ui_origName ui_uploadId ui_size
    ui_digest ui_wrapped p] in Hlen. rewrite Hr, Ha, Hdl in Hlen. cbn [uid_value] in Hlen.
  change (zlen (lit "X25519-AES-GCM-Seal")) with 19 in Hlen.
  assert (zlen (nonce (eo_wrapped out)) = 12) as Hzn by (unfold zlen; by rewrite Hn).
  assert (zlen (wk_bytes (eo_wrapped out)) = 64) as Hzw by (unfold zlen; by rewrite Hw).
  rewrite Hzn, Hzw in Hlen. split; [|split; [|exact Hu]].
  - unfold passes. cbn [f_body]. rewrite Hlen. apply Z.leb_le. unfold max_frame. lia.
  - apply decode_init; [| |unfold max_object; lia].
    + unfold UploadInit_ok, fits, p. cbn. rewrite Hr, Ha, Hdl, Hu, Hzn, Hzw.
      pose proof (zlen_nonneg plain). change (zlen (lit "X25519-AES-GCM-Seal")) with 19.
      cbn [uid_value]. repeat split; lia.
    + cbn. rewrite Ha. discriminate.
Qed.

(** What the server's service is asked for, at the second reading of its clock
    after the announcement's. *)
Definition asked (l : Line W) (recipient name id : str) (size : Z) (out : EncryptOut) :=
  TransferService.upload TransferService.full_wiring (MkSessionId (ServerApp.connToken (far l)))
    recipient name (cipher out) id size (eo_digest out) (eo_wrapped out)
    (TransferService.ticked (TransferService.ticked (ServerApp.world (far l)))).

(** The server is ready for an upload over [l]: logged in, now and at the commit. *)
Record ready (l : Line W) : Prop := {
  rd_synced : synced l;
  rd_token : ServerApp.connToken (far l) <> [];
  rd_welcome : welcome (MkSessionId (ServerApp.connToken (far l))) (ServerApp.world (far l));
  rd_still : welcome (MkSessionId (ServerApp.connToken (far l)))
               (TransferService.ticked (ServerApp.world (far l)))
}.

(** The commit, after the chunks. *)
Lemma commit_arrives id init data (s : user) t w' :
  synced (net s) -> id <> [] -> zlen id <= 1000 ->
  ServerApp.pendingInit (far (net s)) !! id = Some init ->
  ServerApp.pendingData (far (net s)) !! id = Some data ->
  ServerApp.connToken (far (net s)) <> [] ->
  welcome (MkSessionId (ServerApp.connToken (far (net s)))) (ServerApp.world (far (net s))) ->
  TransferService.upload TransferService.full_wiring (MkSessionId (ServerApp.connToken (far (net s))))
    (ui_recipient init) (ui_origName init) data (ui_uploadId init) (ui_size init)
    (ui_digest init) (ui_wrapped init) (TransferService.ticked (ServerApp.world (far (net s))))
    = (Ok (success t), w') ->
  zlen (tid_value (t_id t)) <= 2 ^ 20 ->
  exists s', ClientApp.commit_upload id s = (Ok tt, s') /\ ServerApp.world (far (net s')) = w'
    /\ cout (console s') = cout (console s) ++ ansi.green ++
        (("UPLOAD ok transfer " : str) ++ tid_value (t_id t)) ++ ansi.reset ++ newline.
Proof.
  intros Hsync Hid Hl Hin Hda Htok [Hv _] Hup Htid.
  destruct (ServerApp.handle_commit 4 id init data (far (net s)) t w' (proj2 (proj2 Hsync)) Hid
    ltac:(lia) Hin Hda Htok Hv Hup) as (s1 & Eh & Hw & _ & _ & Hsent).
  pose proof (ServerApp.handle_once (ServerApp.commit_frame 4 id) (far (net s)) (proj2 (proj2 Hsync))) as Ho.
  rewrite Eh in Ho. destruct Ho as [Hu1 _].
  destruct (exchange_reply s (ServerApp.commit_frame 4 id) 5000 s1
    (MkFrame MsgType.UPLOAD_COMMIT 4 (tid_value (t_id t))) Hsync) as [Ex _]; [| |exact Eh|exact Hu1|exact Hsent|].
  { unfold passes, ServerApp.commit_frame. cbn [f_body]. rewrite put_field, zlen_app, ServerApp.zlen_field.
    change (zlen []) with 0. apply Z.leb_le. unfold max_frame. lia. }
  { unfold passes. cbn [f_body]. apply Z.leb_le. unfold max_frame. lia. }
  eexists. split; [|split].
  - unfold ClientApp.commit_upload. unfold ServerApp.commit_frame in Ex.
    change (put32be [] (u32 (zlen id)) ++ id) with (putStringWithLen [] id).
    rewrite (M_bind_run _ _ _ _ _ Ex). reflexivity.
  - exact Hw.
  - reflexivity.
Qed.

Lemma upload_file_arrives (s : user) filePath recipient plain b fs' :
  reliable (engine s) -> ready (net s) ->
  ClientApp.readFileBytes filePath (files s) = (Ok plain, fs') ->
  pubCache s !! recipient = Some (x_pub b) -> length b = 32%nat -> zlen plain < 2 ^ 31 - 16 ->
  zlen recipient <= 2 ^ 20 -> zlen (filename filePath) <= 2 ^ 20 ->
  validate (filename filePath) (zlen plain) "%PDF-1.4" = Ok tt ->
  exists id out,
    (generateUserId (rng s)).1 = Ok (MkUserId id) /\
    (encrypt plain (MkUserId recipient) (x_pub b) (engine s)).1 = Ok out /\
    (forall e, reliable e -> exists e', decryptAndVerify_vec (cipher out) (eo_wrapped out) (eo_digest out) b e
                                        = (Ok plain, e')) /\
    forall t w', asked (net s) recipient (filename filePath) id (zlen plain) out = (Ok (success t), w') ->
      zlen (tid_value (t_id t)) <= 2 ^ 20 ->
      exists s', ClientApp.upload_file filePath recipient s = (Ok tt, s')
        /\ ServerApp.world (far (net s')) = w'
        /\ cout (console s') = cout (console s) ++ ansi.green ++
            (("UPLOAD ok transfer " : str) ++ tid_value (t_id t)) ++ ansi.reset ++ newline.
Proof.
  intros He [Hsync Htok Hwel Hstill] Hread Hpub Hb Hp Hlr Hln Hval.
  destruct (does_run _ _ _ (engine s) (doEncrypt_does plain (MkUserId recipient) b ltac:(lia) Hb) He I)
    as (out & e1 & Eenc & (Hauth & Hopens & Hlen & Hrid & Halg & Hdec) & _).
  destruct (generateUserId_short (rng s)) as (id & r1 & Eid & Hid & Hidl).
  exists id, out. split; [by rewrite Eid|]. split; [unfold encrypt; by rewrite Eenc|]. split.
  { intros e Hre. assert (zlen (cipher out) < 2 ^ 31) as Hc by (unfold zlen in *; lia).
    destruct (does_run _ _ _ e (decryptAndVerify_does (cipher out) (eo_wrapped out) (eo_digest out)
      b Hc Hb) Hre (conj Hauth Hopens)) as (p4 & e4 & E4 & [_ Hp4] & _).
    exists e4. unfold decryptAndVerify_vec, zlen. rewrite Hb. simpl. rewrite E4, Hp4, Hdec. done. }
  intros t w' Hup Htid.
  destruct (announcement plain recipient (filename filePath) id b out Hauth Hrid Halg Hlr Hln Hidl
    ltac:(lia)) as (Hpass & Hdcd & Hsz).
  match type of Hsz with ui_size ?x = _ => set (p := x) in * end.
  set (s3 := set_rng r1 (set_engine e1 (set_files fs' s))).
  destruct (handle_init 4 p (far (net s)) (proj2 (proj2 Hsync)) Hdcd Htok Hwel
    ltac:(by rewrite Hsz)) as (f1 & Eh & Hw1 & Hi1 & Hd1 & Ht1 & Hu1 & Hs1).
  destruct (exchange_reply s3 _ 5000 f1 (MkFrame MsgType.UPLOAD_INIT 4 "ok") Hsync Hpass
    eq_refl Eh Hu1 Hs1) as [Ex Hsync1].
  match type of Ex with _ = (_, set_net ?x _) => set (l1 := x) in * end.
  destruct (chunks_arrive id (Datatypes.S (length (cipher out))) ltac:(lia) (cipher out) []
    (set_net l1 s3)) as (l2 & Ech & Hsync2 & (Hw2 & Hi2 & Ht2) & Hd2).
  { lia. } { exact Hsync1. } { cbn. unfold zlen in *. lia. }
  { cbn. rewrite Hd1. apply lookup_insert_eq. }
  cbn [net set_net far] in Hw2, Hi2, Ht2, Hd2. cbn [far l1] in Hw2, Hi2, Ht2, Hd2.
  destruct (commit_arrives id p (cipher out) (set_net l2 (set_net l1 s3)) t w') as (s' & Ec & Hwf & Hout).
  { exact Hsync2. } { exact Hid. } { lia. }
  { cbn. rewrite Hi2, Hi1. apply lookup_insert_eq. }
  { cbn. rewrite Hd2. apply lookup_insert_eq. }
  { cbn. by rewrite Ht2, Ht1. }
  { cbn. rewrite Ht2, Ht1, Hw2, Hw1. exact Hstill. }
  { cbn [net set_net]. rewrite Ht2, Ht1, Hw2, Hw1, Hsz. exact Hup. }
  { exact Htid. }
  exists s'. split; [|split; [exact Hwf|exact Hout]].
  unfold ClientApp.upload_file.
  rewrite (M_bind_run _ _ s plain (set_files fs' s)) by (by apply zoom_run).
  rewrite M_bind_eq. unfold get at 1. cbn [pubCache set_files]. rewrite Hpub.
  rewrite (M_bind_run _ _ _ out (set_engine e1 (set_files fs' s))) by (by apply zoom_run).
  rewrite (M_bind_run _ _ _ (MkUserId id) s3) by (by apply zoom_run).
  cbv zeta. cbn [uid_value]. fold p. rewrite (M_bind_run _ _ _ _ _ Ex).
  change (ClientApp.is_ERR _) with false. cbn iota. change (zlen []) with 0 in Ech. cbn [app] in Ech.
  rewrite (M_bind_run _ _ _ _ _ Ech). exact Ec.
Qed.

(** C14: An upload arrives, sealed: when a logged-in user types the path of a
    readable PDF, the name of a recipient whose key is cached and a yes, the
    client announces, cuts, sends and commits the file so that the server calls
    its transfer service on exactly the ciphertext the client made, under the
    recipient, file name, size, digest and wrapped key it made and the identifier
    it drew; if the service accepts it, the server's world is the service's
    and the user reads the transfer's identifier. What the service is given opens,
    with the recipient's private key, to exactly the bytes of the file. *)
Theorem upload_end_to_end (s : user) filePath recipient rest plain b fs' :
  reliable (engine s) -> ready (net s) -> sessionToken s <> [] ->
  cin (console s) = filePath :: recipient :: lit "y" :: rest ->
  ClientApp.readFileBytes filePath (files s) = (Ok plain, fs') ->
  pubCache s !! recipient = Some (x_pub b) -> length b = 32%nat -> zlen plain < 2 ^ 31 - 16 ->
  zlen recipient <= 2 ^ 20 -> zlen (filename filePath) <= 2 ^ 20 ->
  validate (filename filePath) (zlen plain) "%PDF-1.4" = Ok tt ->
  exists id out,
    (generateUserId (rng s)).1 = Ok (MkUserId id) /\
    (encrypt plain (MkUserId recipient) (x_pub b) (engine s)).1 = Ok out /\
    (forall e, reliable e -> exists e', decryptAndVerify_vec (cipher out) (eo_wrapped out) (eo_digest out) b e
                                        = (Ok plain, e')) /\
    forall t w', asked (net s) recipient (filename filePath) id (zlen plain) out = (Ok (success t), w') ->
      zlen (tid_value (t_id t)) <= 2 ^ 20 ->
      exists s' before, ClientApp.on_upload s = (Ok tt, s')
        /\ ServerApp.world (far (net s')) = w'
        /\ cout (console s') = before ++ ansi.green ++
            (("UPLOAD ok transfer " : str) ++ tid_value (t_id t)) ++ ansi.reset ++ newline.
Proof.
  intros He Hrd Htok Hcin Hread Hpub Hb Hp Hlr Hln Hval.
  pose proof (ask_run "PDF path: " _ _ s Hcin) as A1.
  match type of A1 with _ = (_, ?x) => set (s1 := x) in * end.
  pose proof (ask_run "Recipient username: " recipient (lit "y" :: rest) s1 eq_refl) as A2.
  match type of A2 with _ = (_, ?x) => set (s2 := x) in * end.
  pose proof (yes_run (("Upload " : str) ++ filePath ++ (" for " : str) ++ recipient ++ ("?" : str)) rest s2 eq_refl) as A3.
  match type of A3 with _ = (_, ?x) => set (s3 := x) in * end.
  destruct (upload_file_arrives s3 filePath recipient plain b fs' He Hrd Hread Hpub Hb Hp Hlr Hln Hval)
    as (id & out & Hid & Henc & Hopen & Hrun).
  exists id, out. split; [exact Hid|]. split; [exact Henc|]. split; [exact Hopen|]. intros t w' Hup Htid.
  destruct (Hrun t w' Hup Htid) as (s' & Er & Hw & Hout).
  exists s', (cout (console s3)). split; [|split; [exact Hw|exact Hout]].
  unfold ClientApp.on_upload. rewrite M_bind_eq. unfold get at 1. rewrite bool_decide_eq_false_2 by done.
  rewrite (M_bind_run _ _ _ _ _ A1), (M_bind_run _ _ _ _ _ A2), (M_bind_run _ _ _ _ _ A3).
  cbn [negb]. unfold ClientApp.or_print, try_catch. by rewrite Er.
Qed.
End Client.
End Wire.
