(* ===== verification/Downloads.v ===== *)
(** * A download of the client against the server

    The connection of [EndToEnd], for the fifth request of the menu: from the
    identifier the user types to the bytes on the client's disk or the message
    of the refusal. *)
From S2P Require Import Prelude Domain Framing Protocol Ports Storage Cli Transfer Server Crypto Client EndToEnd.
From Stdlib Require Import ZArith Lia.
From stdpp Require Import base gmap strings list numbers.
Local Open Scope Z_scope.

Import ClientApp (console, files, net, sessionToken, loggedUser, localKeys, set_console, set_files, set_net).

(** ** The client's files while no system call fails *)
Definition calm (d : ClientApp.Files) : Prop :=
  forall n, BinaryFileStorage.fails (BinaryFileStorage.fault d n) = false.

Lemma loadPrivKey_calm user d : calm d ->
  exists k d', ClientApp.loadPrivKey user d = (Ok k, d') /\ calm d' /\
    BinaryFileStorage.disk d' = BinaryFileStorage.disk d.
Proof.
  intros Hc. unfold ClientApp.loadPrivKey, ClientApp.open_read, BinaryFileStorage.syscall, get.
  rewrite M_bind_eq. rewrite M_bind_eq. rewrite M_bind_eq. cbn. rewrite Hc.
  destruct (_ !! _) as [x|].
  - rewrite M_bind_eq. cbn. rewrite Hc. eexists _, _. split; [reflexivity|]. by split.
  - eexists _, _. split; [reflexivity|]. by split.
Qed.

Lemma writeFileBytes_calm p x d : calm d ->
  exists d', ClientApp.writeFileBytes p x d = (Ok tt, d') /\
    BinaryFileStorage.disk d' = <[p := x]> (BinaryFileStorage.disk d).
Proof.
  intros Hc. unfold ClientApp.writeFileBytes, BinaryFileStorage.open_trunc, BinaryFileStorage.ofs_write,
    BinaryFileStorage.syscall, BinaryFileStorage.set_disk, modify.
  repeat (rewrite M_bind_eq; cbn -[take]; rewrite ?Hc; cbn -[take]).
  eexists. split; [reflexivity|]. cbn -[take]. by rewrite !insert_insert_eq.
Qed.

(** A write that fails goes unnoticed: the stream is not asked afterwards, and
    the file holds what came before the failure. *)
Lemma writeFileBytes_unnoticed p x d :
  BinaryFileStorage.fails (BinaryFileStorage.fault d (BinaryFileStorage.calls d)) = false ->
  BinaryFileStorage.fails (BinaryFileStorage.fault d (Datatypes.S (BinaryFileStorage.calls d))) = true ->
  exists d', ClientApp.writeFileBytes p x d = (Ok tt, d') /\
    BinaryFileStorage.disk d' !! p =
      Some (take (BinaryFileStorage.partial (BinaryFileStorage.fault d (Datatypes.S (BinaryFileStorage.calls d)))) x).
Proof.
  intros Ho Hw. unfold ClientApp.writeFileBytes, BinaryFileStorage.open_trunc, BinaryFileStorage.ofs_write,
    BinaryFileStorage.syscall, BinaryFileStorage.set_disk, modify.
  repeat (rewrite M_bind_eq; cbn -[take]; rewrite ?Ho, ?Hw; cbn -[take]).
  eexists. split; [reflexivity|]. apply lookup_insert_eq.
Qed.

(** ** What is saved *)
Lemma decodeUploadData_safe b : zlen b <= max_object -> accepts_or_rejects (decodeUploadData b).
Proof. intros Hb. read_safe decodeUploadData b. Qed.

(** A body that is no upload chunk is saved as it is. *)
Lemma unwrap_whole x : zlen x <= max_object -> (forall c, decodeUploadData x <> Ok c) ->
  ClientApp.unwrap x = Ok x.
Proof.
  intros Hl Hn. unfold ClientApp.unwrap. destruct (_ <=? _); [|done].
  pose proof (decodeUploadData_safe x Hl) as Hs. destruct (decodeUploadData x) as [c| |]; [|done..].
  by destruct (Hn c).
Qed.

Lemma request_decodes fileId tok : zlen fileId <= 2 ^ 20 -> zlen tok <= 2 ^ 20 ->
  decodeDownloadReq (encodeDownloadReq (MkDownloadReq fileId tok)) = Ok (MkDownloadReq fileId tok) /\
  zlen (encodeDownloadReq (MkDownloadReq fileId tok)) <= 2 ^ 22 - 5.
Proof.
  intros Hf Ht.
  assert (zlen (encodeDownloadReq (MkDownloadReq fileId tok)) = zlen fileId + zlen tok + 8) as Hl.
  { unfold encodeDownloadReq. cbn [dr_fileId dr_token]. rewrite !put_field, !zlen_app, !ServerApp.zlen_field.
    change (zlen []) with 0. lia. }
  split; [|lia]. apply decodeDownloadReq_iff; [unfold max_object; lia|].
  split; [unfold fits; lia|]. split; [unfold fits; lia|]. exists []. by rewrite app_nil_r.
Qed.

(** ** The server's answer *)
Section Download.
Context {R H S A St K F T : Type}.
Context `{!IUserRepository R, !IPasswordHasher H, !ISessionStore S, !IAuditLogger A, !IStorage St,
          !IKeyDirectory K, !IFileRepository F, !ITransferRepository T, !IFileValidator}.
Local Abbreviation W := (World R H S A St K F T).
Local Abbreviation serving := (ServerApp.Serving (World R H S A St K F T)).

(** What the service says becomes the type and the body of the answer. *)
Definition answer (o : outcome (Result str)) : option (MsgType * str) :=
  match o with
  | Ok r => if ok r then option_map (fun x => (MsgType.DOWNLOAD_DATA, x)) (value r)
            else Some (MsgType.ERR, error r)
  | Throw _ => Some (MsgType.ERR, [])
  | Undef => None
  end.

Lemma handle_download rid fileId tok (s : serving) o w' ty body :
  ServerApp.up (ServerApp.link s) -> tok <> [] -> zlen fileId <= 2 ^ 20 -> zlen tok <= 2 ^ 20 ->
  TransferService.download TransferService.full_wiring (MkSessionId tok) (MkFileId fileId)
    (ServerApp.world s) = (o, w') ->
  answer o = Some (ty, body) ->
  exists s', ServerApp.handle (MkFrame MsgType.DOWNLOAD_REQ rid
               (encodeDownloadReq (MkDownloadReq fileId tok))) s = (Ok tt, s')
    /\ ServerApp.world s' = w' /\ ServerApp.up (ServerApp.link s')
    /\ ServerApp.sent (ServerApp.link s') = ServerApp.sent (ServerApp.link s) ++ [MkFrame ty rid body].
Proof.
  intros Hu Ht Hlf Hlt E Ha. destruct (request_decodes fileId tok Hlf Hlt) as [Hd _].
  unfold ServerApp.handle. cbn [f_type].
  match goal with |- exists s', ?m s = _ /\ _ =>
    change m with (ServerApp.on_download_req (MkFrame MsgType.DOWNLOAD_REQ rid
      (encodeDownloadReq (MkDownloadReq fileId tok))) : M serving unit) end.
  unfold ServerApp.on_download_req, ServerApp.or_err, try_catch. cbn [f_body requestId].
  rewrite Hd, M_bind_eq. unfold liftO at 1. rewrite M_bind_eq. unfold get at 1.
  cbn [dr_token dr_fileId]. rewrite bool_decide_eq_false_2 by done. cbv zeta.
  rewrite M_bind_eq. unfold ServerApp.on_world at 1. rewrite (zoom_run _ _ _ _ _ _ E).
  destruct o as [r|e|]; [|injection Ha as <- <-|discriminate Ha].
  - destruct (ok r) eqn:Er; cbn in Ha; rewrite Er in Ha;
      [destruct (value r) as [x|]; [|discriminate Ha]|]; injection Ha as <- <-.
    all: rewrite M_bind_eq, ServerApp.reply_up by exact Hu; eexists; split; [reflexivity|]; by split_and!.
  - rewrite ServerApp.reply_up by exact Hu. eexists; split; [reflexivity|]; by split_and!.
Qed.

(** ** The client's five steps *)
Section Client.
Context {E : Type} `{!OpenSSL E}.
Local Abbreviation user := (ClientApp.t E (Line (World R H S A St K F T))).

(** Where the download is saved. *)
Definition save_as (fileId outPath : str) : str :=
  if bool_decide (outPath = []) then fileId ++ (".pdf" : str) else outPath.

Lemma save_download_calm p x (s : user) :
  zlen x <= max_object -> (forall c, decodeUploadData x <> Ok c) ->
  loggedUser s <> [] -> is_Some (localKeys s !! loggedUser s) -> calm (files s) ->
  exists s', ClientApp.save_download p x s = (Ok tt, s') /\ net s' = net s /\
    BinaryFileStorage.disk (files s') = <[p := x]> (BinaryFileStorage.disk (files s)) /\
    cout (console s') = cout (console s) ++ ansi.green ++ (("DOWNLOAD saved to " : str) ++ p ++
      (" (opaque, decrypt locally if you have wrapped/digest)" : str)) ++ ansi.reset ++ newline.
Proof.
  intros Hl Hn Hu [kp Hk] Hc. unfold ClientApp.save_download. rewrite (unwrap_whole x Hl Hn), M_bind_eq.
  unfold liftO at 1. rewrite M_bind_eq. unfold get at 1. rewrite bool_decide_eq_false_2 by done.
  destruct (loadPrivKey_calm (loggedUser s) (files s) Hc) as (k & d & Ek & Hcd & Hd).
  rewrite M_bind_eq. unfold ClientApp.on_files at 1. rewrite (zoom_run _ _ _ _ _ _ Ek).
  destruct (writeFileBytes_calm p x d Hcd) as (d' & Ew & Hd').
  assert ((ClientApp.on_files (ClientApp.writeFileBytes p x)) (set_files d s) = (Ok tt, set_files d' s)) as Ew1.
  { unfold ClientApp.on_files. by rewrite (zoom_run files set_files _ (set_files d s) _ _ Ew). }
  rewrite Hk. destruct k; rewrite (M_bind_run _ _ _ _ _ Ew1).
  all: eexists; split; [reflexivity|]; split; [done|]; split; [cbn; by rewrite Hd', Hd|done].
Qed.

(** C15: A download arrives: when a logged-in user types the identifier of a file
    and a path, the server asks its transfer service with the user's token. The
    bytes the service answers with, if they fit a frame and are no upload chunk
    themselves, are exactly what the path holds afterwards, every other file of
    the client being as before; a refusal or an exception of the service writes
    no file, and the user reads the reason (denied when there is none). Either
    way the server's world is the one the service left. *)
Theorem download_end_to_end (s : user) fileId outPath rest o w' :
  synced (net s) -> sessionToken s <> [] -> cin (console s) = fileId :: outPath :: rest ->
  zlen fileId <= 2 ^ 20 -> zlen (sessionToken s) <= 2 ^ 20 ->
  TransferService.download TransferService.full_wiring (MkSessionId (sessionToken s)) (MkFileId fileId)
    (ServerApp.world (far (net s))) = (o, w') ->
  (forall x, answer o = Some (MsgType.DOWNLOAD_DATA, x) -> zlen x + 5 <= max_frame ->
     (forall c, decodeUploadData x <> Ok c) ->
     loggedUser s <> [] -> is_Some (localKeys s !! loggedUser s) -> calm (files s) ->
     exists s' before, ClientApp.on_download s = (Ok tt, s')
       /\ ServerApp.world (far (net s')) = w'
       /\ BinaryFileStorage.disk (files s') =
            <[save_as fileId outPath := x]> (BinaryFileStorage.disk (files s))
       /\ cout (console s') = before ++ ansi.green ++ (("DOWNLOAD saved to " : str) ++
            save_as fileId outPath ++ (" (opaque, decrypt locally if you have wrapped/digest)" : str))
            ++ ansi.reset ++ newline) /\
  (forall why, answer o = Some (MsgType.ERR, why) -> zlen why + 5 <= max_frame ->
     exists s' before, ClientApp.on_download s = (Ok tt, s')
       /\ ServerApp.world (far (net s')) = w' /\ files s' = files s
       /\ cout (console s') = before ++ ansi.red ++ (("DOWNLOAD failed: " : str) ++
            (if bool_decide (why = []) then ("denied" : str) else why)) ++ ansi.reset ++ newline).
Proof.
  intros Hsync Htok Hcin Hlf Hlt Edl.
  pose proof (ask_run "FileId to download: " _ _ s Hcin) as A1.
  match type of A1 with _ = (_, ?x) => set (s1 := x) in * end.
  pose proof (ask_run "Save as (path): " outPath rest s1 eq_refl) as A2.
  match type of A2 with _ = (_, ?x) => set (s2 := x) in * end.
  assert (forall ty body, answer o = Some (ty, body) -> zlen body + 5 <= max_frame ->
    exists l, ClientApp.exchange (MkFrame MsgType.DOWNLOAD_REQ 5
        (encodeDownloadReq (MkDownloadReq fileId (sessionToken s)))) 10000 s2
      = (Ok (Some (MkFrame ty 5 body)), set_net l s2) /\ ServerApp.world (far l) = w') as Hex.
  { intros ty body Ha Hl. destruct (handle_download 5 fileId (sessionToken s) (far (net s)) o w' ty body
      (proj2 (proj2 Hsync)) Htok Hlf Hlt Edl Ha) as (f & Eh & Hw & Hu & Hs).
    exists (MkLine f (Datatypes.S (taken (net s2))) true). split; [|exact Hw].
    apply (exchange_reply s2); [exact Hsync| | |exact Eh|exact Hu|exact Hs].
    - unfold passes. cbn [f_body]. destruct (request_decodes fileId (sessionToken s) Hlf Hlt) as [_ Hz].
      apply Z.leb_le. unfold max_frame. lia.
    - unfold passes. by apply Z.leb_le. }
  assert (ClientApp.on_download s = ClientApp.or_print "Download error: "
    (ClientApp.download_file fileId (save_as fileId outPath)) s2) as ->.
  { unfold ClientApp.on_download. rewrite M_bind_eq. unfold get at 1. rewrite bool_decide_eq_false_2 by done.
    by rewrite (M_bind_run _ _ _ _ _ A1), (M_bind_run _ _ _ _ _ A2). }
  unfold ClientApp.or_print, try_catch, ClientApp.download_file. rewrite M_bind_eq. unfold get at 1 2. split.
  - intros x Ha Hl Hn Hu Hk Hc. destruct (Hex _ _ Ha Hl) as (l & Ex & Hw).
    destruct (save_download_calm (save_as fileId outPath) x (set_net l s2)
      ltac:(unfold max_object, max_frame in *; lia) Hn Hu Hk Hc) as (s' & Es & Hnet & Hdisk & Hout).
    exists s', (cout (console s2)). rewrite (M_bind_run _ _ _ _ _ Ex). cbn [f_type f_body].
    rewrite bool_decide_eq_true_2 by done. rewrite Es, Hnet. by split_and!.
  - intros why Ha Hl. destruct (Hex _ _ Ha Hl) as (l & Ex & Hw).
    eexists _, (cout (console s2)). rewrite (M_bind_run _ _ _ _ _ Ex). split; [reflexivity|]. by split_and!.
Qed.
End Client.
End Download.
