(* ===== verification/Connect.v ===== *)
(** * The client's connection
    (the start of [src/presentation/client_app.cpp])

    The client's run over the TLS transport, from reading the certificate on file
    to the end of the menu. The handshake is Asio's and OpenSSL's: what is used of
    it is that it asks the callback about the peer's certificate and does not
    complete against its answer. The run sends nothing outside a session with the
    certificate on file. *)
From S2P Require Import Prelude Domain Framing Protocol Ports Sha256 Storage Cli Tls Transports Crypto Client.
From Stdlib Require Import ZArith Lia.
From stdpp Require Import base gmap strings list numbers.
Local Open Scope Z_scope.

(** [written] is all that went out through the session, [peer] the certificate
    the session was established with. *)
Class AsioLaws (N : Type) `{!X509Library} `{!Asio N} := {
  written : N -> str;
  peer : N -> option X509;
  law_load path : steps (same written) (load_verify_file path);
  law_connect host port f : steps (same written) (tls_connect host port f);
  law_verified host port f n n' : tls_connect host port f n = (Ok None, n') ->
    exists pre before after, f pre (peer n') before after = Ok true;
  law_write b : steps (same peer) (write_all b);
  law_read : steps (same peer) read_some;
  law_close : steps (same peer) close_socket
}.

(** The transport of the client, for a number of rounds per frame. *)
Definition tls_transport {N} `{!X509Library} `{!Asio N} (patience : nat) : ITransport (AsioTlsTransport.t N) := {|
  Client.connect := AsioTlsTransport.connect;
  Client.sendFrame := AsioTlsTransport.sendFrame;
  Client.recvFrame := fun _ => AsioTlsTransport.recvFrame patience;
  Client.close := AsioTlsTransport.close
|}.

(** ** The program *)
Section Program.
Context {E N : Type} `{!OpenSSL E, !X509Library, !Asio N} (patience : nat).
Local Abbreviation client := (ClientApp.t E (AsioTlsTransport.t N)).

Definition CERT : str := "./certs/server.crt".

(** [computeSha256Fingerprint(path)]: the file is opened again when it is no PEM. *)
Definition file_fingerprint (path : str) : M ClientApp.Files str :=
  first ← ClientApp.open_read path;
  match first with
  | None => mret []
  | Some pem =>
      match PEM_read_X509 pem with
      | Some _ => liftO (computeSha256Fingerprint first None)
      | None => second ← ClientApp.open_read path; liftO (computeSha256Fingerprint first second)
      end
  end.

(** [ClientApp::run]; [n] bounds the turns of the menu. *)
Definition client_main (n : nat) (ip : str) (port : Z) : M client (option Z) :=
  fp ← ClientApp.on_files (file_fingerprint CERT);
  _ ← ClientApp.on_net (AsioTlsTransport.make (MkTrustConfig fp CERT [] CERT));
  ClientApp.run (ITransport0 := tls_transport patience) n ip port.
End Program.

(** ** The menu keeps to its session *)
Section Session.
Context {E N : Type} `{!OpenSSL E, !X509Library, !Asio N, !AsioLaws N} (patience : nat).
#[local] Instance transport : ITransport (AsioTlsTransport.t N) := tls_transport patience.
Local Abbreviation client := (ClientApp.t E (AsioTlsTransport.t N)).

Definition session (s : client) : option X509 := peer (AsioTlsTransport.socket (ClientApp.net s)).
Definition output (s : client) : str := written (AsioTlsTransport.socket (ClientApp.net s)).

Lemma on_socket_peer {X} (m : M N X) : steps (same peer) m ->
  steps (same (fun t => peer (AsioTlsTransport.socket t))) (AsioTlsTransport.on_socket m).
Proof. intros Hm. by apply (steps_zoom _ (same peer)). Qed.

Lemma set_rxBuf_peer b : steps (same (fun t : AsioTlsTransport.t N => peer (AsioTlsTransport.socket t)))
  (modify (AsioTlsTransport.set_rxBuf b)).
Proof. done. Qed.
Lemma add_rxBuf_peer b : steps (same (fun t : AsioTlsTransport.t N => peer (AsioTlsTransport.socket t)))
  (modify (fun s => AsioTlsTransport.set_rxBuf (AsioTlsTransport.rxBuf s ++ b) s)).
Proof. done. Qed.
#[local] Hint Resolve on_socket_peer set_rxBuf_peer add_rxBuf_peer law_write law_read law_close : steps.
#[local] Hint Resolve same_preorder : typeclass_instances.

Lemma sendFrame_peer f : steps (same (fun t => peer (AsioTlsTransport.socket t))) (AsioTlsTransport.sendFrame f).
Proof. unfold AsioTlsTransport.sendFrame, get. steps_auto. Qed.

Lemma recvFrame_peer n : steps (same (fun t => peer (AsioTlsTransport.socket t))) (AsioTlsTransport.recvFrame n).
Proof.
  unfold AsioTlsTransport.recvFrame. apply receive_steps; [exact _|auto with steps..|]. unfold get. steps_auto.
Qed.

Lemma close_peer : steps (same (fun t => peer (AsioTlsTransport.socket t))) AsioTlsTransport.close.
Proof. unfold AsioTlsTransport.close. steps_auto. Qed.

Lemma on_net_session {X} (m : M (AsioTlsTransport.t N) X) :
  steps (same (fun t => peer (AsioTlsTransport.socket t))) m -> steps (same session) (ClientApp.on_net m).
Proof. intros Hm. by eapply steps_zoom. Qed.
Lemma on_console_session {X} (m : M Console X) : steps (same session) (ClientApp.on_console m : M client X).
Proof. by apply (steps_zoom _ (fun _ _ => True)). Qed.
Lemma on_files_session {X} (m : M ClientApp.Files X) : steps (same session) (ClientApp.on_files m : M client X).
Proof. by apply (steps_zoom _ (fun _ _ => True)). Qed.
Lemma on_engine_session {X} (m : M E X) : steps (same session) (ClientApp.on_engine m : M client X).
Proof. by apply (steps_zoom _ (fun _ _ => True)). Qed.
Lemma on_rng_session {X} (m : M Rng X) : steps (same session) (ClientApp.on_rng m : M client X).
Proof. by apply (steps_zoom _ (fun _ _ => True)). Qed.
Lemma say_session x : steps (same session) (ClientApp.say x : M client unit).
Proof. apply on_console_session. Qed.
Lemma ask_session x : steps (same session) (ClientApp.ask x : M client str).
Proof. apply on_console_session. Qed.
Lemma set_session_session a b : steps (same session) (modify (ClientApp.set_session a b) : M client unit).
Proof. done. Qed.
#[local] Hint Resolve on_console_session on_files_session on_engine_session on_rng_session say_session
  ask_session set_session_session : steps.

Lemma exchange_session f ms : steps (same session) (ClientApp.exchange f ms : M client _).
Proof.
  unfold ClientApp.exchange. apply steps_bind; [exact _| |intros _]; apply on_net_session;
    [apply sendFrame_peer|apply recvFrame_peer].
Qed.
#[local] Hint Resolve exchange_session : steps.

Lemma modify_session (f : client -> client) : (forall s, session (f s) = session s) ->
  steps (same session) (modify f).
Proof. intros Hf s. apply Hf. Qed.

Lemma adopt_session u : steps (same session) (ClientApp.adopt_keys u : M client unit).
Proof. unfold ClientApp.adopt_keys. steps_auto. all: by apply modify_session. Qed.
#[local] Hint Resolve adopt_session : steps.

Lemma register_session : steps (same session) (ClientApp.on_register : M client unit).
Proof. unfold ClientApp.on_register. steps_auto. Qed.
Lemma login_session : steps (same session) (ClientApp.on_login : M client unit).
Proof. unfold ClientApp.on_login. steps_auto. apply modify_session. intros s. by case_match. Qed.
Lemma logout_session : steps (same session) (ClientApp.on_logout : M client unit).
Proof. unfold ClientApp.on_logout, get. steps_auto. Qed.
Lemma chunks_session fuel id c : forall off, steps (same session) (ClientApp.send_chunks fuel id c off : M client unit).
Proof. induction fuel as [|fuel IH]; intros off; cbn [ClientApp.send_chunks]; steps_auto. Qed.
#[local] Hint Resolve chunks_session : steps.
Lemma upload_session : steps (same session) (ClientApp.on_upload : M client unit).
Proof.
  unfold ClientApp.on_upload, ClientApp.or_print, ClientApp.upload_file, ClientApp.commit_upload, get. steps_auto.
Qed.
Lemma download_session : steps (same session) (ClientApp.on_download : M client unit).
Proof.
  unfold ClientApp.on_download, ClientApp.download_file, ClientApp.or_print, ClientApp.save_download, get. steps_auto.
Qed.
#[local] Hint Resolve register_session login_session logout_session upload_session download_session : steps.

Lemma menu_session n : steps (same session) (ClientApp.menu n : M client bool).
Proof.
  induction n as [|n IH]; cbn [ClientApp.menu]; [steps_auto|]. unfold ClientApp.turn. steps_auto.
Qed.

(** ** Before the menu *)
Lemma make_output c (t t' : AsioTlsTransport.t N) o : AsioTlsTransport.make c t = (o, t') ->
  written (AsioTlsTransport.socket t') = written (AsioTlsTransport.socket t)
  /\ (is_ok o = true -> AsioTlsTransport.cfg t' = c).
Proof.
  unfold AsioTlsTransport.make, modify, AsioTlsTransport.on_socket, zoom. rewrite M_bind_eq. intros Er.
  repeat case_match; injection Er as <- <-; (split; [|done]); cbn in *; try done.
  all: match goal with H : load_verify_file ?p ?n = _ |- _ => pose proof (law_load p n) as Hl; by rewrite H in Hl end.
Qed.

Lemma connect_cases host port (t t' : AsioTlsTransport.t N) o : AsioTlsTransport.connect host port t = (o, t') ->
  (is_ok o = true /\ exists pre before after,
     on_verify (AsioTlsTransport.cfg t) pre (peer (AsioTlsTransport.socket t')) before after = Ok true)
  \/ (is_ok o = false /\ written (AsioTlsTransport.socket t') = written (AsioTlsTransport.socket t)).
Proof.
  unfold AsioTlsTransport.connect. rewrite M_bind_eq. unfold modify, get. rewrite M_bind_eq.
  unfold AsioTlsTransport.on_socket, zoom. rewrite M_bind_eq. cbn [AsioTlsTransport.cfg AsioTlsTransport.socket AsioTlsTransport.set_stream].
  pose proof (law_connect host port (on_verify (AsioTlsTransport.cfg t)) (AsioTlsTransport.socket t)) as Hw.
  destruct (tls_connect host port (on_verify (AsioTlsTransport.cfg t)) (AsioTlsTransport.socket t))
    as [[[[[] e]|]|e|] n'] eqn:Ec; intros Er; cbn in Er; injection Er as <- <-; try (right; by split).
  left. split; [done|]. by apply law_verified in Ec.
Qed.

Definition pinned (d0 : str) (s : client) : Prop := exists c d,
  session s = Some c /\ i2d_X509 c = Some d /\ EVP_sha256 d = EVP_sha256 d0.

(** Either the handshake was let through, or nothing was sent. *)
Lemma enter_cases ip port (s s' : client) o : ClientApp.enter ip port s = (o, s') ->
  (o = Ok true /\ exists pre before after,
     on_verify (AsioTlsTransport.cfg (ClientApp.net s)) pre (session s') before after = Ok true)
  \/ (o <> Ok true /\ output s' = output s).
Proof.
  unfold ClientApp.enter, try_catch, ClientApp.on_net, ClientApp.say, ClientApp.on_console, printError, print, zoom.
  mred. cbn [Client.connect tls_transport transport].
  destruct (AsioTlsTransport.connect ip port (ClientApp.net s)) as [o1 t1] eqn:Ec.
  apply connect_cases in Ec as [[Ho Hv]|[Ho Hw]]; destruct o1 as [[]|e|]; try discriminate; intros Er; mred_in Er;
    injection Er as <- <-; [left|right..]; by split.
Qed.

Lemma after_enter_session n : steps (same session)
  (left ← ClientApp.menu n;
   if (left : bool) then _ ← ClientApp.on_net (Client.close (ITransport := transport)); mret (Some 0) else mret None
   : M client (option Z)).
Proof.
  apply steps_bind; [exact _|apply menu_session|]. intros [|]; [|steps_auto].
  apply steps_bind; [exact _|apply on_net_session, close_peer|]. intros _. steps_auto.
Qed.

Lemma run_safe n ip port d0 (s s' : client) o :
  (forall pre cert before after, on_verify (AsioTlsTransport.cfg (ClientApp.net s)) pre cert before after = Ok true ->
     exists c d, cert = Some c /\ i2d_X509 c = Some d /\ EVP_sha256 d = EVP_sha256 d0) ->
  output s = [] -> ClientApp.run n ip port s = (o, s') -> output s' = [] \/ pinned d0 s'.
Proof.
  intros Hver Hout. unfold ClientApp.run. rewrite M_bind_eq.
  destruct (ClientApp.enter ip port s) as [o1 s1] eqn:Ee.
  apply enter_cases in Ee as [(-> & pre & before & after & Hv)|[Ho Hw]].
  - apply Hver in Hv as (c & d & Hc & Hd & Hs). intros Er. right. exists c, d. split; [|done].
    rewrite <- Hc. pose proof (after_enter_session n s1) as Ha. cbn [negb] in Er. by rewrite Er in Ha.
  - rewrite Hout in Hw. destruct o1 as [[]|e|]; [done|..]; intros Er; mred_in Er; injection Er as <- <-; by left.
Qed.
End Session.

Section Pinned.
Context {E N : Type} `{!OpenSSL E, !X509Library, !Asio N, !AsioLaws N} (sha_length : forall x, length (EVP_sha256 x) = 32%nat).
Local Abbreviation client := (ClientApp.t E (AsioTlsTransport.t N)).

(** C24: The client talks to nobody but its server: with a certificate in PEM on
    file, whatever the user types, whatever the network, the engine and the file
    system do afterwards, and whoever answers, a run of the client has sent
    nothing at all, or the session it was sent through was established with a
    certificate whose SHA-256 is that of the one on file. *)
Theorem client_sends_only_pinned patience n ip port pem c0 d0 (s s' : client) o :
  (ClientApp.open_read CERT (ClientApp.files s)).1 = Ok (Some pem) ->
  PEM_read_X509 pem = Some c0 -> i2d_X509 c0 = Some d0 ->
  output s = [] -> client_main patience n ip port s = (o, s') -> output s' = [] \/ pinned d0 s'.
Proof using sha_length.
  intros Hf Hp Hd Hout. unfold client_main.
  assert (exists fp f1, file_fingerprint CERT (ClientApp.files s) = (Ok fp, f1) /\
    computeSha256Fingerprint (Some pem) (Some pem) = Ok fp) as (fp & f1 & Ef & Efp).
  { unfold file_fingerprint. destruct (ClientApp.open_read CERT (ClientApp.files s)) as [o1 f1] eqn:E1.
    cbn in Hf. subst o1. rewrite (M_bind_run _ _ _ _ _ E1), Hp. unfold liftO.
    destruct (pinned_iff sha_length pem [] [] [] c0 d0 None (fun _ => 0) (fun _ => 0) false Hp Hd) as (fp & Efp & _).
    exists fp, f1. split; [|exact Efp]. cbn in *. rewrite Hp in *. by rewrite Efp. }
  unfold ClientApp.on_files. rewrite (M_bind_run _ _ _ _ _ (zoom_run _ _ _ _ _ _ Ef)).
  set (s1 := ClientApp.set_files f1 s). rewrite M_bind_eq. unfold ClientApp.on_net, zoom.
  destruct (AsioTlsTransport.make (MkTrustConfig fp CERT [] CERT) (ClientApp.net s1)) as [o1 t1] eqn:Em.
  destruct (make_output _ _ _ _ Em) as [Hw Hcfg].
  assert (output (ClientApp.set_net t1 s1) = []) as Hout1 by (unfold output; cbn; by rewrite Hw).
  destruct o1 as [[]|e|]; [|intros E1; injection E1 as <- <-; by left..].
  apply run_safe; [|exact Hout1]. cbn [ClientApp.net ClientApp.set_net]. rewrite (Hcfg eq_refl).
  intros pre cert before after Hv.
  destruct (pinned_iff sha_length pem CERT CERT [] c0 d0 cert before after pre Hp Hd) as (fp' & Efp' & b & Hb & Hiff).
  rewrite Efp in Efp'. injection Efp' as <-. rewrite Hv in Hb. injection Hb as <-.
  destruct (proj1 Hiff eq_refl) as (_ & c & d & Hc & Hi & _ & Hs). by exists c, d.
Qed.
End Pinned.
