(* ===== verification/Main.v ===== *)
(** * The two programs' command lines ([client/main.cpp], [server/main.cpp])

    What [main] makes of its arguments before it runs the application. *)
From S2P Require Import Prelude Domain.
From Stdlib Require Import ZArith Lia.
From stdpp Require Import base gmap strings list numbers.
Local Open Scope Z_scope.

(** [std::stoi]: leading spaces, a sign, digits; what follows is ignored. *)
Definition stoi (s : str) : outcome Z :=
  let '(neg, s) := sign (skip_spaces s) in
  let '(v, n) := read_digits 0 0 s in
  if decide (n = O) then Throw (InvalidArgument "stoi") else
  let x := if (neg : bool) then - v else v in
  if int32_ok x then Ok x else Throw (OutOfRange "stoi").

(** [static_cast<uint16_t>]. *)
Definition u16 (x : Z) : Z := x mod 2 ^ 16.

Inductive invocation (C : Type) := Help | Start (c : C).
Arguments Help {C}. Arguments Start {C}.

Module client.
Fixpoint parse (ip : str) (port : Z) (args : list str) : outcome (invocation (str * Z)) :=
  match args with
  | [] => Ok (Start (ip, port))
  | a :: rest =>
      if bool_decide (a = lit "--help") then Ok Help else
      match rest with
      | [] => parse ip port rest
      | x :: rest' =>
          if bool_decide (a = lit "--server") then parse x port rest' else
          if bool_decide (a = lit "--port") then p ← stoi x; parse ip (u16 p) rest' else
          parse ip port rest
      end
  end.
Definition main (args : list str) : outcome (invocation (str * Z)) := parse "127.0.0.1" 5000 args.
End client.

Module server.
Fixpoint parse (port : Z) (args : list str) : outcome (invocation Z) :=
  match args with
  | [] => Ok (Start port)
  | a :: rest =>
      if bool_decide (a = lit "--help") then Ok Help else
      match rest with
      | [] => parse port rest
      | x :: rest' =>
          if bool_decide (a = lit "--port") then p ← stoi x; parse (u16 p) rest' else parse port rest
      end
  end.
Definition main (args : list str) : outcome (invocation Z) := parse 5000 args.
End server.

(** A number out of the range of a port is reduced, not refused. *)
Example port_wraps : server.main [lit "--port"; lit "70000"] = Ok (Start 4464)
  /\ server.main [lit "--port"; lit "-1"] = Ok (Start 65535).
Proof. split; reflexivity. Qed.
Example port_garbage : server.main [lit "--port"; lit "http"] = Throw (InvalidArgument "stoi").
Proof. reflexivity. Qed.
Example client_defaults : client.main [lit "--port"; lit "9000x"; lit "--server"]
  = Ok (Start (lit "127.0.0.1", 9000)).
Proof. reflexivity. Qed.

Lemma stoi_to_string n : 0 <= n < 2 ^ 31 -> stoi (to_string n) = Ok n.
Proof.
  intros Hn. unfold stoi. rewrite sign_digits by (apply to_string_digits; lia).
  rewrite read_to_string by lia. rewrite decide_False.
  - unfold int32_ok. by rewrite (proj2 (Z.leb_le _ _)), (proj2 (Z.ltb_lt _ _)) by lia.
  - intros E%length_zero_iff_nil. by apply to_string_nonempty in E.
Qed.

(** The server starts on a port of 16 bits whatever its arguments, or does not
    start; on [--port] and a port in decimal it starts on that port. *)
Lemma server_parse_range args : forall port, 0 <= port < 2 ^ 16 ->
  match server.parse port args with Ok (Start p) => 0 <= p < 2 ^ 16 | Undef => False | _ => True end.
Proof.
  induction args as [args IH] using (induction_ltof1 _ (@length str)). intros port Hp.
  destruct args as [|a [|x rest]]; cbn [server.parse]; [done|by case_bool_decide|].
  case_bool_decide; [done|]. case_bool_decide.
  - unfold stoi. destruct (sign _) as [neg s']. destruct (read_digits _ _ _) as [v k].
    case_decide; [done|]. destruct (int32_ok _); [|done]. cbn [mbind outcome_bind].
    apply IH; [unfold ltof; simpl; lia|]. unfold u16. apply Z.mod_pos_bound. lia.
  - apply (IH (x :: rest)); [unfold ltof; simpl; lia|done].
Qed.

Lemma server_port p : 0 <= p < 2 ^ 16 -> server.main [lit "--port"; to_string p] = Ok (Start p).
Proof.
  intros Hp. unfold server.main. cbn [server.parse].
  rewrite bool_decide_eq_false_2, bool_decide_eq_true_2 by done.
  rewrite stoi_to_string by lia. cbn. unfold u16. by rewrite Z.mod_small.
Qed.
