(* ===== verification/CryptoExamples.v ===== *)
(** * An engine for the witnesses of [Crypto]

    The smallest implementation of the interface of OpenSSL that satisfies what
    is documented of it: a private key is its own public key, agreement is an
    exclusive or, the hash keeps the first 32 bytes, the tag the first 16. It
    never fails. It shows that the hypotheses can hold, and nothing else. *)
From S2P Require Import Prelude Domain Crypto Tls.
From Stdlib Require Import ZArith Lia.
From stdpp Require Import base gmap strings list numbers.
Local Open Scope Z_scope.

Inductive toy_key := ToyPriv (a : str) | ToyPub (p : str).
Definition toy_dctx : Type := str * option str.

(** The first [n] bytes, completed with zeros. *)
Definition fit (n : nat) (x : str) : str := take n (x ++ replicate n Byte.x00).
Definition toy_dh (a p : str) : str := Byte.x01 :: drop 1 (xor a p).
Definition toy_stream (k n : str) (l : nat) : str := replicate l (default Byte.x00 (head k)).
Definition toy_tag (k n c : str) : str := fit 16 c.
Definition toy_bytes (k : toy_key) : str := match k with ToyPriv a => a | ToyPub p => p end.

Definition ok {X} (x : X) : M nat (option X) := fun s => (Ok (Some x), s).
Definition no {X} : M nat (option X) := fun s => (Ok None, s).

(** The steps of a cipher context; a call in the wrong state fails. *)
Definition toy_init (e : bool) (c : cipher_state) : M nat (option cipher_state) :=
  match c with Blank => ok (Chosen e) | _ => no end.
Definition toy_ivlen (c : cipher_state) (n : Z) : M nat (option cipher_state) :=
  match c with Chosen e => ok (Sized e) | _ => no end.
Definition toy_set_key (e : bool) (c : cipher_state) (k n : str) : M nat (option cipher_state) :=
  match c with Sized e' => if Bool.eqb e e' then ok (Keyed e k n []) else no | _ => no end.
Definition toy_update (c : cipher_state) (x : str) (n : Z) : M nat (option (cipher_state * str)) :=
  match c with
  | Keyed e k i [] =>
      let y := xor x (toy_stream k i (length x)) in ok (Keyed e k i (if e then y else x), y)
  | _ => no
  end.
Definition toy_enc_final (c : cipher_state) : M nat (option (cipher_state * str)) :=
  match c with Keyed true k n t => ok (Done k n t, []) | _ => no end.
Definition toy_get_tag (c : cipher_state) (n : Z) : M nat (option str) :=
  match c with Done k n t => ok (toy_tag k n t) | _ => no end.
Definition toy_put_tag (c : cipher_state) (x : str) : M nat (option cipher_state) :=
  match c with Keyed false k n t => ok (Tagged k n t x) | _ => no end.
Definition toy_dec_final (c : cipher_state) : M nat (option (cipher_state * str)) :=
  match c with
  | Tagged k n t x => if bool_decide (x = toy_tag k n t) then ok (Done k n t, []) else no
  | _ => no
  end.
Definition toy_derive (c : toy_dctx) : M nat (option str) :=
  match c.2 with
  | Some p => if bool_decide (toy_dh c.1 p = zeros32) then no else ok (toy_dh c.1 p)
  | None => no
  end.

#[export] Instance toy : OpenSSL nat := {
  Pkey := toy_key;
  Dctx := toy_dctx;
  Cctx := cipher_state;
  SHA256 := fit 32;
  RAND_bytes n := fun s => (Ok (Some (replicate n (z2b (Z.of_nat s)))), S s);
  new_raw_private_key a := ok (ToyPriv a);
  new_raw_public_key p := ok (ToyPub p);
  get_raw_public_key k := ok (toy_bytes k);
  PKEY_CTX_new k := ok (toy_bytes k, None);
  derive_init c := ok c;
  derive_set_peer c k := ok (c.1, Some (toy_bytes k));
  derive := toy_derive;
  CIPHER_CTX_new := ok Blank;
  EncryptInit := toy_init true;
  DecryptInit := toy_init false;
  SET_IVLEN := toy_ivlen;
  EncryptInit_key := toy_set_key true;
  DecryptInit_key := toy_set_key false;
  EncryptUpdate := toy_update;
  DecryptUpdate := toy_update;
  EncryptFinal := toy_enc_final;
  GET_TAG := toy_get_tag;
  SET_TAG := toy_put_tag;
  DecryptFinal := toy_dec_final
}.

Lemma fit_length n x : length (fit n x) = n.
Proof. unfold fit. rewrite length_take, length_app, length_replicate. lia. Qed.

Lemma ok_call {X} (x : X) (P : X -> Prop) g : P x -> call (fun _ : nat => True) (ok x) P g.
Proof. intros HP s. exists (Some x), s. split; [done|]. split; [by intros ? [= <-]|done]. Qed.

Lemma no_call {X} (P : X -> Prop) (g : Prop) : ~ g -> call (fun _ : nat => True) no P g.
Proof. intros Hg s. exists None, s. split; [done|]. split; [done|]. by intros _. Qed.

Lemma xor_byte_comm x y : xor_byte x y = xor_byte y x.
Proof. unfold xor_byte. by rewrite Z.lxor_comm. Qed.

Lemma xor_comm a b : xor a b = xor b a.
Proof.
  unfold xor. revert b. induction a as [|x a IH]; intros [|y b]; simpl; [done..|].
  by rewrite IH, xor_byte_comm.
Qed.

#[export] Program Instance toy_laws : OpenSSLLaws nat := {
  x_pub a := a;
  x_dh := toy_dh;
  gcm_stream := toy_stream;
  gcm_tag := toy_tag;
  reliable _ := True;
  is_priv k a := k = ToyPriv a;
  is_pub k p := k = ToyPub p;
  is_dctx c a p := c = (a, p);
  is_cctx c t := c = t
}.
Next Obligation. intros x. apply fit_length. Qed.
Next Obligation. done. Qed.
Next Obligation.
  intros a p Ha Hp. unfold toy_dh. cbn [length]. rewrite length_drop.
  rewrite xor_length by lia. lia.
Qed.
Next Obligation. intros a b _ _. unfold toy_dh. by rewrite xor_comm. Qed.
Next Obligation. intros a b _ _. unfold toy_dh, zeros32. discriminate. Qed.
Next Obligation. intros k n l. apply length_replicate. Qed.
Next Obligation. intros k n c. apply fit_length. Qed.
Next Obligation.
  intros n s. eexists _, _. split; [reflexivity|]. split; [|done].
  intros ? [= <-]. apply length_replicate.
Qed.
Next Obligation. intros. by apply ok_call. Qed.
Next Obligation. intros. by apply ok_call. Qed.
Next Obligation. intros ? ? ->. by apply ok_call. Qed.
Next Obligation. intros ? ? ->. by apply ok_call. Qed.
Next Obligation. intros ? ? ->. by apply ok_call. Qed.
Next Obligation. intros ? ? ? ? -> ->. by apply ok_call. Qed.
Next Obligation.
  intros ? ? ? ->. cbn. unfold toy_derive. cbn [fst snd].
  case_bool_decide; [apply no_call; tauto|by apply ok_call].
Qed.
Next Obligation. by apply ok_call. Qed.
Next Obligation. intros ? ->. by apply ok_call. Qed.
Next Obligation. intros ? ->. by apply ok_call. Qed.
Next Obligation. intros ? ? ->. by apply ok_call. Qed.
Next Obligation. intros ? ? ? -> _ _. by apply ok_call. Qed.
Next Obligation. intros ? ? ? -> _ _. by apply ok_call. Qed.
Next Obligation. intros ? ? ? ? -> _ _. by apply ok_call. Qed.
Next Obligation. intros ? ? ? ? -> _ _. by apply ok_call. Qed.
Next Obligation. intros ? ? ? ? ->. by apply ok_call. Qed.
Next Obligation. intros ? ? ? ? ->. by apply ok_call. Qed.
Next Obligation. intros ? ? ? ? ? -> _. by apply ok_call. Qed.
Next Obligation.
  intros ? ? ? ? ? ->. cbn. case_bool_decide; [by apply ok_call|by apply no_call].
Qed.

(** A PDF of a few bytes goes through the engine and back. *)
Lemma decrypt_encrypt_witness :
  exists kp s1, KeyPair_generate (E := nat) 7%nat = (Ok kp, s1) /\
  exists out s2, encrypt "%PDF-1.7"%string (MkUserId "bob") (pub kp) s1 = (Ok out, s2) /\
    zlen (cipher out) = 24 /\ recipientId (eo_wrapped out) = MkUserId "bob" /\
    exists s4, decryptAndVerify_vec (cipher out) (eo_wrapped out) (eo_digest out) (priv kp) s2 =
      (Ok (lit "%PDF-1.7"%string), s4).
Proof.
  destruct (@decrypt_encrypt nat toy toy_laws 7%nat I) as (kp & s1 & E1 & H).
  exists kp, s1. split; [exact E1|].
  destruct (H (lit "%PDF-1.7"%string) (MkUserId "bob") eq_refl) as (out & s2 & E2 & Hl & Hr & H').
  exists out, s2. split; [exact E2|]. split; [exact Hl|]. split; [exact Hr|]. apply H'. exact I.
Defined.

(** Two contents that differ after 32 bytes are a collision of this hash: both
    boxes are accepted under one wrapped key and one digest. *)
Definition toy_plain (c : byte) : str := replicate 33 Byte.x61 ++ [c].
Definition toy_out (c : byte) : EncryptOut :=
  match (encrypt (toy_plain c) (MkUserId "bob") (replicate 32 Byte.x09) 7%nat).1 with
  | Ok o => o
  | _ => MkEncryptOut [] default_WrappedKey zero_Digest
  end.

Lemma tamper_evident_witness :
  toy_plain Byte.x61 <> toy_plain Byte.x62 /\
  SHA256 (toy_plain Byte.x61) = SHA256 (toy_plain Byte.x62) /\
  cipher (toy_out Byte.x61) <> cipher (toy_out Byte.x62).
Proof.
  assert (cipher (toy_out Byte.x61) <> cipher (toy_out Byte.x62)) as Hne.
  { apply (bool_decide_unpack _). vm_compute. exact I. }
  destruct (@tamper_evident nat toy toy_laws (cipher (toy_out Byte.x61)) (cipher (toy_out Byte.x62))
    (toy_plain Byte.x61) (toy_plain Byte.x62) (replicate 32 Byte.x09)
    (eo_wrapped (toy_out Byte.x61)) (eo_digest (toy_out Byte.x61)) 0%nat 0%nat 0%nat 0%nat
    ltac:(vm_compute; reflexivity) ltac:(vm_compute; reflexivity) eq_refl Hne
    ltac:(vm_compute; reflexivity) ltac:(vm_compute; reflexivity)) as (H1 & H2 & _ & _).
  split; [exact H1|]. split; [exact H2|exact Hne].
Defined.

(** ** Certificates: a certificate is its encoding *)
#[local] Instance toy_x509 : X509Library := {
  X509 := str;
  PEM_read_X509 := Some;
  d2i_X509 := Some;
  i2d_X509 := Some;
  EVP_sha256 := fit 32
}.

Lemma pinned_iff_witness :
  exists fp, computeSha256Fingerprint (Some (lit "cert")) (Some (lit "cert")) = Ok fp /\
    on_verify (MkTrustConfig fp [] [] []) true (Some (lit "cert")) (fun _ => -1) (fun _ => 1) = Ok true.
Proof.
  destruct (@pinned_iff toy_x509 (fit_length 32) (lit "cert") [] [] [] (lit "cert") (lit "cert")
    (Some (lit "cert")) (fun _ => -1) (fun _ => 1) true eq_refl eq_refl) as (fp & E & b & Eb & Hb).
  exists fp. split; [exact E|]. rewrite Eb. f_equal. apply (proj2 Hb). split; [exact eq_refl|].
  exists (lit "cert"), (lit "cert"). split; [exact eq_refl|]. split; [exact eq_refl|].
  split; [lia|exact eq_refl].
Defined.
