(* ===== verification/Examples.v ===== *)
(** * A small system, and the theorems at work on it

    The in-memory components put together: an administrator and a user register
    and log in. The theorems of the services are applied to the states this
    system goes through, with every hypothesis discharged by evaluation. *)
From S2P Require Import Prelude Domain Framing Protocol Sha256 Ports Users Sessions AuditLog Hasher Auth Admin Validator Files Storage.
From Stdlib Require Import ZArith Lia.
From stdpp Require Import base gmap strings list numbers.
Local Open Scope Z_scope.

Definition memory_core : Type :=
  Core MemoryUserRepository.t FakeHasher.t MemorySessionStore.t VectorAudit.t.

(** A clock that advances by a second at each reading, and a generator. *)
Definition demo_clock : Clock := MkClock (fun n => 1000 * Z.of_nat n) 0.
Definition demo_rng : Rng := MkRng (fun n => 7 * Z.of_nat n + 3) 0.

Definition c0 : memory_core :=
  MkCore MemoryUserRepository.empty FakeHasher.empty MemorySessionStore.empty VectorAudit.empty
         demo_clock demo_rng.

Lemma c0_ok : core_ok c0.
Proof. split; [exact MemoryUserRepository.inv_empty|exact I]. Qed.

Definition get_ok {X} (d : X) (o : outcome (Result X)) : X :=
  match o with Ok r => default d (value r) | _ => d end.

(** [alice] registers as an administrator, [bob] as a user; then both log in. *)
Definition reg_alice := AuthService.registerUser "alice" "alice@example.org" "correct horse" "admin" c0.
Definition c1 : memory_core := reg_alice.2.
Definition alice_id : UserId := Eval vm_compute in get_ok (MkUserId []) reg_alice.1.
Definition reg_bob := AuthService.registerUser "bob" "bob@example.org" "battery staple" "user" c1.
Definition c2 : memory_core := reg_bob.2.
Definition bob_id : UserId := Eval vm_compute in get_ok (MkUserId []) reg_bob.1.
Definition log_alice := AuthService.login "alice" "correct horse" c2.
Definition c3 : memory_core := log_alice.2.
Definition alice_tok : SessionId := Eval vm_compute in get_ok (MkSessionId []) log_alice.1.
Definition log_bob := AuthService.login "bob" "battery staple" c3.
Definition c4 : memory_core := log_bob.2.
Definition bob_tok : SessionId := Eval vm_compute in get_ok (MkSessionId []) log_bob.1.

Example demo_runs :
  is_ok reg_alice.1 && is_ok reg_bob.1 && is_ok log_alice.1 && is_ok log_bob.1 = true
  /\ isValid alice_tok 5000 (sessions c4) = Ok true /\ userFor bob_tok (sessions c4) = Ok bob_id.
Proof. vm_compute. repeat split. Qed.

Definition hash_of (id : UserId) (c : memory_core) : str :=
  default [] (MemoryUserRepository.hashById_ (users c) !! uid_value id).

(** A run, from its outcome: the state it leaves is not looked at. *)
Lemma run_eq {X Y} (m : outcome X * Y) o : m.1 = o -> m = (o, m.2).
Proof. intros <-. apply surjective_pairing. Qed.

Lemma pair_snd {X Y} (a c : X) (b d : Y) : (a, b) = (c, d) -> b = d.
Proof. congruence. Qed.

Lemma reg_alice_eq : reg_alice = (Ok (success alice_id), c1).
Proof. unfold c1. apply (run_eq reg_alice). vm_compute. reflexivity. Qed.
Lemma reg_bob_eq : reg_bob = (Ok (success bob_id), c2).
Proof. unfold c2. apply (run_eq reg_bob). vm_compute. reflexivity. Qed.
Lemma log_alice_eq : log_alice = (Ok (success alice_tok), c3).
Proof. unfold c3. apply (run_eq log_alice). vm_compute. reflexivity. Qed.
Lemma log_bob_eq : log_bob = (Ok (success bob_tok), c4).
Proof. unfold c4. apply (run_eq log_bob). vm_compute. reflexivity. Qed.

#[local] Opaque c1 c2 c3 c4.

(** The hashes of the two passwords. *)
Definition hash_alice := hash "correct horse" (hasher c0).
Definition hash_bob := hash "battery staple" (hasher c1).
Lemma hash_alice_eq : hash_alice = (Ok (hash_of alice_id c1), hash_alice.2).
Proof. apply (run_eq hash_alice). vm_compute. reflexivity. Qed.
Lemma hash_bob_eq : hash_bob = (Ok (hash_of bob_id c2), hash_bob.2).
Proof. apply (run_eq hash_bob). vm_compute. reflexivity. Qed.

Lemma c1_ok : core_ok c1.
Proof.
  destruct (AuthService.register_returns "alice" "alice@example.org" "correct horse" "admin"
    _ _ c0 c0_ok I I hash_alice_eq) as (hs & _ & r & c' & E & H & _).
  fold reg_alice in E. rewrite reg_alice_eq in E. apply pair_snd in E. rewrite E. exact H.
Qed.

Lemma c2_ok : core_ok c2.
Proof.
  destruct (AuthService.register_returns "bob" "bob@example.org" "battery staple" "user"
    _ _ c1 c1_ok I I hash_bob_eq) as (hs & _ & r & c' & E & H & _).
  fold reg_bob in E. rewrite reg_bob_eq in E. apply pair_snd in E. rewrite E. exact H.
Qed.

Definition alice : User := AuthService.new_account alice_id "alice" "alice@example.org" "admin".
Definition bob : User := AuthService.new_account bob_id "bob" "bob@example.org" "user".

Lemma alice_named : named (table c2) "alice" alice (hash_of alice_id c2).
Proof. split; vm_compute; reflexivity. Qed.
Lemma bob_named (c : memory_core) : c = c2 -> named (table c) "bob" bob (hash_of bob_id c2).
Proof. intros ->. split; vm_compute; reflexivity. Qed.

(** ** [AuthService] *)

Lemma counters_c2 : AuthService.counters_ok (table c2) (time c2).
Proof.
  assert (map_Forall (fun (_ : str) (x : User * str) => is_ok (fail_login x.1 (time c2)) = true)
            (table c2)) as H by decided.
  intros k usr h Hk. exact (H k (usr, h) Hk).
Qed.

Lemma login_refines_witness :
  exists r c', AuthService.login "alice" "correct horse" c2 = (Ok r, c') /\ core_ok c'
    /\ AuthService.login_spec "alice" "correct horse" c2 r c'.
Proof.
  apply (AuthService.login_refines "alice" "correct horse" c2);
    [exact c2_ok|exact I|exact I|exact counters_c2|vm_compute; reflexivity].
Defined.

Definition wrong_passwords : list str :=
  [("a" : str); ("b" : str); ("c" : str); ("battery stable" : str); []].

Lemma five_failures_lock_witness :
  exists c5, AuthService.attempts "bob" wrong_passwords c2 = (Ok tt, c5) /\ session c5 = session c2 /\
    forall pw, exists c6, AuthService.login "bob" pw c5 = (Ok (failure "Login failed"), c6)
                          /\ session c6 = session c2 /\ table c6 = table c5.
Proof.
  apply (AuthService.five_failures_lock "bob" wrong_passwords c2 bob (hash_of bob_id c2)).
  - exact c2_ok.
  - exact I.
  - exact (bob_named c2 eq_refl).
  - vm_compute; reflexivity.
  - reflexivity.
  - reflexivity.
  - unfold wrong_passwords. repeat (apply Forall_cons; [vm_compute; reflexivity|]). apply Forall_nil.
  - intros i _. change (lockoutUntil_ bob) with 0. unfold AuthService.reading.
    assert (clk_reading (clock c2) = fun n => 1000 * Z.of_nat n) as -> by (vm_compute; reflexivity).
    clear. lia.
  - vm_compute; reflexivity.
  - vm_compute; reflexivity.
Defined.

Lemma registerUser_refines_witness :
  exists r c', AuthService.registerUser "alice" "alice@example.org" "correct horse" "admin" c0 = (Ok r, c')
    /\ core_ok c'
    /\ AuthService.register_spec "alice" "alice@example.org" "correct horse" "admin"
         (hash_of alice_id c1) c0 r c'.
Proof.
  apply (AuthService.registerUser_refines _ _ _ _ (hash_of alice_id c1) hash_alice.2);
    [exact c0_ok|exact I|exact I|exact hash_alice_eq].
Defined.

Lemma register_then_login_witness :
  exists tok c', AuthService.login "alice" "correct horse" c1 = (Ok (success tok), c')
    /\ isValid tok (time c0) (sessions c') = Ok true /\ userFor tok (sessions c') = Ok alice_id.
Proof.
  apply (AuthService.register_then_login "alice" "alice@example.org" "correct horse" "admin"
           (hash_of alice_id c1) hash_alice.2 c0 alice_id c1);
    [exact c0_ok|exact I|exact I|exact I|exact I|exact hash_alice_eq
    |vm_compute; discriminate|vm_compute; reflexivity|exact reg_alice_eq].
Defined.

Lemma login_needs_password_witness :
  exists found user enc, findByUsername "alice" (users c2) = Ok found /\ result_get found = Some user
    /\ canLogin user (clk_reading (clock c2) (clk_tick (clock c2))) = true
    /\ getEncodedHash (id_ user) (users c2) = Ok enc /\ verify enc "correct horse" (hasher c2) = Ok true.
Proof.
  apply (AuthService.login_needs_password "alice" "correct horse" c2 c3 (success alice_tok));
    [exact log_alice_eq|reflexivity].
Defined.

(** The state after both have logged in. *)
Lemma c3_ok : core_ok c3.
Proof.
  destruct (AuthService.does_right "alice" "correct horse" c2 c2_ok alice (hash_of alice_id c2)
    alice_named) as (r & c' & E & H & _); [vm_compute; reflexivity|vm_compute; reflexivity|exact I
    |vm_compute; reflexivity|].
  fold log_alice in E. rewrite log_alice_eq in E. apply pair_snd in E. rewrite E. exact H.
Qed.

Lemma c4_ok : core_ok c4.
Proof.
  destruct (AuthService.does_right "bob" "battery staple" c3 c3_ok bob (hash_of bob_id c3))
    as (r & c' & E & H & _);
    [split; vm_compute; reflexivity|vm_compute; reflexivity|vm_compute; reflexivity|exact I
    |vm_compute; reflexivity|].
  fold log_bob in E. rewrite log_bob_eq in E. apply pair_snd in E. rewrite E. exact H.
Qed.

Lemma logout_ends_session_witness :
  exists c', AuthService.logout bob_tok c4 = (Ok (bool_decide (is_Some (session c4 bob_tok))), c')
    /\ core_ok c' /\ (forall now, isValid bob_tok now (sessions c') = Ok false)
    /\ (forall t now, isValid t now (sessions c') = Ok true -> isValid t now (sessions c4) = Ok true)
    /\ table c' = table c4.
Proof. apply (AuthService.logout_ends_session bob_tok c4); [exact c4_ok|exact I]. Defined.

(** ** [AdminService] *)

Lemma only_admins_act_witness :
  AdminService.acting_admin c4 bob_tok = None
  /\ forall c', c' = (AdminService.deactivate bob_tok alice_id c4).2 ->
       users c' = users c4 /\ sessions c' = sessions c4.
Proof.
  split; [vm_compute; reflexivity|]. intros c' ->.
  apply (proj1 (AdminService.only_admins_act bob_tok bob_id alice_id c4 (proj1 c4_ok)));
    [vm_compute; reflexivity|right; reflexivity].
Defined.

Lemma deactivate_refines_witness :
  exists r c', AdminService.deactivate alice_tok bob_id c4 = (Ok r, c') /\ core_ok c'
    /\ AdminService.deactivate_spec alice_tok bob_id c4 r c'.
Proof.
  apply (AdminService.deactivate_refines alice_tok bob_id c4); [exact c4_ok|exact I|].
  intros a _. exact I.
Defined.

Definition deactivated := AdminService.deactivate alice_tok bob_id c4.
Lemma deactivated_eq : deactivated = (Ok (success bob_id), deactivated.2).
Proof. apply (run_eq deactivated). vm_compute. reflexivity. Qed.

Lemma deactivated_is_out_witness :
  (forall t now, userFor t (sessions deactivated.2) = Ok bob_id ->
     isValid t now (sessions deactivated.2) = Ok false)
  /\ exists u h, table deactivated.2 !! uid_value bob_id = Some (u, h)
       /\ forall now, canLogin u now = false.
Proof.
  apply (AdminService.deactivated_is_out alice_tok bob_id c4 deactivated.2 (success bob_id));
    [exact c4_ok|exact I|intros a _; exact I|exact deactivated_eq|reflexivity].
Defined.

(** ** The session store *)

(** A session created at second 1 is accepted at second 5. *)
Lemma isValid_iff_live_witness :
  exists tok s, MemorySessionStore.reached [MemorySessionStore.Created tok alice_id 1000] s
    /\ MemorySessionStore.isValid tok 5000 s = Ok true.
Proof.
  destruct (MemorySessionStore.reached_create [] _ demo_rng alice_id 1000
              MemorySessionStore.reached_nil eq_refl) as (tok & s & Hr & Hu).
  exists tok, s. split; [exact Hr|].
  apply (MemorySessionStore.isValid_iff_live _ s tok 5000 Hr).
  exists alice_id, 1000. split; [by constructor|]. split; [lia|exact Hu].
Defined.

(** ** [BinaryFileStorage] *)

Definition demo_disk : BinaryFileStorage.t :=
  BinaryFileStorage.Mk "store" (<[("store/a.bin" : str) := ("old" : str)]> ∅) []
    (fun _ => BinaryFileStorage.MkFault false 2 [] BinaryFileStorage.Readable) 0.

Lemma demo_usable : BinaryFileStorage.usable "a.bin".
Proof. split; [discriminate|]. split; [decided|vm_compute; reflexivity]. Qed.

Lemma stagedWrite_atomic_witness :
  exists o s', BinaryFileStorage.stagedWrite "a.bin" "new" demo_disk = (o, s')
    /\ BinaryFileStorage.since (fun d => BinaryFileStorage.agree
          [BinaryFileStorage.tmp_path "store" "a.bin"; BinaryFileStorage.dst_path "store" "a.bin"]
          (BinaryFileStorage.disk demo_disk) d
        /\ BinaryFileStorage.whole (BinaryFileStorage.dst_path "store" "a.bin")
             (BinaryFileStorage.disk demo_disk !! BinaryFileStorage.dst_path "store" "a.bin") "new" d)
        (BinaryFileStorage.seen demo_disk) (BinaryFileStorage.seen s').
Proof.
  destruct (BinaryFileStorage.stagedWrite_atomic "a.bin" "new" demo_disk demo_usable)
    as (o & s' & E & Hs & _). exists o, s'. split; [exact E|exact Hs].
Defined.

(** A crash in the middle of the write of the temporary file. *)
Definition crash_disk : gmap str str :=
  <[("store/tmp.a.bin.part" : str) := ("ne" : str)]> (BinaryFileStorage.disk demo_disk).

Lemma crash_recovery_witness :
  exists n s', BinaryFileStorage.sweepOrphans
      (BinaryFileStorage.Mk "store" crash_disk [] (fun _ => BinaryFileStorage.MkFault false 0 [] BinaryFileStorage.Readable) 0)
      = (Ok n, s')
    /\ BinaryFileStorage.whole "store/a.bin" (Some ("old" : str)) "new" (BinaryFileStorage.disk s')
    /\ BinaryFileStorage.disk s' !! (lit "store/tmp.a.bin.part") = None.
Proof.
  destruct (BinaryFileStorage.crash_recovery "a.bin" "new" demo_disk crash_disk
    (fun _ => BinaryFileStorage.MkFault false 0 [] BinaryFileStorage.Readable) demo_usable) as (n & s' & E & Hw & _ & Ht & _).
  - decided.
  - vm_compute; reflexivity.
  - reflexivity.
  - apply list_elem_of_In. decided.
  - intros [].
  - exists n, s'. split; [exact E|]. split; [exact Hw|exact Ht].
Defined.
