(* ===== verification/TransferExamples.v ===== *)
(** * Transfers in the small system

    The system of [Examples] with a blob storage, a key directory, a file
    repository and a transfer repository: [alice] uploads a file for [bob], who
    downloads it. The theorems of [Transfer] are applied to its states. *)
From S2P Require Import Prelude Domain Ports Users Sessions AuditLog Hasher Validator Files Storage Transfer Examples.
From Stdlib Require Import ZArith Lia.
From stdpp Require Import base gmap strings list numbers.
Local Open Scope Z_scope.

(** A transfer repository: a table that takes every transfer. *)
Module TransferTable.
Definition t : Type := gmap str Transfer.
#[global] Instance ops : ITransferRepository t := {
  saveTransfer := fun x => modify (fun m : t => <[tid_value (t_id x) := x]> m);
  findTransfer := fun id m =>
    Ok (match (m : t) !! tid_value id with Some x => success x | None => not_found end);
  Ports.listFor := fun u m =>
    Ok (List.filter (fun x => bool_decide (t_sender x = u) || bool_decide (t_recipient x = u))
          (map snd (map_to_list (m : t))))
}.
#[global] Program Instance laws : TransferRepositoryLaws t := { tr_model := fun m => m }.
Next Obligation. intros m x. eexists _, _. split; [reflexivity|]. by left. Qed.
End TransferTable.

Definition memory_world : Type :=
  World MemoryUserRepository.t FakeHasher.t MemorySessionStore.t VectorAudit.t
        MemoryStorage.t MemoryPubkeyDirectory.t MemoryFileRepository.t TransferTable.t.

(** [bob] has a key; nothing is stored yet. *)
Definition bob_keys : MemoryPubkeyDirectory.t :=
  MemoryPubkeyDirectory.Mk (<[uid_value bob_id := replicate 32 Byte.x09]> ∅).
Definition w0 : memory_world :=
  MkWorld c4 MemoryStorage.empty bob_keys MemoryFileRepository.empty (∅ : gmap str Transfer).

Definition demo_request (sess : SessionId) (up : str) : TransferService.Request :=
  TransferService.MkRequest sess "bob" "report.pdf" "ciphertext" up 10 zero_Digest default_WrappedKey.
Definition first_upload := TransferService.run_upload (demo_request alice_tok "u-1") w0.
Definition w1 : memory_world := first_upload.2.
Definition first_transfer : Transfer := Eval vm_compute in
  get_ok (MkTransfer (MkTransferId []) (MkFileId []) (MkUserId []) (MkUserId []) CREATED)
    first_upload.1.

Lemma first_upload_eq : first_upload = (Ok (success first_transfer), w1).
Proof. unfold w1. apply (run_eq first_upload). vm_compute. reflexivity. Qed.

Lemma w0_ok : TransferService.world_ok w0.
Proof. split; [exact c4_ok|]. split; [exact I|exact MemoryFileRepository.files_inv_empty]. Qed.

Lemma demo_acceptable q (w : memory_world) : TransferService.acceptable q w.
Proof. split; [exact I|]. intros. split; exact I. Qed.

Lemma upload_refines_witness :
  exists o w', TransferService.run_upload (demo_request alice_tok "u-1") w0 = (o, w')
    /\ TransferService.world_ok w'
    /\ TransferService.upload_spec (demo_request alice_tok "u-1") w0 o w'.
Proof.
  apply (TransferService.upload_refines (demo_request alice_tok "u-1") w0 w0_ok).
  apply demo_acceptable.
Defined.

Lemma w1_ok : TransferService.world_ok w1.
Proof.
  destruct (TransferService.upload_cases _ w0 w0_ok (demo_acceptable (demo_request alice_tok "u-1") w0))
    as (o & w' & E & H & _).
  change (first_upload = (o, w')) in E. rewrite first_upload_eq in E. apply pair_snd in E.
  rewrite E. exact H.
Qed.

(** The storage identifier a generator draws next. *)
Definition next_sid (r : Rng) : str :=
  match generateUserId r with
  | (Ok _, r1) => match generateUserId r1 with
                  | (Ok id, _) => uid_value id ++ lit ".bin"
                  | _ => []
                  end
  | _ => []
  end.
Lemma next_sid_draws r fid sid tid : TransferService.draws r fid sid tid -> sid = next_sid r.
Proof. intros (s & r1 & r2 & r3 & E1 & E2 & -> & _). unfold next_sid. by rewrite E1, E2. Qed.

Lemma w1_fresh : TransferService.fresh w1.
Proof.
  assert (map_Forall (fun (_ : str) r => storageId r <> next_sid (rng (core w1))
            /\ storageId r <> staging (next_sid (rng (core w1)))) (TransferService.records w1))
    as Hall by decided.
  intros fid sid tid k r Hd Hk. rewrite (next_sid_draws _ _ _ _ Hd). exact (Hall k r Hk).
Qed.

Lemma w1_stored : TransferService.stored w1.
Proof.
  assert (map_Forall (fun (_ : str) r => is_Some (TransferService.blob w1 (storageId r)))
            (TransferService.records w1)) as Hall by decided.
  exact Hall.
Qed.

(** A second upload, in a state where a file is stored: the
    first file stays. *)
Lemma upload_keeps_files_witness :
  exists o w', TransferService.run_upload (demo_request alice_tok "u-2") w1 = (o, w')
    /\ TransferService.stored w'
    /\ forall k r, TransferService.records w1 !! k = Some r ->
         TransferService.records w' !! k = Some r
         /\ TransferService.blob w' (storageId r) = TransferService.blob w1 (storageId r).
Proof.
  apply (TransferService.upload_keeps_files (demo_request alice_tok "u-2") w1 w1_ok);
    [apply demo_acceptable|exact w1_fresh|exact w1_stored].
Defined.

Lemma upload_then_download_witness :
  exists w2, TransferService.download TransferService.full_wiring bob_tok (t_file first_transfer) w1
             = (Ok (success (lit "ciphertext")), w2).
Proof.
  apply (TransferService.upload_then_download (demo_request alice_tok "u-1") w0 w1
           first_transfer bob_tok bob_id w0_ok).
  - apply demo_acceptable.
  - exact first_upload_eq.
  - vm_compute. reflexivity.
  - vm_compute. reflexivity.
  - right. reflexivity.
  - exact I.
Defined.

Lemma bob_download_ok :
  (TransferService.download TransferService.full_wiring bob_tok (t_file first_transfer) w1).1
  = Ok (success (lit "ciphertext")).
Proof. vm_compute. reflexivity. Qed.

Lemma download_needs_authority_witness :
  exists d, success (lit "ciphertext") = success d
    /\ TransferService.entitled w1 bob_tok (t_file first_transfer) d.
Proof.
  exact (TransferService.download_needs_authority TransferService.full_wiring bob_tok
           (t_file first_transfer) w1 _ (success (lit "ciphertext"))
           (run_eq _ _ bob_download_ok) eq_refl).
Defined.
