(* ===== verification/ServerExamples.v ===== *)
(** * The server at work on the small system

    The theorems of [Server], [Isolation] and [Privilege] applied to requests of [alice] and
    of a stranger. *)
From S2P Require Import Prelude Domain Framing Protocol Ports Users Sessions AuditLog Hasher Validator Files Storage Cli Auth Transfer Server Isolation Privilege Examples TransferExamples.
From Stdlib Require Import ZArith Lia.
From stdpp Require Import base gmap strings list numbers.
Local Open Scope Z_scope.
Import ServerApp.

Definition demo_init : UploadInit :=
  MkUploadInit "bob" "report.pdf" "u-1" 10 zero_Digest default_WrappedKey.

(** [alice] has logged in and announced an upload. *)
Definition s0 : Serving memory_world :=
  MkServing w0 (MkConsole [] []) (MkLink [] (fun _ => false) 0)
    {[lit "u-1" := demo_init]} {[lit "u-1" := []]} (sid_value alice_tok).

Definition logout_frame : Frame := MkFrame MsgType.LOGOUT 9 (sid_value alice_tok).

Lemma logout_returns : (handle logout_frame s0).1 = Ok tt.
Proof. vm_compute. reflexivity. Qed.

Lemma one_reply_per_request_witness :
  (Ok tt = Ok tt /\ exists ty body,
     sent (link (handle logout_frame s0).2) = [MkFrame ty 9 body])
  \/ (f_type logout_frame = MsgType.LOGOUT /\ (exists e, Ok tt = Throw e)
      /\ sent (link (handle logout_frame s0).2) = []).
Proof.
  exact (one_reply_per_request logout_frame s0 (Ok tt) _ (fun _ => eq_refl)
           (run_eq _ _ logout_returns) ltac:(discriminate)).
Defined.

Definition wire_transfer : Transfer := Eval vm_compute in
  get_ok (MkTransfer (MkTransferId []) (MkFileId []) (MkUserId []) (MkUserId []) CREATED)
    (TransferService.upload TransferService.full_wiring (MkSessionId (connToken s0))
       "bob" "report.pdf" "ciphertext" "u-1" 10 zero_Digest default_WrappedKey
       (TransferService.ticked w0)).1.

Lemma wire_upload_returns :
  (TransferService.upload TransferService.full_wiring (MkSessionId (connToken s0))
    (ui_recipient demo_init) (ui_origName demo_init) (concat [lit "cipher"; lit "text"])
    (ui_uploadId demo_init) (ui_size demo_init) (ui_digest demo_init) (ui_wrapped demo_init)
    (TransferService.ticked (ServerApp.world s0))).1 = Ok (success wire_transfer).
Proof. vm_compute. reflexivity. Qed.

Lemma wire_upload_exact_witness :
  exists s', handle_all (data_frames 4 "u-1" 0 [lit "cipher"; lit "text"] ++ [commit_frame 4 "u-1"]) s0
             = (Ok tt, s')
    /\ pendingInit s' = delete (lit "u-1") (pendingInit s0)
    /\ sent (link s') = [MkFrame MsgType.UPLOAD_DATA 4 "ok"; MkFrame MsgType.UPLOAD_DATA 4 "ok";
                         MkFrame MsgType.UPLOAD_COMMIT 4 (tid_value (t_id wire_transfer))].
Proof.
  assert (Forall fits [lit "cipher"; lit "text"]) as Hfits by (repeat constructor).
  assert (zlen (concat [lit "cipher"; lit "text"]) <= max_object) as Hmax
    by (vm_compute; discriminate).
  assert (pendingInit s0 !! lit "u-1" = Some demo_init) as Hin by apply lookup_singleton_eq.
  assert (pendingData s0 !! lit "u-1" = Some []) as Hda by apply lookup_singleton_eq.
  assert (connToken s0 <> []) as Htok by (vm_compute; discriminate).
  assert (isValid (MkSessionId (connToken s0)) (time (core (ServerApp.world s0)))
            (sessions (core (ServerApp.world s0))) = Ok true) as Hv by (vm_compute; reflexivity).
  pose proof (wire_upload_exact 4 "u-1" _ demo_init s0 wire_transfer _ (fun _ => eq_refl)
    ltac:(discriminate) eq_refl Hfits Hmax Hin Hda Htok Hv (run_eq _ _ wire_upload_returns))
    as (s' & E & _ & Hi & _ & Hsent).
  exists s'. split; [exact E|]. split; [exact Hi|exact Hsent].
Defined.

(** A stranger connects, sends a registration in two pieces and hangs up. *)
Definition stranger : Client :=
  let wire := encodeFrame (MkFrame MsgType.REGISTER 1 (encodeRegister "mallory" "m@example.org" "password")) in
  MkClient [take 11 wire; drop 11 wire] (fun _ => false).
Definition at_rest : memory_world * Console := (w0, MkConsole [] []).

Lemma stranger_served : (accept_loop [Some stranger] at_rest).1 = Ok tt.
Proof. vm_compute. reflexivity. Qed.

(** The same from the start of the program, with accounts already there. *)
Definition whole_run : outcome Z * (memory_world * Console) :=
  run "AB12" 5555 (Ok 5555) (mret 0) [Some stranger] at_rest.

Lemma has_accounts : table (core w0) <> ∅.
Proof.
  intros E%(f_equal (fun m => match m !! uid_value bob_id with Some _ => true | None => false end)).
  vm_compute in E. discriminate.
Qed.
Lemma run_whole : run "AB12" 5555 (Ok 5555) (mret 0) [Some stranger] at_rest = (whole_run.1, whole_run.2).
Proof. apply surjective_pairing. Qed.

Lemma no_wire_admin_witness :
  no_new_admin (table (core w0)) (table (core (accept_loop [Some stranger] at_rest).2.1))
  /\ whole_run.1 = Ok 0 /\ no_new_admin (table (core w0)) (table (core whole_run.2.1)).
Proof.
  split; [exact (proj1 (no_wire_admin [Some stranger] at_rest _ (Ok tt) (proj1 c4_ok)
    (or_introl (run_eq _ _ stranger_served))))|].
  split; [vm_compute; reflexivity|].
  exact (proj1 (no_wire_admin [Some stranger] at_rest whole_run.2 (Ok tt) (proj1 c4_ok) (or_intror (conj has_accounts
    (ex_intro _ (lit "AB12") (ex_intro _ 5555 (ex_intro _ (Ok 5555) (ex_intro _ (mret 0)
      (ex_intro _ whole_run.1 run_whole))))))))).
Defined.

(** [alice] logs in on a connection of her own, and uploads. *)
Definition alice_session : list Frame :=
  [MkFrame MsgType.AUTH 1 (encodeLogin "alice" "correct horse");
   MkFrame MsgType.UPLOAD_INIT 2 (encodeUploadInit demo_init);
   data_frame 3 "u-1" 0 "ciphertext"; commit_frame 4 "u-1"].
Definition alice_client : Client := MkClient (map encodeFrame alice_session) (fun _ => false).

(** The frames a connection serves, up to [n], as the loop does. *)
Fixpoint trace (n : nat) (x : list (Frame * Serving memory_world) * Conn * Serving memory_world) :=
  match n with
  | O => x
  | S n =>
      let '(fs, c, s) := x in
      match (tls_recvFrame c).1, serve_frame c s with
      | Ok (Some f), (Ok (Some c'), s') => trace n (fs ++ [(f, s)], c', s')
      | _, _ => x
      end
  end.
Lemma trace_served cl h n : forall x, served cl h x.1.1 x.1.2 x.2 ->
  let y := trace n x in served cl h y.1.1 y.1.2 y.2.
Proof.
  induction n as [|n IH]; intros [[fs c] s] Hx; [exact Hx|]. cbn [trace].
  destruct (tls_recvFrame c).1 as [[f|]|e|] eqn:Er; try exact Hx.
  destruct (serve_frame c s) as [[[c'|]|e|] s'] eqn:E; try exact Hx.
  apply IH. by eapply served_frame.
Qed.

Definition before_commit :=
  trace 3 ([], (accepted alice_client at_rest).1, (accepted alice_client at_rest).2).
Lemma before_commit_served : served alice_client at_rest before_commit.1.1 before_commit.1.2 before_commit.2.
Proof. apply (trace_served alice_client at_rest 3). constructor. Qed.

Lemma commit_stores :
  stores (ServerApp.world (serve_frame before_commit.1.2 before_commit.2).2) <> stores (ServerApp.world before_commit.2).
Proof.
  intros E%(f_equal (fun x => map_to_list x.2)). vm_compute in E. discriminate.
Qed.

Lemma writes_need_own_login_witness :
  length before_commit.1.1 = 3%nat
  /\ commits before_commit.2 (stores (ServerApp.world (serve_frame before_commit.1.2 before_commit.2).2))
  /\ logged_in_as before_commit.1.1 (connToken before_commit.2).
Proof.
  split; [vm_compute; reflexivity|].
  destruct (writes_need_own_login alice_client at_rest _ _ _ before_commit_served) as [_ [E|[_ G]]].
  - destruct (commit_stores E).
  - exact G.
Defined.

(** Without the login nothing is written: the same requests of a stranger. *)
Definition no_login : Client := MkClient (map encodeFrame (drop 1 alice_session)) (fun _ => false).
Example anonymous_upload :
  let w := (accept_loop [Some alice_client; Some no_login] at_rest).2.1 in
  (size (transfers (accept_loop [Some no_login] at_rest).2.1), size (transfers w)) = (0%nat, 1%nat).
Proof. vm_compute. reflexivity. Qed.
