(* ===== verification/ClientExamples.v ===== *)
(** * The client at work on the small system

    [alice] uploads a PDF for [bob] from her client to the server of
    [TransferExamples]; the theorems of [Client], [EndToEnd] and [Downloads] applied to it. *)
From S2P Require Import Prelude Domain Framing Protocol Ports Users Sessions AuditLog Hasher Validator Files Storage Cli Transfer Server Crypto Client EndToEnd Downloads CryptoExamples Examples TransferExamples.
From Stdlib Require Import ZArith Lia.
From stdpp Require Import base gmap strings list numbers.
Local Open Scope Z_scope.

Definition pdf : str := "%PDF-1.4 hello".
Definition bob_priv : str := replicate 32 Byte.x09.
Definition alice_disk : BinaryFileStorage.t :=
  BinaryFileStorage.Mk "." {[lit "docs/report.pdf" := pdf]} []
    (fun _ => BinaryFileStorage.MkFault false 0 [] BinaryFileStorage.Readable) 0.

(** The server's end: [alice] is logged in on this connection. *)
Definition open_line : Line memory_world :=
  MkLine (ServerApp.MkServing w0 (MkConsole [] []) (ServerApp.MkLink [] (fun _ => false) 0) ∅ ∅
            (sid_value alice_tok)) 0 true.
Definition alice_client : ClientApp.t nat (Line memory_world) :=
  ClientApp.Mk (MkConsole [lit "docs/report.pdf"; lit "bob"; lit "y"] []) alice_disk 7%nat demo_rng
    open_line (sid_value alice_tok) "alice" ∅ {[lit "bob" := bob_priv]}.

Definition sealed : EncryptOut := Eval vm_compute in
  match (encrypt pdf (MkUserId "bob") bob_priv 7%nat).1 with
  | Ok o => o | _ => MkEncryptOut [] default_WrappedKey zero_Digest end.
Definition drawn : str := Eval vm_compute in
  match (generateUserId demo_rng).1 with Ok id => uid_value id | _ => [] end.
Definition relayed : Transfer := Eval vm_compute in
  get_ok (MkTransfer (MkTransferId []) (MkFileId []) (MkUserId []) (MkUserId []) CREATED)
    (asked open_line "bob" "report.pdf" drawn 14 sealed).1.

Lemma relayed_eq : (asked open_line "bob" "report.pdf" drawn 14 sealed).1 = Ok (success relayed).
Proof. vm_compute. reflexivity. Qed.

Lemma alice_ready : ready open_line.
Proof.
  split; [by split_and!|discriminate| |]; split; vm_compute; discriminate || reflexivity.
Qed.

Lemma upload_end_to_end_witness :
  exists s' before, ClientApp.on_upload alice_client = (Ok tt, s') /\
    cout (ClientApp.console s') = before ++ ansi.green ++
      (("UPLOAD ok transfer " : str) ++ tid_value (t_id relayed)) ++ ansi.reset ++ newline.
Proof.
  destruct (upload_end_to_end (OpenSSLLaws0 := toy_laws) alice_client
    (lit "docs/report.pdf") (lit "bob") [] pdf bob_priv _ I alice_ready
    ltac:(discriminate) eq_refl 
    (run_eq (ClientApp.readFileBytes (lit "docs/report.pdf") alice_disk) (Ok pdf) eq_refl) (lookup_singleton_eq _ _) eq_refl eq_refl
    ltac:(vm_compute; discriminate) ltac:(vm_compute; discriminate) eq_refl)
    as (id & out & Hid & Hout & _ & Hrun).
  assert (id = drawn) as -> by (assert (Ok (MkUserId id) = Ok (MkUserId drawn)) as [= E]
    by (rewrite <-Hid; vm_compute; reflexivity); exact E).
  assert (out = sealed) as -> by (assert (Ok out = Ok sealed) as [= E]
    by (rewrite <-Hout; vm_compute; reflexivity); exact E).
  destruct (Hrun relayed _ (run_eq _ _ relayed_eq) ltac:(vm_compute; discriminate)) as (s' & before & E & _ & Ec).
  exists s', before. split; [exact E|exact Ec].
Defined.

(** After that upload [bob] fetches the file over his own connection. *)
Definition relayed_world : memory_world := (asked open_line "bob" "report.pdf" drawn 14 sealed).2.
Definition bob_client (w : memory_world) : ClientApp.t nat (Line memory_world) :=
  ClientApp.Mk (MkConsole [fid_value (t_file relayed); []] [])
    (BinaryFileStorage.Mk "." ∅ [] (BinaryFileStorage.fault alice_disk) 0) 7%nat demo_rng
    (MkLine (ServerApp.MkServing w (MkConsole [] []) (ServerApp.MkLink [] (fun _ => false) 0) ∅ ∅ []) 0 true)
    (sid_value bob_tok) "bob" {[lit "bob" := MkKeyPair zeros32 bob_priv]} ∅.
Definition fetch (w : memory_world) :=
  TransferService.download TransferService.full_wiring (MkSessionId (sid_value bob_tok))
    (MkFileId (fid_value (t_file relayed))) w.

(** The world by name: what it holds is only evaluated here. *)
Lemma fetched : exists w w', w = relayed_world /\ fetch w = (Ok (success (cipher sealed)), w').
Proof.
  exists relayed_world, (fetch relayed_world).2. split; [done|].
  apply (run_eq (fetch relayed_world)). vm_compute. reflexivity.
Qed.

Lemma download_end_to_end_witness :
  (exists w s', w = relayed_world /\ ClientApp.on_download (bob_client w) = (Ok tt, s') /\
    BinaryFileStorage.disk (ClientApp.files s') !! (fid_value (t_file relayed) ++ lit ".pdf") = Some (cipher sealed)) /\
  (decryptAndVerify_vec (cipher sealed) (eo_wrapped sealed) (eo_digest sealed) bob_priv 7%nat).1 = Ok pdf.
Proof.
  split; [|vm_compute; reflexivity]. destruct fetched as (w & w' & Hw & Ew).
  destruct (proj1 (download_end_to_end (bob_client w) (fid_value (t_file relayed)) [] []
    (Ok (success (cipher sealed))) w'
    (conj eq_refl (conj eq_refl (fun _ => eq_refl))) ltac:(discriminate) eq_refl ltac:(vm_compute; discriminate) ltac:(vm_compute; discriminate)
    Ew) (cipher sealed) eq_refl ltac:(vm_compute; discriminate)
    ltac:(intros c; vm_compute; discriminate) ltac:(discriminate) ltac:(eexists; apply lookup_singleton_eq) (fun _ => eq_refl))
    as (s' & before & E & _ & Ed & _).
  exists w, s'. split; [exact Hw|]. split; [exact E|]. refine (eq_trans (f_equal (lookup _) Ed) _). apply lookup_insert_eq.
Defined.

(** The same client after the last line was typed. *)
Lemma menu_never_ends_witness :
  exists s', ClientApp.menu 3 (ClientApp.set_console (MkConsole [] []) alice_client) = (Ok false, s') /\
    cout (ClientApp.console s') = ClientApp.prompt ++ ClientApp.prompt ++ ClientApp.prompt.
Proof.
  eexists. split; [exact (ClientApp.menu_never_ends 3 (ClientApp.set_console (MkConsole [] []) alice_client) eq_refl)|].
  reflexivity.
Defined.
