(* ===== verification/ConnectExamples.v ===== *)
(** * The client's connection on a small network

    Every host presents the certificate that is its name; one of them is the
    server whose certificate the client has on file. *)
From S2P Require Import Prelude Domain Framing Protocol Ports Sha256 Storage Cli Tls Transports Crypto Client CryptoExamples Examples TransferExamples ClientExamples Connect.
From Stdlib Require Import ZArith Lia.
From stdpp Require Import base gmap strings list numbers.
Local Open Scope Z_scope.

#[local] Existing Instance toy_x509.

(** What went out, and the certificate of the session. *)
Record Net := MkNet { went_out : str; with_whom : option str }.

(** The chain is always verified, the certificate always current; no answer
    ever comes. *)
#[local] Instance net_asio : Asio Net := {
  load_verify_file _ := mret tt;
  tls_connect host _ f n :=
    match f true (Some (host : X509)) (fun _ => -1) (fun _ => 1) with
    | Ok true => (Ok None, MkNet (went_out n) (Some host))
    | _ => (Ok (Some (true, lit "certificate verify failed")), n)
    end;
  write_all b := modify (fun n => MkNet (went_out n ++ b) (with_whom n));
  read_some := mret None;
  close_socket := mret tt
}.

#[local] Program Instance net_laws : AsioLaws Net := { written := went_out; peer := with_whom }.
Next Obligation. by intros path n. Qed.
Next Obligation. intros host port f n. cbn. by destruct (f _ _ _ _) as [[]|e|]. Qed.
Next Obligation.
  intros host port f n n'. cbn. destruct (f _ _ _ _) as [[]|e|] eqn:Ef; intros [= <-].
  by exists true, (fun _ => -1), (fun _ => 1).
Qed.
Next Obligation. by intros b n. Qed.
Next Obligation. by intros n. Qed.
Next Obligation. by intros n. Qed.

Definition cert_disk : BinaryFileStorage.t :=
  BinaryFileStorage.Mk "." {[CERT := lit "server.example"]} []
    (fun _ => BinaryFileStorage.MkFault false 0 [] BinaryFileStorage.Readable) 0.

(** The user logs in and leaves. *)
Definition visitor : ClientApp.t nat (AsioTlsTransport.t Net) :=
  ClientApp.Mk (MkConsole [lit "2"; lit "alice"; lit "password"; lit "6"] []) cert_disk 7%nat demo_rng
    (AsioTlsTransport.Mk (MkNet [] None) (MkTrustConfig [] [] [] []) false []) [] [] ∅ ∅.
Definition visit (host : str) := client_main (E := nat) (N := Net) 1 2 host 5555 visitor.

(** The server gets the request, an impostor nothing. *)
Lemma client_sends_only_pinned_witness :
  output (visit "server.example").2 <> [] /\ pinned "server.example" (visit "server.example").2
  /\ (visit "server.example").1 = Ok (Some 0)
  /\ output (visit "impostor.example").2 = [] /\ (visit "impostor.example").1 = Ok (Some 1).
Proof.
  assert (forall host, output (visit host).2 = [] \/ pinned "server.example" (visit host).2) as H.
  { intros host. destruct (visit host) as [o s'] eqn:Er.
    exact (client_sends_only_pinned (fit_length 32) 1 2 host 5555 (lit "server.example") (lit "server.example")
      (lit "server.example") visitor s' o eq_refl eq_refl eq_refl eq_refl Er). }
  assert (output (visit "server.example").2 <> []) as Hs by (vm_compute; discriminate).
  split; [exact Hs|]. split; [|vm_compute; repeat split].
  destruct (H (lit "server.example")) as [E|E]; [contradiction|exact E].
Defined.
