(* ===== verification/ProcessExamples.v ===== *)
(** * The two threads on the small system

    A server is installed: there is no account, and the operator types one. A
    stranger connects; the operator stops the server. *)
From S2P Require Import Prelude Domain Framing Protocol Ports Users Sessions AuditLog Hasher Validator Files Storage Cli Auth Admin Transfer Server Privilege Process Examples TransferExamples ServerExamples.
From Stdlib Require Import ZArith Lia.
From stdpp Require Import base gmap strings list numbers relations.
Local Open Scope Z_scope.

Import ServerApp.
Local Abbreviation memory_process := (Process memory_world).

(** A schedule: whose turn it is, who connects and what is typed. *)
Inductive turn := T_accept (cl : option Client) | T_main | T_operator (line : option str).
Definition take_turn (t : turn) (p : memory_process) : option memory_process :=
  match t with T_accept cl => accept_turn cl p | T_main => main_turn p | T_operator l => operator_turn l p end.
Fixpoint take_turns (ts : list turn) (p : memory_process) : option memory_process :=
  match ts with [] => Some p | t :: ts' => p' ← take_turn t p; take_turns ts' p' end.

Lemma take_turns_steps ts : forall p p', take_turns ts p = Some p' -> rtc step p p'.
Proof.
  induction ts as [|t ts IH]; intros p p'; cbn [take_turns]; [by intros [= ->]|].
  destruct (take_turn t p) as [p1|] eqn:E; [|done]. intros Hr. apply rtc_l with p1; [|by apply IH].
  destruct t; [by eapply by_accept|by apply by_main|by eapply by_operator].
Qed.

Definition new_world : memory_world :=
  MkWorld c0 MemoryStorage.empty bob_keys MemoryFileRepository.empty (∅ : gmap str Transfer).
Definition installed : memory_world * Console :=
  (new_world, MkConsole [lit "root"; lit "root@example.org"; lit "password"] []).
Definition started : outcome unit * (memory_world * Console) := start "AB12" 5555 (Ok 5555) (mret 0) installed.

Lemma start_ok : started = (Ok tt, started.2).
Proof. apply (run_eq started). vm_compute. reflexivity. Qed.

(** The stranger is accepted, a line is typed, the listener closed, and the
    stranger's request answered after that. *)
Definition schedule : list turn :=
  [T_accept (Some stranger); T_operator (Some []); T_main; T_main; T_accept None; T_accept None].
Definition later : memory_process := default (spawned at_rest) (take_turns schedule (spawned started.2)).

Lemma schedule_runs : rtc step (spawned started.2) later.
Proof.
  apply (take_turns_steps schedule). unfold later.
  assert ((if take_turns schedule (spawned started.2) is Some _ then true else false) = true) as E by (vm_compute; reflexivity).
  by destruct (take_turns schedule (spawned started.2)).
Qed.

Definition admins (w : memory_world) : list str :=
  map (fun x => username_ x.2.1) (List.filter (fun x => Domain.isAdmin x.2.1) (map_to_list (table (core w)))).
Definition people (w : memory_world) : list str := map (fun x => username_ x.2.1) (map_to_list (table (core w))).

Example later_state : admins (host later).1 = [lit "root"] /\ length (people (host later).1) = 2%nat
  /\ (main later, listener later, acceptor later) = (Returning, Closed, Accepting).
Proof. vm_compute. repeat split. Qed.

(** Without a line the main thread waits. *)
Example waits_for_a_line : main_turn (spawned started.2) = None.
Proof. vm_compute. reflexivity. Qed.

Definition root_id : str := Eval vm_compute in
  match map_to_list (table (core started.2.1)) with [(k, _)] => k | _ => [] end.

Lemma root_admin : exists u x, table (core (host later).1) !! root_id = Some (u, x) /\ Domain.isAdmin u = true.
Proof.
  assert (match table (core (host later).1) !! root_id with Some (u, _) => Domain.isAdmin u | None => false end = true)
    as E by (vm_compute; reflexivity).
  destruct (table (core (host later).1) !! root_id) as [[u x]|]; [|discriminate]. by exists u, x.
Qed.

Lemma only_the_first_admin_witness :
  exists u x, table (core started.2.1) = {[root_id := (u, x)]} /\ username_ u = lit "root".
Proof.
  destruct root_admin as (u & x & Hk & Ha).
  destruct (only_the_first_admin "AB12" 5555 (Ok 5555) (mret 0) installed started.2 later root_id u x
    (proj1 c0_ok) start_ok schedule_runs Hk Ha) as [(u0 & x0 & E & _)|(_ & u0 & x0 & E & Hu)].
  - discriminate.
  - exists u0, x0. split; [exact E|exact Hu].
Defined.

(** The stranger is connected when the server is stopped. *)
Definition connected : memory_process :=
  default (spawned at_rest) (take_turns [T_accept (Some stranger)] (spawned at_rest)).

Example stopped_while_connected :
  exists p', rtc step connected p' /\ acceptor p' = Broken /\ host p' = host connected.
Proof. apply (stop_is_undefined connected); discriminate. Qed.
